(* ===== verification/_CoqProject ===== *)
-Q . S2P
Prelude.v
Kmath.v
E820.v
E820Facts.v
Bootmem.v
BootmemFacts.v
Mem.v
Buddy.v
BuddyFacts.v
BuddyAlloc.v
BuddyFree.v
BuddyInit.v
Vmm.v
VmmFacts.v
VmmMap.v
VmmBoot.v
VmmQuery.v
VmmHhdm.v
VmmUser.v
VmmTotal.v
MemInit.v
MemSetup.v
Pic.v
Desc.v
Sched.v
SchedFacts.v
SchedTask.v
MakeTask.v
Isr.v
Printk.v
PrintkFacts.v
BootString.v
Fat.v
FatFacts.v
KString.v
Vga.v
VgaFacts.v
Uart.v
Console.v
Messages.v
BootVmm.v
BootMain.v
Entry.v
