(* ===== verification/Prelude.v ===== *)
(** * devOS: a verification development of the kernel and its boot code

    devOS is a small x86-64 kernel in C with its own boot loader.  The loader
    (boot/) reads the kernel from a FAT32 volume, builds the first page tables and
    passes on the memory map of the firmware.  The kernel (kernel/entry.c) then sets
    up its console (lib/printk.c over driver/vga and driver/uart), descriptor tables
    and interrupt controllers (gdt.c, tss.c, idt.c, isr.c, irq.c, pic.c), sanitizes
    the memory map (arch/x86/e820.c), builds page tables (arch/x86/vmm.c) with frames
    from a boot-time pool (arch/x86/bootmem.c), allocates the array of page
    descriptors (mm/mem.c), hands the remaining RAM to a buddy allocator
    (mm/buddy.c), starts the timer (pit.c) and runs user tasks that the timer
    interrupt schedules (sched/sched.c).

    ** How the code is modelled

    A C function over static data of type [S] is a function of the monad [M S]
    below: it returns a value and a new state, or it panics, or it faults.  The
    observable actions ([printk] calls, port writes, loads of CR3, GDTR and IDTR)
    are recorded in order in a trace.  [Fault] stands for undefined behaviour (an
    access outside of the modelled objects) and for exhausted fuel, so that every
    theorem that concludes [Ok] or [wp] also shows absence of both.  [safe]
    (MemInit.v) is the same up to a panic of the code.  Machine integers are [Z]
    with each wrap-around written out ([wrap]).  A component works on its own statics
    and is lifted into a larger state with [zoom].

    ** Files: memory

    - Kmath.v: include/math.h, include/addr.h (rounding, direct-map conversion).
    - E820.v, E820Facts.v: arch/x86/e820.c.  The sanitizer produces ascending,
      disjoint ranges in which each address has the highest type of the ranges that
      cover it; rejected maps; the end of RAM; the map of a single range.
    - Bootmem.v, BootmemFacts.v: arch/x86/bootmem.c.  The pool starts at the first
      RAM behind the kernel, allocation is lowest-first, complete and disjoint;
      segment chains; the states.
    - Mem.v: include/page.h and mm/mem.c.  A [struct page*] is a frame number.
    - Buddy.v: mm/buddy.c.  BuddyFacts.v has the invariant (well-formed doubly
      linked lists, disjoint aligned blocks, descriptor states); BuddyAlloc.v,
      BuddyFree.v and BuddyInit.v the specifications of [alloc_pages],
      [free_pages] and [buddy_init], and a refinement of an abstract allocator.
    - Vmm.v: arch/x86/vmm.c, with [bootmem_alloc_mapped] of bootmem.c and
      [mem_init] of mem.c, which call it, and the page walk of the processor.  VmmFacts.v
      specifies page tables by this walk and by the ownership of table frames.  VmmMap.v
      specifies mapping against the interface [TableSource] of a supplier of frames with a
      budget, which the boot pool implements (it may run dry) and the page allocator (it does not, as
      long as it has as many pages); VmmBoot.v computes the mapping that [vmm_init]
      installs; VmmQuery.v is the search for mappings; VmmHhdm.v the direct map and
      the end of the identity map; VmmUser.v the address spaces of tasks, with
      frames from either source; VmmTotal.v the theorem on [vmm_map], which includes when it
      succeeds.
    - MemInit.v, MemSetup.v: [mem_init], and the memory part of [entry], from the map
      of the firmware to the running page allocator.

    ** Files: interrupts and tasks

    - Pic.v: arch/x86/io.h, pic.c, pit.c over the interface [Ports]; the pair of
      8259A controllers is an instance of it.
    - Desc.v: GDT_MACROS.h, gdt.c, tss.c, idt.c, against the processor's decoding.
    - Sched.v, SchedFacts.v, SchedTask.v: sched/sched.c, sched/task.h,
      arch/x86/interrupt.h.  One tick; proportional fairness and absence of starvation
      over runs; the creation of tasks.
    - MakeTask.v: [make_task] and [enter_task] of kernel/entry.c.
    - Isr.v: arch/x86/isr.c and irq.c, joining gates, devices and scheduler.

    ** Files: output

    - Printk.v, PrintkFacts.v: lib/printk.c.  The formatter writes what a reference
      renderer of the format prescribes, to every sink, in full buffers; numbers can
      be read back.
    - KString.v: lib/string.c.
    - Vga.v, VgaFacts.v: driver/vga/early_vga.c, refining a terminal of 25 lines.
    - Uart.v: driver/uart/early_uart.c over the interface [Transmitter], which the
      16550 implements.
    - Console.v: formatter and both devices together; lib/panic.c.
    - Messages.v: the messages of the components, delivered to the console; all of them
      have a text.
    - Entry.v: kernel/entry.c, the whole boot sequence.

    ** Files: boot loader

    - BootString.v: boot/string.c.
    - Fat.v, FatFacts.v: boot/fat.c over the interface [Disk] of the disk service.
      Looking a path up and reading a file agree with a reference reader of the image.
    - BootVmm.v, BootMain.v: boot/vmm.c and boot/main.c.

    ** Bounds and fuel

    Loops with a counter are structural recursions on the iterations left.  The
    others have fuel: [split_loop] 256 and [merge_loop] 11 (an order is a byte and
    changes by one per iteration, up to 10), [group_loop] one more than the number
    of pages, [has_mapping_loop] two more than the number of pages of the range,
    [map_segments] the number of segments, [format_loop] one more than the length of
    the format.  The theorems on [alloc_pages], [free_pages], [buddy_init],
    [vmm_virt_range_has_mapping] and [vprintk] include that the fuel is enough.  Three loops
    have no bound of their own: cluster chains end after at most as many steps as
    the volume has clusters unless they are cyclic, and the fuel is an argument of
    [fat_read]; the wait for the serial port is bounded by the number of polls that
    the device needs; the last loop of [vpanic] is unrolled any number of times.

    ** Assumptions

    Pointers of the memory manager are translated by [Vmm.resolve]: the window of
    the kernel image, the low identity map until it is removed and the direct map
    once it is built.  That the direct map is complete is a hypothesis of the theorems on the boot
    sequence ([direct_map] in MemSetup.v), since [entry] ignores the result of
    [vmm_map_hhdm].  Segment headers of bootmem.c and the page descriptors are
    kept beside the words of physical memory, not in them; [mem_init] writes the
    descriptors through their mapping and faults where there is none.  The theorems on page
    tables with the boot pool, and with them those on the boot sequence, assume RAM
    below 1 GiB while the identity map is the only one, and static tables outside of
    the pool; those on the boot sequence also a single sanitized range of RAM behind the
    kernel, because [bootmem_alloc_mapped] loses the failure of all segments but the last.
    [free_pages] is specified for releases that do not merge to the left;
    what happens otherwise is an example of a double allocation in BuddyFree.v.  The sinks of a
    message are called behind the formatter, in the order in which it calls them:
    they do not touch its state.  The statics of the boot loader lie apart from the
    file that it loads.  Entry points of interrupts, addresses of the linker, the
    disk service and the number of bytes used of the stack are parameters.

    ** Not modelled

    The assembly files (isr.asm, kernel_entry.asm), the data of the volume boot record
    (vbr.c), the loop of [user_test] as machine code, the paint on the kernel stack,
    and the accessors of io.h that no code uses (outw, outl, inw, inl,
    sti).  [vmm_destroy_user_pml4] is modelled but has no theorem yet. *)

From Stdlib Require Import ZArith Lia Ascii.
From stdpp Require Import base gmap list strings.

Open Scope Z_scope.

(** ** Machine integers

    A [w]-bit C value is a [Z]; every place where the C arithmetic can wrap is
    written with one of these truncations. *)

Definition wrap (w x : Z) : Z := x mod 2 ^ w.
Abbreviation u8 x := (wrap 8 x).
Abbreviation u16 x := (wrap 16 x).
Abbreviation u32 x := (wrap 32 x).
Abbreviation u64 x := (wrap 64 x).

(** Reinterpretation of the low [w] bits as a two's complement number. *)
Definition sint (w x : Z) : Z :=
  let v := wrap w x in if 2 ^ (w - 1) <=? v then v - 2 ^ w else v.

(** ** Observable events and outcomes

    Kernel code acts on the outside world through [printk], the I/O ports and
    the control, descriptor table and segment registers.  These actions are
    recorded, in program order, in the trace of an [outcome]. *)

Inductive event :=
  | EvPrintk (fmt : string) (args : list Z)
  | EvOut (port value : Z)
  | EvCr3 (pml4 : Z)
  | EvLgdt (limit base : Z)
  | EvLidt (limit base : Z)
  | EvSegments (code data tss : Z).

(** [Ok] is a normal return, [Panic] a call of [panic] (which never returns),
    [Fault] a read or write through a pointer to no modelled object, which is
    undefined behaviour of the C code. *)
Inductive outcome (S A : Type) :=
  | Ok (a : A) (s : S) (tr : list event)
  | Panic (fmt : string) (args : list Z) (tr : list event)
  | Fault (tr : list event).
Arguments Ok {S A} a s tr.
Arguments Panic {S A} fmt args tr.
Arguments Fault {S A} tr.

(** A C function over the static state [S] returning an [A]. *)
Definition M (S A : Type) : Type := S -> outcome S A.

(** The trace of a computation that follows another one. *)
Definition after {S A} (tr : list event) (o : outcome S A) : outcome S A :=
  match o with
  | Ok a s tr' => Ok a s (tr ++ tr')
  | Panic f args tr' => Panic f args (tr ++ tr')
  | Fault tr' => Fault (tr ++ tr')
  end.

#[export] Instance M_ret (S : Type) : MRet (M S) := fun A a s => Ok a s [].
#[export] Instance M_bind (S : Type) : MBind (M S) := fun A B f m s =>
  match m s with
  | Ok a s' tr => after tr (f a s')
  | Panic g args tr => Panic g args tr
  | Fault tr => Fault tr
  end.

Section primitives.
Context {S : Type}.

Definition get : M S S := fun s => Ok s s [].
Definition gets {A} (f : S -> A) : M S A := fun s => Ok (f s) s [].
Definition modify (f : S -> S) : M S unit := fun s => Ok tt (f s) [].
Definition panic {A} (fmt : string) (args : list Z) : M S A :=
  fun _ => Panic fmt args [].
Definition fault {A} : M S A := fun _ => Fault [].
Definition emit (e : event) : M S unit := fun s => Ok tt s [e].
Definition printk (fmt : string) (args : list Z) : M S unit :=
  emit (EvPrintk fmt args).
(** An array or pointer access: [None] is a pointer to no object. *)
Definition deref {A} (o : option A) : M S A :=
  match o with Some a => mret a | None => fault end.
Definition when (b : bool) (m : M S unit) : M S unit :=
  if b then m else mret tt.
(** A result of type [int]: signed overflow is undefined. *)
Definition cint (x : Z) : M S Z :=
  if (-2147483648 <=? x) && (x <=? 2147483647) then mret x else fault.
End primitives.

(** Running a component's operation inside a larger state. *)
Definition zoom {S T A} (proj : S -> T) (inj : T -> S -> S) (m : M T A) : M S A :=
  fun s => match m (proj s) with
  | Ok a t tr => Ok a (inj t s) tr
  | Panic f args tr => Panic f args tr
  | Fault tr => Fault tr
  end.

(** Log levels of include/printk.h: the prefix ["\001" "<digit>"]. *)
Definition KERN (digit : string) : string := String "001"%char digit.
Definition KERN_EMERG := KERN "0".
Definition KERN_ERR := KERN "3".
Definition KERN_WARNING := KERN "4".
Definition KERN_NOTICE := KERN "5".
Definition KERN_INFO := KERN "6".

(** A C string literal that ends in a newline. *)
Definition line (s : string) : string := s +:+ String "010"%char "".

(** ** Total correctness

    [wp m Q s]: started in [s], [m] neither panics nor faults and returns a
    value and a state that satisfy [Q]. *)

Definition wp {S A} (m : M S A) (Q : A -> S -> Prop) (s : S) : Prop :=
  match m s with Ok a s' _ => Q a s' | _ => False end.

Section wp_rules.
Context {S : Type}.
Implicit Types s : S.

Lemma wp_ret {A} (a : A) Q s : Q a s -> wp (mret a : M S A) Q s.
Proof. done. Qed.

Lemma wp_bind {A B} (m : M S A) (f : A -> M S B) Q s :
  wp m (fun a s' => wp (f a) Q s') s -> wp (m ≫= f) Q s.
Proof.
  unfold wp, mbind, M_bind. destruct (m s) as [a s' tr| |]; [|done..].
  by destruct (f a s').
Qed.

Lemma wp_bind_inv {A B} (m : M S A) (f : A -> M S B) Q s :
  wp (m ≫= f) Q s -> wp m (fun a s' => wp (f a) Q s') s.
Proof.
  unfold wp, mbind, M_bind. destruct (m s) as [a s' tr| |]; [|done..].
  by destruct (f a s').
Qed.

Lemma wp_mono {A} (m : M S A) (Q Q' : A -> S -> Prop) s :
  wp m Q s -> (forall a s', Q a s' -> Q' a s') -> wp m Q' s.
Proof. unfold wp. destruct (m s); auto. Qed.

Lemma wp_and {A} (m : M S A) (Q Q' : A -> S -> Prop) s :
  wp m Q s -> wp m Q' s -> wp m (fun a s' => Q a s' /\ Q' a s') s.
Proof. unfold wp. destruct (m s); auto. Qed.

Lemma wp_get (Q : S -> S -> Prop) s : Q s s -> wp get Q s.
Proof. done. Qed.
Lemma wp_gets {A} (f : S -> A) (Q : A -> S -> Prop) s : Q (f s) s -> wp (gets f) Q s.
Proof. done. Qed.
Lemma wp_modify (f : S -> S) (Q : unit -> S -> Prop) s : Q tt (f s) -> wp (modify f) Q s.
Proof. done. Qed.
Lemma wp_emit e (Q : unit -> S -> Prop) s : Q tt s -> wp (emit e) Q s.
Proof. done. Qed.
Lemma wp_deref {A} (a : A) o (Q : A -> S -> Prop) s :
  o = Some a -> Q a s -> wp (deref o) Q s.
Proof. by intros ->. Qed.
Lemma wp_when (b : bool) (m : M S unit) (Q : unit -> S -> Prop) s :
  (b = true -> wp m Q s) -> (b = false -> Q tt s) -> wp (when b m) Q s.
Proof. destruct b; intros Ht Hf; [by apply Ht|by apply Hf]. Qed.

Lemma wp_cint x (Q : Z -> S -> Prop) s : -2147483648 <= x <= 2147483647 -> Q x s -> wp (cint x) Q s.
Proof.
  intros Hx HQ. unfold cint. by rewrite (proj2 (Z.leb_le _ _) (proj1 Hx)), (proj2 (Z.leb_le _ _) (proj2 Hx)).
Qed.

(** The two readings of [wp]. *)
Lemma wp_Ok {A} (m : M S A) Q s a s' tr : m s = Ok a s' tr -> Q a s' -> wp m Q s.
Proof. unfold wp. by intros ->. Qed.
Lemma wp_elim {A} (m : M S A) Q s :
  wp m Q s -> exists a s' tr, m s = Ok a s' tr /\ Q a s'.
Proof. unfold wp. destruct (m s); [eauto|done..]. Qed.
Lemma wp_run {A} (m : M S A) Q s a s' tr : wp m Q s -> m s = Ok a s' tr -> Q a s'.
Proof. unfold wp. intros H E. by rewrite E in H. Qed.
End wp_rules.

Lemma wp_zoom {S T A} (proj : S -> T) (inj : T -> S -> S) (m : M T A) Q s :
  wp m (fun a t => Q a (inj t s)) (proj s) -> wp (zoom proj inj m) Q s.
Proof. unfold wp, zoom. by destruct (m (proj s)). Qed.

(** One step of symbolic execution; [wp_auto] runs up to the next test, loop or
    memory access that needs a fact. *)
Ltac wp_step :=
  lazymatch goal with
  | |- wp (mbind _ _) _ _ => apply wp_bind
  | |- wp (mret _) _ _ => apply wp_ret
  | |- wp get _ _ => apply wp_get
  | |- wp (gets _) _ _ => apply wp_gets
  | |- wp (modify _) _ _ => apply wp_modify
  | |- wp (emit _) _ _ => apply wp_emit
  | |- wp (printk _ _) _ _ => apply wp_emit
  | |- wp (deref _) _ _ => eapply wp_deref; [eassumption|]
  end.
Ltac wp_auto := repeat (wp_step; simpl).

(** ** Arithmetic shared by the components *)

Create HintDb kmath.
Create Rewrite HintDb kmath.

Lemma wrap_range w x : 0 <= w -> 0 <= wrap w x < 2 ^ w.
Proof. intros. unfold wrap. apply Z.mod_pos_bound. lia. Qed.

Lemma wrap_small w x : 0 <= x < 2 ^ w -> wrap w x = x.
Proof. intros. unfold wrap. by apply Z.mod_small. Qed.

Lemma u64_range x : 0 <= u64 x < 18446744073709551616.
Proof. pose proof (wrap_range 64 x). simpl in *. lia. Qed.

Lemma u64_small x : 0 <= x < 18446744073709551616 -> u64 x = x.
Proof. intros. apply wrap_small. simpl. lia. Qed.

Lemma u32_small x : 0 <= x < 4294967296 -> u32 x = x.
Proof. intros. apply wrap_small. simpl. lia. Qed.

Lemma u8_small x : 0 <= x < 256 -> u8 x = x.
Proof. intros. apply wrap_small. simpl. lia. Qed.

(** Low bits joined to a multiple. *)
Lemma lor_high k n x : 0 <= n -> 0 <= x < 2 ^ n -> Z.lor (k * 2 ^ n) x = k * 2 ^ n + x.
Proof.
  intros Hn Hx. rewrite <- Z.lxor_lor, Z.add_nocarry_lxor; auto.
  all: rewrite <- Z.shiftl_mul_pow2 by lia; apply Z.bits_inj'; intros i Hi; rewrite Z.land_spec, Z.bits_0;
    destruct (Z.lt_ge_cases i n); [by rewrite Z.shiftl_spec_low|].
  all: destruct (Z.eq_dec x 0) as [->|]; [by rewrite Z.bits_0, andb_false_r|];
    rewrite (Z.bits_above_log2 x), andb_false_r; [done|lia|]; apply Z.log2_lt_pow2; [lia|];
    eapply Z.lt_le_trans; [apply Hx|]; apply Z.pow_le_mono_r; lia.
Qed.

#[export] Hint Resolve u64_range : kmath.
#[export] Hint Rewrite u64_small u32_small u8_small using lia : kmath.

(** Reflection of boolean tests met in the code into linear facts. *)
Ltac breflect :=
  repeat match goal with
  | H : (_ =? _) = true |- _ => apply Z.eqb_eq in H
  | H : (_ =? _) = false |- _ => apply Z.eqb_neq in H
  | H : (_ <? _) = true |- _ => apply Z.ltb_lt in H
  | H : (_ <? _) = false |- _ => apply Z.ltb_ge in H
  | H : (_ <=? _) = true |- _ => apply Z.leb_le in H
  | H : (_ <=? _) = false |- _ => apply Z.leb_gt in H
  | H : (_ >? _) = _ |- _ => rewrite Z.gtb_ltb in H
  | H : (_ >=? _) = _ |- _ => rewrite Z.geb_leb in H
  | H : negb _ = true |- _ => apply negb_true_iff in H
  | H : negb _ = false |- _ => apply negb_false_iff in H
  | H : _ && _ = true |- _ => apply andb_prop in H as [? ?]
  | H : _ || _ = false |- _ => apply orb_false_elim in H as [? ?]
  end.

Ltac blia := breflect; lia.

(** ** Lists as arrays *)

Lemma insert_middle {A} (l1 l2 : list A) x y n :
  n = length l1 -> <[n := y]> (l1 ++ x :: l2) = l1 ++ y :: l2.
Proof. intros ->. by rewrite insert_app_r_alt, Nat.sub_diag by lia. Qed.

Lemma app_snoc_cons {A} (l1 l2 : list A) x y : (l1 ++ [x]) ++ y :: l2 = l1 ++ x :: y :: l2.
Proof. by rewrite <- app_assoc. Qed.

(** ** Objects as byte lists

    A byte object is the list of its bytes, a pointer into it an offset; [None] is
    an access outside of the object. *)

Definition store_bytes (o : list Z) (off : nat) (bs : list Z) : option (list Z) :=
  if (off + length bs <=? length o)%nat then Some (take off o ++ bs ++ drop (off + length bs) o) else None.

Lemma store_bytes_ok o off bs : (off + length bs <= length o)%nat ->
  store_bytes o off bs = Some (take off o ++ bs ++ drop (off + length bs) o).
Proof. intros H. unfold store_bytes. by rewrite (proj2 (Nat.leb_le _ _) H). Qed.

Lemma store_bytes_None o off bs : (length o < off + length bs)%nat -> store_bytes o off bs = None.
Proof. intros H. unfold store_bytes. by rewrite (proj2 (Nat.leb_gt _ _) H). Qed.

Lemma store_bytes_length o off bs o' : store_bytes o off bs = Some o' -> length o' = length o.
Proof.
  unfold store_bytes. destruct (Nat.leb_spec (off + length bs) (length o)) as [H|]; [|done]. intros [= <-].
  rewrite !length_app, length_take, length_drop. lia.
Qed.

(** Two adjacent stores are one. *)
Lemma store_bytes_app o off bs cs o' :
  store_bytes o off bs = Some o' -> store_bytes o' (off + length bs) cs = store_bytes o off (bs ++ cs).
Proof.
  intros Ho. pose proof (store_bytes_length _ _ _ _ Ho) as Hl. revert Ho. unfold store_bytes. rewrite Hl, length_app, Nat.add_assoc.
  destruct (Nat.leb_spec (off + length bs) (length o)) as [H|]; [|done]. intros [= <-].
  destruct (Nat.leb_spec (off + length bs + length cs) (length o)) as [H2|]; [|done]. f_equal.
  assert (length (take off o ++ bs) = (off + length bs)%nat) as Ht by (rewrite length_app, length_take; lia).
  rewrite (app_assoc (take off o) bs), take_app_le, take_ge by lia.
  rewrite drop_app_ge, Ht, drop_drop by lia. rewrite <- !app_assoc. do 4 f_equal. lia.
Qed.

(** The loop that stores the byte [v] at [n] places from [p] on. *)
Fixpoint fill_bytes (o : list Z) (p : nat) (v : Z) (n : nat) : option (list Z) :=
  match n with
  | O => Some o
  | S n' => o' ← store_bytes o p [v]; fill_bytes o' (S p) v n'
  end.

Lemma fill_bytes_spec v n : forall o p, (p + n <= length o)%nat -> fill_bytes o p v n = store_bytes o p (replicate n v).
Proof.
  induction n as [|n IH]; intros o p H; cbn [fill_bytes replicate].
  { rewrite store_bytes_ok by (simpl; lia). simpl. by rewrite Nat.add_0_r, take_drop. }
  destruct (store_bytes o p [v]) as [o'|] eqn:Ho; [|by rewrite store_bytes_ok in Ho by (simpl; lia)]. cbn [mbind option_bind].
  rewrite IH by (rewrite (store_bytes_length _ _ _ _ Ho); lia).
  replace (S p) with (p + length [v])%nat by (simpl; lia). by rewrite (store_bytes_app _ _ _ _ _ Ho).
Qed.

(** Little-endian numbers. *)
Fixpoint le_num (l : list Z) : Z := match l with [] => 0 | b :: l' => b + 256 * le_num l' end.
Fixpoint le_bytes (n : nat) (x : Z) : list Z :=
  match n with O => [] | S n' => x mod 256 :: le_bytes n' (x / 256) end.
