(* ===== verification/Kmath.v ===== *)
(** * Rounding, address conversion and bit counting

    The macros of include/math.h, the address conversions of include/addr.h and
    the two GCC builtins used by the page allocator.  All values are 64-bit
    unsigned; the wrap-around of each C operation is written out. *)

From S2P Require Import Prelude.
From Stdlib Require Import ZArith Lia Znumtheory.
From stdpp Require Import base numbers.

Open Scope Z_scope.

(** ** include/page.h and include/addr.h *)

Definition PAGE_SIZE : Z := 4096.
Definition PAGE_MAX_ORDER : Z := 10.
Definition HHDM_BASE : Z := 0xFFFF888000000000.

(** ** include/math.h on [uintptr_t] operands *)

Definition ROUND_DOWN (a b : Z) : Z := u64 (a / b * b).
Definition ROUND_UP (a b : Z) : Z := u64 (u64 (u64 (a + b) - 1) / b * b).
Definition DIV_UP (a b : Z) : Z := u64 (u64 (a + b) - 1) / b.

(** ** include/addr.h *)

Definition hhdm_to_phys (hhdm : Z) : Z := u64 (hhdm - HHDM_BASE).
Definition phys_to_hhdm (phys : Z) : Z := u64 (phys + HHDM_BASE).

(** ** [__builtin_ctzll] and [__builtin_clzll] (both undefined on 0) *)

Fixpoint pos_ctz (p : positive) : Z :=
  match p with xO q => 1 + pos_ctz q | _ => 0 end.
Definition ctzll (x : Z) : Z := match x with Zpos p => pos_ctz p | _ => 0 end.
Definition clzll (x : Z) : Z := 63 - Z.log2 x.

(** ** Lemmas *)

Section rounding.
Context (a b : Z) (Hb : 0 < b) (Ha : 0 <= a) (Hfit : a + b <= 18446744073709551616).

Lemma div_up_eq : DIV_UP a b = (a + b - 1) / b.
Proof.
  unfold DIV_UP, wrap. rewrite Zminus_mod_idemp_l.
  by rewrite Z.mod_small by (simpl; lia).
Qed.

Lemma div_up_bounds : a <= DIV_UP a b * b < a + b.
Proof.
  rewrite div_up_eq. pose proof (Z.div_mod (a + b - 1) b) as Hdm.
  pose proof (Z.mod_pos_bound (a + b - 1) b). nia.
Qed.

Lemma round_up_mul : ROUND_UP a b = DIV_UP a b * b.
Proof.
  pose proof div_up_bounds. pose proof div_up_eq as E.
  unfold ROUND_UP, DIV_UP in *. rewrite E in *.
  apply u64_small. split; [|lia].
  apply Z.mul_nonneg_nonneg; [apply Z.div_pos|]; lia.
Qed.

Lemma round_up_bounds : a <= ROUND_UP a b < a + b.
Proof. rewrite round_up_mul. apply div_up_bounds. Qed.

Lemma round_up_divide : (b | ROUND_UP a b).
Proof. rewrite round_up_mul. by exists (DIV_UP a b). Qed.
End rounding.

Section rounding_down.
Context (a b : Z) (Hb : 0 < b) (Ha : 0 <= a < 18446744073709551616).

Lemma round_down_eq : ROUND_DOWN a b = a / b * b.
Proof.
  unfold ROUND_DOWN. apply u64_small.
  pose proof (Z.div_mod a b). pose proof (Z.mod_pos_bound a b).
  assert (0 <= a / b) by (apply Z.div_pos; lia). nia.
Qed.

Lemma round_down_bounds : a - b < ROUND_DOWN a b <= a.
Proof.
  rewrite round_down_eq.
  pose proof (Z.div_mod a b). pose proof (Z.mod_pos_bound a b). nia.
Qed.

Lemma round_down_divide : (b | ROUND_DOWN a b).
Proof. rewrite round_down_eq. by exists (a / b). Qed.
End rounding_down.

(** A multiple of [b] between a value and its rounding is the rounding. *)
Lemma round_up_le a b m :
  0 < b -> 0 <= a -> a + b <= 18446744073709551616 ->
  (b | m) -> a <= m -> ROUND_UP a b <= m.
Proof.
  intros Hb Ha Hfit [q ->] Hle.
  pose proof (round_up_bounds a b Hb Ha Hfit) as [_ Hlt].
  destruct (round_up_divide a b Hb Ha Hfit) as [r Hr]. rewrite Hr in *.
  apply Z.mul_le_mono_nonneg_r; [lia|]. apply Z.lt_succ_r.
  apply (Z.mul_lt_mono_pos_r b); lia.
Qed.

Lemma round_up_aligned a b :
  0 < b -> 0 <= a -> a + b <= 18446744073709551616 -> (b | a) -> ROUND_UP a b = a.
Proof.
  intros Hb Ha Hfit Hd.
  pose proof (round_up_le a b a Hb Ha Hfit Hd). pose proof (round_up_bounds a b Hb Ha Hfit). lia.
Qed.

Lemma hhdm_phys_roundtrip p :
  0 <= p < 18446744073709551616 -> hhdm_to_phys (phys_to_hhdm p) = p.
Proof.
  intros Hp. unfold hhdm_to_phys, phys_to_hhdm, wrap.
  rewrite Zminus_mod_idemp_l. by rewrite Z.add_simpl_r, Z.mod_small by (simpl; lia).
Qed.

Lemma ctzll_nonneg x : 0 <= ctzll x.
Proof. destruct x as [|p|]; simpl; try lia. induction p; simpl; lia. Qed.

Lemma pow2_double k : 0 < k -> 2 ^ k = 2 * 2 ^ (k - 1).
Proof. intros. replace k with (1 + (k - 1)) at 1 by lia. by rewrite Z.pow_add_r by lia. Qed.

(** [ctzll x] is the exponent of the largest power of two dividing [x]. *)
Lemma ctzll_spec x k : 0 < x -> 0 <= k -> (2 ^ k | x) <-> k <= ctzll x.
Proof.
  destruct x as [|p|]; try lia. intros _. simpl. revert k.
  induction p as [p IH|p IH|]; intros k Hk; simpl.
  - split; [|intros; replace k with 0 by lia; apply Z.divide_1_l].
    intros Hd. destruct (decide (k = 0)); [lia|exfalso].
    rewrite pow2_double in Hd by lia. destruct Hd as [q Hq]. lia.
  - destruct (decide (k = 0)) as [->|].
    { pose proof (ctzll_nonneg (Zpos p)). simpl in *. split; [lia|]. intros. apply Z.divide_1_l. }
    rewrite pow2_double by lia. change (Z.pos p~0) with (2 * Z.pos p).
    specialize (IH (k - 1) ltac:(lia)). split.
    + intros [q Hq]. cut (k - 1 <= pos_ctz p); [lia|]. apply IH. exists q. lia.
    + intros. apply Z.mul_divide_mono_l. apply IH. lia.
  - split; [|intros; replace k with 0 by lia; apply Z.divide_1_l].
    intros Hd. destruct (decide (k = 0)); [lia|exfalso].
    rewrite pow2_double in Hd by lia. destruct Hd as [q Hq]. lia.
Qed.

(** [63 - clzll x] is the integer logarithm. *)
Lemma clzll_spec x : 0 < x -> 2 ^ (63 - clzll x) <= x < 2 ^ (63 - clzll x + 1).
Proof.
  intros. unfold clzll. replace (63 - (63 - Z.log2 x)) with (Z.log2 x) by lia.
  pose proof (Z.log2_spec x). rewrite <- Z.add_1_r in *. lia.
Qed.

(** [lia] on goals that mention the page size. *)
Ltac plia := unfold PAGE_SIZE in *; lia.
