(* ===== verification/E820.v ===== *)
(** * E820 memory map (arch/x86/e820.c, arch/x86/e820.h)

    The firmware's memory map is a list of possibly overlapping address ranges
    with a type.  [e820_sanitize] rewrites it by a sweep over the sorted end
    points into disjoint ascending ranges in which the largest type of the
    overlapping ranges wins; [e820_init] installs the result and finds the end
    of the last RAM range.

    The scratch arrays [change_points] and [overlap_list] are lists holding the
    used part of the arrays; a pointer [&entries[i]] is the index [i]. *)

From S2P Require Import Prelude Kmath.
From Stdlib Require Import ZArith Lia Sorted.
From stdpp Require Import base gmap list strings sorting.

Open Scope Z_scope.

(** ** Data *)

Definition E820_TYPE_RAM : Z := 1.
Definition E820_TYPE_RESERVED : Z := 2.
Definition E820_TYPE_ACPI : Z := 3.
Definition E820_TYPE_NVS : Z := 4.
Definition E820_TYPE_UNUSABLE : Z := 5.

Definition E820_MAX_ENTRIES : Z := 256.

Record e820_entry := mk_entry { e_addr : Z; e_size : Z; e_type : Z }.
Record e820_table := mk_table { entries_count : Z; entries : list e820_entry }.

#[export] Instance e820_entry_eq_dec : EqDecision e820_entry.
Proof. solve_decision. Defined.
#[export] Instance e820_entry_inhabited : Inhabited e820_entry := populate (mk_entry 0 0 0).

(** End of an entry as the C code computes it. *)
Definition e_end (e : e820_entry) : Z := u64 (e_addr e + e_size e).

Record change_point := mk_cp { cp_addr : Z; cp_entry : nat }.
#[export] Instance change_point_eq_dec : EqDecision change_point.
Proof. solve_decision. Defined.
#[export] Instance change_point_inhabited : Inhabited change_point := populate (mk_cp 0 0).

(** ** Collecting and sorting the change points *)

Section sanitize.
Context (es : list e820_entry).

Definition change_point_cmp (a b : change_point) : Z :=
  if negb (cp_addr a =? cp_addr b) then (if cp_addr a >? cp_addr b then 1 else -1)
  else Z.b2z (negb (cp_addr a =? e_addr (es !!! cp_entry a)))
       - Z.b2z (negb (cp_addr b =? e_addr (es !!! cp_entry b))).

(** The first loop of [e820_sanitize], from index [i] with [n] entries left:
    [None] is the early return of -1 for a range that wraps around. *)
Fixpoint collect_change_points {S} (i n : nat) (acc : list change_point)
    : M S (option (list change_point)) :=
  match n with
  | O => mret (Some acc)
  | Datatypes.S n' =>
      e ← deref (es !! i);
      if u64 (e_addr e + e_size e) <? e_addr e then mret None
      else if e_size e >? 0 then
        collect_change_points (Datatypes.S i) n'
          (acc ++ [mk_cp (e_addr e) i; mk_cp (u64 (e_addr e + e_size e)) i])
      else collect_change_points (Datatypes.S i) n' acc
  end.

(** The inner loop of the sort with [j = n - 1]: moves larger points one slot
    up and stores [temp] in the gap. *)
Fixpoint shift_insert (temp : change_point) (n : nat) (cps : list change_point)
    : list change_point :=
  match n with
  | O => <[O := temp]> cps
  | Datatypes.S j =>
      if change_point_cmp (cps !!! j) temp <? 0 then <[n := temp]> cps
      else shift_insert temp j (<[n := cps !!! j]> cps)
  end.

Definition sort_change_points (cps : list change_point) : list change_point :=
  foldl (fun l i => shift_insert (l !!! i) i l) cps (seq 1 (length cps - 1)).

(** ** The sweep *)

(** The loop that overwrites the entry to remove by the last one. *)
Fixpoint overlap_swap (ol : list nat) (e idx n : nat) : list nat :=
  match n with
  | O => ol
  | Datatypes.S n' =>
      overlap_swap (if decide (ol !!! idx = e) then <[idx := ol !!! (length ol - 1)%nat]> ol else ol)
        e (Datatypes.S idx) n'
  end.

Definition overlap_remove (ol : list nat) (e : nat) : list nat :=
  take (length ol - 1) (overlap_swap ol e 0 (length ol)).

Definition overlap_type (ol : list nat) : Z :=
  foldl (fun cur i => if e_type (es !!! i) >? cur then e_type (es !!! i) else cur) 0 ol.

Definition upd_entry (i : Z) (f : e820_entry -> e820_entry) : M e820_table unit :=
  t ← get;
  e ← deref (entries t !! Z.to_nat i);
  modify (fun t => mk_table (entries_count t) (<[Z.to_nat i := f e]> (entries t))).

Definition with_size (v : Z) (e : e820_entry) := mk_entry (e_addr e) v (e_type e).
Definition with_addr_type (a ty : Z) (e : e820_entry) := mk_entry a (e_size e) ty.

(** Closing the open range at [addr]: [true] when the new table is full. *)
Definition close_range (addr last_addr : Z) : M e820_table bool :=
  c ← gets entries_count;
  upd_entry c (with_size (u64 (addr - last_addr)));;
  t ← get;
  e ← deref (entries t !! Z.to_nat c);
  if negb (e_size e =? 0) then
    modify (fun t => mk_table (u64 (entries_count t + 1)) (entries t));;
    gets (fun t => entries_count t >=? E820_MAX_ENTRIES)
  else mret false.

Fixpoint sweep (cps : list change_point) (overlap_list : list nat)
    (last_type last_addr : Z) : M e820_table unit :=
  match cps with
  | [] => mret tt
  | cp :: rest =>
      let overlap_list :=
        if cp_addr cp =? e_addr (es !!! cp_entry cp) then overlap_list ++ [cp_entry cp]
        else overlap_remove overlap_list (cp_entry cp) in
      let current_type := overlap_type overlap_list in
      if negb (current_type =? last_type) then
        full ← (if negb (last_type =? 0) then close_range (cp_addr cp) last_addr else mret false);
        if (full : bool) then mret tt else
        last_addr ← (if negb (current_type =? 0) then
                       c ← gets entries_count;
                       upd_entry c (with_addr_type (cp_addr cp) current_type);;
                       mret (cp_addr cp)
                     else mret last_addr);
        sweep rest overlap_list current_type last_addr
      else sweep rest overlap_list last_type last_addr
  end.
End sanitize.

(** The final loop: a warning for every entry that is not page aligned. *)
Fixpoint warn_unaligned (i n : nat) : M e820_table unit :=
  match n with
  | O => mret tt
  | Datatypes.S n' =>
      t ← get;
      e ← deref (entries t !! i);
      when (negb (e_addr e mod 0x1000 =? 0) || negb (e_size e mod 0x1000 =? 0))
        (printk (KERN_WARNING +:+ line "[WARN] Unaligned E820 entry: base=%#llx size=%#llx")
           [e_addr e; e_size e]);;
      warn_unaligned (Datatypes.S i) n'
  end.

Definition e820_sanitize (table : e820_table) : M e820_table Z :=
  if entries_count table <? 2 then mret 0
  else if entries_count table >? E820_MAX_ENTRIES then mret (-1)
  else
    o ← collect_change_points (entries table) 0 (Z.to_nat (entries_count table)) [];
    match o with
    | None => mret (-1)
    | Some cps =>
        sweep (entries table) (sort_change_points (entries table) cps) [] 0 0;;
        t ← get;
        warn_unaligned 0 (Z.to_nat (entries_count t));;
        mret 0
    end.

(** ** Initialisation and accessors *)

Record e820_state := mk_e820 { st_table : e820_table; last_ram_addr : Z }.

(** The statics of e820.c before [e820_init]: zero-initialised. *)
Definition e820_reset : e820_state :=
  mk_e820 (mk_table 0 (replicate (Z.to_nat E820_MAX_ENTRIES) (mk_entry 0 0 0))) 0.

Definition set_table (t : e820_table) (s : e820_state) := mk_e820 t (last_ram_addr s).

(** [for (i = entries_count; i-- > 0;)]: end of the last RAM entry, 0 if none. *)
Fixpoint find_last_ram {S} (es : list e820_entry) (i : nat) : M S Z :=
  match i with
  | O => mret 0
  | Datatypes.S i' =>
      e ← deref (es !! i');
      if e_type e =? E820_TYPE_RAM then mret (u64 (e_addr e + e_size e))
      else find_last_ram es i'
  end.

Definition e820_init (table : e820_table) : M e820_state unit :=
  r ← zoom st_table set_table (e820_sanitize table);
  if negb (r =? 0) then panic (line "Failed to sanitize E820 memory map!") []
  else
    t ← gets st_table;
    last ← find_last_ram (entries t) (Z.to_nat (u32 (entries_count t)));
    modify (fun s => mk_e820 (st_table s) last);;
    if last =? 0 then panic (line "Failed to find last ram address") []
    else printk (line "[OK] E820 sanitized & copied") [].

Definition e820_get_table (s : e820_state) : e820_table := st_table s.
Definition e820_get_last_ram_addr (s : e820_state) : Z := last_ram_addr s.

(** The used part of a table. *)
Definition used (t : e820_table) : list e820_entry :=
  take (Z.to_nat (entries_count t)) (entries t).
