(* ===== verification/E820Facts.v ===== *)
(** * Correctness of the E820 sanitizer

    The main results: the sanitized table is sorted and disjoint, and at every
    address it has the type that wins among the ranges of the firmware's map
    covering that address. *)

From S2P Require Import Prelude Kmath E820.
From Stdlib Require Import ZArith Lia Sorted.
From stdpp Require Import base gmap list strings sorting.

Open Scope Z_scope.

(** ** Specification *)

Definition covers (e : e820_entry) (a : Z) : bool :=
  (e_addr e <=? a) && (a <? e_addr e + e_size e).

(** The type that wins at address [a]: the largest one, 0 for a hole. *)
Fixpoint type_at (es : list e820_entry) (a : Z) : Z :=
  match es with
  | [] => 0
  | e :: es' => if covers e a then Z.max (e_type e) (type_at es' a) else type_at es' a
  end.

(** A range that the firmware may report: it does not wrap around. *)
Definition entry_ok (e : e820_entry) : Prop :=
  0 <= e_addr e /\ 0 <= e_size e /\ 0 <= e_type e /\ e_addr e + e_size e < 2 ^ 64.

(** What e820.c promises to the other components of the kernel: the ranges of
    the table have a type, are not empty, do not wrap around, ascend and are disjoint. *)
Class E820Sane (es : list e820_entry) : Prop := {
  sane_ok : Forall (fun e => entry_ok e /\ 0 < e_size e) es;
  sane_sorted : StronglySorted (fun e f => e_addr e + e_size e <= e_addr f) es;
  sane_type : Forall (fun e => 0 < e_type e) es;
}.

(** ** The change points *)

Definition cp_start (es : list e820_entry) (i : nat) : change_point :=
  mk_cp (e_addr (es !!! i)) i.
Definition cp_end (es : list e820_entry) (i : nat) : change_point :=
  mk_cp (e_end (es !!! i)) i.

Section change_points.
Lemma e_end_eq e : entry_ok e -> e_end e = e_addr e + e_size e.
Proof. intros (?&?&?&?). unfold e_end. apply u64_small. lia. Qed.

Fixpoint points (i : nat) (l : list e820_entry) : list change_point :=
  match l with
  | [] => []
  | e :: l' => (if e_size e >? 0 then [mk_cp (e_addr e) i; mk_cp (e_end e) i] else [])
               ++ points (Datatypes.S i) l'
  end.

Lemma collect_spec {S} es (s : S) n (Hok : Forall entry_ok es) :
  forall i acc, (i + n = length es)%nat ->
  collect_change_points es i n acc s = Ok (Some (acc ++ points i (drop i es))) s [].
Proof.
  induction n as [|n IH]; intros i acc Hi; simpl.
  { rewrite drop_ge by lia. simpl. by rewrite app_nil_r. }
  destruct (lookup_lt_is_Some_2 es i) as [e He]; [lia|].
  rewrite (drop_S es e i He). simpl. unfold mbind, M_bind. rewrite He. simpl.
  pose proof (proj1 (Forall_lookup _ _) Hok i e He) as Hoke.
  fold (e_end e). rewrite (e_end_eq e Hoke). destruct Hoke as (?&?&?&?).
  destruct (Z.ltb_spec (e_addr e + e_size e) (e_addr e)); [lia|].
  destruct (e_size e >? 0); rewrite IH by lia; simpl; by rewrite <- ?app_assoc.
Qed.

Lemma elem_of_points cp l i :
  cp ∈ points i l <->
  exists j e, l !! j = Some e /\ 0 < e_size e /\
    (cp = mk_cp (e_addr e) (i + j) \/ cp = mk_cp (e_end e) (i + j)).
Proof.
  revert i. induction l as [|e l IH]; intros i; simpl.
  { split; [intros H; by apply elem_of_nil in H|]. intros (j&?&?&_). by destruct j. }
  rewrite elem_of_app, IH. split.
  - intros [H|(j&e'&?&?&?)].
    + exists 0%nat, e. rewrite Nat.add_0_r. destruct (e_size e >? 0) eqn:E; [|by apply elem_of_nil in H].
      split_and!; [done|blia|]. set_solver.
    + exists (S j), e'. by rewrite Nat.add_succ_r.
  - intros ([|j]&e'&Hj&?&Hcp); simpl in Hj.
    + left. simplify_eq. rewrite Nat.add_0_r in Hcp.
      destruct (e_size e' >? 0) eqn:E; [set_solver|blia].
    + right. exists j, e'. by rewrite Nat.add_succ_r in Hcp.
Qed.

Lemma points_NoDup l i : Forall entry_ok l -> NoDup (points i l).
Proof.
  revert i. induction l as [|e l IH]; intros i; simpl; [constructor|].
  intros [He Hl]%Forall_cons. apply NoDup_app. split_and!; [|..|by apply IH].
  - destruct (e_size e >? 0) eqn:E; [|constructor]. breflect.
    apply NoDup_cons. split; [|apply NoDup_singleton].
    rewrite list_elem_of_singleton, (e_end_eq e He). intros [=]. lia.
  - intros cp Hcp (j&e'&?&?&Hj)%elem_of_points.
    assert (cp_entry cp = i) as Hi by (destruct (e_size e >? 0); set_solver).
    destruct Hj as [-> | ->]; simpl in Hi; lia.
Qed.

Lemma points_length l i : (length (points i l) <= 2 * length l)%nat.
Proof.
  revert i. induction l as [|e l IH]; intros i; simpl; [lia|].
  rewrite length_app. specialize (IH (S i)). destruct (e_size e >? 0); simpl; lia.
Qed.

(** Membership in the collected points, by index. *)
Lemma elem_of_points_index es cp :
  cp ∈ points 0 es <->
  exists i, (i < length es)%nat /\ 0 < e_size (es !!! i) /\ (cp = cp_start es i \/ cp = cp_end es i).
Proof.
  rewrite elem_of_points. split.
  - intros (i&e&Hi&?&?). exists i. apply lookup_lt_Some in Hi as Hlt.
    unfold cp_start, cp_end. by rewrite (list_lookup_total_correct _ _ _ Hi).
  - intros (i&Hi&?&?). exists i, (es !!! i). by rewrite list_lookup_lookup_total_lt.
Qed.
End change_points.

(** ** The sort *)

Definition cp_le (a b : change_point) : Prop := cp_addr a <= cp_addr b.

Section sorting_facts.
Context (es : list e820_entry).

Lemma cmp_neg_le a b : change_point_cmp es a b < 0 -> cp_le a b.
Proof.
  unfold change_point_cmp, cp_le. destruct (Z.eqb_spec (cp_addr a) (cp_addr b)); simpl; [lia|].
  rewrite Z.gtb_ltb. destruct (Z.ltb_spec (cp_addr b) (cp_addr a)); lia.
Qed.

Lemma cmp_nonneg_le a b : 0 <= change_point_cmp es a b -> cp_le b a.
Proof.
  unfold change_point_cmp, cp_le. destruct (Z.eqb_spec (cp_addr a) (cp_addr b)); simpl; [lia|].
  rewrite Z.gtb_ltb. destruct (Z.ltb_spec (cp_addr b) (cp_addr a)); lia.
Qed.

(** The inner loop inserts [temp] into the prefix in front of the hole. *)
Lemma shift_insert_split temp n : forall pre x suf, length pre = n ->
  exists p1 p2, pre = p1 ++ p2 /\
    shift_insert es temp n (pre ++ x :: suf) = p1 ++ temp :: p2 ++ suf /\
    Forall (cp_le temp) p2 /\ (forall q c, p1 = q ++ [c] -> cp_le c temp).
Proof.
  induction n as [|n IH]; intros pre x suf Hlen.
  { apply length_zero_iff_nil in Hlen as ->. exists [], []. split_and!; try done.
    intros q c Hq. by destruct q. }
  destruct (exists_last (l := pre)) as (pre'&c&->); [by intros ->|].
  rewrite length_app in Hlen. simpl in Hlen. rewrite app_snoc_cons. simpl.
  rewrite list_lookup_total_middle by lia.
  destruct (Z.ltb_spec (change_point_cmp es c temp) 0) as [Hc|Hc].
  - exists (pre' ++ [c]), []. rewrite app_nil_r. split_and!; [done| |constructor|].
    + rewrite <- app_snoc_cons. rewrite insert_middle by (rewrite length_app; simpl; lia). done.
    + intros q c' [_ [= <-]]%app_inj_tail. by apply cmp_neg_le.
  - rewrite <- app_snoc_cons, insert_middle by (rewrite length_app; simpl; lia).
    rewrite app_snoc_cons.
    destruct (IH pre' c (c :: suf)) as (p1&p2&->&Heq&Hp2&Hp1); [lia|].
    exists p1, (p2 ++ [c]). rewrite Heq, <- !app_assoc. split_and!; try done.
    apply Forall_app. split; [done|]. apply Forall_singleton. by apply cmp_nonneg_le.
Qed.

Lemma insert_sorted temp p1 p2 :
  StronglySorted cp_le (p1 ++ p2) -> Forall (cp_le temp) p2 ->
  (forall q c, p1 = q ++ [c] -> cp_le c temp) -> StronglySorted cp_le (p1 ++ temp :: p2).
Proof.
  intros (H12&H1&H2)%StronglySorted_app Hp2 Hp1. apply StronglySorted_app. split_and!; [|done|by constructor].
  assert (forall x, x ∈ p1 -> cp_le x temp) as Hle.
  { intros x Hx. destruct (exists_last (l := p1)) as (q&c&->); [by intros ->; apply elem_of_nil in Hx|].
    specialize (Hp1 q c eq_refl). apply elem_of_app in Hx as [Hx|Hx%list_elem_of_singleton].
    - eapply StronglySorted_app_1_elem_of in H1; [|done|by apply list_elem_of_singleton].
      unfold cp_le in *. lia.
    - by subst. }
  intros x y Hx [->|Hy]%elem_of_cons; [by apply Hle|]. by apply H12.
Qed.

Lemma sort_loop_spec m : forall i l, (i + m = length l)%nat -> StronglySorted cp_le (take i l) ->
  let l' := foldl (fun l i => shift_insert es (l !!! i) i l) l (seq i m) in
  StronglySorted cp_le l' /\ l' ≡ₚ l.
Proof.
  induction m as [|m IH]; intros i l Hlen Hs; simpl.
  { split; [|done]. by rewrite take_ge in Hs by lia. }
  destruct (lookup_lt_is_Some_2 l i) as [temp Ht]; [lia|].
  rewrite (list_lookup_total_correct _ _ _ Ht).
  pose proof (take_drop_middle l i temp Ht) as Hl.
  destruct (shift_insert_split temp i (take i l) temp (drop (S i) l)) as (p1&p2&Htk&Heq&Hp2&Hp1).
  { rewrite length_take. lia. }
  rewrite Hl in Heq. rewrite Heq. rewrite Htk in Hs.
  assert (length p1 + length p2 = i)%nat as Hi.
  { rewrite <- length_app, <- Htk, length_take. lia. }
  assert (p1 ++ temp :: p2 ++ drop (S i) l ≡ₚ l) as Hperm.
  { rewrite <- Hl at 2. rewrite Htk, <- app_assoc. apply Permutation_app_head.
    apply (Permutation_middle p2 (drop (S i) l) temp). }
  destruct (IH (S i) (p1 ++ temp :: p2 ++ drop (S i) l)) as [Hs' Hp'].
  - apply Permutation_length in Hperm. lia.
  - rewrite app_comm_cons, app_assoc, take_app_le by (rewrite length_app; simpl; lia).
    rewrite take_ge by (rewrite length_app; simpl; lia). by apply insert_sorted.
  - simpl in *. split; [done|]. by rewrite Hp'.
Qed.

Lemma sort_change_points_spec cps :
  StronglySorted cp_le (sort_change_points es cps) /\ sort_change_points es cps ≡ₚ cps.
Proof.
  unfold sort_change_points. destruct cps as [|c cps]; [by split; constructor|].
  apply sort_loop_spec; [simpl; lia|]. simpl. rewrite take_0. repeat constructor.
Qed.
End sorting_facts.

(** ** The overlap list *)

Section overlap_facts.
Context (es : list e820_entry).

Lemma overlap_swap_map e lst n : forall done todo,
  length todo = n -> last (done ++ todo) = Some lst ->
  overlap_swap (done ++ todo) e (length done) n
  = done ++ ((fun x => if decide (x = e) then lst else x) <$> todo).
Proof.
  induction n as [|n IH]; intros dn todo Hlen Hlast.
  { by apply length_zero_iff_nil in Hlen as ->. }
  destruct todo as [|x todo]; [done|]. simpl in Hlen. simpl overlap_swap.
  rewrite list_lookup_total_middle by done.
  assert ((dn ++ x :: todo) !!! (length (dn ++ x :: todo) - 1)%nat = lst) as ->.
  { apply list_lookup_total_correct. rewrite Nat.sub_1_r, <- last_lookup. done. }
  set (y := if decide (x = e) then lst else x).
  replace (if decide (x = e) then <[length dn:=lst]> (dn ++ x :: todo) else dn ++ x :: todo)
    with ((dn ++ [y]) ++ todo).
  - replace (S (length dn)) with (length (dn ++ [y])) by (rewrite length_app; simpl; lia).
    rewrite IH; [by rewrite fmap_cons, <- app_assoc|lia|].
    destruct todo as [|z todo]; [|by rewrite last_app_cons in *].
    rewrite app_nil_r, last_snoc. rewrite last_snoc in Hlast. simplify_eq.
    unfold y. by case_decide.
  - rewrite <- app_assoc. simpl. unfold y. case_decide; [by rewrite insert_middle|done].
Qed.

Lemma overlap_remove_spec ol e : NoDup ol -> e ∈ ol ->
  NoDup (overlap_remove ol e) /\ forall x, x ∈ overlap_remove ol e <-> x ∈ ol /\ x <> e.
Proof.
  intros Hnd He. destruct (exists_last (l := ol)) as (init&lst&->); [by intros ->; apply elem_of_nil in He|].
  unfold overlap_remove.
  rewrite (overlap_swap_map e lst _ [] (init ++ [lst])) by (done || by rewrite app_nil_l, last_snoc).
  rewrite app_nil_l, fmap_app, length_app. simpl.
  rewrite take_app_le, take_ge by (rewrite length_fmap; lia).
  apply NoDup_app in Hnd as (Hnd&Hlst&_). specialize (fun x Hx => Hlst x Hx).
  destruct (decide (e = lst)) as [->|Hne].
  - assert ((fun x => if decide (x = lst) then lst else x) <$> init = init) as ->.
    { rewrite <- (list_fmap_id init) at 2. apply list_fmap_ext. intros ???. simpl. case_decide; congruence. }
    set_solver.
  - assert (e ∈ init) as (a&b&->)%list_elem_of_split by set_solver.
    rewrite fmap_app, fmap_cons. rewrite decide_True by done.
    apply NoDup_app in Hnd as (Ha&Hab&[Hb1 Hb]%NoDup_cons).
    assert (forall l : list nat, e ∉ l -> (fun x => if decide (x = e) then lst else x) <$> l = l) as Hid.
    { intros l Hl. rewrite <- (list_fmap_id l) at 2. apply list_fmap_ext. intros ?? Hx%list_elem_of_lookup_2.
      simpl. case_decide; [|done]. by subst. }
    rewrite !Hid by set_solver. split; [|set_solver].
    apply NoDup_app. split_and!; [done|set_solver|]. apply NoDup_cons. split; [set_solver|done].
Qed.

(** The largest type among the entries of a list of indices. *)
Lemma overlap_type_foldl ol cur :
  let r := foldl (fun cur i => if e_type (es !!! i) >? cur then e_type (es !!! i) else cur) cur ol in
  cur <= r /\ (forall i, i ∈ ol -> e_type (es !!! i) <= r) /\
  (r = cur \/ exists i, i ∈ ol /\ r = e_type (es !!! i)).
Proof.
  revert cur. induction ol as [|i ol IH]; intros cur; simpl.
  { split_and!; [lia| |by left]. intros i Hi. by apply elem_of_nil in Hi. }
  destruct (IH (if e_type (es !!! i) >? cur then e_type (es !!! i) else cur)) as (H1&H2&H3).
  assert (cur <= (if e_type (es !!! i) >? cur then e_type (es !!! i) else cur) /\
          e_type (es !!! i) <= (if e_type (es !!! i) >? cur then e_type (es !!! i) else cur)) as [H4 H5].
  { rewrite Z.gtb_ltb. destruct (Z.ltb_spec cur (e_type (es !!! i))); lia. }
  split_and!; [lia| |].
  - intros j [->|Hj]%elem_of_cons; [lia|by apply H2].
  - destruct H3 as [H3|(j&Hj&H3)]; [|right; exists j; set_solver].
    rewrite H3. rewrite Z.gtb_ltb. destruct (Z.ltb_spec cur (e_type (es !!! i))); [|by left].
    right. exists i. set_solver.
Qed.

Lemma type_at_max a :
  0 <= type_at es a /\ (forall i e, es !! i = Some e -> covers e a = true -> e_type e <= type_at es a) /\
  (type_at es a = 0 \/ exists i e, es !! i = Some e /\ covers e a = true /\ type_at es a = e_type e).
Proof.
  induction es as [|e l (H1&H2&H3)]; simpl; [split_and!; [done|done|by left]|].
  assert (type_at l a = 0 \/ exists i e', (e :: l) !! i = Some e' /\ covers e' a = true /\ type_at l a = e_type e')
    as H3' by (destruct H3 as [?|(i&e'&?)]; [by left|right; by exists (S i), e']).
  destruct (covers e a) eqn:E.
  - split_and!; [lia| |].
    + intros [|i] e' Hi Hc; simpl in Hi; [simplify_eq; lia|]. specialize (H2 i e' Hi Hc). lia.
    + destruct (Z.max_spec (e_type e) (type_at l a)) as [[_ ->]|[_ ->]]; [done|].
      right. by exists 0%nat, e.
  - split_and!; [done| |done].
    intros [|i] e' Hi Hc; simpl in Hi; [congruence|]. by apply (H2 i e').
Qed.

(** If the overlap list holds exactly the entries covering [a], the type
    computed from it is the one of the specification. *)
Lemma overlap_type_type_at ol a :
  (forall i, i ∈ ol <-> exists e, es !! i = Some e /\ covers e a = true) ->
  overlap_type es ol = type_at es a.
Proof.
  intros Hol. unfold overlap_type.
  destruct (overlap_type_foldl ol 0) as (H1&H2&H3). destruct (type_at_max a) as (H4&H5&H6).
  apply Z.le_antisymm.
  - destruct H3 as [->|(i&Hi&->)]; [done|]. apply Hol in Hi as (e&He&Hc).
    rewrite (list_lookup_total_correct _ _ _ He). by apply (H5 i).
  - destruct H6 as [->|(i&e&He&Hc&->)]; [done|].
    rewrite <- (list_lookup_total_correct _ _ _ He). apply H2, Hol. eauto.
Qed.
End overlap_facts.

(** ** The table under construction

    [trep t out slot]: [out] are the finished entries of the table and [slot]
    is the array element the next entry is being built in. *)

Definition trep (t : e820_table) (out : list e820_entry) (slot : e820_entry) : Prop :=
  entries_count t = Z.of_nat (length out) /\ length (entries t) = 256%nat /\
  exists tl, entries t = out ++ slot :: tl.

Lemma upd_entry_spec t out slot f (Q : unit -> e820_table -> Prop) :
  trep t out slot -> (forall t', trep t' out (f slot) -> Q tt t') ->
  wp (upd_entry (entries_count t) f) Q t.
Proof.
  intros (Hc&Hlen&tl&Ht) HQ. unfold upd_entry. wp_step. wp_step. wp_step.
  apply (wp_deref slot).
  { rewrite Ht, Hc, Nat2Z.id. by apply list_lookup_middle. }
  wp_step. apply HQ. split_and!; simpl; [done|by rewrite length_insert|].
  exists tl. by rewrite Ht, Hc, Nat2Z.id, insert_middle.
Qed.

Lemma close_range_spec t out slot addr la (Q : bool -> e820_table -> Prop) :
  trep t out slot ->
  let e := with_size (u64 (addr - la)) slot in
  (forall t', e_size e = 0 -> trep t' out e -> Q false t') ->
  (forall t' slot', e_size e <> 0 -> trep t' (out ++ [e]) slot' -> Q false t') ->
  (forall t', e_size e <> 0 -> entries_count t' = 256 -> entries t' = out ++ [e] ->
     length (entries t') = 256%nat -> Q true t') ->
  wp (close_range addr la) Q t.
Proof.
  intros Ht e Hzero Hnext Hfull. unfold close_range. wp_step. wp_step. wp_step.
  apply (upd_entry_spec t out slot _ _ Ht). intros t1 (Hc1&Hlen1&tl&Ht1).
  destruct Ht as (Hc&_&_). wp_step. wp_step. wp_step.
  apply (wp_deref e).
  { rewrite Ht1, Hc, Nat2Z.id. by apply list_lookup_middle. }
  destruct (Z.eqb_spec (e_size e) 0) as [E|E]; simpl.
  { wp_step. apply Hzero; [done|]. split_and!; eauto. }
  wp_step. wp_step. wp_step. simpl.
  assert (length out < 256)%nat as Hlt.
  { rewrite Ht1, length_app in Hlen1. simpl in Hlen1. lia. }
  rewrite Hc1, (u64_small (Z.of_nat (length out) + 1)) by lia. unfold E820_MAX_ENTRIES.
  rewrite Z.geb_leb. destruct (Z.leb_spec 256 (Z.of_nat (length out) + 1)) as [H256|H256].
  - apply Hfull; simpl; [done|lia| |done]. rewrite Ht1. destruct tl; [done|].
    rewrite Ht1, length_app in Hlen1. simpl in Hlen1. lia.
  - destruct tl as [|slot' tl].
    { rewrite Ht1, length_app in Hlen1. simpl in Hlen1. lia. }
    apply (Hnext _ slot'); [done|]. split_and!; simpl; [rewrite length_app; simpl; lia|done|].
    exists tl. by rewrite Ht1, app_snoc_cons.
Qed.

Lemma trep_used t out slot : trep t out slot -> used t = out.
Proof.
  intros (Hc&_&tl&Ht). unfold used. rewrite Hc, Ht, Nat2Z.id. by rewrite take_app_length.
Qed.

(** ** Types of a concatenation *)

Definition ends_below (es : list e820_entry) (b : Z) : Prop :=
  Forall (fun e => e_addr e + e_size e <= b) es.

Lemma type_at_above es b a : ends_below es b -> b <= a -> type_at es a = 0.
Proof.
  induction 1 as [|e l He Hl IH]; intros Ha; simpl; [done|].
  unfold covers. destruct (Z.ltb_spec a (e_addr e + e_size e)); [lia|].
  rewrite andb_false_r. by apply IH.
Qed.

Lemma type_at_neg es a : Forall entry_ok es -> a < 0 -> type_at es a = 0.
Proof.
  induction 1 as [|e l (?&_) Hl IH]; intros Ha; simpl; [done|].
  unfold covers. destruct (Z.leb_spec (e_addr e) a); [lia|]. by apply IH.
Qed.

Lemma type_at_nonneg es a : 0 <= type_at es a.
Proof. apply type_at_max. Qed.

Lemma type_at_snoc es e a :
  type_at (es ++ [e]) a = if covers e a then Z.max (e_type e) (type_at es a) else type_at es a.
Proof.
  induction es as [|f l IH]; simpl; [done|]. rewrite IH.
  destruct (covers f a), (covers e a); lia.
Qed.

Lemma ends_below_mono es b b' : ends_below es b -> b <= b' -> ends_below es b'.
Proof. intros H Hb. eapply Forall_impl; [exact H|]. simpl. lia. Qed.

Lemma sane_nil : E820Sane [].
Proof. split; constructor. Qed.

Lemma sane_snoc es e :
  E820Sane es -> ends_below es (e_addr e) -> entry_ok e -> 0 < e_size e -> 0 < e_type e -> E820Sane (es ++ [e]).
Proof.
  intros [Hok Hs Hty] Hb He Hsz Ht. split.
  - apply Forall_app. split; [done|]. by apply Forall_singleton.
  - apply StronglySorted_app. split_and!; [|done|repeat constructor].
    intros x y Hx ->%list_elem_of_singleton. by eapply Forall_forall in Hb.
  - apply Forall_app. split; [done|]. by apply Forall_singleton.
Qed.

(** ** The sweep *)

Section sweep_facts.
Context (es : list e820_entry) (Hok : Forall entry_ok es).

(** [p] are the points already processed, [r] the remaining ones. *)
Definition split_ok (p r : list change_point) : Prop :=
  StronglySorted cp_le (p ++ r) /\ p ++ r ≡ₚ points 0 es.

Definition ov_ok (p : list change_point) (ov : list nat) : Prop :=
  NoDup ov /\ forall i, i ∈ ov <-> cp_start es i ∈ p /\ cp_end es i ∉ p.

Lemma split_in p r cp : split_ok p r ->
  (cp ∈ p \/ cp ∈ r) <->
  exists i, (i < length es)%nat /\ 0 < e_size (es !!! i) /\ (cp = cp_start es i \/ cp = cp_end es i).
Proof. intros [_ Hp]. by rewrite <- elem_of_app, Hp, elem_of_points_index. Qed.

Lemma split_disjoint p r cp : split_ok p r -> cp ∈ p -> cp ∈ r -> False.
Proof.
  intros [_ Hp] H1 H2.
  assert (NoDup (p ++ r)) as (_&Hd&_)%NoDup_app by (rewrite Hp; by apply points_NoDup).
  by apply (Hd cp).
Qed.

Lemma split_le p r x y : split_ok p r -> x ∈ p -> y ∈ r -> cp_addr x <= cp_addr y.
Proof. intros [Hs _] Hx Hy. by apply (StronglySorted_app_1_elem_of _ _ _ x y Hs). Qed.

Lemma split_next p cp r : split_ok p (cp :: r) -> split_ok (p ++ [cp]) r.
Proof. unfold split_ok. by rewrite <- app_assoc. Qed.

Lemma index_ok i : (i < length es)%nat -> entry_ok (es !!! i).
Proof. intros. eapply Forall_lookup_1; [done|]. by apply list_lookup_lookup_total_lt. Qed.

Lemma start_lt_end i : (i < length es)%nat -> 0 < e_size (es !!! i) ->
  cp_addr (cp_start es i) < cp_addr (cp_end es i).
Proof. intros Hi Hsz. simpl. rewrite e_end_eq by by apply index_ok. lia. Qed.

(** A point with its entry's index is that entry's start or end. *)
Lemma split_index p r i : split_ok p r -> cp_start es i ∈ p \/ cp_start es i ∈ r ->
  (i < length es)%nat /\ 0 < e_size (es !!! i) /\ (cp_end es i ∈ p \/ cp_end es i ∈ r).
Proof.
  intros Hs (j&Hj&Hsz&Hcp)%(split_in _ _ _ Hs).
  assert (i = j) as -> by (destruct Hcp as [[=]|[=]]; done).
  split_and!; [done..|]. apply (split_in _ _ _ Hs). eauto.
Qed.

Lemma start_in_split p r i : split_ok p r -> (i < length es)%nat -> 0 < e_size (es !!! i) ->
  cp_start es i ∈ p \/ cp_start es i ∈ r.
Proof. intros Hs Hi Hsz. apply (split_in _ _ _ Hs). eauto. Qed.

Lemma ov_step p cp r ov : split_ok p (cp :: r) -> ov_ok p ov ->
  ov_ok (p ++ [cp]) (if cp_addr cp =? e_addr (es !!! cp_entry cp) then ov ++ [cp_entry cp]
                     else overlap_remove ov (cp_entry cp)).
Proof.
  intros Hs [Hnd Hov].
  assert (cp ∉ p) as Hcp by (intros H; eapply split_disjoint; [done|exact H|set_solver]).
  destruct (proj1 (split_in p (cp :: r) cp Hs)) as (i&Hi&Hsz&Hc); [set_solver|].
  pose proof (start_lt_end i Hi Hsz) as Hlt.
  destruct Hc as [-> | ->]; simpl (cp_entry _); simpl (cp_addr _) at 1.
  - rewrite Z.eqb_refl.
    assert (cp_end es i ∉ p) as He.
    { intros He. pose proof (split_le _ _ _ (cp_start es i) Hs He ltac:(set_solver)). lia. }
    split.
    + apply NoDup_app. split_and!; [done| |apply NoDup_singleton].
      intros j Hj ->%list_elem_of_singleton. apply Hov in Hj as [? _]. done.
    + intros j. rewrite !elem_of_app, !list_elem_of_singleton, Hov.
      destruct (decide (j = i)) as [->|Hne].
      * split; [|set_solver]. intros _. split; [by right|]. intros [?|E]; [done|]. rewrite E in Hlt. lia.
      * assert (cp_start es j <> cp_start es i) by (intros [=]; done).
        assert (cp_end es j <> cp_start es i) by (intros [=]; done). set_solver.
  - simpl in Hlt. destruct (Z.eqb_spec (e_end (es !!! i)) (e_addr (es !!! i))) as [E|_]; [lia|].
    assert (cp_start es i ∈ p) as Hst.
    { destruct (start_in_split _ _ i Hs Hi Hsz) as [?|[E|Hin]%elem_of_cons]; [done|..].
      - unfold cp_start, cp_end in E. injection E. lia.
      - pose proof (split_le _ _ (cp_end es i) _ (split_next _ _ _ Hs) ltac:(set_solver) Hin).
        simpl in *. lia. }
    destruct (overlap_remove_spec ov i Hnd) as [Hnd' Hrem]; [by apply Hov|].
    split; [done|]. intros j. rewrite Hrem, Hov, !elem_of_app, !list_elem_of_singleton.
    destruct (decide (j = i)) as [->|Hne]; [set_solver|].
    assert (cp_start es j <> cp_end es i) by (intros [=]; done).
    assert (cp_end es j <> cp_end es i) by (intros [=]; done). set_solver.
Qed.

(** Between two consecutive change points the overlap list holds exactly the
    entries that cover the address. *)
Lemma ov_type p r ov a : split_ok p r -> ov_ok p ov ->
  (forall cp, cp ∈ p -> cp_addr cp <= a) -> (forall cp, cp ∈ r -> a < cp_addr cp) ->
  overlap_type es ov = type_at es a.
Proof.
  intros Hs [_ Hov] Hp Hr. apply overlap_type_type_at. intros i. rewrite Hov. split.
  - intros [Hst Hen]. destruct (split_index p r i Hs) as (Hi&Hsz&Hin); [by left|].
    destruct Hin as [?|Hin]; [done|]. exists (es !!! i). split; [by apply list_lookup_lookup_total_lt|].
    apply Hp in Hst. apply Hr in Hin. simpl in *. rewrite e_end_eq in Hin by by apply index_ok.
    unfold covers. apply andb_true_intro. split; [apply Z.leb_le|apply Z.ltb_lt]; lia.
  - intros (e&He&Hc). unfold covers in Hc. breflect.
    apply lookup_lt_Some in He as Hi. apply list_lookup_total_correct in He as <-.
    destruct (start_in_split p r i Hs Hi) as [Hst|Hst]; [lia| |apply Hr in Hst; simpl in Hst; lia].
    split; [done|]. intros Hen. apply Hp in Hen. simpl in Hen.
    rewrite e_end_eq in Hen by by apply index_ok. lia.
Qed.

Lemma overlap_type_nonneg ov : 0 <= overlap_type es ov.
Proof. apply (overlap_type_foldl es ov 0). Qed.

Lemma point_range p r cp : split_ok p r -> cp ∈ p \/ cp ∈ r -> 0 <= cp_addr cp < 2 ^ 64.
Proof.
  intros Hs (i&Hi&Hsz&Hc)%(split_in _ _ _ Hs). pose proof (index_ok i Hi) as He.
  destruct Hc as [-> | ->]; simpl cp_addr; rewrite ?(e_end_eq _ He); destruct He as (?&?&?&?); lia.
Qed.

(** Invariant of the sweep when all processed points are at or below [A]. *)
Record sweep_inv (p : list change_point) (A lt la : Z) (t : e820_table) (out : list e820_entry)
    (slot : e820_entry) : Prop := {
  si_rep : trep t out slot;
  si_sane : E820Sane out;
  si_len : (p <> [] -> length out + 1 <= length p)%nat;
  si_nil : p = [] -> out = [] /\ lt = 0;
  si_A : 0 <= A;
  si_closed : lt = 0 -> ends_below out A /\ forall a, a < A -> type_at out a = type_at es a;
  si_open : lt <> 0 ->
    0 <= la <= A /\ e_addr slot = la /\ e_type slot = lt /\ ends_below out la /\
    (forall a, a < la -> type_at out a = type_at es a) /\
    (forall a, la <= a < A -> type_at es a = lt);
}.

(** The postcondition of the sweep. *)
Definition swept (total : nat) (t : e820_table) : Prop :=
  E820Sane (used t) /\ length (entries t) = 256%nat /\
  0 <= entries_count t <= 256 /\ entries_count t <= Z.of_nat (total - 1) /\
  (entries_count t < 256 -> forall a, type_at (used t) a = type_at es a).

Definition closed (out : list e820_entry) (B : Z) : Prop :=
  ends_below out B /\ forall a, a < B -> type_at out a = type_at es a.

Lemma sweep_advance p cp r ov A lt la t out slot :
  split_ok p (cp :: r) -> ov_ok p ov -> lt = overlap_type es ov ->
  (forall c, c ∈ p -> cp_addr c <= A) -> A <= cp_addr cp ->
  sweep_inv p A lt la t out slot -> sweep_inv p (cp_addr cp) lt la t out slot.
Proof.
  intros Hs Hov Hlt Hp HA [Hrep Hsane Hlen Hnil HA0 Hcl Hop].
  assert (forall a, A <= a < cp_addr cp -> type_at es a = lt) as Hgap.
  { intros a Ha. rewrite Hlt. symmetry. eapply ov_type; [done..| |].
    - intros c Hc. apply Hp in Hc. lia.
    - intros c [->|Hc]%elem_of_cons; [lia|].
      pose proof (split_le _ _ cp c (split_next _ _ _ Hs) ltac:(set_solver) Hc). lia. }
  split; try done; [lia|..].
  - intros Hz. destruct (Hcl Hz) as [Hb Ht]. split; [by eapply ends_below_mono|].
    intros a Ha. destruct (decide (a < A)); [by apply Ht|].
    rewrite Hgap by lia. rewrite Hz. apply (type_at_above _ A); [done|lia].
  - intros Hz. destruct (Hop Hz) as (?&?&?&?&?&Hreg). split_and!; try done; try lia.
    intros a Ha. destruct (decide (a < A)); [apply Hreg|apply Hgap]; lia.
Qed.

(** The open range closed at [B] extends the finished part of the table. *)
Lemma closed_snoc out slot la B lt :
  ends_below out la -> (forall a, a < la -> type_at out a = type_at es a) ->
  (forall a, la <= a < B -> type_at es a = lt) -> 0 <= la <= B -> 0 <= lt ->
  e_addr slot = la -> e_type slot = lt ->
  closed (out ++ [with_size (B - la) slot]) B.
Proof.
  intros Hb Ht Hreg Hla Hlt Ha Hty. split.
  - apply Forall_app. split; [by apply (ends_below_mono _ la); [|lia]|].
    apply Forall_singleton. simpl. lia.
  - intros a HaB. rewrite type_at_snoc. unfold covers. simpl. rewrite Ha, Hty.
    destruct (Z.leb_spec la a) as [Hle|Hle]; simpl.
    + destruct (Z.ltb_spec a (la + (B - la))); [|lia].
      rewrite (type_at_above _ la) by done. rewrite Hreg by lia. lia.
    + by apply Ht.
Qed.

Lemma sweep_restart p cp out slot t cur la :
  trep t out slot -> E820Sane out -> closed out (cp_addr cp) -> 0 <= cp_addr cp ->
  (length out <= length p)%nat -> cur = 0 ->
  sweep_inv (p ++ [cp]) (cp_addr cp) cur la t out slot.
Proof.
  intros Hrep Hsane Hcl HB Hlen Hcur. split; try done.
  - intros _. rewrite length_app. simpl. lia.
  - intros Hnil. by destruct p.
Qed.

Lemma sweep_reopen p cp out slot t cur :
  trep t out slot -> E820Sane out -> closed out (cp_addr cp) -> 0 <= cp_addr cp ->
  (length out <= length p)%nat -> cur <> 0 -> e_addr slot = cp_addr cp -> e_type slot = cur ->
  sweep_inv (p ++ [cp]) (cp_addr cp) cur (cp_addr cp) t out slot.
Proof.
  intros Hrep Hsane [Hb Ht] HB Hlen Hcur Ha Hty. split; try done.
  - intros _. rewrite length_app. simpl. lia.
  - intros Hnil. by destruct p.
  - intros _. split_and!; try done; lia.
Qed.

Lemma sweep_end p ov A lt la t out slot :
  split_ok p [] -> ov_ok p ov -> lt = overlap_type es ov ->
  (forall c, c ∈ p -> cp_addr c <= A) -> sweep_inv p A lt la t out slot -> swept (length p) t.
Proof.
  intros Hs Hov Hlt Hp [Hrep Hsane Hlen Hnil HA0 Hcl Hop].
  assert (ov = []) as ->.
  { apply elem_of_nil_inv. intros i [Hst Hen]%Hov.
    destruct (split_index p [] i Hs) as (_&_&Hin); [by left|]. set_solver. }
  change (overlap_type es []) with 0 in Hlt. destruct (Hcl Hlt) as [Hb Ht].
  unfold swept. rewrite (trep_used _ _ _ Hrep). destruct Hrep as (Hc&Hl&tl&Htl).
  assert (length out <= 255)%nat by (rewrite Htl, length_app in Hl; simpl in Hl; lia).
  split_and!; [done..|lia|lia| |].
  - destruct p as [|c p]; [destruct Hnil as [-> _]; [done|]; simpl in *; lia|].
    specialize (Hlen ltac:(done)). lia.
  - intros _ a. destruct (decide (a < A)); [by apply Ht|].
    rewrite (type_at_above _ A) by (done || lia).
    apply (ov_type p [] []); [done..| |].
    + intros c Hc'. apply Hp in Hc'. lia.
    + intros c Hc'. by apply elem_of_nil in Hc'.
Qed.

Lemma swept_full (p : list change_point) cp r out e t :
  E820Sane (out ++ [e]) -> entries_count t = 256 -> entries t = out ++ [e] ->
  length (entries t) = 256%nat -> (length out + 1 <= length p)%nat ->
  swept (length (p ++ cp :: r)) t.
Proof.
  intros Hsane Hc Ht Hl Hlen. unfold swept, used.
  rewrite take_ge by (rewrite Hl, Hc; lia). rewrite Ht, Hc.
  rewrite Ht, length_app in Hl. simpl in Hl.
  split_and!; try done; try lia; [rewrite length_app; simpl; lia|].
  rewrite length_app. simpl. lia.
Qed.

(** The rest of a step after the open range has been closed: start the next
    range, if any, and go on with the remaining points. *)
Lemma sweep_continue p cp r ov cur la (Q : unit -> e820_table -> Prop) t out slot :
  0 <= cp_addr cp ->
  (forall la' t' out' slot', sweep_inv (p ++ [cp]) (cp_addr cp) cur la' t' out' slot' ->
     wp (sweep es r ov cur la') Q t') ->
  trep t out slot -> E820Sane out -> closed out (cp_addr cp) -> (length out <= length p)%nat ->
  wp (last_addr ← (if negb (cur =? 0) then
                     c ← gets entries_count;
                     upd_entry c (with_addr_type (cp_addr cp) cur);; mret (cp_addr cp)
                   else mret la); sweep es r ov cur last_addr) Q t.
Proof.
  intros HB IH Hrep Hsane Hcl Hlen. wp_step. destruct (Z.eqb_spec cur 0) as [Hz|Hz]; simpl.
  - wp_step. eapply IH. by apply sweep_restart.
  - wp_step. wp_step. wp_step. apply (upd_entry_spec t out slot); [done|].
    intros t' Hrep'. wp_step. eapply IH. by apply (sweep_reopen _ _ _ _ _ _ Hrep').
Qed.

(** A step at which the type changes. *)
Lemma sweep_change p cp r ov lt cur la (total : nat) t out slot :
  0 <= cp_addr cp < 2 ^ 64 -> 0 <= lt -> total = length (p ++ cp :: r) ->
  sweep_inv p (cp_addr cp) lt la t out slot ->
  (forall la' t' out' slot', sweep_inv (p ++ [cp]) (cp_addr cp) cur la' t' out' slot' ->
     wp (sweep es r ov cur la') (fun _ => swept total) t') ->
  wp (full ← (if negb (lt =? 0) then close_range (cp_addr cp) la else mret false);
      if (full : bool) then mret tt else
      last_addr ← (if negb (cur =? 0) then
                     c ← gets entries_count;
                     upd_entry c (with_addr_type (cp_addr cp) cur);; mret (cp_addr cp)
                   else mret la);
      sweep es r ov cur last_addr) (fun _ => swept total) t.
Proof.
  intros HB Hlt0 -> [Hrep Hsane Hlen Hnil _ Hcl Hop] IH. wp_step.
  destruct (Z.eqb_spec lt 0) as [Hz|Hz]; simpl.
  { wp_step. eapply (sweep_continue p); try done; [lia|by apply Hcl|].
    destruct p as [|c p']; [by destruct Hnil as [-> _]|]. specialize (Hlen ltac:(done)). lia. }
  destruct (Hop Hz) as (Hla&Ha&Hty&Hb&Ht&Hreg).
  pose proof (closed_snoc out slot la (cp_addr cp) lt Hb Ht Hreg Hla Hlt0 Ha Hty) as Hcls.
  specialize (Hlen ltac:(intros ->; by destruct (Hnil eq_refl))).
  assert (cp_addr cp <> la -> E820Sane (out ++ [with_size (cp_addr cp - la) slot])) as Hsn.
  { intros. apply sane_snoc; simpl; [done|by rewrite Ha| |lia|lia]. unfold entry_ok. simpl. lia. }
  eapply close_range_spec; [done|..]; rewrite (u64_small (cp_addr cp - la)) by lia; simpl.
  - intros t' Hsz Hrep'. eapply (sweep_continue p); try done; try lia.
    split; by replace (cp_addr cp) with la by lia.
  - intros t' slot' Hsz Hrep'. eapply (sweep_continue p); try done; try lia; [apply Hsn; lia|].
    rewrite length_app. simpl. lia.
  - intros t' Hsz Hc He Hl. wp_step. eapply swept_full; try done. apply Hsn. lia.
Qed.

Lemma sweep_spec r : forall p ov A lt la t out slot,
  split_ok p r -> ov_ok p ov -> lt = overlap_type es ov ->
  (forall c, c ∈ p -> cp_addr c <= A) -> (forall c, c ∈ r -> A <= cp_addr c) ->
  sweep_inv p A lt la t out slot ->
  wp (sweep es r ov lt la) (fun _ => swept (length (p ++ r))) t.
Proof.
  induction r as [|cp r IH]; intros p ov A lt la t out slot Hs Hov Hlt Hp Hr Hinv.
  { apply wp_ret. rewrite app_nil_r. by eapply sweep_end. }
  apply (sweep_advance p cp r ov) in Hinv; [|done..|by apply Hr; set_solver].
  pose proof (ov_step p cp r ov Hs Hov) as Hov'.
  pose proof (split_next _ _ _ Hs) as Hs'.
  assert (forall c, c ∈ p ++ [cp] -> cp_addr c <= cp_addr cp) as Hp'.
  { intros c [Hc| ->%list_elem_of_singleton]%elem_of_app; [|done].
    apply (split_le _ _ _ _ Hs Hc). set_solver. }
  assert (forall c, c ∈ r -> cp_addr cp <= cp_addr c) as Hr'.
  { intros c Hc. apply (split_le _ _ _ _ Hs'); set_solver. }
  simpl. set (ov' := if _ =? _ then _ else _) in *.
  destruct (Z.eqb_spec (overlap_type es ov') lt) as [Heq|Hne]; simpl.
  - replace (p ++ cp :: r) with ((p ++ [cp]) ++ r) by by rewrite <- app_assoc.
    eapply (IH _ _ _ _ _ _ _ _ Hs' Hov'); [done..|].
    destruct Hinv as [Hrep Hsane Hlen Hnil HA Hcl Hop]. split; try done.
    + intros _. rewrite length_app. simpl. destruct p as [|c p]; [by destruct Hnil as [-> _]|].
      specialize (Hlen ltac:(done)). simpl in *. lia.
    + intros Hnil'. by destruct p.
  - eapply (sweep_change p); [by eapply point_range; [|right; left]| |done|done|].
    + rewrite Hlt. apply overlap_type_nonneg.
    + intros la' t' out' slot' Hinv'. replace (p ++ cp :: r) with ((p ++ [cp]) ++ r) by by rewrite <- app_assoc.
      by eapply (IH _ _ _ _ _ _ _ _ Hs' Hov').
Qed.
End sweep_facts.

(** ** Theorems about [e820_sanitize] *)

(** A table as the boot code hands it over: the count is the length of the
    array and no range wraps around. *)
Definition table_ok (t : e820_table) : Prop :=
  entries_count t = Z.of_nat (length (entries t)) /\ Forall entry_ok (entries t).

(** The static table before initialisation. *)
Definition fresh (t : e820_table) : Prop :=
  entries_count t = 0 /\ length (entries t) = 256%nat.

Lemma warn_unaligned_spec n : forall i t (Q : unit -> e820_table -> Prop),
  (i + n <= length (entries t))%nat -> Q tt t -> wp (warn_unaligned i n) Q t.
Proof.
  induction n as [|n IH]; intros i t Q Hlen HQ; simpl; [by wp_step|].
  destruct (lookup_lt_is_Some_2 (entries t) i) as [e He]; [lia|].
  wp_step. wp_step. wp_step. wp_step. wp_step.
  apply wp_when; intros _; [wp_step|]; apply IH; by try lia.
Qed.

Lemma sanitize_spec table t (Q : Z -> e820_table -> Prop) :
  table_ok table -> 2 <= entries_count table <= 256 -> fresh t ->
  (forall t', swept (entries table) (2 * length (entries table)) t' -> Q 0 t') ->
  wp (e820_sanitize table) Q t.
Proof.
  intros [Hc Hok] Hn [Hc0 Hl0] HQ. unfold e820_sanitize.
  destruct (Z.ltb_spec (entries_count table) 2); [lia|].
  rewrite Z.gtb_ltb. destruct (Z.ltb_spec E820_MAX_ENTRIES (entries_count table)).
  { unfold E820_MAX_ENTRIES in *. lia. }
  apply wp_bind. eapply wp_Ok; [apply (collect_spec (entries table)); [done|lia]|].
  rewrite app_nil_l, drop_0. set (pts := points 0 (entries table)).
  destruct (sort_change_points_spec (entries table) pts) as [Hsort Hperm].
  apply wp_bind. eapply wp_mono.
  - destruct (entries t) as [|slot tl] eqn:Het; [done|].
    apply (sweep_spec (entries table) Hok _ [] [] 0 0 0 t [] slot).
    + split; [done|]. by rewrite app_nil_l.
    + split; [constructor|]. set_solver.
    + done.
    + set_solver.
    + intros c Hin. eapply (point_range (entries table) Hok [] _ c); [split; [exact Hsort|done]|by right].
    + split; try done; try lia; [|apply sane_nil|].
      2:{ intros _. split; [by apply Forall_nil|]. intros a Ha. by rewrite (type_at_neg (entries table)). }
      split_and!; [done|by rewrite Het|]. by exists tl.
  - intros [] t' Hsw. do 3 wp_step.
    assert (swept (entries table) (2 * length (entries table)) t') as Hsw'.
    { destruct Hsw as (?&?&?&Hb&?). rewrite app_nil_l, Hperm in Hb.
      pose proof (points_length (entries table) 0) as Hpl. fold pts in Hpl.
      unfold swept. split_and!; done || lia. }
    apply warn_unaligned_spec; [destruct Hsw as (_&->&?&_); lia|]. wp_step. by apply HQ.
Qed.

(** C11: On every firmware map of 2 to 256 ranges that do not wrap around,
    [e820_sanitize] returns 0 and leaves a table of at most 256 non-empty,
    ascending, pairwise disjoint ranges; unless the table is full, every address
    has in it exactly the type of the spec: the largest type of the firmware
    ranges that cover it, and a hole where none does. *)
Theorem e820_sanitize_correct (table t : e820_table) :
  table_ok table -> 2 <= entries_count table <= 256 -> fresh t ->
  wp (e820_sanitize table) (fun r t' =>
    r = 0 /\ E820Sane (used t') /\ 0 <= entries_count t' <= 256 /\
    (entries_count t' < 256 -> forall a, type_at (used t') a = type_at (entries table) a)) t.
Proof.
  intros Hok Hn Hf. apply (sanitize_spec _ _ _ Hok Hn Hf).
  intros t' (?&?&?&?&?). split_and!; done || lia.
Qed.

Definition ex_map : list e820_entry :=
  [mk_entry 0 0x9F000 1; mk_entry 0x100000 0x700000 1; mk_entry 0x9F000 0x61000 2;
   mk_entry 0x200000 0x1000 3; mk_entry 0x500000 0x800000 1].
Definition ex_table : e820_table := mk_table 5 ex_map.

Lemma ex_table_ok : table_ok ex_table.
Proof. split; [done|]. repeat constructor; simpl; lia. Qed.

Lemma reset_fresh : fresh (st_table e820_reset).
Proof. by split. Qed.

Lemma e820_sanitize_correct_witness :
  used (match e820_sanitize ex_table (st_table e820_reset) with Ok _ t' _ => t' | _ => ex_table end)
  = [mk_entry 0 0x9F000 1; mk_entry 0x9F000 0x61000 2; mk_entry 0x100000 0x100000 1;
     mk_entry 0x200000 0x1000 3; mk_entry 0x201000 0xAFF000 1] /\
  wp (e820_sanitize ex_table) (fun r t' =>
    r = 0 /\ E820Sane (used t') /\ 0 <= entries_count t' <= 256 /\
    (entries_count t' < 256 -> forall a, type_at (used t') a = type_at (entries ex_table) a))
    (st_table e820_reset).
Proof.
  split; [vm_compute; reflexivity|].
  apply (e820_sanitize_correct ex_table (st_table e820_reset) ex_table_ok); [simpl; lia|exact reset_fresh].
Defined.

(** With at most 128 ranges the table cannot overflow, so the sanitized map
    gives every address exactly the winning type. *)
Theorem e820_sanitize_complete (table t : e820_table) :
  table_ok table -> 2 <= entries_count table <= 128 -> fresh t ->
  wp (e820_sanitize table) (fun r t' =>
    r = 0 /\ E820Sane (used t') /\ forall a, type_at (used t') a = type_at (entries table) a) t.
Proof.
  intros Hok Hn Hf. apply (sanitize_spec _ _ _ Hok); [lia|done|].
  intros t' (?&?&?&Hb&Ht). split_and!; try done. apply Ht. destruct Hok as [Hc _]. lia.
Qed.

Lemma e820_sanitize_complete_witness :
  wp (e820_sanitize ex_table) (fun r t' =>
    r = 0 /\ E820Sane (used t') /\ forall a, type_at (used t') a = type_at (entries ex_table) a)
    (st_table e820_reset).
Proof.
  apply (e820_sanitize_complete ex_table (st_table e820_reset) ex_table_ok); [simpl; lia|exact reset_fresh].
Defined.

Lemma collect_wraps {S} es (s : S) n : forall i acc j e,
  (i + n = length es)%nat -> (i <= j)%nat -> es !! j = Some e -> e_end e < e_addr e ->
  collect_change_points es i n acc s = Ok None s [].
Proof.
  induction n as [|n IH]; intros i acc j e Hlen Hij Hj Hwrap; simpl.
  { apply lookup_lt_Some in Hj. lia. }
  destruct (lookup_lt_is_Some_2 es i) as [e' He']; [lia|].
  unfold mbind, M_bind. rewrite He'. simpl. fold (e_end e').
  destruct (Z.ltb_spec (e_end e') (e_addr e')); [done|].
  assert (i <> j) by (intros ->; simplify_eq; lia).
  destruct (e_size e' >? 0); rewrite (IH _ _ j e) by (done || lia); done.
Qed.

(** The rejected maps.  More than 256 ranges, or a range whose end wraps
    around below its start, make [e820_sanitize] return -1 with the kernel's
    table untouched. *)
Theorem e820_sanitize_rejects (table t : e820_table) :
  entries_count table = Z.of_nat (length (entries table)) ->
  256 < entries_count table \/
  (2 <= entries_count table /\ exists j e, entries table !! j = Some e /\ e_end e < e_addr e) ->
  e820_sanitize table t = Ok (-1) t [].
Proof.
  intros Hc Hbad. unfold e820_sanitize. rewrite Z.gtb_ltb.
  destruct (Z.ltb_spec (entries_count table) 2) as [?|_]; [lia|].
  destruct (Z.ltb_spec E820_MAX_ENTRIES (entries_count table)) as [_|Hle]; [done|].
  unfold E820_MAX_ENTRIES in Hle. destruct Hbad as [?|(_&j&e&Hj&Hw)]; [lia|].
  unfold mbind at 1, M_bind at 1. rewrite (collect_wraps _ _ _ _ _ j e) by (done || lia). done.
Qed.

Lemma e820_sanitize_rejects_witness :
  e820_sanitize (mk_table 2 [mk_entry 0 0x1000 1; mk_entry 0xFFFFFFFFFFFFF000 0x2000 2])
    (st_table e820_reset) = Ok (-1) (st_table e820_reset) [].
Proof.
  apply e820_sanitize_rejects; [reflexivity|]. right. split; [simpl; lia|].
  exists 1%nat, (mk_entry 0xFFFFFFFFFFFFF000 0x2000 2). split; reflexivity.
Defined.

(** ** Theorems about [e820_init] *)

Lemma find_last_ram_spec {S} (s : S) es i : (i <= length es)%nat ->
  exists v, find_last_ram es i s = Ok v s [] /\
  ((v = 0 /\ forall j e, (j < i)%nat -> es !! j = Some e -> e_type e <> E820_TYPE_RAM) \/
   exists j e, (j < i)%nat /\ es !! j = Some e /\ e_type e = E820_TYPE_RAM /\ v = e_end e /\
     forall k f, (j < k < i)%nat -> es !! k = Some f -> e_type f <> E820_TYPE_RAM).
Proof.
  induction i as [|i IH]; intros Hi; simpl.
  { exists 0. split; [done|]. left. split; [done|]. lia. }
  destruct (lookup_lt_is_Some_2 es i) as [e He]; [lia|].
  unfold mbind, M_bind. rewrite He. simpl.
  destruct (Z.eqb_spec (e_type e) E820_TYPE_RAM) as [Hr|Hr].
  { exists (e_end e). split; [done|]. right. exists i, e. split_and!; try done; [lia|].
    intros k f Hk. lia. }
  destruct IH as (v&Hv&Hcase); [lia|]. exists v. rewrite Hv. split; [done|].
  assert (forall k f, k = i -> es !! k = Some f -> e_type f <> E820_TYPE_RAM) as Hnot.
  { intros k f -> Hk. by simplify_eq. }
  destruct Hcase as [[-> Hno]|(j&f&Hj&Hf&Hrf&->&Hno)].
  - left. split; [done|]. intros j f Hj Hf. destruct (decide (j = i)); [by eapply Hnot|].
    apply (Hno j f); [lia|done].
  - right. exists j, f. split_and!; try done; [lia|]. intros k g Hk Hg.
    destruct (decide (k = i)); [by eapply Hnot|]. apply (Hno k g); [lia|done].
Qed.

(** In a sane table an address has the type of the one range covering it. *)
Lemma sane_type_at es i e a :
  E820Sane es -> es !! i = Some e -> covers e a = true -> type_at es a = e_type e.
Proof.
  intros [Hok Hs _]. revert i. induction es as [|f l IH]; intros i Hi Hc; [done|].
  apply Forall_cons in Hok as [[(?&?&?&?) Hf] Hok]. apply StronglySorted_inv in Hs as [Hs Hfl].
  simpl. destruct i as [|i]; simpl in Hi.
  - simplify_eq. rewrite Hc. unfold covers in Hc. breflect.
    assert (type_at l a = 0) as ->; [|lia]. clear IH Hs.
    induction Hfl as [|g l Hg Hl IHl]; [done|]. apply Forall_cons in Hok as [_ Hok].
    simpl. rewrite (IHl Hok). unfold covers. destruct (Z.leb_spec (e_addr g) a); [lia|done].
  - apply list_elem_of_lookup_2 in Hi as Hin. eapply Forall_forall in Hfl; [|by apply Hin].
    rewrite (IH Hok Hs i Hi Hc). unfold covers in *. breflect.
    destruct (Z.ltb_spec a (e_addr f + e_size f)); [lia|]. by rewrite andb_false_r.
Qed.

Lemma sane_index_le es i j e f :
  E820Sane es -> (i < j)%nat -> es !! i = Some e -> es !! j = Some f ->
  e_addr e + e_size e <= e_addr f.
Proof.
  intros [_ Hs _] Hij Hi Hj. rewrite <- (take_drop_middle es i e Hi) in Hs.
  apply StronglySorted_app in Hs as (_&_&[_ Hf]%StronglySorted_inv).
  eapply Forall_forall in Hf; [done|].
  apply (list_elem_of_lookup_2 _ (j - S i)). rewrite lookup_drop. by replace (S i + (j - S i))%nat with j by lia.
Qed.

Lemma sane_lookup es i e : E820Sane es -> es !! i = Some e -> entry_ok e /\ 0 < e_size e.
Proof. intros [Hok _ _] Hi. by apply (Forall_lookup_1 _ _ _ _ Hok Hi). Qed.

(** The end of the last RAM range bounds all RAM addresses, tightly. *)
Lemma last_ram_bound es j e : E820Sane es ->
  es !! j = Some e -> e_type e = E820_TYPE_RAM ->
  (forall k f, (j < k < length es)%nat -> es !! k = Some f -> e_type f <> E820_TYPE_RAM) ->
  0 < e_end e /\ type_at es (e_end e - 1) = E820_TYPE_RAM /\
  forall a, type_at es a = E820_TYPE_RAM -> a < e_end e.
Proof.
  intros Hsane Hj Hram Hno. destruct (sane_lookup _ _ _ Hsane Hj) as [Hok Hsz].
  rewrite (e_end_eq _ Hok). destruct Hok as (?&?&?&?). split_and!; [lia| |].
  - rewrite (sane_type_at es j e); [done..|]. unfold covers.
    apply andb_true_intro. split; [apply Z.leb_le|apply Z.ltb_lt]; lia.
  - intros a Ha. destruct (type_at_max es a) as (_&_&[Hz|(k&f&Hk&Hc&Hf)]).
    { rewrite Ha in Hz. done. }
    destruct (decide (j < k)%nat) as [Hjk|Hjk].
    { destruct (Hno k f); [|done|by rewrite <- Hf]. apply lookup_lt_Some in Hk. lia. }
    assert (e_addr f + e_size f <= e_addr e + e_size e).
    { destruct (decide (k = j)) as [->|]; [simplify_eq; lia|].
      pose proof (sane_index_le es k j f e Hsane ltac:(lia) Hk Hj). lia. }
    unfold covers in Hc. breflect. lia.
Qed.

Lemma e820_init_wp (table : e820_table) (ram : Z) :
  table_ok table -> 2 <= entries_count table <= 128 ->
  type_at (entries table) ram = E820_TYPE_RAM ->
  wp (e820_init table) (fun _ s =>
    let last := e820_get_last_ram_addr s in
    let t := e820_get_table s in
    E820Sane (used t) /\ 0 <= entries_count t <= 256 /\ length (entries t) = 256%nat /\
    (forall a, type_at (used t) a = type_at (entries table) a) /\
    type_at (entries table) (last - 1) = E820_TYPE_RAM /\
    forall a, type_at (entries table) a = E820_TYPE_RAM -> a < last) e820_reset.
Proof.
  intros Hok Hn Hram. unfold e820_init. wp_step. apply wp_zoom.
  apply (sanitize_spec _ _ _ Hok); [lia|apply reset_fresh|]. intros t' (Hsane&Hl&Hc&Hb&Ht).
  assert (forall a, type_at (used t') a = type_at (entries table) a) as Hta.
  { apply Ht. destruct Hok as [Hc' _]. lia. }
  simpl. do 3 wp_step. simpl. rewrite (u32_small (entries_count t')) by lia.
  destruct (find_last_ram_spec (mk_e820 t' 0) (entries t') (Z.to_nat (entries_count t')))
    as (v&Hv&Hcase); [lia|].
  eapply wp_Ok; [exact Hv|]. do 2 wp_step. simpl.
  assert (forall k f, used t' !! k = Some f <-> (k < Z.to_nat (entries_count t'))%nat /\ entries t' !! k = Some f)
    as Hused.
  { intros k f. unfold used. rewrite lookup_take_Some. tauto. }
  assert (length (used t') <= Z.to_nat (entries_count t'))%nat as Hul.
  { unfold used. rewrite length_take. lia. }
  destruct Hcase as [[-> Hno]|(j&e&Hj&He&Hre&->&Hno)].
  - rewrite <- Hta in Hram. destruct (type_at_max (used t') ram) as (_&_&[Hz|(k&f&Hk&_&Hf)]).
    { rewrite Hram in Hz. done. }
    apply Hused in Hk as [? Hk]. destruct (Hno k f); [done..|by rewrite <- Hf].
  - destruct (last_ram_bound (used t') j e Hsane) as (Hpos&Hlast&Hmax); [by apply Hused|done| |].
    { intros k f Hk Hf. apply Hused in Hf as [? Hf]. apply (Hno k f); [lia|done]. }
    destruct (Z.eqb_spec (e_end e) 0); [lia|]. wp_step. simpl.
    split_and!; try done; try lia; [by rewrite <- Hta|]. intros a. rewrite <- Hta. apply Hmax.
Qed.

(** C33: [e820_init] from the reset state, on a map of 2 to 128 ranges with some
    RAM that wins, never panics: it installs a sane table with the winning type at
    every address, and [e820_get_last_ram_addr] is the exact end of RAM. *)
Theorem e820_init_correct (table : e820_table) (ram : Z) :
  table_ok table -> 2 <= entries_count table <= 128 ->
  type_at (entries table) ram = E820_TYPE_RAM ->
  wp (e820_init table) (fun _ s =>
    let last := e820_get_last_ram_addr s in
    E820Sane (used (e820_get_table s)) /\
    (forall a, type_at (used (e820_get_table s)) a = type_at (entries table) a) /\
    type_at (entries table) (last - 1) = E820_TYPE_RAM /\
    forall a, type_at (entries table) a = E820_TYPE_RAM -> a < last) e820_reset.
Proof.
  intros Hok Hn Hram. eapply wp_mono; [by apply (e820_init_wp table ram)|]. intros [] s. cbv zeta.
  intros (Hs&_&_&Ht&Hl&Hm). by split_and!.
Qed.

Lemma e820_init_correct_witness :
  type_at (entries ex_table) 0x100000 = E820_TYPE_RAM /\
  wp (e820_init ex_table) (fun _ s =>
    let last := e820_get_last_ram_addr s in
    E820Sane (used (e820_get_table s)) /\
    (forall a, type_at (used (e820_get_table s)) a = type_at (entries ex_table) a) /\
    type_at (entries ex_table) (last - 1) = E820_TYPE_RAM /\
    forall a, type_at (entries ex_table) a = E820_TYPE_RAM -> a < last) e820_reset.
Proof.
  split; [reflexivity|].
  apply (e820_init_correct ex_table 0x100000 ex_table_ok); [simpl; lia|reflexivity].
Defined.

(** a firmware map with fewer than two ranges is not copied: [e820_sanitize]
    returns success without an entry, and [e820_init] panics although the map
    may consist of RAM. *)
Theorem e820_init_single_entry_panics (table : e820_table) :
  entries_count table < 2 ->
  e820_init table e820_reset = Panic (line "Failed to find last ram address") [] [].
Proof.
  intros Hlt. unfold e820_init, e820_sanitize.
  destruct (Z.ltb_spec (entries_count table) 2); [|lia]. done.
Qed.

Lemma e820_init_single_entry_panics_witness :
  type_at [mk_entry 0x100000 0x1000000 1] 0x200000 = E820_TYPE_RAM /\
  e820_init (mk_table 1 [mk_entry 0x100000 0x1000000 1]) e820_reset
  = Panic (line "Failed to find last ram address") [] [].
Proof.
  split; [reflexivity|]. apply e820_init_single_entry_panics. simpl. lia.
Defined.
