(* ===== verification/Bootmem.v ===== *)
(** * Boot memory pool (arch/x86/bootmem.c)

    A bump allocator over the RAM ranges of the E820 table, starting behind the
    kernel image.  [bootmem_alloc_page_phys] hands out single pages (page tables
    during boot), [__alloc] a chain of segments of a requested total size.  The
    chain is stored in the allocated memory itself; [segs] is that memory, indexed
    by the HHDM pointer of the segment.

    [bootmem_alloc_mapped], which also maps the segments, is the client of the
    virtual memory manager and belongs to the file modelling it. *)

From S2P Require Import Prelude Kmath E820.
From Stdlib Require Import ZArith Lia.
From stdpp Require Import base gmap list strings.

Open Scope Z_scope.

(** ** Linker symbols (kernel/linker.ld)

    [KERNEL_PHYS] and [__kernel_vma_start] are constants of the linker script;
    [__kernel_vma_end] depends on the build. *)

Definition KERNEL_PHYS : Z := 0x200000.
Definition kernel_vma_start : Z := 0xFFFFFFFF80000000.

Definition KERNEL_BASE : Z := KERNEL_PHYS.
Definition KERNEL_SIZE (kernel_vma_end : Z) : Z := u64 (kernel_vma_end - kernel_vma_start).
Definition KERNEL_END (kernel_vma_end : Z) : Z := u64 (KERNEL_BASE + KERNEL_SIZE kernel_vma_end).

(** ** State *)

Inductive bm_state := DISABLED | ENABLED | LOCKED.
#[export] Instance bm_state_eq_dec : EqDecision bm_state.
Proof. solve_decision. Defined.

Record alloc_segment := mk_seg { seg_size : Z; seg_next : option Z }.

Record bootmem := mk_bootmem {
  pool_start : Z;
  pool_end : Z;
  current_e820_entry : nat;
  pool_bytes : Z;
  bm_st : bm_state;
  segs : gmap Z alloc_segment;
}.

(** The statics of bootmem.c at reset. *)
Definition bootmem_reset : bootmem := mk_bootmem 0 0 0 0 DISABLED ∅.

Definition set_pool (st en : Z) (s : bootmem) : bootmem :=
  mk_bootmem st en (current_e820_entry s) (pool_bytes s) (bm_st s) (segs s).
Definition set_bm_st (st : bm_state) (s : bootmem) : bootmem :=
  mk_bootmem (pool_start s) (pool_end s) (current_e820_entry s) (pool_bytes s) st (segs s).
(** The pool after an allocation of [bytes] ending at [en] in entry [i]. *)
Definition set_used (en : Z) (i : nat) (bytes : Z) (s : bootmem) : bootmem :=
  mk_bootmem (pool_start s) en i (u64 (pool_bytes s + bytes)) (bm_st s) (segs s).
Definition set_segs (m : gmap Z alloc_segment) (s : bootmem) : bootmem :=
  mk_bootmem (pool_start s) (pool_end s) (current_e820_entry s) (pool_bytes s) (bm_st s) m.

Section bootmem.
Context (table : e820_table).

(** ** [bootmem_init] *)

(** The search for the first RAM entry that ends behind the kernel: the new
    [pool_start] and entry index, or [None] when the loop ends without a hit. *)
Fixpoint find_pool {S} (kernel_end : Z) (i n : nat) : M S (option (Z * nat)) :=
  match n with
  | O => mret None
  | Datatypes.S n' =>
      e ← deref (entries table !! i);
      if negb (e_type e =? E820_TYPE_RAM) then find_pool kernel_end (Datatypes.S i) n'
      else if u64 (e_addr e + e_size e) <=? kernel_end then find_pool kernel_end (Datatypes.S i) n'
      else mret (Some (if e_addr e <? kernel_end then kernel_end else e_addr e, i))
  end.

Definition bootmem_init (kernel_vma_end low_map_end : Z) : M bootmem Z :=
  s ← get;
  if negb (bool_decide (bm_st s = DISABLED)) then
    printk (KERN_ERR +:+ line "[ERR] Bootmem was alredy initialized") [];;
    mret (-1)
  else
    modify (fun s => mk_bootmem 0 0 (current_e820_entry s) 0 (bm_st s) (segs s));;
    o ← find_pool (KERNEL_END kernel_vma_end) 0 (Z.to_nat (u32 (entries_count table)));
    match o with
    | Some (start, i) =>
        modify (fun s => mk_bootmem start (pool_end s) i (pool_bytes s) (bm_st s) (segs s))
    | None => mret tt
    end;;
    start ← gets pool_start;
    if start =? 0 then panic (line "Bootmem failed to create pool!") []
    else if start >? low_map_end then panic (line "Bootmem failed to create pool!") []
    else
      modify (set_pool (ROUND_UP start PAGE_SIZE) (ROUND_UP start PAGE_SIZE));;
      modify (set_bm_st ENABLED);;
      printk (line "[OK] Bootmem created pool") [];;
      mret 0.

(** ** Page allocation *)

(** The two messages of the state check shared by the allocation functions. *)
Definition not_enabled (st : bm_state) : M bootmem unit :=
  when (bool_decide (st = DISABLED))
    (printk (KERN_ERR +:+ line "[ERR] Bootmem was not initialized, can't alloc") []);;
  when (bool_decide (st = LOCKED))
    (printk (KERN_ERR +:+ line "[ERR] Bootmem is locked, can't alloc") []).

Fixpoint alloc_page_loop (allocation : Z) (i n : nat) : M bootmem Z :=
  match n with
  | O => mret 0
  | Datatypes.S n' =>
      e ← deref (entries table !! i);
      if negb (e_type e =? E820_TYPE_RAM) then alloc_page_loop allocation (Datatypes.S i) n'
      else
        let allocation :=
          if allocation <? e_addr e then ROUND_UP (e_addr e) PAGE_SIZE else allocation in
        if u64 (allocation + PAGE_SIZE) >? u64 (e_addr e + e_size e) then
          alloc_page_loop allocation (Datatypes.S i) n'
        else
          modify (set_used (u64 (allocation + PAGE_SIZE)) i PAGE_SIZE);;
          mret allocation
  end.

Definition bootmem_alloc_page_phys : M bootmem Z :=
  s ← get;
  if negb (bool_decide (bm_st s = ENABLED)) then not_enabled (bm_st s);; mret 0
  else
    let count := Z.to_nat (u32 (entries_count table)) in
    if (count <=? current_e820_entry s)%nat then panic (line "Bootmem state corrupted!") []
    else
      e ← deref (entries table !! current_e820_entry s);
      if e_addr e >? pool_end s then panic (line "Bootmem state corrupted!") []
      else alloc_page_loop (ROUND_UP (pool_end s) PAGE_SIZE)
             (current_e820_entry s) (count - current_e820_entry s).

(** [NULL] is 0. *)
Definition bootmem_alloc_page : M bootmem Z :=
  phys ← bootmem_alloc_page_phys;
  if phys =? 0 then mret 0 else mret (u64 (HHDM_BASE + phys)).

Definition bootmem_get_pool_start (s : bootmem) : Z := pool_start s.
Definition bootmem_get_pool_end (s : bootmem) : Z := pool_end s.
Definition bootmem_get_pool_bytes (s : bootmem) : Z := pool_bytes s.

(** ** Segment allocation *)

(** Writing the header of a new segment and linking it behind [prev]. *)
Definition link_segment (prev : option Z) (cur size : Z) : M bootmem unit :=
  modify (fun s => set_segs (<[cur := mk_seg size None]> (segs s)) s);;
  match prev with
  | None => mret tt
  | Some p =>
      s ← get;
      seg ← deref (segs s !! p);
      modify (fun s => set_segs (<[p := mk_seg (seg_size seg) (Some cur)]> (segs s)) s)
  end.

Fixpoint alloc_loop (bytes : Z) (i n : nat) (allocated : Z)
    (allocation current_segment : option Z) : M bootmem (option Z) :=
  match n with
  | O =>
      printk (KERN_WARNING +:+ line "[WARN] Allocation failed, requested %lld KiB but found only %lld KiB")
        [bytes / 1024; allocated / 1024];;
      mret None
  | Datatypes.S n' =>
      e ← deref (entries table !! i);
      if negb (e_type e =? E820_TYPE_RAM) then
        alloc_loop bytes (Datatypes.S i) n' allocated allocation current_segment
      else
        s ← get;
        let segment_end := ROUND_DOWN (u64 (e_addr e + e_size e)) PAGE_SIZE in
        let segment_start :=
          ROUND_UP (if pool_end s >? e_addr e then pool_end s else e_addr e) PAGE_SIZE in
        if segment_start >=? segment_end then
          alloc_loop bytes (Datatypes.S i) n' allocated allocation current_segment
        else
          let remaining := u64 (bytes - allocated) in
          let segment_end :=
            if u64 (segment_start + remaining) <? segment_end then u64 (segment_start + remaining)
            else segment_end in
          let segment_size := u64 (segment_end - segment_start) in
          let cur := u64 (segment_start + HHDM_BASE) in
          link_segment current_segment cur segment_size;;
          let allocation := match allocation with None => Some cur | _ => allocation end in
          let allocated := u64 (allocated + segment_size) in
          if allocated <? bytes then
            alloc_loop bytes (Datatypes.S i) n' allocated allocation (Some cur)
          else
            modify (set_used segment_end i bytes);;
            mret allocation
  end.

Definition __alloc (bytes : Z) : M bootmem (option Z) :=
  s ← get;
  if negb (bool_decide (bm_st s = ENABLED)) then not_enabled (bm_st s);; mret None
  else if bytes =? 0 then mret None
  else
    let count := Z.to_nat (u32 (entries_count table)) in
    alloc_loop bytes (current_e820_entry s) (count - current_e820_entry s) 0 None None.

Definition bootmem_lock : M bootmem unit :=
  modify (set_bm_st LOCKED);;
  s ← get;
  printk (KERN_INFO +:+ line "[INFO] Bootmem locked, pool size is %zu KiB") [pool_bytes s / 1024].
End bootmem.
