(* ===== verification/BootmemFacts.v ===== *)
(** * Correctness of the boot memory pool

    Allocations are page aligned, lie in RAM behind the kernel image, and never
    overlap one another; a failed allocation means that no page is left, and
    after [bootmem_lock] nothing is handed out any more. *)

From S2P Require Import Prelude Kmath E820 E820Facts Bootmem.
From Stdlib Require Import ZArith Lia Sorted Znumtheory.
From stdpp Require Import base gmap list strings sorting.

Open Scope Z_scope.

(** ** The interface to e820.c

    What the pool (and the page allocator) rely on: the table [e820_get_table]
    points to is sane, fits its array and describes physical addresses, which
    have at most 52 bits on x86-64. *)

Class E820Table (t : e820_table) : Prop := {
  et_sane :: E820Sane (used t);
  et_count : 0 <= entries_count t <= 256;
  et_array : entries_count t <= Z.of_nat (length (entries t));
  et_phys : Forall (fun e => e_addr e + e_size e <= 2 ^ 52) (used t);
}.

(** The page at [p] lies entirely in one RAM range. *)
Definition ram_entry_page (e : e820_entry) (p : Z) : Prop :=
  e_type e = E820_TYPE_RAM /\ e_addr e <= p /\ p + PAGE_SIZE <= e_addr e + e_size e.
Definition ram_page (t : e820_table) (p : Z) : Prop :=
  (PAGE_SIZE | p) /\ exists e, e ∈ used t /\ ram_entry_page e p.

Section table_facts.
Context (t : e820_table) `{!E820Table t}.

Lemma count_u32 : Z.to_nat (u32 (entries_count t)) = length (used t).
Proof.
  unfold used. rewrite length_take. pose proof et_count. pose proof et_array.
  rewrite (u32_small (entries_count t)) by lia. lia.
Qed.

Lemma used_entries i e : used t !! i = Some e -> entries t !! i = Some e.
Proof. unfold used. intros H. by apply lookup_take_Some in H as [? _]. Qed.

Lemma used_lookup i : (i < length (used t))%nat -> exists e,
  used t !! i = Some e /\ entries t !! i = Some e /\
  0 <= e_addr e /\ 0 < e_size e /\ 0 <= e_type e /\
  e_addr e + e_size e <= 2 ^ 52 /\ u64 (e_addr e + e_size e) = e_addr e + e_size e.
Proof.
  intros Hi. destruct (lookup_lt_is_Some_2 (used t) i Hi) as [e He]. exists e.
  destruct (sane_lookup _ _ _ et_sane He) as [(?&?&?&?) ?].
  pose proof (Forall_lookup_1 _ _ _ _ et_phys He) as Hp. simpl in Hp.
  split_and!; try done; [by apply used_entries|]. apply u64_small. lia.
Qed.
End table_facts.

(** ** The pool invariant *)

Record bm_inv (t : e820_table) (kernel_end : Z) (s : bootmem) : Prop := {
  bi_enabled : bm_st s = ENABLED;
  bi_kernel : 0 < kernel_end <= pool_start s;
  bi_order : pool_start s <= pool_end s <= 2 ^ 52 + PAGE_SIZE;
  bi_aligned : (PAGE_SIZE | pool_end s);
  bi_entry : exists e, used t !! current_e820_entry s = Some e /\ e_addr e <= pool_end s;
}.

(** Reduction of the rounding operations on physical addresses. *)
Lemma round_up_page a : 0 <= a <= 2 ^ 53 ->
  a <= ROUND_UP a PAGE_SIZE < a + PAGE_SIZE /\ (PAGE_SIZE | ROUND_UP a PAGE_SIZE) /\
  forall m, (PAGE_SIZE | m) -> a <= m -> ROUND_UP a PAGE_SIZE <= m.
Proof.
  intros Ha. unfold PAGE_SIZE. split_and!.
  - apply round_up_bounds; lia.
  - apply round_up_bounds; lia.
  - apply round_up_divide; lia.
  - intros m. apply round_up_le; lia.
Qed.

Lemma round_up_page_id a : 0 <= a <= 2 ^ 53 -> (PAGE_SIZE | a) -> ROUND_UP a PAGE_SIZE = a.
Proof. intros. unfold PAGE_SIZE in *. apply round_up_aligned; try done; lia. Qed.

Section alloc_page.
Context (t : e820_table) `{!E820Table t}.

(** Scanning from entry [i], pages of the pool in [j >= i] start at or above
    the candidate [a]. *)
Lemma alloc_page_loop_spec P n : forall a i s (Q : Z -> bootmem -> Prop),
  (i + n = length (used t))%nat -> (PAGE_SIZE | a) -> 0 < P <= a -> a <= 2 ^ 52 + PAGE_SIZE ->
  (forall j e p, (i <= j)%nat -> used t !! j = Some e -> (PAGE_SIZE | p) -> P <= p ->
     ram_entry_page e p -> a <= p) ->
  ((forall j e p, (i <= j)%nat -> used t !! j = Some e -> (PAGE_SIZE | p) -> P <= p ->
     ~ ram_entry_page e p) -> Q 0 s) ->
  (forall k e r, (i <= k)%nat -> used t !! k = Some e -> (PAGE_SIZE | r) -> P <= r ->
     ram_entry_page e r ->
     (forall j f p, (i <= j)%nat -> used t !! j = Some f -> (PAGE_SIZE | p) -> P <= p ->
        ram_entry_page f p -> r <= p) ->
     Q r (set_used (r + PAGE_SIZE) k PAGE_SIZE s)) ->
  wp (alloc_page_loop t a i n) Q s.
Proof.
  induction n as [|n IH]; intros a i s Q Hlen Hal HP Ha Hlow Hnone Hsome; simpl.
  { wp_step. apply Hnone. intros j e p Hj He. apply lookup_lt_Some in He. lia. }
  destruct (used_lookup t i) as (e&Hu&He&?&?&?&?&Hend); [lia|].
  wp_step. wp_step.
  (* entries after a skipped one *)
  assert (forall a', (PAGE_SIZE | a') -> a <= a' <= 2 ^ 52 + PAGE_SIZE ->
    (forall j f p, (S i <= j)%nat -> used t !! j = Some f -> (PAGE_SIZE | p) -> P <= p ->
       ram_entry_page f p -> a' <= p) ->
    (forall p, (PAGE_SIZE | p) -> P <= p -> ~ ram_entry_page e p) ->
    wp (alloc_page_loop t a' (S i) n) Q s) as Hskip.
  { intros a' Hal' Ha' Hlow' Hno. apply IH; try done; try lia.
    - intros Hn'. apply Hnone. intros j f p Hj Hf Hp HPp.
      destruct (decide (j = i)) as [->|]; [simplify_eq; by apply Hno|].
      apply (Hn' j f p); try done. lia.
    - intros k f r Hk Hf Hr HPr Hfit Hmin. apply (Hsome k f r); try done; [lia|].
      intros j g p Hj Hg Hp HPp Hgp. destruct (decide (j = i)) as [->|].
      + simplify_eq. by destruct (Hno p).
      + apply (Hmin j g p); try done. lia. }
  destruct (Z.eqb_spec (e_type e) E820_TYPE_RAM) as [Hram|Hram]; simpl.
  2:{ apply Hskip; try done; [|by intros p _ _ [? _]].
      intros j f p Hj. apply Hlow. lia. }
  set (a' := if a <? e_addr e then _ else a).
  assert ((PAGE_SIZE | a') /\ a <= a' < 2 ^ 52 + PAGE_SIZE + 1 /\ e_addr e <= a' /\
          (a <> a' -> a' = ROUND_UP (e_addr e) PAGE_SIZE)) as (Hal'&Ha'&Hea&Hae).
  { subst a'. destruct (Z.ltb_spec a (e_addr e)); [|split_and!; done || lia].
    destruct (round_up_page (e_addr e)) as (?&?&_); [lia|]. split_and!; done || lia. }
  assert (forall j f p, (i <= j)%nat -> used t !! j = Some f -> (PAGE_SIZE | p) -> P <= p ->
    ram_entry_page f p -> a' <= p) as Hlow'.
  { intros j f p Hj Hf Hp HPp Hfit. destruct (decide (a = a')) as [<-|Hne]; [by eapply Hlow|].
    rewrite (Hae Hne). apply round_up_page; [lia|done|]. destruct Hfit as (_&?&_).
    destruct (decide (j = i)) as [->|]; [simplify_eq; lia|].
    pose proof (sane_index_le _ i j e f et_sane ltac:(lia) Hu Hf). lia. }
  rewrite Hend. rewrite (u64_small (a' + PAGE_SIZE)) by plia.
  rewrite Z.gtb_ltb. destruct (Z.ltb_spec (e_addr e + e_size e) (a' + PAGE_SIZE)) as [Hbig|Hfit].
  - apply Hskip; [done|lia| |].
    + intros j f p Hj. apply Hlow'. lia.
    + intros p Hp HPp Hfit. pose proof (Hlow' i e p ltac:(lia) Hu Hp HPp Hfit).
      destruct Hfit as (_&_&?). lia.
  - do 3 wp_step. apply (Hsome i e a'); try done; lia.
Qed.

(** The specification of a page allocation, for the clients of the pool. *)
Lemma alloc_page_phys_ok kernel_end s :
  bm_inv t kernel_end s ->
  wp (bootmem_alloc_page_phys t) (fun r s' =>
    bm_inv t kernel_end s' /\
    ((r = 0 /\ s' = s /\ forall p, pool_end s <= p -> ~ ram_page t p) \/
     (r <> 0 /\ ram_page t r /\ pool_end s <= r /\ pool_end s' = r + PAGE_SIZE /\
      pool_bytes s' = u64 (pool_bytes s + PAGE_SIZE) /\
      forall p, pool_end s <= p -> ram_page t p -> r <= p))) s.
Proof.
  intros Hinv. destruct (Hinv) as [Hen Hk Hord Hal (e&He&Hea)].
  assert (forall j f p, used t !! j = Some f -> pool_end s <= p -> ram_entry_page f p ->
            (current_e820_entry s <= j)%nat) as Hcur.
  { intros j f p Hj Hp (_&?&Hend). destruct (decide (current_e820_entry s <= j)%nat); [done|].
    pose proof (sane_index_le _ j (current_e820_entry s) f e et_sane ltac:(lia) Hj He).
    plia. }
  apply lookup_lt_Some in He as Hlt. unfold bootmem_alloc_page_phys.
  wp_step. wp_step. rewrite (bool_decide_eq_true_2 _ Hen). simpl. rewrite (count_u32 t).
  destruct (Nat.leb_spec (length (used t)) (current_e820_entry s)); [lia|].
  wp_step. apply (wp_deref e); [by apply used_entries|].
  rewrite Z.gtb_ltb. destruct (Z.ltb_spec (pool_end s) (e_addr e)); [lia|].
  rewrite round_up_page_id by (done || plia).
  apply (alloc_page_loop_spec (pool_end s)); try done; try lia.
  - intros Hno. split; [done|]. left. split_and!; try done.
    intros p Hp [Hd (f&[j Hj]%list_elem_of_lookup&Hfit)].
    apply (Hno j f p); try done. by apply (Hcur j f p).
  - intros k f r Hk' Hf Hd HPr Hfit Hmin.
    destruct (used_lookup t k) as (f'&Hf'&_&?&?&?&?&_); [by apply lookup_lt_Some in Hf|]. simplify_eq.
    pose proof Hfit as (_&?&?). split.
    + split; simpl; try done; try lia; [plia|by apply Z.divide_add_r; [|apply Z.divide_refl]|].
      exists f. split; [done|plia].
    + right. split_and!; try done; try lia.
      * split; [done|]. exists f. split; [by eapply list_elem_of_lookup_2|done].
      * intros p Hp [Hpd (g&[j Hj]%list_elem_of_lookup&Hg)].
        apply (Hmin j g p); try done. by apply (Hcur j g p).
Qed.

(** C25: In an enabled pool [bootmem_alloc_page_phys] never panics.  It returns 0
    exactly when no RAM page is left behind the pool, leaving the pool as it was;
    otherwise it returns the lowest RAM page behind the pool and moves the end of
    the pool right behind that page. *)
Theorem bootmem_alloc_page_phys_spec kernel_end s :
  bm_inv t kernel_end s ->
  wp (bootmem_alloc_page_phys t) (fun r s' =>
    bm_inv t kernel_end s' /\
    ((r = 0 /\ s' = s /\ forall p, pool_end s <= p -> ~ ram_page t p) \/
     (r <> 0 /\ ram_page t r /\ pool_end s <= r /\ pool_end s' = r + PAGE_SIZE /\
      pool_bytes s' = u64 (pool_bytes s + PAGE_SIZE) /\
      forall p, pool_end s <= p -> ram_page t p -> r <= p))) s.
Proof. apply alloc_page_phys_ok. Qed.
End alloc_page.

(** ** Sequences of page allocations *)

Section alloc_steps.
Context (t : e820_table) `{!E820Table t}.

(** [alloc_steps s rs s']: successive calls of [bootmem_alloc_page_phys] from
    [s] return the pages [rs] and leave [s']. *)
Inductive alloc_steps : bootmem -> list Z -> bootmem -> Prop :=
| alloc_done s : alloc_steps s [] s
| alloc_step s r s1 tr rs s' :
    bootmem_alloc_page_phys t s = Ok r s1 tr -> r <> 0 -> alloc_steps s1 rs s' ->
    alloc_steps s (r :: rs) s'.

(** the pages handed out by any sequence of successful allocations are RAM
    pages behind the kernel image and the original pool, and no two of them
    overlap. *)
Theorem bootmem_pages_disjoint kernel_end s rs s' :
  bm_inv t kernel_end s -> alloc_steps s rs s' ->
  bm_inv t kernel_end s' /\
  Forall (fun r => ram_page t r /\ kernel_end <= r /\ pool_end s <= r) rs /\
  StronglySorted (fun p q => p + PAGE_SIZE <= q) rs.
Proof.
  intros Hinv Hst. induction Hst as [s|s r s1 tr rs s' Hrun Hr Hst IH].
  { split_and!; [done|constructor..]. }
  apply (wp_run _ _ _ _ _ _ (alloc_page_phys_ok t kernel_end s Hinv)) in Hrun
    as (Hinv1&[(?&_)|(_&Hram&Hle&Hend&_)]); [done|].
  destruct (IH Hinv1) as (Hinv'&Hall&Hsort). destruct Hinv as [_ Hk Hord _ _].
  split_and!; [done| |].
  - constructor; [split_and!; done || lia|].
    eapply Forall_impl; [exact Hall|]. intros p (?&?&?). split_and!; done || plia.
  - constructor; [done|]. eapply Forall_impl; [exact Hall|]. intros p (?&?&?). lia.
Qed.
End alloc_steps.

(** ** Disabled and locked pools *)

(** outside the enabled state both allocators fail without any change, and
    [bootmem_lock] enters such a state for good. *)
Theorem bootmem_not_enabled t s bytes :
  bm_st s <> ENABLED ->
  wp (bootmem_alloc_page_phys t) (fun r s' => r = 0 /\ s' = s) s /\
  wp (bootmem_alloc_page t) (fun r s' => r = 0 /\ s' = s) s /\
  wp (__alloc t bytes) (fun r s' => r = None /\ s' = s) s /\
  wp bootmem_lock (fun _ s' => bm_st s' = LOCKED /\ bm_st s' <> ENABLED /\
                               pool_end s' = pool_end s) s.
Proof.
  intros Hne. unfold bootmem_alloc_page, bootmem_alloc_page_phys, __alloc, bootmem_lock, wp.
  unfold mbind, M_bind, get. simpl. rewrite bool_decide_eq_false_2 by done.
  unfold not_enabled, mbind, M_bind. by destruct (bm_st s).
Qed.

Lemma bootmem_not_enabled_witness :
  bm_st bootmem_reset <> ENABLED /\
  wp (bootmem_alloc_page_phys ex_table) (fun r s' => r = 0 /\ s' = bootmem_reset) bootmem_reset.
Proof.
  split; [done|]. apply (bootmem_not_enabled ex_table bootmem_reset 4096). done.
Defined.

(** ** Initialisation *)

Section init.
Context (t : e820_table) `{!E820Table t}.

(** Entry [i] is the first RAM range that ends behind the kernel. *)
Definition first_pool_entry (kernel_end : Z) (i : nat) (e : e820_entry) : Prop :=
  used t !! i = Some e /\ e_type e = E820_TYPE_RAM /\ kernel_end < e_addr e + e_size e /\
  forall j f, (j < i)%nat -> used t !! j = Some f -> e_type f = E820_TYPE_RAM ->
    e_addr f + e_size f <= kernel_end.

Lemma find_pool_spec {S} (s : S) ke n : forall i k e,
  (i + n = length (used t))%nat -> (i <= k)%nat -> first_pool_entry ke k e ->
  find_pool t ke i n s = Ok (Some (Z.max (e_addr e) ke, k)) s [].
Proof.
  induction n as [|n IH]; intros i k e Hlen Hik Hfst; simpl.
  { destruct Hfst as (Hk&_). apply lookup_lt_Some in Hk. lia. }
  destruct (used_lookup t i) as (f&Hu&Hf&?&?&?&?&Hend); [lia|].
  unfold mbind, M_bind. rewrite Hf. simpl. rewrite Hend.
  pose proof Hfst as (Hk&Hram&Hbig&Hfirst).
  destruct (Z.eqb_spec (e_type f) E820_TYPE_RAM) as [Hr|Hr]; simpl.
  2:{ rewrite (IH _ k e); [done|lia| |done]. destruct (decide (i = k)) as [->|]; [simplify_eq|lia]. }
  destruct (Z.leb_spec (e_addr f + e_size f) ke) as [Hle|Hgt].
  - rewrite (IH _ k e); [done|lia| |done]. destruct (decide (i = k)) as [->|]; [simplify_eq; lia|lia].
  - assert (i = k) as ->.
    { destruct (decide (i = k)); [done|]. specialize (Hfirst i f ltac:(lia) Hu Hr). lia. }
    assert (f = e) as -> by congruence. destruct (Z.ltb_spec (e_addr e) ke); simpl.
    + by rewrite Z.max_r by lia.
    + by rewrite Z.max_l by lia.
Qed.

Lemma bootmem_init_wp kernel_vma_end low i e s :
  let ke := KERNEL_END kernel_vma_end in
  bm_st s = DISABLED -> 0 < ke <= 2 ^ 52 ->
  first_pool_entry ke i e -> Z.max (e_addr e) ke <= low ->
  wp (bootmem_init t kernel_vma_end low) (fun r s' =>
    r = 0 /\ bm_inv t ke s' /\ pool_start s' = pool_end s' /\
    pool_start s' = ROUND_UP (Z.max (e_addr e) ke) PAGE_SIZE /\
    forall p, ram_page t p -> ke <= p -> pool_start s' <= p) s.
Proof.
  intros ke Hdis Hke Hfst Hlow. pose proof Hfst as (Hi&Hram&Hbig&Hfirst).
  destruct (used_lookup t i) as (f&Hu&_&?&?&?&?&_); [by apply lookup_lt_Some in Hi|].
  assert (f = e) as -> by congruence. destruct (round_up_page (Z.max (e_addr e) ke)) as (Hb&Hd&Hmin); [lia|].
  unfold bootmem_init. wp_step. wp_step. rewrite (bool_decide_eq_true_2 _ Hdis). simpl.
  do 3 wp_step. rewrite (count_u32 t).
  eapply wp_Ok; [apply (find_pool_spec _ _ _ _ i e); [lia|lia|done]|].
  wp_auto. fold ke. destruct (Z.eqb_spec (Z.max (e_addr e) ke) 0); [lia|].
  rewrite Z.gtb_ltb. destruct (Z.ltb_spec low (Z.max (e_addr e) ke)); [lia|].
  wp_auto. split_and!; try done.
  - split; simpl; try done; try plia. exists e. split; [done|plia].
  - intros p [Hpd (g&[j Hj]%list_elem_of_lookup&(Hgr&Hga&Hge))] Hp. apply Hmin; [done|].
    destruct (decide (j < i)%nat) as [Hji|Hji].
    { specialize (Hfirst j g Hji Hj Hgr). plia. }
    destruct (decide (j = i)) as [->|]; [simplify_eq; lia|].
    pose proof (sane_index_le _ i j e g et_sane ltac:(lia) Hi Hj). lia.
Qed.

(** C38: [bootmem_init] on a disabled pool succeeds when RAM behind the kernel
    starts below the identity mapped area; the pool starts at the first RAM page
    behind the kernel image, so none of them is lost. *)
Theorem bootmem_init_spec kernel_vma_end low i e s :
  let ke := KERNEL_END kernel_vma_end in
  bm_st s = DISABLED -> 0 < ke <= 2 ^ 52 ->
  first_pool_entry ke i e -> Z.max (e_addr e) ke <= low ->
  wp (bootmem_init t kernel_vma_end low) (fun r s' =>
    r = 0 /\ bm_inv t ke s' /\ pool_start s' = pool_end s' /\
    pool_start s' = ROUND_UP (Z.max (e_addr e) ke) PAGE_SIZE /\
    forall p, ram_page t p -> ke <= p -> pool_start s' <= p) s.
Proof. exact (bootmem_init_wp kernel_vma_end low i e s). Qed.
End init.

(** ** A concrete pool *)

Definition ex_sane : e820_table :=
  mk_table 5 [mk_entry 0 0x9F000 1; mk_entry 0x9F000 0x61000 2; mk_entry 0x100000 0x100000 1;
              mk_entry 0x200000 0x1000 3; mk_entry 0x201000 0xAFF000 1].
(** A kernel image of 0x123456 bytes. *)
Definition ex_kernel_vma_end : Z := 0xFFFFFFFF80123456.
Definition ex_pool : bootmem := mk_bootmem 0x324000 0x324000 4 0 ENABLED ∅.

#[export] Instance ex_sane_table : E820Table ex_sane.
Proof.
  split; try (simpl; lia); [split|]; repeat constructor; simpl; lia.
Qed.

Lemma ex_first : first_pool_entry ex_sane (KERNEL_END ex_kernel_vma_end) 4 (mk_entry 0x201000 0xAFF000 1).
Proof.
  assert (KERNEL_END ex_kernel_vma_end = 0x323456) as -> by reflexivity.
  split_and!; try (simpl; done || lia). intros j f Hj Hf.
  do 4 (destruct j as [|j]; [injection Hf as <-; simpl; unfold E820_TYPE_RAM; lia|]). lia.
Qed.

Lemma bootmem_init_spec_witness :
  wp (bootmem_init ex_sane ex_kernel_vma_end 0x40000000) (fun r s' =>
    r = 0 /\ bm_inv ex_sane 0x323456 s' /\ pool_start s' = pool_end s' /\
    pool_start s' = ROUND_UP (Z.max 0x201000 0x323456) PAGE_SIZE /\
    forall p, ram_page ex_sane p -> 0x323456 <= p -> pool_start s' <= p) bootmem_reset.
Proof.
  apply (bootmem_init_spec ex_sane ex_kernel_vma_end 0x40000000 4 (mk_entry 0x201000 0xAFF000 1));
    [reflexivity|vm_compute; split; [reflexivity|discriminate]|exact ex_first|vm_compute; discriminate].
Defined.

Lemma ex_pool_inv : bm_inv ex_sane 0x323456 ex_pool.
Proof.
  split; simpl; try done; try plia; [by exists 0x324|]. by eexists.
Qed.

Lemma bootmem_alloc_page_phys_spec_witness :
  (exists s tr, bootmem_alloc_page_phys ex_sane ex_pool = Ok 0x324000 s tr) /\
  wp (bootmem_alloc_page_phys ex_sane) (fun r s' =>
    bm_inv ex_sane 0x323456 s' /\
    ((r = 0 /\ s' = ex_pool /\ forall p, pool_end ex_pool <= p -> ~ ram_page ex_sane p) \/
     (r <> 0 /\ ram_page ex_sane r /\ pool_end ex_pool <= r /\ pool_end s' = r + PAGE_SIZE /\
      pool_bytes s' = u64 (pool_bytes ex_pool + PAGE_SIZE) /\
      forall p, pool_end ex_pool <= p -> ram_page ex_sane p -> r <= p))) ex_pool.
Proof.
  split; [eexists _, _; reflexivity|].
  apply (bootmem_alloc_page_phys_spec ex_sane 0x323456 ex_pool ex_pool_inv).
Defined.

Lemma bootmem_pages_disjoint_witness :
  exists s', alloc_steps ex_sane ex_pool [0x324000; 0x325000] s' /\
    StronglySorted (fun p q => p + PAGE_SIZE <= q) [0x324000; 0x325000].
Proof.
  eexists. split.
  - eapply alloc_step; [reflexivity|done|]. eapply alloc_step; [reflexivity|done|]. apply alloc_done.
  - eapply (bootmem_pages_disjoint ex_sane 0x323456 ex_pool _ _ ex_pool_inv).
    eapply alloc_step; [reflexivity|done|]. eapply alloc_step; [reflexivity|done|]. apply alloc_done.
Defined.

(** ** Segment allocation *)

Section segments.
Context (t : e820_table) `{!E820Table t}.

(** A segment is its physical start and size; its header is at [seg_ptr]. *)
Definition seg_ptr (start : Z) : Z := u64 (start + HHDM_BASE).

(** The chain of headers in memory that starts at [p] is the list [l]. *)
Fixpoint chain (m : gmap Z alloc_segment) (p : option Z) (l : list (Z * Z)) : Prop :=
  match l with
  | [] => p = None
  | (st, sz) :: l' =>
      p = Some (seg_ptr st) /\ exists nxt, m !! seg_ptr st = Some (mk_seg sz nxt) /\ chain m nxt l'
  end.

(** A piece of RAM behind [P], in whole pages. *)
Definition seg_ok (P : Z) (seg : Z * Z) : Prop :=
  (PAGE_SIZE | seg.1) /\ (PAGE_SIZE | seg.2) /\ 0 < seg.2 /\ P <= seg.1 /\ seg.1 + seg.2 <= 2 ^ 52 /\
  exists e, e ∈ used t /\ e_type e = E820_TYPE_RAM /\
    e_addr e <= seg.1 /\ seg.1 + seg.2 <= e_addr e + e_size e.

Definition seg_before (a b : Z * Z) : Prop := a.1 + a.2 <= b.1.
Definition total (l : list (Z * Z)) : Z := foldr (fun seg n => seg.2 + n) 0 l.

(** RAM left behind [P] in whole pages. *)
Definition seg_start (P : Z) (e : e820_entry) : Z := ROUND_UP (Z.max P (e_addr e)) PAGE_SIZE.
Definition seg_end (e : e820_entry) : Z := ROUND_DOWN (e_addr e + e_size e) PAGE_SIZE.
Definition seg_avail (P : Z) (e : e820_entry) : Z :=
  if e_type e =? E820_TYPE_RAM then Z.max 0 (seg_end e - seg_start P e) else 0.
Definition avail (P : Z) (l : list e820_entry) : Z := foldr (fun e n => seg_avail P e + n) 0 l.

Lemma total_app l1 l2 : total (l1 ++ l2) = total l1 + total l2.
Proof. induction l1 as [|? ? IH]; simpl; [done|]. unfold total in *. simpl. lia. Qed.

Lemma seg_ptr_inj a b : 0 <= a <= 2 ^ 53 -> 0 <= b <= 2 ^ 53 -> seg_ptr a = seg_ptr b -> a = b.
Proof.
  unfold seg_ptr, wrap, HHDM_BASE. intros Ha Hb Heq.
  pose proof (Z.div_mod (a + 0xFFFF888000000000) (2 ^ 64) ltac:(lia)).
  pose proof (Z.div_mod (b + 0xFFFF888000000000) (2 ^ 64) ltac:(lia)).
  pose proof (Z.mod_pos_bound (a + 0xFFFF888000000000) (2 ^ 64) ltac:(lia)). lia.
Qed.

Lemma chain_frame m m' p l :
  (forall seg, seg ∈ l -> m' !! seg_ptr seg.1 = m !! seg_ptr seg.1) -> chain m p l -> chain m' p l.
Proof.
  revert p. induction l as [|[st sz] l IH]; intros p Hf; simpl; [done|].
  intros (->&nxt&Hm&Hc). split; [done|]. exists nxt. split.
  - rewrite <- Hm. apply (Hf (st, sz)). set_solver.
  - apply IH; [|done]. set_solver.
Qed.

(** Appending a segment: write its header, then the link of the last one. *)
Lemma chain_snoc m p l st sz st' sz' :
  chain m p (l ++ [(st, sz)]) -> seg_ptr st' <> seg_ptr st ->
  (forall seg, seg ∈ l -> seg_ptr seg.1 <> seg_ptr st /\ seg_ptr seg.1 <> seg_ptr st') ->
  chain (<[seg_ptr st := mk_seg sz (Some (seg_ptr st'))]> (<[seg_ptr st' := mk_seg sz' None]> m))
    p (l ++ [(st, sz); (st', sz')]).
Proof.
  intros Hc Hne Hl. revert p Hc. induction l as [|[a b] l IH]; intros p; simpl.
  - intros (->&nxt&Hm&->). split; [done|]. exists (Some (seg_ptr st')).
    split; [by rewrite lookup_insert_eq|]. split; [done|]. exists None.
    by rewrite lookup_insert_ne, lookup_insert_eq by done.
  - intros (->&nxt&Hm&Hc). split; [done|]. exists nxt.
    destruct (Hl (a, b)) as [? ?]; [set_solver|]. simpl in *.
    split; [by rewrite !lookup_insert_ne|]. apply IH; [set_solver|done].
Qed.

Lemma chain_last m p l st sz : chain m p (l ++ [(st, sz)]) -> exists nxt, m !! seg_ptr st = Some (mk_seg sz nxt).
Proof.
  revert p. induction l as [|[a b] l IH]; intros p; simpl.
  - intros (_&nxt&?&_). eauto.
  - intros (_&nxt&_&Hc). by eapply IH.
Qed.

Definition last_ptr (l : list (Z * Z)) : option Z := (fun seg => seg_ptr seg.1) <$> last l.
Definition head_ptr (l : list (Z * Z)) : option Z := (fun seg => seg_ptr seg.1) <$> head l.

Lemma chain_head m p l : chain m p l -> p = head_ptr l.
Proof. destruct l as [|[a b] l]; simpl; [done|]. by intros [-> _]. Qed.

(** Segments that are ordered behind one another have distinct headers. *)
Lemma seg_ptr_ordered P a b :
  0 <= P -> seg_ok P a -> seg_ok P b -> seg_before a b -> seg_ptr a.1 <> seg_ptr b.1.
Proof.
  intros HP (_&_&?&?&?&_) (_&_&?&?&?&_) Hab Heq. unfold seg_before in Hab.
  apply seg_ptr_inj in Heq; lia.
Qed.

Lemma link_segment_spec P acc st sz s (Q : unit -> bootmem -> Prop) :
  0 <= P -> Forall (seg_ok P) acc -> seg_ok P (st, sz) -> StronglySorted seg_before acc ->
  (forall seg, seg ∈ acc -> seg_before seg (st, sz)) ->
  chain (segs s) (head_ptr acc) acc ->
  (forall m, chain m (head_ptr (acc ++ [(st, sz)])) (acc ++ [(st, sz)]) -> Q tt (set_segs m s)) ->
  wp (link_segment (last_ptr acc) (seg_ptr st) sz) Q s.
Proof.
  intros HP Hok Hst Hsort Hbef Hc HQ. unfold link_segment. do 2 wp_step.
  destruct (list_eq_dec acc []) as [->|Hne].
  - simpl. wp_step. apply HQ. split; [done|]. exists None. split; [by rewrite lookup_insert_eq|done].
  - destruct (exists_last Hne) as (l&[a b]&->). unfold last_ptr. rewrite last_snoc. simpl.
    apply Forall_app in Hok as [Hl Ha]. rewrite Forall_singleton in Ha. apply StronglySorted_app in Hsort as (Hord&Hs1&_).
    assert (seg_ptr st <> seg_ptr a) as Hna.
    { apply not_eq_sym, (seg_ptr_ordered P (a, b) (st, sz)); try done. apply Hbef. set_solver. }
    destruct (chain_last _ _ _ _ _ Hc) as [nxt Hm].
    do 3 wp_step. simpl. apply (wp_deref (mk_seg b nxt)); [by rewrite lookup_insert_ne|].
    wp_step. simpl. unfold set_segs at 1. simpl. rewrite <- (app_assoc l [(a, b)]) in HQ. apply HQ.
    assert (head_ptr (l ++ [(a, b)] ++ [(st, sz)]) = head_ptr (l ++ [(a, b)])) as -> by by destruct l.
    apply chain_snoc; [done|done|]. intros seg Hseg. eapply Forall_forall in Hl; [|done]. split.
    + apply (seg_ptr_ordered P seg (a, b)); try done. apply Hord; set_solver.
    + apply (seg_ptr_ordered P seg (st, sz)); try done. apply Hbef. set_solver.
Qed.

Lemma total_nonneg P l : Forall (seg_ok P) l -> 0 <= total l /\ (PAGE_SIZE | total l).
Proof.
  induction 1 as [|seg l (_&?&?&_) _ [? ?]]; simpl; [by split; [|apply Z.divide_0_r]|].
  unfold total in *. simpl. split; [lia|by apply Z.divide_add_r].
Qed.

Lemma avail_nonneg P l : 0 <= avail P l.
Proof.
  induction l as [|e l IH]; simpl; [done|]. unfold avail, seg_avail in *. simpl.
  destruct (e_type e =? E820_TYPE_RAM); lia.
Qed.

(** The segment carved out of a RAM range: [rem] bytes or all that is there. *)
Lemma new_segment P i e rem :
  0 <= P <= 2 ^ 52 + PAGE_SIZE -> used t !! i = Some e -> e_type e = E820_TYPE_RAM ->
  seg_start P e < seg_end e -> 0 < rem -> (PAGE_SIZE | rem) ->
  seg_ok P (seg_start P e, Z.min rem (seg_end e - seg_start P e)) /\ e_addr e <= seg_start P e.
Proof.
  intros HP He Hram Hlt Hrem Hd.
  destruct (used_lookup t i) as (f&Hf&_&?&?&?&?&_); [by apply lookup_lt_Some in He|].
  assert (f = e) as -> by congruence.
  destruct (round_up_page (Z.max P (e_addr e))) as (Hb&Hsd&_); [plia|].
  pose proof (round_down_bounds (e_addr e + e_size e) PAGE_SIZE ltac:(done) ltac:(lia)) as Hrb.
  pose proof (round_down_divide (e_addr e + e_size e) PAGE_SIZE ltac:(done) ltac:(lia)) as Hrd.
  fold (seg_start P e) in *. fold (seg_end e) in *.
  split; [|lia]. unfold seg_ok. simpl. split_and!; try done; try lia.
  - destruct (Z.min_spec rem (seg_end e - seg_start P e)) as [[_ ->]|[_ ->]]; [done|].
    by apply Z.divide_sub_r.
  - exists e. split_and!; try done; try lia. by eapply list_elem_of_lookup_2.
Qed.

(** The state of the scan before entry [i]: [acc] holds the segments so far. *)
Record scan_inv (bytes P : Z) (i : nat) (acc : list (Z * Z)) (s : bootmem) : Prop := {
  sc_pool : pool_end s = P;
  sc_less : total acc < bytes;
  sc_ok : Forall (seg_ok P) acc;
  sc_sorted : StronglySorted seg_before acc;
  sc_before : forall seg j e, seg ∈ acc -> (i <= j)%nat -> used t !! j = Some e ->
                seg.1 + seg.2 <= e_addr e;
  sc_chain : chain (segs s) (head_ptr acc) acc;
}.

(** Facts about the list extended by a segment of entry [i]. *)
Lemma scan_snoc bytes P i e acc s st sz :
  scan_inv bytes P i acc s -> used t !! i = Some e -> seg_ok P (st, sz) -> e_addr e <= st ->
  (forall seg, seg ∈ acc -> seg_before seg (st, sz)) /\
  Forall (seg_ok P) (acc ++ [(st, sz)]) /\ StronglySorted seg_before (acc ++ [(st, sz)]) /\
  total (acc ++ [(st, sz)]) = total acc + sz.
Proof.
  intros [_ _ Hok Hsort Hbef _] Hu Hseg Hst.
  assert (forall seg, seg ∈ acc -> seg_before seg (st, sz)) as Hbs.
  { intros seg Hin. unfold seg_before. simpl. specialize (Hbef seg i e Hin ltac:(lia) Hu). lia. }
  split_and!; [done| | |].
  - apply Forall_app. split; [done|]. by apply Forall_singleton.
  - apply StronglySorted_app. split_and!; [|done|repeat constructor].
    intros x y Hx ->%list_elem_of_singleton. by apply Hbs.
  - rewrite total_app. unfold total at 2. simpl. lia.
Qed.

Lemma scan_next bytes P i e acc s st sz m :
  scan_inv bytes P i acc s -> used t !! i = Some e -> seg_ok P (st, sz) -> e_addr e <= st ->
  st + sz <= e_addr e + e_size e -> total acc + sz < bytes ->
  chain m (head_ptr (acc ++ [(st, sz)])) (acc ++ [(st, sz)]) ->
  scan_inv bytes P (S i) (acc ++ [(st, sz)]) (set_segs m s).
Proof.
  intros Hsc Hu Hseg Hst Hen Hmore Hch.
  destruct (scan_snoc _ _ _ _ _ _ _ _ Hsc Hu Hseg Hst) as (_&?&?&Htot).
  destruct Hsc as [Hpool _ _ _ Hbef _]. split; try done; [lia|].
  intros seg j f [Hin| ->%list_elem_of_singleton]%elem_of_app Hj Hf.
  - apply (Hbef seg j f); [done|lia|done].
  - pose proof (sane_index_le _ i j e f et_sane ltac:(lia) Hu Hf). simpl. lia.
Qed.

(** The arithmetic of one iteration on a RAM range with free pages. *)
Lemma carve P i e rem :
  0 <= P <= 2 ^ 52 + PAGE_SIZE -> used t !! i = Some e -> e_type e = E820_TYPE_RAM ->
  seg_start P e < seg_end e -> 0 < rem <= 2 ^ 53 -> (PAGE_SIZE | rem) ->
  let sz := Z.min rem (seg_end e - seg_start P e) in
  seg_ok P (seg_start P e, sz) /\ e_addr e <= seg_start P e /\
  seg_start P e + sz <= e_addr e + e_size e /\
  (if u64 (seg_start P e + rem) <? seg_end e then u64 (seg_start P e + rem) else seg_end e)
  = seg_start P e + sz.
Proof.
  intros HP Hu Hram Hlt Hrem Hd sz.
  destruct (new_segment P i e rem) as [Hseg Hst]; [done..|lia|done|].
  pose proof Hseg as (_&_&_&?&Hhi&f&_). simpl in *.
  destruct (used_lookup t i) as (g&Hg&_&?&?&?&?&_); [by apply lookup_lt_Some in Hu|].
  assert (g = e) as -> by congruence.
  pose proof (round_down_bounds (e_addr e + e_size e) PAGE_SIZE ltac:(done) ltac:(lia)) as Hrb.
  fold (seg_end e) in Hrb. rewrite (u64_small (seg_start P e + rem)) by lia.
  split_and!; try done; [lia|].
  destruct (Z.ltb_spec (seg_start P e + rem) (seg_end e)); lia.
Qed.

Lemma alloc_loop_spec bytes P n : forall i acc s (Q : option Z -> bootmem -> Prop),
  (i + n = length (used t))%nat -> 0 <= P <= 2 ^ 52 + PAGE_SIZE ->
  0 < bytes <= 2 ^ 53 -> (PAGE_SIZE | bytes) -> scan_inv bytes P i acc s ->
  (forall m, total acc + avail P (drop i (used t)) < bytes -> Q None (set_segs m s)) ->
  (forall m l st sz k e, bytes <= total acc + avail P (drop i (used t)) ->
     Forall (seg_ok P) (l ++ [(st, sz)]) -> StronglySorted seg_before (l ++ [(st, sz)]) ->
     total (l ++ [(st, sz)]) = bytes ->
     chain m (head_ptr (l ++ [(st, sz)])) (l ++ [(st, sz)]) ->
     used t !! k = Some e -> e_type e = E820_TYPE_RAM -> e_addr e <= st ->
     (forall seg, seg ∈ l -> seg.1 + seg.2 <= e_addr e) -> st + sz <= e_addr e + e_size e ->
     Q (head_ptr (l ++ [(st, sz)])) (set_used (st + sz) k bytes (set_segs m s))) ->
  wp (alloc_loop t bytes i n (total acc) (head_ptr acc) (last_ptr acc)) Q s.
Proof.
  induction n as [|n IH]; intros i acc s Q Hlen HP Hby Hbd Hsc Hnone Hsome; simpl alloc_loop.
  { wp_auto. replace s with (set_segs (segs s) s) by by destruct s. apply Hnone.
    rewrite drop_ge by lia. unfold avail. simpl. destruct Hsc. lia. }
  destruct (used_lookup t i) as (e&Hu&He&?&?&?&?&Hend); [lia|].
  rewrite (drop_S _ _ _ Hu) in Hnone, Hsome.
  change (avail P (e :: drop (S i) (used t)))
    with (seg_avail P e + avail P (drop (S i) (used t))) in Hnone, Hsome.
  pose proof (avail_nonneg P (drop (S i) (used t))) as Hav.
  pose proof Hsc as [Hpool Hless Hok Hsort Hbef Hch]. destruct (total_nonneg P acc Hok) as [Htot Htd].
  assert (seg_avail P e = 0 -> wp (alloc_loop t bytes (S i) n (total acc) (head_ptr acc) (last_ptr acc)) Q s)
    as Hskip.
  { intros Hz. rewrite Hz in Hnone, Hsome. apply IH; try done; [lia|].
    split; try done. intros seg j f Hseg Hj. apply Hbef; [done|lia]. }
  do 2 wp_step. unfold seg_avail in Hskip, Hnone, Hsome.
  destruct (Z.eqb_spec (e_type e) E820_TYPE_RAM) as [Hram|Hram]; simpl; [|by apply Hskip].
  do 2 wp_step. simpl. rewrite Hend.
  assert ((if pool_end s >? e_addr e then pool_end s else e_addr e) = Z.max P (e_addr e)) as ->.
  { rewrite Hpool, Z.gtb_ltb. destruct (Z.ltb_spec (e_addr e) P); lia. }
  fold (seg_start P e) (seg_end e). rewrite Z.geb_leb.
  destruct (Z.leb_spec (seg_end e) (seg_start P e)) as [Hsk|Hlt]; [apply Hskip; lia|].
  rewrite (u64_small (bytes - total acc)) by lia.
  destruct (carve P i e (bytes - total acc)) as (Hseg&Hst&Hen&->); [done..|lia|by apply Z.divide_sub_r|].
  set (sz := Z.min _ _) in *. pose proof Hseg as (_&_&Hsz&HPs&Hhi&_). simpl in Hsz, HPs, Hhi.
  replace (seg_start P e + sz - seg_start P e) with sz by lia.
  rewrite (u64_small sz), (u64_small (total acc + sz)) by lia. wp_step.
  destruct (scan_snoc _ _ _ _ _ _ _ _ Hsc Hu Hseg Hst) as (Hbs&Hok'&Hsort'&Htot').
  apply (link_segment_spec P acc); try done; [lia|]. intros m Hch'.
  assert ((match head_ptr acc with None => Some (u64 (seg_start P e + HHDM_BASE)) | _ => head_ptr acc end)
          = head_ptr (acc ++ [(seg_start P e, sz)])) as -> by by destruct acc.
  destruct (Z.ltb_spec (total acc + sz) bytes) as [Hmore|Hdone].
  - replace (Some (u64 (seg_start P e + HHDM_BASE))) with (last_ptr (acc ++ [(seg_start P e, sz)]))
      by (unfold last_ptr; by rewrite last_snoc).
    rewrite <- Htot'. apply IH; try done; [lia|by eapply scan_next|..].
    + intros m' Hm'. apply Hnone. lia.
    + intros m' l st' sz' k f Hl. apply Hsome. lia.
  - wp_auto. apply (Hsome m acc (seg_start P e) sz i e); try done; try lia.
    intros seg Hin. by apply (Hbef seg i e).
Qed.

(** The last segment lies in a range of its own. *)
Lemma alloc_segments_wp kernel_end s bytes :
  bm_inv t kernel_end s -> 0 < bytes <= 2 ^ 53 -> (PAGE_SIZE | bytes) ->
  let room := avail (pool_end s) (drop (current_e820_entry s) (used t)) in
  wp (__alloc t bytes) (fun r s' =>
    bm_inv t kernel_end s' /\
    match r with
    | None => room < bytes /\ pool_end s' = pool_end s /\ pool_bytes s' = pool_bytes s
    | Some _ => bytes <= room /\ exists l st sz,
        chain (segs s') r (l ++ [(st, sz)]) /\ total (l ++ [(st, sz)]) = bytes /\
        Forall (seg_ok (pool_end s)) (l ++ [(st, sz)]) /\
        StronglySorted seg_before (l ++ [(st, sz)]) /\ pool_end s' = st + sz /\
        pool_bytes s' = u64 (pool_bytes s + bytes) /\
        exists e, e ∈ used t /\ e_type e = E820_TYPE_RAM /\ e_addr e <= st /\ st + sz <= e_addr e + e_size e /\
          forall seg, seg ∈ l -> seg.1 + seg.2 <= e_addr e
    end) s.
Proof.
  intros Hinv Hby Hbd room. destruct (Hinv) as [Hen Hk Hord Hal (e&He&Hea)].
  apply lookup_lt_Some in He as Hlt. unfold __alloc. do 2 wp_step.
  rewrite (bool_decide_eq_true_2 _ Hen). simpl.
  destruct (Z.eqb_spec bytes 0); [lia|]. rewrite (count_u32 t).
  apply (alloc_loop_spec bytes (pool_end s) _ _ [] s); try done; try lia.
  - split; try done; [unfold total; simpl; lia|constructor|set_solver].
  - intros m Hm. split; [|unfold total in Hm; simpl in Hm; split_and!; done || lia].
    split; simpl; try done; try lia. by exists e.
  - intros m l st sz k f Hroom Hok Hsort Htot Hch Hf Hram Hst Hbef Hfe.
    assert (seg_ok (pool_end s) (st, sz)) as (?&?&?&?&?&_).
    { eapply Forall_forall in Hok; [exact Hok|]. set_solver. }
    simpl in *. split.
    + split; simpl; try done; try lia; [plia|by apply Z.divide_add_r|]. exists f. split; [done|lia].
    + assert (exists p, head_ptr (l ++ [(st, sz)]) = Some p) as [p Hp] by (destruct l; by eexists).
      rewrite Hp in *. split; [unfold total in Hroom; simpl in Hroom; lia|].
      exists l, st, sz. split_and!; try done. exists f. split_and!; try done. by eapply list_elem_of_lookup_2.
Qed.

(** C26: [__alloc] of a positive number of pages succeeds exactly when the RAM
    behind the pool has that many bytes in whole pages.  On success the returned
    pointer heads an in-memory chain of ascending disjoint RAM segments behind the
    old pool whose sizes add up to the request, and the pool ends with the last of
    them; on failure the pool is unchanged. *)
Theorem bootmem_alloc_segments kernel_end s bytes :
  bm_inv t kernel_end s -> 0 < bytes <= 2 ^ 53 -> (PAGE_SIZE | bytes) ->
  let room := avail (pool_end s) (drop (current_e820_entry s) (used t)) in
  wp (__alloc t bytes) (fun r s' =>
    bm_inv t kernel_end s' /\
    match r with
    | None => room < bytes /\ pool_end s' = pool_end s /\ pool_bytes s' = pool_bytes s
    | Some _ => bytes <= room /\ exists l st sz,
        chain (segs s') r (l ++ [(st, sz)]) /\ total (l ++ [(st, sz)]) = bytes /\
        Forall (seg_ok (pool_end s)) (l ++ [(st, sz)]) /\
        StronglySorted seg_before (l ++ [(st, sz)]) /\ pool_end s' = st + sz /\
        pool_bytes s' = u64 (pool_bytes s + bytes)
    end) s.
Proof.
  intros Hinv Hby Hbd room. eapply wp_mono; [by apply (alloc_segments_wp kernel_end)|].
  intros [p|] s' [Hinv' Hr]; (split; [done|]); [|done]. destruct Hr as (Hroom&l&st&sz&?&?&?&?&?&?&_). split; [done|]. exists l, st, sz. by split_and!.
Qed.
End segments.

Lemma bootmem_alloc_segments_witness :
  (exists s' tr, __alloc ex_sane 0x5000 ex_pool = Ok (Some (seg_ptr 0x324000)) s' tr) /\
  let room := avail (pool_end ex_pool) (drop (current_e820_entry ex_pool) (used ex_sane)) in
  wp (__alloc ex_sane 0x5000) (fun r s' =>
    bm_inv ex_sane 0x323456 s' /\
    match r with
    | None => room < 0x5000 /\ pool_end s' = pool_end ex_pool /\ pool_bytes s' = pool_bytes ex_pool
    | Some _ => 0x5000 <= room /\ exists l st sz,
        chain (segs s') r (l ++ [(st, sz)]) /\ total (l ++ [(st, sz)]) = 0x5000 /\
        Forall (seg_ok ex_sane (pool_end ex_pool)) (l ++ [(st, sz)]) /\
        StronglySorted seg_before (l ++ [(st, sz)]) /\ pool_end s' = st + sz /\
        pool_bytes s' = u64 (pool_bytes ex_pool + 0x5000)
    end) ex_pool.
Proof.
  split; [eexists _, _; reflexivity|].
  apply (bootmem_alloc_segments ex_sane 0x323456 ex_pool 0x5000 ex_pool_inv); [lia|by exists 5].
Defined.
