(* ===== verification/Mem.v ===== *)
(** * The memory map (include/page.h, mm/mem.c, include/addr.h)

    [mem_map] is the array of [struct page], one element per physical page
    frame.  A [struct page*] is the index of its element (the page frame number),
    [NULL] is [None]; arithmetic on such a pointer may leave the array, and an
    access there is a fault. *)

From S2P Require Import Prelude Kmath.
From Stdlib Require Import ZArith Lia.
From stdpp Require Import base gmap list strings.

Open Scope Z_scope.

(** ** struct page *)

Definition PG_RESERVED : Z := 0.
Definition PG_BUDDY : Z := 1.
Definition PG_ALLOCATED : Z := 2.
Definition PG_TAIL : Z := 3.

Record page := mk_page {
  pg_state : Z;
  pg_order : Z;
  pg_prev : option Z;
  pg_next : option Z;
}.
#[export] Instance page_eq_dec : EqDecision page.
Proof. solve_decision. Defined.

Definition set_state (v : Z) (p : page) := mk_page v (pg_order p) (pg_prev p) (pg_next p).
Definition set_order (v : Z) (p : page) := mk_page (pg_state p) v (pg_prev p) (pg_next p).
Definition set_prev (v : option Z) (p : page) := mk_page (pg_state p) (pg_order p) v (pg_next p).
Definition set_next (v : option Z) (p : page) := mk_page (pg_state p) (pg_order p) (pg_prev p) v.

(** ** The statics of mem.c and buddy.c

    [free_matrix] maps an order to the head of its free list; an order without
    an entry is a [NULL] head. *)

Record mem := mk_mem {
  mem_map : gmap Z page;
  mem_nr_pages : Z;
  free_matrix : gmap Z Z;
  managed_mem : Z;
}.

Definition set_mem_map (m : gmap Z page) (s : mem) : mem :=
  mk_mem m (mem_nr_pages s) (free_matrix s) (managed_mem s).
Definition set_free_matrix (f : gmap Z Z) (s : mem) : mem :=
  mk_mem (mem_map s) (mem_nr_pages s) f (managed_mem s).
Definition set_managed (v : Z) (s : mem) : mem :=
  mk_mem (mem_map s) (mem_nr_pages s) (free_matrix s) v.

(** Reading and writing [*p]. *)
Definition get_page (p : Z) : M mem page :=
  s ← get; deref (mem_map s !! p).
Definition upd_page (p : Z) (f : page -> page) : M mem unit :=
  s ← get;
  pg ← deref (mem_map s !! p);
  modify (set_mem_map (<[p := f pg]> (mem_map s))).

(** [free_matrix[order] = p]. *)
Definition set_head (order : Z) (p : option Z) : M mem unit :=
  modify (fun s => set_free_matrix (partial_alter (fun _ => p) order (free_matrix s)) s).

(** ** Page frames and addresses *)

Definition page_to_hhdm (p : Z) : Z := u64 (u64 (p * PAGE_SIZE) + HHDM_BASE).
Definition hhdm_to_page (hhdm : Z) : Z := u64 (hhdm - HHDM_BASE) / PAGE_SIZE.

(** The array after [mem_init] has cleared it and marked every page reserved. *)
Definition cleared_map (nr : Z) : gmap Z page :=
  list_to_map ((fun i => (i, mk_page PG_RESERVED 0 None None)) <$> seqZ 0 nr).

(** ** Lemmas *)

Lemma page_hhdm_roundtrip p : 0 <= p < 2 ^ 52 -> hhdm_to_page (page_to_hhdm p) = p.
Proof.
  intros Hp. unfold hhdm_to_page, page_to_hhdm.
  rewrite (u64_small (p * PAGE_SIZE)) by plia.
  change (u64 (u64 (p * PAGE_SIZE + HHDM_BASE) - HHDM_BASE)) with (hhdm_to_phys (phys_to_hhdm (p * PAGE_SIZE))).
  rewrite hhdm_phys_roundtrip by plia. by apply Z.div_mul.
Qed.

Lemma lookup_cleared nr x :
  cleared_map nr !! x = if decide (0 <= x < nr) then Some (mk_page PG_RESERVED 0 None None) else None.
Proof.
  unfold cleared_map. case_decide as Hx.
  - apply elem_of_list_to_map_1.
    + rewrite <- list_fmap_compose. simpl. rewrite list_fmap_id. apply NoDup_seqZ.
    + apply list_elem_of_fmap. exists x. split; [done|]. apply elem_of_seqZ. lia.
  - apply not_elem_of_list_to_map_1. rewrite <- list_fmap_compose. simpl. rewrite list_fmap_id.
    rewrite elem_of_seqZ. lia.
Qed.

Lemma wp_get_page p pg (Q : page -> mem -> Prop) s :
  mem_map s !! p = Some pg -> Q pg s -> wp (get_page p) Q s.
Proof. intros Hp HQ. unfold get_page. do 2 wp_step. by apply (wp_deref pg). Qed.

Lemma wp_upd_page p pg f (Q : unit -> mem -> Prop) s :
  mem_map s !! p = Some pg -> Q tt (set_mem_map (<[p := f pg]> (mem_map s)) s) ->
  wp (upd_page p f) Q s.
Proof. intros Hp HQ. unfold upd_page. do 3 wp_step. apply (wp_deref pg); [done|]. by wp_step. Qed.

Lemma wp_set_head k p (Q : unit -> mem -> Prop) s :
  Q tt (set_free_matrix (partial_alter (fun _ => p) k (free_matrix s)) s) -> wp (set_head k p) Q s.
Proof. done. Qed.
