(* ===== verification/Buddy.v ===== *)
(** * The buddy page allocator (mm/buddy.c)

    Free blocks of [2^order] pages are kept in doubly linked lists, one per
    order, through the [prev]/[next] fields of their first page. *)

From S2P Require Import Prelude Kmath E820 Bootmem Mem.
From Stdlib Require Import ZArith Lia.
From stdpp Require Import base gmap list strings.

Open Scope Z_scope.

(** ** Free lists *)

Definition bad_order {A} (order : Z) : M mem A :=
  panic (line "Order %d is more than or equal as limit (%d)") [order].

Definition insert_free (page : Z) : M mem unit :=
  pg ← get_page page;
  let order := pg_order pg in
  if order >? PAGE_MAX_ORDER then bad_order order else
  s ← get;
  upd_page page (set_next (free_matrix s !! order));;
  upd_page page (set_prev None);;
  pg ← get_page page;
  match pg_next pg with
  | Some n => upd_page n (set_prev (Some page))
  | None => mret tt
  end;;
  set_head order (Some page);;
  upd_page page (set_state PG_BUDDY).

Definition pop_free (order : Z) : M mem (option Z) :=
  if order >? PAGE_MAX_ORDER then bad_order order else
  s ← get;
  match free_matrix s !! order with
  | None => mret None
  | Some page =>
      pg ← get_page page;
      set_head order (pg_next pg);;
      match pg_next pg with
      | Some n => upd_page n (set_prev None)
      | None => mret tt
      end;;
      upd_page page (set_next None);;
      upd_page page (set_prev None);;
      mret (Some page)
  end.

Definition remove_free (page : Z) : M mem unit :=
  pg ← get_page page;
  let order := pg_order pg in
  if order >? PAGE_MAX_ORDER then bad_order order else
  if negb (pg_state pg =? PG_BUDDY) then mret tt else
  s ← get;
  if bool_decide (pg_prev pg = None) && bool_decide (pg_next pg = None)
     && negb (bool_decide (free_matrix s !! order = Some page)) then mret tt else
  match pg_prev pg with
  | Some q => upd_page q (set_next (pg_next pg))
  | None => set_head order (pg_next pg)
  end;;
  pg ← get_page page;
  match pg_next pg with
  | Some n => upd_page n (set_prev (pg_prev pg))
  | None => mret tt
  end;;
  upd_page page (set_next None);;
  upd_page page (set_prev None).

(** ** Orders *)

Definition alignment_order (pfn : Z) : Z :=
  let alignment_order := if pfn =? 0 then 8 * 8 else ctzll pfn in
  if alignment_order >? PAGE_MAX_ORDER then PAGE_MAX_ORDER else alignment_order.

Definition length_order (length : Z) : Z :=
  if length =? 0 then -1 else (8 * 8 - 1) - clzll length.

(** ** Allocation *)

(** The search for a non-empty list, from order [i] with [n] orders left. *)
Fixpoint alloc_search (i : Z) (n : nat) : M mem (option Z) :=
  match n with
  | O => mret None
  | S n' =>
      page ← pop_free i;
      match page with
      | Some p => mret (Some p)
      | None => alloc_search (u8 (i + 1)) n'
      end
  end.

(** [while (page->order > order)]: halve the block, freeing the upper half.
    [page->order] drops by one per iteration, so that [fuel] above it is enough. *)
Fixpoint split_loop (page order : Z) (fuel : nat) : M mem unit :=
  match fuel with
  | O => fault
  | S fuel' =>
      pg ← get_page page;
      if pg_order pg >? order then
        upd_page page (set_order (u8 (pg_order pg - 1)));;
        pg ← get_page page;
        let buddy := page + 2 ^ pg_order pg in
        bpg ← get_page buddy;
        if negb (pg_state bpg =? PG_TAIL) then
          panic (line "Unexpected page state, expected %u(PG_TAIL) but state is %u") [PG_TAIL; pg_state bpg]
        else
          upd_page buddy (set_order (pg_order pg));;
          insert_free buddy;;
          split_loop page order fuel'
      else mret tt
  end.

Definition alloc_pages (order : Z) : M mem (option Z) :=
  if order >? PAGE_MAX_ORDER then
    panic (line "Order %d is more than maximum of %d") [order; PAGE_MAX_ORDER]
  else
    page ← alloc_search order (Z.to_nat (PAGE_MAX_ORDER + 1 - order));
    match page with
    | None => mret None
    | Some p =>
        split_loop p order 256;;
        upd_page p (set_state PG_ALLOCATED);;
        mret (Some p)
    end.

(** ** Release *)

(** [while (page->order < PAGE_MAX_ORDER)]: the merge loop; returns the final
    value of [page].  Every iteration that does not leave the loop raises
    [page->order] by one. *)
Fixpoint merge_loop (page : Z) (fuel : nat) : M mem Z :=
  match fuel with
  | O => fault
  | S fuel' =>
      pg ← get_page page;
      if pg_order pg <? PAGE_MAX_ORDER then
        s ← get;
        if alignment_order (u64 page) >? pg_order pg then
          let buddy := page + 2 ^ pg_order pg in
          if buddy >=? mem_nr_pages s then mret page else
          bpg ← get_page buddy;
          if (pg_state bpg =? PG_BUDDY) && (pg_order bpg =? pg_order pg) then
            remove_free buddy;;
            upd_page buddy (set_state PG_TAIL);;
            upd_page page (fun pg => set_order (u8 (pg_order pg + 1)) pg);;
            merge_loop page fuel'
          else mret page
        else
          let buddy := page - 2 ^ pg_order pg in
          if buddy <? 0 then mret page else
          bpg ← get_page buddy;
          if (pg_state bpg =? PG_BUDDY) && (pg_order bpg =? pg_order pg) then
            remove_free page;;
            upd_page page (set_state PG_TAIL);;
            upd_page buddy (fun pg => set_order (u8 (pg_order pg + 1)) pg);;
            merge_loop buddy fuel'
          else mret page
      else mret page
  end.

Definition free_pages (page : Z) : M mem unit :=
  pg ← get_page page;
  if negb (pg_state pg =? PG_ALLOCATED) then mret tt else
  upd_page page (set_state PG_BUDDY);;
  upd_page page (set_prev None);;
  upd_page page (set_next None);;
  page ← merge_loop page 11;
  insert_free page.

(** ** Initialisation *)

(** The marking loop over [mem_map[i .. i + n)]. *)
Fixpoint mark_range (i : Z) (n : nat) : M mem unit :=
  match n with
  | O => mret tt
  | S n' =>
      upd_page i (set_state PG_BUDDY);;
      upd_page i (set_order 0);;
      mark_range (i + 1) n'
  end.

Definition set_first_order_buddy_for_range (start_page end_page : Z) : M mem Z :=
  s ← get;
  let end_page := if end_page >? mem_nr_pages s then mem_nr_pages s else end_page in
  if start_page >=? end_page then mret 0 else
  mark_range start_page (Z.to_nat (end_page - start_page));;
  mret (end_page - start_page).

(** The pages of one table entry, clipped against the reserved pages. *)
Definition mark_entry (reserved_start_page reserved_end_page : Z) (e : e820_entry) : M mem Z :=
  let start_page := DIV_UP (e_addr e) PAGE_SIZE in
  let end_page := u64 (e_addr e + e_size e) / PAGE_SIZE in
  let start_page :=
    if (start_page >=? reserved_start_page) && (start_page <? reserved_end_page)
    then reserved_end_page else start_page in
  let end_page :=
    if (end_page >? reserved_start_page) && (end_page <=? reserved_end_page)
    then reserved_start_page else end_page in
  if start_page >=? end_page then mret 0
  else if (start_page <? reserved_start_page) && (end_page >? reserved_end_page) then
    a ← set_first_order_buddy_for_range start_page reserved_start_page;
    b ← set_first_order_buddy_for_range reserved_end_page end_page;
    mret (a + b)
  else set_first_order_buddy_for_range start_page end_page.

Fixpoint mark_entries (table : e820_table) (rs re : Z) (i n : nat) (expected_pages : Z) : M mem Z :=
  match n with
  | O => mret expected_pages
  | S n' =>
      e ← deref (entries table !! i);
      if negb (e_type e =? E820_TYPE_RAM) then mark_entries table rs re (S i) n' expected_pages
      else
        k ← mark_entry rs re e;
        mark_entries table rs re (S i) n' (u64 (expected_pages + k))
  end.

(** [while (j < end)]: length of the run of free pages, at most [n]. *)
Fixpoint run_end (j : Z) (n : nat) : M mem Z :=
  match n with
  | O => mret j
  | S n' =>
      pg ← get_page j;
      if negb (pg_state pg =? PG_BUDDY) then mret j else run_end (j + 1) n'
  end.

Fixpoint mark_tails (j : Z) (n : nat) : M mem unit :=
  match n with
  | O => mret tt
  | S n' => upd_page j (set_state PG_TAIL);; mark_tails (j + 1) n'
  end.

(** Forming one block at [i]; returns its number of pages. *)
Definition group_block (i : Z) : M mem Z :=
  s ← get;
  let max_pages_in_block := 2 ^ alignment_order i in
  let end_ := if i + max_pages_in_block <=? mem_nr_pages s then i + max_pages_in_block
              else mem_nr_pages s in
  j ← run_end i (Z.to_nat (end_ - i));
  let continuous_pages_count := j - i in
  upd_page i (set_order (u8 (length_order continuous_pages_count)));;
  pg ← get_page i;
  let pages_in_block := 2 ^ pg_order pg in
  mark_tails (i + 1) (Z.to_nat (pages_in_block - 1));;
  insert_free i;;
  mret pages_in_block.

(** The grouping loop; [i] grows in every iteration. *)
Fixpoint group_loop (i accounted_pages : Z) (fuel : nat) : M mem Z :=
  match fuel with
  | O => fault
  | S fuel' =>
      s ← get;
      if i <? mem_nr_pages s then
        pg ← get_page i;
        if negb (pg_state pg =? PG_BUDDY) then group_loop (i + 1) accounted_pages fuel'
        else
          k ← group_block i;
          group_loop (i + k) (u64 (accounted_pages + k)) fuel'
      else mret accounted_pages
  end.

(** The part of [buddy_init] after [bootmem_lock], on the reserved pages. *)
Definition buddy_build (table : e820_table) (rs re : Z) : M mem unit :=
  expected_pages ← mark_entries table rs re 0 (Z.to_nat (u32 (entries_count table))) 0;
  s ← get;
  accounted_pages ← group_loop 0 0 (Z.to_nat (mem_nr_pages s) + 1);
  if negb (expected_pages =? accounted_pages) then
    panic (line "Buddy grouping failed, expected %zu pages but accounted %zu")
      [expected_pages; accounted_pages]
  else
    modify (set_managed (u64 (accounted_pages * PAGE_SIZE)));;
    printk (line "[OK] Buddy allocator initialized, managed mem is %zu KiB")
      [u64 (accounted_pages * PAGE_SIZE) / 1024].

Record mm_state := mk_mm { mm_boot : bootmem; mm_mem : mem }.

Definition buddy_init (table : e820_table) : M mm_state Z :=
  zoom mm_boot (fun b s => mk_mm b (mm_mem s)) bootmem_lock;;
  s ← get;
  let reserved_start_page := KERNEL_PHYS / PAGE_SIZE in
  let reserved_end_page := DIV_UP (bootmem_get_pool_end (mm_boot s)) PAGE_SIZE in
  zoom mm_mem (fun m s => mk_mm (mm_boot s) m)
    (buddy_build table reserved_start_page reserved_end_page);;
  mret 0.
