(* ===== verification/BuddyFacts.v ===== *)
(** * Correctness of the buddy allocator: lists, blocks, allocation and release

    The allocator's state is described by two views of [mem_map]: the headers
    (state and order of a page) and the links.  The invariant [buddy_inv] says
    that the free lists are well-formed doubly linked lists holding exactly the
    free blocks, and that every block is aligned, inside the array and followed
    by its tail pages only, so that blocks never overlap. *)

From S2P Require Import Prelude Kmath Mem Buddy.
From Stdlib Require Import ZArith Lia Znumtheory.
From stdpp Require Import base gmap list strings.

Open Scope Z_scope.

(** ** Views of the memory map *)

Definition hdr (s : mem) (x : Z) : option (Z * Z) :=
  (fun pg => (pg_state pg, pg_order pg)) <$> mem_map s !! x.
Definition links (s : mem) (x : Z) : option (option Z * option Z) :=
  (fun pg => (pg_prev pg, pg_next pg)) <$> mem_map s !! x.

Lemma hdr_Some s x st k :
  hdr s x = Some (st, k) -> exists pg, mem_map s !! x = Some pg /\ pg_state pg = st /\ pg_order pg = k.
Proof. unfold hdr. destruct (mem_map s !! x) as [pg|] eqn:E; [|done]. intros [=]. eauto. Qed.

Lemma links_Some s x a b :
  links s x = Some (a, b) -> exists pg, mem_map s !! x = Some pg /\ pg_prev pg = a /\ pg_next pg = b.
Proof. unfold links. destruct (mem_map s !! x) as [pg|] eqn:E; [|done]. intros [=]. eauto. Qed.

Lemma hdr_links s x : is_Some (hdr s x) <-> is_Some (links s x).
Proof. unfold hdr, links. by rewrite !fmap_is_Some. Qed.

(** ** Doubly linked segments

    [dllseg s prev l nxt]: the pages [l] are linked in this order, the first
    one pointing back to [prev] and the last one forward to [nxt]. *)

Fixpoint dllseg (s : mem) (prev : option Z) (l : list Z) (nxt : option Z) : Prop :=
  match l with
  | [] => True
  | x :: l' =>
      links s x = Some (prev, match head l' with Some y => Some y | None => nxt end) /\
      dllseg s (Some x) l' nxt
  end.

Definition or_else (a b : option Z) : option Z := match a with Some _ => a | None => b end.

Lemma dllseg_app s prev l1 l2 nxt :
  dllseg s prev (l1 ++ l2) nxt <->
  dllseg s prev l1 (or_else (head l2) nxt) /\ dllseg s (or_else (last l1) prev) l2 nxt.
Proof.
  revert prev. induction l1 as [|x l1 IH]; intros prev; simpl.
  { by destruct l2 as [|y l2]; simpl; intuition. }
  rewrite IH. rewrite last_cons. destruct l1 as [|y l1]; simpl.
  - destruct (head l2); simpl; intuition.
  - assert (exists z, last (y :: l1) = Some z) as [z ->].
    { destruct (last (y :: l1)) eqn:E; [eauto|]. by apply last_None in E. }
    simpl. intuition.
Qed.

Lemma dllseg_frame s s' prev l nxt :
  (forall x, x ∈ l -> links s' x = links s x) -> dllseg s prev l nxt -> dllseg s' prev l nxt.
Proof.
  revert prev. induction l as [|x l IH]; intros prev Hf; simpl; [done|].
  intros [Hx Hl]. split; [|apply IH; [|done]; set_solver]. rewrite Hf; [done|set_solver].
Qed.

Lemma dllseg_links s prev l nxt x : dllseg s prev l nxt -> x ∈ l -> is_Some (links s x).
Proof.
  revert prev. induction l as [|y l IH]; intros prev; simpl; [by intros _ Hx%elem_of_nil|].
  intros [Hy Hl] [->|Hx]%elem_of_cons; [by rewrite Hy|by eapply IH].
Qed.

(** Redirecting the first back link and the last forward link. *)
Lemma dllseg_set_prev s s' prev prev' l nxt :
  NoDup l -> dllseg s prev l nxt ->
  (forall x, x ∈ l -> links s' x =
     if decide (head l = Some x) then (fun ab => (prev', ab.2)) <$> links s x else links s x) ->
  dllseg s' prev' l nxt.
Proof.
  destruct l as [|x l]; [done|]. simpl. intros [Hx _]%NoDup_cons [Hlx Hl] Hf. split.
  - rewrite (Hf x) by set_solver. by rewrite decide_True, Hlx by done.
  - eapply dllseg_frame; [|exact Hl]. intros y Hy. rewrite (Hf y) by set_solver.
    apply decide_False. intros [=]. by subst.
Qed.

Lemma dllseg_set_next s s' prev l nxt nxt' :
  NoDup l -> dllseg s prev l nxt ->
  (forall x, x ∈ l -> links s' x =
     if decide (last l = Some x) then (fun ab => (ab.1, nxt')) <$> links s x else links s x) ->
  dllseg s' prev l nxt'.
Proof.
  destruct l as [|y l] using rev_ind; [done|]. rewrite last_snoc.
  intros (_&Hny&_)%NoDup_app [Hl Hy]%dllseg_app Hf. apply dllseg_app. split.
  - eapply dllseg_frame; [|exact Hl]. intros x Hx. rewrite (Hf x) by set_solver.
    apply decide_False. intros [= ->]. apply (Hny x Hx). set_solver.
  - simpl in *. destruct Hy as [Hy _]. split; [|done]. rewrite (Hf y) by set_solver.
    by rewrite decide_True, Hy by done.
Qed.

(** ** Effect of the page accessors on the views *)

Lemma hdr_insert s p pg x :
  hdr (set_mem_map (<[p := pg]> (mem_map s)) s) x =
  if decide (p = x) then Some (pg_state pg, pg_order pg) else hdr s x.
Proof. unfold hdr. simpl. rewrite lookup_insert. by case_decide. Qed.

Lemma links_insert s p pg x :
  links (set_mem_map (<[p := pg]> (mem_map s)) s) x =
  if decide (p = x) then Some (pg_prev pg, pg_next pg) else links s x.
Proof. unfold links. simpl. rewrite lookup_insert. by case_decide. Qed.

Lemma hdr_set_free f s x : hdr (set_free_matrix f s) x = hdr s x.
Proof. done. Qed.
Lemma links_set_free f s x : links (set_free_matrix f s) x = links s x.
Proof. done. Qed.

(** What an operation on the free lists leaves alone. *)
Definition same_frame (s s' : mem) : Prop :=
  mem_nr_pages s' = mem_nr_pages s /\ managed_mem s' = managed_mem s.

(** ** Specifications of the list operations in terms of the views *)

(** Symbolic execution of page accesses whose lookups are known. *)
Ltac mem_step :=
  lazymatch goal with
  | |- wp (get_page _) _ _ => eapply wp_get_page; [simpl; by simplify_map_eq|simpl]
  | |- wp (upd_page _ _) _ _ => eapply wp_upd_page; [simpl; by simplify_map_eq|simpl]
  | |- wp (set_head _ _) _ _ => apply wp_set_head; simpl
  | |- _ => wp_step; simpl
  end.
Ltac mem_auto := repeat mem_step.

(** Equations between views of explicit updates. *)
Ltac solve_view :=
  intros; unfold hdr, links; simpl; rewrite ?lookup_insert;
  repeat (case_decide || simplify_eq || simplify_map_eq); simpl; try done; try congruence.

Lemma insert_free_spec p st0 k s (Q : unit -> mem -> Prop) :
  hdr s p = Some (st0, k) -> k <= PAGE_MAX_ORDER ->
  (forall h, free_matrix s !! k = Some h -> h <> p /\ is_Some (hdr s h)) ->
  (forall s', same_frame s s' -> free_matrix s' = <[k := p]> (free_matrix s) ->
     (forall x, hdr s' x = if decide (x = p) then Some (PG_BUDDY, k) else hdr s x) ->
     (forall x, links s' x =
        if decide (x = p) then Some (None, free_matrix s !! k)
        else if decide (free_matrix s !! k = Some x) then (fun ab => (Some p, ab.2)) <$> links s x
        else links s x) -> Q tt s') ->
  wp (insert_free p) Q s.
Proof.
  intros (pg&Hp&<-&<-)%hdr_Some Hle Hhead HQ. unfold insert_free. mem_auto.
  rewrite Z.gtb_ltb. destruct (Z.ltb_spec PAGE_MAX_ORDER (pg_order pg)); [lia|]. mem_auto.
  destruct (free_matrix s !! pg_order pg) as [h|] eqn:Eh; simpl.
  - destruct (Hhead h eq_refl) as [Hne Hh]. unfold hdr in Hh. rewrite fmap_is_Some in Hh.
    destruct Hh as [hpg Hh]. mem_auto. apply HQ; [done|done|solve_view|solve_view].
  - mem_auto. apply HQ; [done|done|solve_view|solve_view].
Qed.

Lemma pop_free_spec k s (Q : option Z -> mem -> Prop) :
  k <= PAGE_MAX_ORDER ->
  (forall p, free_matrix s !! k = Some p -> exists nxt,
     links s p = Some (None, nxt) /\ forall n, nxt = Some n -> n <> p /\ is_Some (hdr s n)) ->
  (free_matrix s !! k = None -> Q None s) ->
  (forall p nxt s', free_matrix s !! k = Some p -> links s p = Some (None, nxt) ->
     same_frame s s' -> free_matrix s' = partial_alter (fun _ => nxt) k (free_matrix s) ->
     (forall x, hdr s' x = hdr s x) ->
     (forall x, links s' x =
        if decide (x = p) then Some (None, None)
        else if decide (nxt = Some x) then (fun ab => (None, ab.2)) <$> links s x
        else links s x) -> Q (Some p) s') ->
  wp (pop_free k) Q s.
Proof.
  intros Hle Hhead Hnone HQ. unfold pop_free.
  rewrite Z.gtb_ltb. destruct (Z.ltb_spec PAGE_MAX_ORDER k); [lia|]. mem_auto.
  destruct (free_matrix s !! k) as [p|] eqn:Ep; simpl; [|mem_auto; by apply Hnone].
  destruct (Hhead p eq_refl) as (nxt&Hlinks&Hnxt). pose proof Hlinks as (pg&Hp&Hpr&Hnx)%links_Some.
  mem_auto. rewrite Hnx. destruct nxt as [n|].
  - destruct (Hnxt n eq_refl) as [Hne Hn]. unfold hdr in Hn. rewrite fmap_is_Some in Hn.
    destruct Hn as [npg Hn]. mem_auto.
    eapply HQ; [done|exact Hlinks|done|done|solve_view|solve_view].
  - mem_auto. eapply HQ; [done|exact Hlinks|done|done|solve_view|solve_view].
Qed.

(** [remove_free] on a page that is in the free list of its order. *)
Lemma remove_free_spec p k prv nxt s (Q : unit -> mem -> Prop) :
  hdr s p = Some (PG_BUDDY, k) -> k <= PAGE_MAX_ORDER -> links s p = Some (prv, nxt) ->
  (prv = None -> free_matrix s !! k = Some p) ->
  (forall q, prv = Some q -> q <> p /\ is_Some (hdr s q)) ->
  (forall n, nxt = Some n -> n <> p /\ is_Some (hdr s n)) ->
  (forall q, prv = Some q -> nxt <> Some q) ->
  (forall s', same_frame s s' ->
     free_matrix s' = (if prv then free_matrix s else partial_alter (fun _ => nxt) k (free_matrix s)) ->
     (forall x, hdr s' x = hdr s x) ->
     (forall x, links s' x =
        if decide (x = p) then Some (None, None)
        else if decide (prv = Some x) then (fun ab => (ab.1, nxt)) <$> links s x
        else if decide (nxt = Some x) then (fun ab => (prv, ab.2)) <$> links s x
        else links s x) -> Q tt s') ->
  wp (remove_free p) Q s.
Proof.
  intros (pg&Hp&Hst&Hk)%hdr_Some Hle Hlinks Hfirst Hprv Hnxt Hpn HQ.
  destruct (links_Some _ _ _ _ Hlinks) as (pg'&Hp'&Hpr&Hnx). assert (pg' = pg) as -> by congruence.
  unfold remove_free. mem_auto. rewrite Hk, Hst. simpl.
  rewrite Z.gtb_ltb. destruct (Z.ltb_spec PAGE_MAX_ORDER k); [lia|]. mem_auto.
  rewrite Hpr, Hnx. destruct (_ && _ && _) eqn:Eg.
  { apply andb_prop in Eg as [[Hg1 _]%andb_prop Hg2]. apply bool_decide_eq_true_1 in Hg1.
    apply negb_true_iff in Hg2. apply bool_decide_eq_false in Hg2. destruct Hg2. by apply Hfirst. }
  clear Eg. wp_step.
  destruct prv as [q|].
  - destruct (Hprv q eq_refl) as [Hnq Hq]. unfold hdr in Hq. rewrite fmap_is_Some in Hq.
    destruct Hq as [qpg Hq]. mem_auto. rewrite Hnx, Hpr. destruct nxt as [n|].
    + destruct (Hnxt n eq_refl) as [Hnn Hn]. unfold hdr in Hn. rewrite fmap_is_Some in Hn.
      destruct Hn as [npg Hn]. specialize (Hpn q eq_refl).
      assert (q <> n) by congruence. mem_auto. apply HQ; [done|done|solve_view|solve_view].
    + mem_auto. apply HQ; [done|done|solve_view|solve_view].
  - mem_auto. rewrite Hnx, Hpr. destruct nxt as [n|].
    + destruct (Hnxt n eq_refl) as [Hnn Hn]. unfold hdr in Hn. rewrite fmap_is_Some in Hn.
      destruct Hn as [npg Hn]. mem_auto. apply HQ; [done|done|solve_view|solve_view].
    + mem_auto. apply HQ; [done|done|solve_view|solve_view].
Qed.

(** ** The allocator invariant *)

Definition is_head (st : Z) : Prop := st = PG_BUDDY \/ st = PG_ALLOCATED.

(** A block of [2^k] pages at [x]: aligned, inside the array, and every page but
    the first is a tail page. *)
Definition block_ok (s : mem) (x k : Z) : Prop :=
  0 <= k <= PAGE_MAX_ORDER /\ (2 ^ k | x) /\ 0 <= x /\ x + 2 ^ k <= mem_nr_pages s /\
  forall y, x < y < x + 2 ^ k -> exists o, hdr s y = Some (PG_TAIL, o).

Definition upd_list (L : Z -> list Z) (k : Z) (l : list Z) (j : Z) : list Z :=
  if decide (j = k) then l else L j.

(** [L k] is the content of the free list of order [k].  The blocks described
    are those that start at a page of [P]: an operation in progress takes pages
    out of [P] while their block is being rebuilt. *)
Record buddy_inv (P : Z -> Prop) (L : Z -> list Z) (s : mem) : Prop := {
  bi_dom : forall x, is_Some (hdr s x) <-> 0 <= x < mem_nr_pages s;
  bi_block : forall x st k, P x -> hdr s x = Some (st, k) -> is_head st -> block_ok s x k;
  bi_head : forall k, 0 <= k <= PAGE_MAX_ORDER -> free_matrix s !! k = head (L k);
  bi_dll : forall k, 0 <= k <= PAGE_MAX_ORDER -> dllseg s None (L k) None;
  bi_nodup : forall k, 0 <= k <= PAGE_MAX_ORDER -> NoDup (L k);
  bi_mem : forall x k, 0 <= k <= PAGE_MAX_ORDER ->
    x ∈ L k <-> P x /\ hdr s x = Some (PG_BUDDY, k);
}.

Definition everywhere : Z -> Prop := fun _ => True.
Definition except (p : Z) : Z -> Prop := fun x => x <> p.

Lemma block_ok_frame s s' x k :
  mem_nr_pages s' = mem_nr_pages s ->
  (forall y, x < y < x + 2 ^ k -> hdr s' y = hdr s y) -> block_ok s x k -> block_ok s' x k.
Proof.
  intros Hnr Hf (?&?&?&?&Ht). split_and!; try done; try lia; try (by rewrite Hnr).
  intros y Hy. rewrite Hf by done. by apply Ht.
Qed.

Lemma buddy_inv_ext P P' L s : (forall x, P x <-> P' x) -> buddy_inv P L s -> buddy_inv P' L s.
Proof.
  intros HP [H1 H2 H3 H4 H5 H6]. split; try done.
  - intros x st k Hx. apply H2. by apply HP.
  - intros x k Hk. rewrite <- HP. by apply H6.
Qed.

(** Lists of different orders share no page. *)
Lemma lists_disjoint P L s x j k :
  buddy_inv P L s -> 0 <= j <= PAGE_MAX_ORDER -> 0 <= k <= PAGE_MAX_ORDER ->
  x ∈ L j -> x ∈ L k -> j = k.
Proof.
  intros HI Hj Hk Hxj Hxk. apply (bi_mem _ _ _ HI) in Hxj as [_ Hxj], Hxk as [_ Hxk]; congruence.
Qed.

Lemma head_elem (l : list Z) h : head l = Some h -> h ∈ l.
Proof. destruct l; [done|]. intros [=]. set_solver. Qed.
Lemma last_elem (l : list Z) h : last l = Some h -> h ∈ l.
Proof. intros Hl. apply last_Some in Hl as [l' ->]. set_solver. Qed.

(** A new free block at [p]. *)
Lemma inserted_inv P L s s' p st0 k :
  buddy_inv P L s -> hdr s p = Some (st0, k) -> ~ (P p /\ st0 = PG_BUDDY) -> block_ok s p k ->
  (forall x st j, P x -> hdr s x = Some (st, j) -> is_head st -> ~ x < p < x + 2 ^ j) ->
  same_frame s s' -> free_matrix s' = <[k := p]> (free_matrix s) ->
  (forall x, hdr s' x = if decide (x = p) then Some (PG_BUDDY, k) else hdr s x) ->
  (forall x, links s' x =
     if decide (x = p) then Some (None, free_matrix s !! k)
     else if decide (free_matrix s !! k = Some x) then (fun ab => (Some p, ab.2)) <$> links s x
     else links s x) ->
  buddy_inv (fun x => P x \/ x = p) (upd_list L k (p :: L k)) s'.
Proof.
  intros HI Hp Hfree Hblk Hcov [Hnr _] Hfm Hhdr Hlinks. pose proof (proj1 Hblk) as Hk.
  assert (forall j, 0 <= j <= PAGE_MAX_ORDER -> p ∉ L j) as Hpl.
  { intros j Hj Hin. apply (bi_mem _ _ _ HI _ _ Hj) in Hin as [? E]. rewrite Hp in E. simplify_eq. tauto. }
  rewrite (bi_head _ _ _ HI k Hk) in Hlinks. split.
  - intros x. rewrite Hhdr, Hnr, <- (bi_dom _ _ _ HI). case_decide; [subst|done]. by rewrite Hp.
  - intros x st j Hx. rewrite Hhdr. case_decide as Hxp; subst.
    + intros [= <- <-] _. eapply block_ok_frame; [done| |done].
      intros y Hy. rewrite Hhdr, decide_False by lia. done.
    + intros Hxh Hhd. destruct Hx as [Hx|?]; [|done].
      eapply block_ok_frame; [done| |by eapply (bi_block _ _ _ HI)].
      intros y Hy. rewrite Hhdr, decide_False; [done|]. intros ->. by apply (Hcov x st j).
  - intros j Hj. rewrite Hfm. unfold upd_list. case_decide; subst; [by rewrite lookup_insert_eq|].
    rewrite lookup_insert_ne by done. by apply (bi_head _ _ _ HI).
  - intros j Hj. unfold upd_list. case_decide as Hjk; subst.
    + simpl. split; [rewrite Hlinks, decide_True by done; by destruct (L k)|].
      eapply dllseg_set_prev; [by apply (bi_nodup _ _ _ HI)|by apply (bi_dll _ _ _ HI)|].
      intros x Hx. rewrite Hlinks. rewrite decide_False; [done|]. intros ->. by apply (Hpl k).
    + eapply dllseg_frame; [|by apply (bi_dll _ _ _ HI)]. intros x Hx. rewrite Hlinks.
      rewrite decide_False by (intros ->; by apply (Hpl j)).
      rewrite decide_False; [done|]. intros Hh%head_elem. by apply Hjk, (lists_disjoint P L s x).
  - intros j Hj. unfold upd_list. case_decide; [subst|by apply (bi_nodup _ _ _ HI)].
    apply NoDup_cons. split; [by apply Hpl|by apply (bi_nodup _ _ _ HI)].
  - intros x j Hj. rewrite Hhdr. unfold upd_list. pose proof (bi_mem _ _ _ HI x j Hj) as Hm.
    specialize (Hpl j Hj). repeat case_decide; subst; set_solver.
Qed.

(** A free block at [p] taken out of its list. *)
Lemma removed_inv P L s s' k p l1 l2 :
  buddy_inv P L s -> 0 <= k <= PAGE_MAX_ORDER -> L k = l1 ++ p :: l2 -> same_frame s s' ->
  free_matrix s' = (if last l1 then free_matrix s
                    else partial_alter (fun _ => head l2) k (free_matrix s)) ->
  (forall x, hdr s' x = hdr s x) ->
  (forall x, links s' x =
     if decide (x = p) then Some (None, None)
     else if decide (last l1 = Some x) then (fun ab => (ab.1, head l2)) <$> links s x
     else if decide (head l2 = Some x) then (fun ab => (last l1, ab.2)) <$> links s x
     else links s x) ->
  buddy_inv (fun x => P x /\ x <> p) (upd_list L k (l1 ++ l2)) s'.
Proof.
  intros HI Hk HL [Hnr _] Hfm Hhdr Hlinks.
  pose proof (bi_nodup _ _ _ HI k Hk) as Hnd. rewrite HL in Hnd.
  apply NoDup_app in Hnd as (Hnd1&Hnd12&[Hp2 Hnd2]%NoDup_cons).
  assert (p ∉ l1) as Hp1 by set_solver.
  pose proof (bi_dll _ _ _ HI k Hk) as Hd. rewrite HL in Hd.
  apply dllseg_app in Hd as [Hd1 [Hdp Hd2]]. simpl in Hd1.
  split.
  - intros x. rewrite Hhdr, Hnr. apply (bi_dom _ _ _ HI).
  - intros x st j [Hx _] Hh Hs. rewrite Hhdr in Hh. eapply block_ok_frame; [done| |by eapply (bi_block _ _ _ HI)].
    intros y _. apply Hhdr.
  - intros j Hj. rewrite Hfm. unfold upd_list. pose proof (bi_head _ _ _ HI j Hj) as Hh.
    destruct l1 as [|a l1].
    + simpl. rewrite lookup_partial_alter. repeat case_decide; congruence.
    + rewrite last_cons. destruct (last l1); (case_decide; [subst|done]); by rewrite Hh, HL.
  - intros j Hj. unfold upd_list. case_decide as Hjk; subst.
    + apply dllseg_app. split.
      * eapply dllseg_set_next; [done|exact Hd1|]. intros x Hx. rewrite Hlinks.
        rewrite decide_False by set_solver. case_decide; [by destruct (head l2)|].
        apply decide_False. intros Hh%head_elem. set_solver.
      * eapply dllseg_set_prev; [done|exact Hd2|]. intros x Hx. rewrite Hlinks.
        rewrite decide_False by set_solver. rewrite (decide_False (P := last l1 = Some x)).
        -- by destruct (last l1).
        -- intros Hh%last_elem. set_solver.
    + eapply dllseg_frame; [|by apply (bi_dll _ _ _ HI)]. intros x Hx. rewrite Hlinks.
      assert (forall y, y ∈ L k -> x <> y) as Hxy.
      { intros y Hy ->. by apply Hjk, (lists_disjoint P L s y). }
      rewrite HL in Hxy. rewrite !decide_False; [done|..].
      * intros Hh%head_elem. apply (Hxy x); set_solver.
      * intros Hh%last_elem. apply (Hxy x); set_solver.
      * intros ->. apply (Hxy p); set_solver.
  - intros j Hj. unfold upd_list. case_decide; [|by apply (bi_nodup _ _ _ HI)].
    apply NoDup_app. set_solver.
  - intros x j Hj. rewrite Hhdr. unfold upd_list. pose proof (bi_mem _ _ _ HI x j Hj) as Hm.
    case_decide; subst; [rewrite HL in Hm; set_solver|].
    rewrite Hm. split; [|tauto]. intros [HPx Hx]. split_and!; try done. intros ->.
    assert (p ∈ L k) as [_ Hpk]%(bi_mem _ _ _ HI p k Hk) by (rewrite HL; set_solver). congruence.
Qed.

(** ** The list operations preserve the invariant *)

Definition adjoin (P : Z -> Prop) (p : Z) : Z -> Prop := fun x => P x \/ x = p.
Definition without (P : Z -> Prop) (p : Z) : Z -> Prop := fun x => P x /\ x <> p.

(** No block of [P] has [p] among its tail pages. *)
Definition uncovered (P : Z -> Prop) (s : mem) (p : Z) : Prop :=
  forall x st j, P x -> hdr s x = Some (st, j) -> is_head st -> ~ x < p < x + 2 ^ j.

Lemma list_hdr P L s x k :
  buddy_inv P L s -> 0 <= k <= PAGE_MAX_ORDER -> x ∈ L k -> hdr s x = Some (PG_BUDDY, k).
Proof. intros HI Hk Hx. by apply (bi_mem _ _ _ HI x k Hk) in Hx as [_ ?]. Qed.

Lemma list_links P L s k l1 p l2 :
  buddy_inv P L s -> 0 <= k <= PAGE_MAX_ORDER -> L k = l1 ++ p :: l2 ->
  links s p = Some (last l1, head l2).
Proof.
  intros HI Hk HL. pose proof (bi_dll _ _ _ HI k Hk) as Hd. rewrite HL in Hd.
  apply dllseg_app in Hd as [_ [Hp _]]. rewrite Hp. by destruct (last l1), (head l2).
Qed.

(** The neighbours of a list element differ from it and are pages. *)
Lemma list_neighbours P L s k l1 p l2 :
  buddy_inv P L s -> 0 <= k <= PAGE_MAX_ORDER -> L k = l1 ++ p :: l2 ->
  (forall q, last l1 = Some q -> (q <> p /\ is_Some (hdr s q)) /\ head l2 <> Some q) /\
  (forall n, head l2 = Some n -> n <> p /\ is_Some (hdr s n)).
Proof.
  intros HI Hk HL. pose proof (bi_nodup _ _ _ HI k Hk) as Hnd. rewrite HL in Hnd.
  apply NoDup_app in Hnd as (_&H12&[Hp2 _]%NoDup_cons).
  assert (forall x, x ∈ l1 \/ x ∈ l2 -> is_Some (hdr s x)) as Hin.
  { intros x Hx. rewrite (list_hdr P L s x k); [done..|]. rewrite HL. set_solver. }
  split.
  - intros q Hq%last_elem. split; [split; [set_solver|by apply Hin; left]|].
    intros Hh%head_elem. set_solver.
  - intros n Hn%head_elem. split; [set_solver|by apply Hin; right].
Qed.

Lemma insert_free_inv P L s p st0 k (Q : unit -> mem -> Prop) :
  buddy_inv P L s -> hdr s p = Some (st0, k) -> ~ (P p /\ st0 = PG_BUDDY) -> block_ok s p k ->
  uncovered P s p ->
  (forall s', buddy_inv (adjoin P p) (upd_list L k (p :: L k)) s' -> same_frame s s' ->
     (forall x, hdr s' x = if decide (x = p) then Some (PG_BUDDY, k) else hdr s x) -> Q tt s') ->
  wp (insert_free p) Q s.
Proof.
  intros HI Hp Hfree Hblk Hcov HQ. pose proof (proj1 Hblk) as Hk.
  eapply insert_free_spec; [exact Hp|lia|..].
  - intros h Hh. rewrite (bi_head _ _ _ HI k Hk) in Hh. apply head_elem in Hh.
    rewrite (list_hdr P L s h k) by done. split; [|done]. intros ->.
    apply (bi_mem _ _ _ HI p k Hk) in Hh as [? E]. rewrite Hp in E. simplify_eq. tauto.
  - intros s' Hsf Hfm Hh Hl. apply HQ; [|done..]. by eapply inserted_inv.
Qed.

Lemma pop_free_inv P L s k (Q : option Z -> mem -> Prop) :
  buddy_inv P L s -> 0 <= k <= PAGE_MAX_ORDER ->
  (L k = [] -> Q None s) ->
  (forall p l s', L k = p :: l -> buddy_inv (without P p) (upd_list L k l) s' -> same_frame s s' ->
     (forall x, hdr s' x = hdr s x) -> Q (Some p) s') ->
  wp (pop_free k) Q s.
Proof.
  intros HI Hk Hnone HQ. pose proof (bi_head _ _ _ HI k Hk) as Hhd.
  destruct (L k) as [|p l] eqn:EL; simpl in Hhd.
  { apply pop_free_spec; [lia|congruence|auto|congruence]. }
  pose proof (list_links P L s k [] p l HI Hk EL) as Hlk. simpl in Hlk.
  destruct (list_neighbours P L s k [] p l HI Hk EL) as [_ Hn].
  apply pop_free_spec; [lia|..].
  - intros p' Hp'. exists (head l). rewrite Hhd in Hp'. simplify_eq. done.
  - congruence.
  - intros p' nxt s' Hp' Hnx Hsf Hfm Hh Hl. rewrite Hhd in Hp'. simplify_eq.
    eapply (HQ p' l); [done| |done..].
    eapply (removed_inv P L s s' k p' [] l); [done..|].
    intros x. rewrite Hl. done.
Qed.

Lemma remove_free_inv P L s p k (Q : unit -> mem -> Prop) :
  buddy_inv P L s -> P p -> 0 <= k <= PAGE_MAX_ORDER -> hdr s p = Some (PG_BUDDY, k) ->
  (forall l1 l2 s', L k = l1 ++ p :: l2 -> buddy_inv (without P p) (upd_list L k (l1 ++ l2)) s' ->
     same_frame s s' -> (forall x, hdr s' x = hdr s x) -> Q tt s') ->
  wp (remove_free p) Q s.
Proof.
  intros HI HP Hk Hp HQ.
  assert (p ∈ L k) as (l1&l2&HL)%list_elem_of_split by (by apply (bi_mem _ _ _ HI)).
  pose proof (list_links P L s k l1 p l2 HI Hk HL) as Hlk.
  destruct (list_neighbours P L s k l1 p l2 HI Hk HL) as [Hprv Hnxt].
  eapply (remove_free_spec p k (last l1) (head l2)); [done|lia|done|..].
  - intros Hl. apply last_None in Hl. subst. rewrite (bi_head _ _ _ HI k Hk), HL. done.
  - intros q Hq. by apply Hprv.
  - intros n Hn. by apply Hnxt.
  - intros q Hq. by apply Hprv.
  - intros s' Hsf Hfm Hh Hl. eapply HQ; [done| |done|done]. by eapply removed_inv.
Qed.

(** ** Header updates outside the described blocks *)

(** Headers change only from tail to tail, or at pages outside [P] that no block
    of [P] covers. *)
Definition retouched (P : Z -> Prop) (s s' : mem) : Prop :=
  mem_nr_pages s' = mem_nr_pages s /\ free_matrix s' = free_matrix s /\
  (forall x, links s' x = links s x) /\
  forall x, hdr s' x = hdr s x \/
    (exists o o', hdr s x = Some (PG_TAIL, o) /\ hdr s' x = Some (PG_TAIL, o')) \/
    (~ P x /\ uncovered P s x /\ is_Some (hdr s x) /\ is_Some (hdr s' x)).

Lemma tail_not_head : ~ is_head PG_TAIL.
Proof. by intros [|]. Qed.

Lemma retouched_inv P L s s' : retouched P s s' -> buddy_inv P L s -> buddy_inv P L s'.
Proof.
  intros (Hnr&Hfm&Hl&Hh) HI. split.
  - intros x. rewrite Hnr, <- (bi_dom _ _ _ HI).
    destruct (Hh x) as [->|[(o&o'&->&->)|(_&_&[? ->]&[? ->])]]; [done|..]; by split.
  - intros x st k HP Hx Hs. destruct (Hh x) as [E|[(o&o'&E&E')|(?&_)]]; [| |done].
    + rewrite E in Hx. pose proof (bi_block _ _ _ HI x st k HP Hx Hs) as (?&?&?&?&Ht).
      split_and!; try lia; try done.
      intros y Hy. destruct (Hh y) as [->|[(o&o'&_&->)|(_&Hu&_)]]; [by apply Ht|by eexists|].
      by destruct (Hu x st k HP Hx Hs Hy).
    + rewrite E' in Hx. simplify_eq. by apply tail_not_head in Hs.
  - intros k Hk. rewrite Hfm. by apply (bi_head _ _ _ HI).
  - intros k Hk. eapply dllseg_frame; [|by apply (bi_dll _ _ _ HI)]. done.
  - apply (bi_nodup _ _ _ HI).
  - intros x k Hk. rewrite (bi_mem _ _ _ HI x k Hk).
    destruct (Hh x) as [->|[(o&o'&->&->)|(?&_)]]; [done| |tauto].
    split; intros [_ [=]].
Qed.

Lemma retouched_uncovered P s s' y : retouched P s s' -> uncovered P s y -> uncovered P s' y.
Proof.
  intros (_&_&_&Hh) Hu x st k HP Hx Hs. destruct (Hh x) as [E|[(o&o'&_&E)|(?&_)]]; [| |done].
  - rewrite E in Hx. by eapply Hu.
  - rewrite E in Hx. simplify_eq. by apply tail_not_head in Hs.
Qed.

(** A page of [P] that is a head is uncovered, and so is every page of a block
    that is disjoint from the blocks of [P] for this reason. *)
Lemma head_uncovered P L s p st k :
  buddy_inv P L s -> hdr s p = Some (st, k) -> is_head st -> uncovered P s p.
Proof.
  intros HI Hp Hs x st' j HP Hx Hs' Hin.
  destruct (bi_block _ _ _ HI x st' j HP Hx Hs') as (_&_&_&_&Ht).
  destruct (Ht p Hin) as [o Ho]. rewrite Hp in Ho. simplify_eq. by apply tail_not_head.
Qed.

Lemma block_uncovered P L s p k st j y :
  buddy_inv P L s -> ~ P p -> hdr s p = Some (st, k) -> is_head st -> block_ok s p j ->
  p <= y < p + 2 ^ j -> uncovered P s y.
Proof.
  intros HI HnP Hp Hs (_&_&_&_&Ht) Hy x st' i HP Hx Hs' Hin.
  assert (x <> p) by (by intros ->).
  destruct (decide (x < p)).
  - eapply (head_uncovered P L s p st k HI Hp Hs x); [done..|lia].
  - destruct (Ht x) as [o Ho]; [lia|]. rewrite Hx in Ho. simplify_eq. by apply tail_not_head.
Qed.

Lemma upd_page_hdr s p pg f x :
  mem_map s !! p = Some pg ->
  hdr (set_mem_map (<[p := f pg]> (mem_map s)) s) x =
  if decide (x = p) then Some (pg_state (f pg), pg_order (f pg)) else hdr s x.
Proof. intros Hp. rewrite hdr_insert. repeat case_decide; congruence. Qed.

(** Updating the state or the order of a page. *)
Lemma wp_upd_hdr p st k f st' k' s (Q : unit -> mem -> Prop) :
  hdr s p = Some (st, k) ->
  (forall pg, pg_state pg = st -> pg_order pg = k -> pg_state (f pg) = st' /\ pg_order (f pg) = k' /\
     pg_prev (f pg) = pg_prev pg /\ pg_next (f pg) = pg_next pg) ->
  (forall s', same_frame s s' -> free_matrix s' = free_matrix s ->
     (forall x, links s' x = links s x) ->
     (forall x, hdr s' x = if decide (x = p) then Some (st', k') else hdr s x) -> Q tt s') ->
  wp (upd_page p f) Q s.
Proof.
  intros (pg&Hp&Hst&Hk)%hdr_Some Hf HQ. destruct (Hf pg Hst Hk) as (E1&E2&E3&E4).
  eapply wp_upd_page; [done|]. apply HQ; [done|done|..]; intros x.
  - rewrite links_insert. case_decide; [subst|done]. unfold links. by rewrite Hp, E3, E4.
  - rewrite (upd_page_hdr s p pg) by done. by rewrite E1, E2.
Qed.

Lemma wp_get_hdr p st k s (Q : page -> mem -> Prop) :
  hdr s p = Some (st, k) ->
  (forall pg, pg_state pg = st -> pg_order pg = k -> Q pg s) -> wp (get_page p) Q s.
Proof. intros (pg&Hp&Hst&Hk)%hdr_Some HQ. eapply wp_get_page; eauto. Qed.

(** ** Pages that start no block *)

(** Pages that are not the first page of a block can join the described ones. *)
Lemma nonheads_join P P' L s :
  buddy_inv P L s -> (forall x, P x -> P' x) ->
  (forall x st k, P' x -> hdr s x = Some (st, k) -> is_head st -> P x) -> buddy_inv P' L s.
Proof.
  intros HI HP HP'. split; try apply HI.
  - intros x st j Hx Hh Hs. apply (bi_block _ _ _ HI x st j); [|done|done]. by eapply HP'.
  - intros x j Hj. rewrite (bi_mem _ _ _ HI x j Hj). split; intros [Hx Hh]; (split; [|done]); [by apply HP|].
    eapply HP'; [done|exact Hh|by left].
Qed.

Lemma tail_joins P L s b o :
  buddy_inv (without P b) L s -> hdr s b = Some (PG_TAIL, o) -> buddy_inv P L s.
Proof.
  intros HI Hb. eapply nonheads_join; [exact HI|by intros x []|]. intros x st k Hx Hh Hs. split; [done|].
  intros ->. rewrite Hb in Hh. simplify_eq. by apply tail_not_head in Hs.
Qed.
