(* ===== verification/BuddyAlloc.v ===== *)
(** * The buddy allocator: allocation

    [alloc_pages] preserves the allocator invariant, moves exactly one aligned
    block of the requested size from the free pages to the allocated ones, and
    fails only when no block is large enough. *)

From S2P Require Import Prelude Kmath Mem Buddy BuddyFacts.
From Stdlib Require Import ZArith Lia Znumtheory.
From stdpp Require Import base gmap list strings.

Open Scope Z_scope.

(** ** Free and allocated pages *)

Definition in_block (x k y : Z) : Prop := x <= y < x + 2 ^ k.

(** [y] belongs to a free block that starts at a page of [P]. *)
Definition free_in (P : Z -> Prop) (s : mem) (y : Z) : Prop :=
  exists x k, P x /\ hdr s x = Some (PG_BUDDY, k) /\ in_block x k y.
Definition free_page (s : mem) (y : Z) : Prop := free_in everywhere s y.
Definition allocated (s : mem) (x k : Z) : Prop := hdr s x = Some (PG_ALLOCATED, k).

Lemma in_block_head x k : 0 <= k -> in_block x k x.
Proof. unfold in_block. intros. pose proof (Z.pow_pos_nonneg 2 k). lia. Qed.

(** Blocks are pairwise disjoint. *)
Lemma blocks_disjoint P L s x y st st' j k z :
  buddy_inv P L s -> P x -> P y -> hdr s x = Some (st, j) -> hdr s y = Some (st', k) ->
  is_head st -> is_head st' -> in_block x j z -> in_block y k z -> x = y.
Proof.
  intros HI Px Py Hx Hy Hsx Hsy Hz Hz'. unfold in_block in *.
  destruct (Z.lt_trichotomy x y) as [Hlt|[->|Hlt]]; [|done|].
  - destruct (head_uncovered P L s y st' k HI Hy Hsy x st j); [done..|lia].
  - destruct (head_uncovered P L s x st j HI Hx Hsx y st' k); [done..|lia].
Qed.

Lemma block_ok_halves s p j :
  block_ok s p j -> 0 < j -> block_ok s p (j - 1) /\ block_ok s (p + 2 ^ (j - 1)) (j - 1) /\
  (exists o, hdr s (p + 2 ^ (j - 1)) = Some (PG_TAIL, o)) /\ 2 ^ j = 2 ^ (j - 1) + 2 ^ (j - 1).
Proof.
  intros (Hk&Hd&Hx&Hn&Ht) Hj. assert (2 ^ j = 2 ^ (j - 1) + 2 ^ (j - 1)) as E.
  { replace j with ((j - 1) + 1) at 1 by lia. rewrite Z.pow_add_r by lia. lia. }
  assert (0 < 2 ^ (j - 1)) by (apply Z.pow_pos_nonneg; lia).
  assert (2 ^ (j - 1) | p).
  { etrans; [|exact Hd]. rewrite E. apply Z.divide_add_r; apply Z.divide_refl. }
  split_and!; [..|done].
  - split_and!; [lia|lia|done|lia|lia|]. intros y Hy. apply Ht. lia.
  - split_and!; [lia|lia| |lia|lia|].
    + apply Z.divide_add_r; [done|apply Z.divide_refl].
    + intros y Hy. apply Ht. lia.
  - apply Ht. lia.
Qed.

(** ** The search *)

Lemma alloc_search_spec L s n : forall i (Q : option Z -> mem -> Prop),
  buddy_inv everywhere L s -> 0 <= i -> i + Z.of_nat n = PAGE_MAX_ORDER + 1 ->
  ((forall k, i <= k <= PAGE_MAX_ORDER -> L k = []) -> Q None s) ->
  (forall k p l s', i <= k <= PAGE_MAX_ORDER -> (forall j, i <= j < k -> L j = []) -> L k = p :: l ->
     buddy_inv (except p) (upd_list L k l) s' -> same_frame s s' ->
     (forall x, hdr s' x = hdr s x) -> Q (Some p) s') ->
  wp (alloc_search i n) Q s.
Proof.
  induction n as [|n IH]; intros i Q HI Hi Hn Hnone HQ; simpl.
  { wp_step. apply Hnone. intros. lia. }
  unfold PAGE_MAX_ORDER in *. wp_step. eapply pop_free_inv; [exact HI|unfold PAGE_MAX_ORDER; lia|..].
  - intros HL. rewrite (u8_small (i + 1)) by lia. apply IH; [done|lia|lia|..].
    + intros Hall. apply Hnone. intros k Hk. destruct (decide (k = i)) as [->|]; [done|]. apply Hall. lia.
    + intros k p l s' Hk Hlow. apply HQ; [lia|]. intros j Hj.
      destruct (decide (j = i)) as [->|]; [done|]. apply Hlow. lia.
  - intros p l s' HL HI' Hsf Hh. wp_step. eapply (HQ i p l); [lia|intros; lia|done| |done|done].
    eapply buddy_inv_ext; [|exact HI']. intros x. split; [by intros [_ ?]|done].
Qed.

(** ** Splitting *)

(** One halving step: the upper half becomes a free block. *)
Definition split_inv (s0 : mem) (p i : Z) (L : Z -> list Z) (j : Z) (s : mem) : Prop :=
  buddy_inv (except p) L s /\ hdr s p = Some (PG_BUDDY, j) /\ block_ok s p j /\ same_frame s0 s /\
  (forall x, ~ in_block p i x -> hdr s x = hdr s0 x) /\
  (forall x k, allocated s x k <-> allocated s0 x k) /\
  (forall y, free_page s0 y <-> free_in (except p) s y \/ in_block p j y) /\ j <= i.

Lemma same_frame_trans s1 s2 s3 : same_frame s1 s2 -> same_frame s2 s3 -> same_frame s1 s3.
Proof. unfold same_frame. intuition congruence. Qed.

Lemma except_adjoin p q x : q <> p -> adjoin (except p) q x <-> except p x.
Proof. unfold adjoin, except. intuition congruence. Qed.

(** The headers after a halving step at a page that was [p]'s tail. *)
Lemma split_headers s0 p i L j s s' o :
  split_inv s0 p i L j s -> 0 < j ->
  let b := p + 2 ^ (j - 1) in
  hdr s b = Some (PG_TAIL, o) ->
  (forall x, hdr s' x = if decide (x = b) then Some (PG_BUDDY, j - 1)
                        else if decide (x = p) then Some (PG_BUDDY, j - 1) else hdr s x) ->
  (forall x, ~ in_block p i x -> hdr s' x = hdr s0 x) /\
  (forall x k, allocated s' x k <-> allocated s0 x k) /\
  (forall y, free_page s0 y <-> free_in (except p) s' y \/ in_block p (j - 1) y).
Proof.
  intros (HI&Hp&Hblk&_&Hout&Hal&Hfr&Hji) Hj b Hb Hh.
  destruct (block_ok_halves s p j Hblk Hj) as (_&_&_&E).
  assert (0 < 2 ^ (j - 1)) by (apply Z.pow_pos_nonneg; lia).
  assert (2 ^ j <= 2 ^ i) by (apply Z.pow_le_mono_r; lia).
  unfold in_block, allocated in *. split_and!.
  - intros x Hx. rewrite Hh, !decide_False by lia. by apply Hout.
  - intros x k. rewrite <- Hal, Hh. repeat case_decide; subst; [|rewrite Hp|done]; try rewrite Hb; split; intros [=].
  - intros y. rewrite Hfr. unfold free_in, except, in_block. split.
    + intros [(x&k&Hne&Hx&Hin)|Hin].
      * left. exists x, k. rewrite Hh, !decide_False; [done|done|]. intros ->. by rewrite Hb in Hx.
      * destruct (decide (y < b)); [right; lia|]. left. exists b, (j - 1).
        rewrite Hh, decide_True by done. split_and!; [lia|done|lia|lia].
    + intros [(x&k&Hne&Hx&Hin)|Hin]; [|right; lia].
      rewrite Hh in Hx. case_decide; subst.
      * simplify_eq. right. lia.
      * rewrite decide_False in Hx by done. left. by exists x, k.
Qed.

(** One iteration of the loop body. *)
Lemma split_step s0 p i L j s s1 s2 :
  split_inv s0 p i L j s -> 0 < j ->
  let b := p + 2 ^ (j - 1) in
  same_frame s s1 -> free_matrix s1 = free_matrix s -> (forall x, links s1 x = links s x) ->
  (forall x, hdr s1 x = if decide (x = p) then Some (PG_BUDDY, j - 1) else hdr s x) ->
  same_frame s1 s2 -> free_matrix s2 = free_matrix s1 -> (forall x, links s2 x = links s1 x) ->
  (forall x, hdr s2 x = if decide (x = b) then Some (PG_TAIL, j - 1) else hdr s1 x) ->
  wp (insert_free b) (fun _ s' => exists L', split_inv s0 p i L' (j - 1) s') s2.
Proof.
  intros HS Hj b Hf1 Hm1 Hl1 Hh1 Hf2 Hm2 Hl2 Hh2. pose proof HS as (HI&Hp&Hblk&Hsf&_).
  destruct (block_ok_halves s p j Hblk Hj) as (Hlo&Hhi&[o Hb]&E). fold b in Hhi, Hb.
  assert (0 < 2 ^ (j - 1)) by (apply Z.pow_pos_nonneg; lia).
  assert (b <> p) as Hbp by (unfold b; lia).
  pose proof (block_uncovered (except p) L s p j PG_BUDDY j) as Hun.
  assert (forall y, p <= y < p + 2 ^ j -> uncovered (except p) s y) as Hu.
  { intros y Hy. eapply Hun; [done|by intros []|done|by left|done|done]. }
  assert (retouched (except p) s s2) as Hr.
  { destruct Hf1, Hf2. split_and!; [congruence|congruence|congruence|].
    intros x. rewrite Hh2, Hh1. case_decide as Hxb; [subst; right; left; eauto|].
    case_decide; [subst|by left]. right. right. rewrite Hp.
    split_and!; [by intros []|apply Hu; lia|done|done]. }
  pose proof (retouched_inv _ _ _ _ Hr HI) as HI2.
  eapply (insert_free_inv _ _ _ b PG_TAIL (j - 1)); [exact HI2|by rewrite Hh2, decide_True|by intros [_ [=]]|..].
  - eapply block_ok_frame; [apply Hr| |exact Hhi]. intros y Hy. rewrite Hh2, Hh1, !decide_False by lia. done.
  - eapply retouched_uncovered; [exact Hr|]. apply Hu. unfold b. lia.
  - intros s' HI' Hsf' Hh'. exists (upd_list L (j - 1) (b :: L (j - 1))).
    assert (forall x, hdr s' x = if decide (x = b) then Some (PG_BUDDY, j - 1)
              else if decide (x = p) then Some (PG_BUDDY, j - 1) else hdr s x) as Hfin.
    { intros x. rewrite Hh', Hh2, Hh1. by repeat case_decide. }
    destruct (split_headers s0 p i L j s s' o HS Hj Hb Hfin) as (G1&G2&G3).
    assert (same_frame s s') as Hss by (by eapply same_frame_trans, same_frame_trans).
    split_and!; try done.
    + eapply buddy_inv_ext; [|exact HI']. intros x. by apply except_adjoin.
    + by rewrite Hfin, decide_False, decide_True by done.
    + eapply block_ok_frame; [apply Hss| |exact Hlo]. intros y Hy. rewrite Hfin, !decide_False by lia. done.
    + by eapply same_frame_trans.
    + pose proof (proj2 (proj2 (proj2 (proj2 (proj2 (proj2 (proj2 HS))))))). lia.
Qed.

Lemma split_loop_spec s0 p i k fuel : forall L j s,
  split_inv s0 p i L j s -> 0 <= k <= j -> (Z.to_nat (j - k) < fuel)%nat ->
  wp (split_loop p k fuel) (fun _ s' => exists L', split_inv s0 p i L' k s') s.
Proof.
  induction fuel as [|fuel IH]; intros L j s HS Hk Hf; [lia|]. pose proof HS as (_&Hp&Hblk&_).
  simpl. wp_step. eapply wp_get_hdr; [exact Hp|]. intros pg Hst Hord. rewrite Hord, Z.gtb_ltb.
  destruct (Z.ltb_spec k j) as [Hlt|Hge].
  2:{ wp_step. exists L. by replace k with j by lia. }
  assert (0 < j) as Hj by lia. destruct (block_ok_halves s p j Hblk Hj) as (_&_&[o Hb]&_).
  assert (0 < 2 ^ (j - 1)) by (apply Z.pow_pos_nonneg; lia).
  destruct Hblk as [Hjm _]. unfold PAGE_MAX_ORDER in Hjm.
  wp_step. eapply (wp_upd_hdr p PG_BUDDY j _ PG_BUDDY (j - 1)); [exact Hp| |].
  { intros pg' E1 E2. simpl. by rewrite E1, u8_small by lia. }
  intros s1 Hf1 Hm1 Hl1 Hh1. wp_step. eapply wp_get_hdr; [by rewrite Hh1, decide_True|].
  intros pg1 _ ->. wp_step.
  eapply (wp_get_hdr _ PG_TAIL o); [by rewrite Hh1, decide_False by lia|]. intros bpg -> _. simpl.
  wp_step. eapply (wp_upd_hdr _ PG_TAIL o _ PG_TAIL (j - 1)).
  { by rewrite Hh1, decide_False by lia. }
  { intros pg' E1 _. simpl. by rewrite E1. }
  intros s2 Hf2 Hm2 Hl2 Hh2. wp_step. 
  eapply wp_mono; [exact (split_step s0 p i L j s s1 s2 HS Hj Hf1 Hm1 Hl1 Hh1 Hf2 Hm2 Hl2 Hh2)|].
  intros _ s' [L' HS']. eapply (IH L' (j - 1)); [done|lia|lia].
Qed.

(** ** alloc_pages *)

(** Marking the block being rebuilt as allocated completes the invariant. *)
Lemma allocated_inv L s s' p k :
  buddy_inv (except p) L s -> hdr s p = Some (PG_BUDDY, k) -> block_ok s p k ->
  same_frame s s' -> free_matrix s' = free_matrix s -> (forall x, links s' x = links s x) ->
  (forall x, hdr s' x = if decide (x = p) then Some (PG_ALLOCATED, k) else hdr s x) ->
  buddy_inv everywhere L s'.
Proof.
  intros HI Hp Hblk [Hnr Hman] Hfm Hl Hh.
  assert (buddy_inv (except p) L s') as HI'.
  { eapply retouched_inv; [|exact HI]. split_and!; [done|done|done|]. intros x. rewrite Hh.
    case_decide; [subst|by left]. right. right. rewrite Hp. split_and!; [by intros []| |done|done].
    eapply head_uncovered; [exact HI|exact Hp|by left]. }
  assert (hdr s' p = Some (PG_ALLOCATED, k)) as Hp' by (by rewrite Hh, decide_True).
  split; try apply HI'.
  - intros x st j _ Hx Hs. destruct (decide (x = p)) as [->|]; [|by eapply (bi_block _ _ _ HI')].
    rewrite Hp' in Hx. simplify_eq. eapply block_ok_frame; [exact Hnr| |exact Hblk].
    intros y Hy. rewrite Hh, decide_False by lia. done.
  - intros x j Hj. rewrite (bi_mem _ _ _ HI' x j Hj). split; [by intros [_ ?]|].
    intros [_ Hx]. split; [|done]. intros ->. by rewrite Hp' in Hx.
Qed.

(** The search result is where the splitting starts. *)
Lemma split_start L s s' i p l :
  buddy_inv everywhere L s -> 0 <= i <= PAGE_MAX_ORDER -> L i = p :: l ->
  buddy_inv (except p) (upd_list L i l) s' -> same_frame s s' -> (forall x, hdr s' x = hdr s x) ->
  split_inv s p i (upd_list L i l) i s'.
Proof.
  intros HI Hi HL HI' Hsf Hh.
  assert (hdr s p = Some (PG_BUDDY, i)) as Hp by (eapply list_hdr; [done..|]; rewrite HL; set_solver).
  split_and!; [done|by rewrite Hh| |done|done|..].
  - eapply block_ok_frame; [apply Hsf|done|]. eapply (bi_block _ _ _ HI); [done|exact Hp|by left].
  - intros x k. unfold allocated. by rewrite Hh.
  - intros y. unfold free_page, free_in. setoid_rewrite Hh. split.
    + intros (x&k&_&Hx&Hin). destruct (decide (x = p)) as [->|]; [|by left; exists x, k].
      right. congruence.
    + intros [(x&k&_&Hx&Hin)|Hin]; [by exists x, k|by exists p, i].
  - done.
Qed.

(** The block [p .. p + 2^k) has moved from the free to the allocated pages. *)
Definition moved_to_allocated (s s' : mem) (p k : Z) : Prop :=
  (forall y, free_page s' y <-> free_page s y /\ ~ in_block p k y) /\
  (forall y, in_block p k y -> free_page s y) /\
  (forall x j, allocated s' x j <-> allocated s x j \/ (x = p /\ j = k)).

Lemma split_finish s0 p i L k s s' :
  buddy_inv everywhere L s' -> split_inv s0 p i L k s ->
  (forall x, hdr s' x = if decide (x = p) then Some (PG_ALLOCATED, k) else hdr s x) ->
  moved_to_allocated s0 s' p k.
Proof.
  intros HI' (HI&Hp&Hblk&_&_&Hal&Hfr&_) Hh.
  assert (hdr s' p = Some (PG_ALLOCATED, k)) as Hp' by (by rewrite Hh, decide_True).
  assert (forall y, free_page s' y <-> free_in (except p) s y) as Hfr'.
  { intros y. unfold free_page, free_in. split; intros (x&j&HP&Hx&Hin); exists x, j.
    - rewrite Hh in Hx. case_decide; [done|]. done.
    - rewrite Hh, decide_False by done. done. }
  split_and!.
  - intros y. rewrite Hfr', Hfr. split; [|tauto]. intros Hf. split; [by left|]. intros Hin.
    apply Hfr' in Hf as (x&j&_&Hx&Hin'). assert (x = p) as ->; [|by rewrite Hp' in Hx].
    eapply (blocks_disjoint _ _ _ _ _ PG_BUDDY PG_ALLOCATED); [exact HI'|done|done|done|done|by left|by right|done|done].
  - intros y Hy. apply Hfr. by right.
  - intros x j. rewrite <- Hal. unfold allocated. rewrite Hh. case_decide; subst.
    + rewrite Hp. split; [intros [=]; right; by split|]. intros [[=]|[_ ->]]. done.
    + intuition congruence.
Qed.

Lemma alloc_pages_wp L s k :
  buddy_inv everywhere L s -> 0 <= k <= PAGE_MAX_ORDER ->
  wp (alloc_pages k) (fun r s' =>
    match r with
    | None => s' = s /\ forall j, k <= j <= PAGE_MAX_ORDER -> L j = []
    | Some p => same_frame s s' /\ (exists L', buddy_inv everywhere L' s') /\ block_ok s' p k /\
                allocated s' p k /\ moved_to_allocated s s' p k
    end) s.
Proof.
  intros HI Hk. unfold alloc_pages. rewrite Z.gtb_ltb.
  destruct (Z.ltb_spec PAGE_MAX_ORDER k); [lia|]. wp_step.
  eapply alloc_search_spec; [exact HI|lia|lia| |].
  { intros HL. wp_step. done. }
  intros i p l s' Hi _ HL HI' Hsf Hh.
  assert (0 <= i <= PAGE_MAX_ORDER) as Hi' by lia.
  wp_step. eapply wp_mono; [eapply split_loop_spec; [by apply split_start|lia|unfold PAGE_MAX_ORDER in *; lia]|].
  intros _ s1 [L1 HS]. pose proof HS as (HI1&Hp1&Hblk1&Hsf1&_). wp_step.
  eapply (wp_upd_hdr p PG_BUDDY k _ PG_ALLOCATED k); [exact Hp1|by intros pg _ <-|].
  intros s2 Hsf2 Hm2 Hl2 Hh2. wp_step.
  assert (buddy_inv everywhere L1 s2) as HI2 by (by eapply allocated_inv).
  split_and!; [by eapply same_frame_trans|by exists L1| | |by eapply split_finish].
  - eapply block_ok_frame; [apply Hsf2| |exact Hblk1]. intros y Hy. by rewrite Hh2, decide_False by lia.
  - unfold allocated. by rewrite Hh2, decide_True.
Qed.

(** ** Properties of allocation *)

(** A small allocator state: four pages in one free block of order 2. *)
Definition ex_buddy : mem :=
  mk_mem ({[0 := mk_page PG_BUDDY 2 None None; 1 := mk_page PG_TAIL 0 None None;
            2 := mk_page PG_TAIL 0 None None; 3 := mk_page PG_TAIL 0 None None]}) 4 ({[2 := 0]}) 0.
Definition ex_lists (k : Z) : list Z := if k =? 2 then [0] else [].

Lemma ex_buddy_hdr x :
  hdr ex_buddy x = if decide (x = 0) then Some (PG_BUDDY, 2)
                   else if decide (1 <= x <= 3) then Some (PG_TAIL, 0) else None.
Proof.
  destruct (decide (0 <= x <= 3)) as [Hx|Hx].
  - assert (x = 0 \/ x = 1 \/ x = 2 \/ x = 3) as [->|[->|[->| ->]]] by lia; reflexivity.
  - unfold hdr. rewrite !decide_False by lia. simpl. unfold ex_buddy. simpl.
    rewrite !lookup_insert_ne, lookup_singleton_ne by lia. done.
Qed.

Lemma ex_buddy_inv : buddy_inv everywhere ex_lists ex_buddy.
Proof.
  split.
  - intros x. rewrite ex_buddy_hdr. simpl. repeat case_decide; (split; [intros Hs; try by destruct Hs|]); try done; lia.
  - intros x st k _. rewrite ex_buddy_hdr. repeat case_decide; [|intros [= <- <-] []; done|done].
    subst. intros [= <- <-] _. unfold block_ok, PAGE_MAX_ORDER. change (2 ^ 2) with 4.
    split_and!; [lia|lia|apply Z.divide_0_r|lia|simpl; lia|].
    intros y Hy. exists 0. rewrite ex_buddy_hdr, decide_False, decide_True by lia. done.
  - intros k Hk. unfold ex_lists. destruct (Z.eqb_spec k 2) as [->|]; [done|].
    simpl. by rewrite lookup_singleton_ne by lia.
  - intros k Hk. unfold ex_lists. by destruct (Z.eqb_spec k 2) as [->|].
  - intros k Hk. unfold ex_lists. destruct (Z.eqb_spec k 2); [apply NoDup_singleton|apply NoDup_nil_2].
  - intros x k Hk. rewrite ex_buddy_hdr. unfold ex_lists. destruct (Z.eqb_spec k 2) as [->|].
    + rewrite list_elem_of_singleton. repeat case_decide; subst; split; try tauto; try done.
      all: intros [_ [=]].
    + rewrite elem_of_nil. repeat case_decide; split; try tauto; try done; intros [_ [=]]; congruence.
Qed.

(** Empty lists from [order] on mean that no free block is large enough. *)
Lemma no_block L s order : buddy_inv everywhere L s -> 0 <= order -> (forall k, order <= k <= PAGE_MAX_ORDER -> L k = []) ->
  forall x k, order <= k <= PAGE_MAX_ORDER -> hdr s x <> Some (PG_BUDDY, k).
Proof.
  intros HI Ho HL x k Hk Hx. assert (x ∈ L k) as Hin by (apply (bi_mem _ _ _ HI); [lia|done]).
  rewrite HL in Hin by lia. by apply elem_of_nil in Hin.
Qed.

(** C3: [alloc_pages] on a well-formed allocator never panics or faults for an
    order up to the maximum.  It returns [NULL] exactly when every free list of
    that order or above is empty, leaving the allocator unchanged; otherwise it
    returns an aligned block of exactly [2^order] pages, all of which were free,
    marks it allocated, takes exactly these pages out of the free pages, leaves
    all other allocations alone and re-establishes the allocator invariant. *)
Theorem alloc_pages_correct L s order :
  buddy_inv everywhere L s -> 0 <= order <= PAGE_MAX_ORDER ->
  exists r s' tr, alloc_pages order s = Ok r s' tr /\
    match r with
    | None => s' = s /\ forall x k, order <= k <= PAGE_MAX_ORDER -> hdr s x <> Some (PG_BUDDY, k)
    | Some p =>
        (exists L', buddy_inv everywhere L' s') /\ block_ok s' p order /\ allocated s' p order /\
        (forall y, in_block p order y -> free_page s y) /\
        (forall y, free_page s' y <-> free_page s y /\ ~ in_block p order y) /\
        (forall x k, allocated s' x k <-> allocated s x k \/ (x = p /\ k = order))
    end.
Proof.
  intros HI Ho. apply wp_elim. eapply wp_mono; [by apply alloc_pages_wp|].
  intros [p|] s'; simpl; [intros (_&?&?&?&?&?&?); done|].
  intros [-> HL]. split; [done|]. apply (no_block L); [done|lia|done].
Qed.

(** A block of two pages from the upper list. *)
Lemma alloc_pages_correct_witness :
  exists r s' tr, alloc_pages 1 ex_buddy = Ok r s' tr /\ r = Some 0 /\ allocated s' 0 1.
Proof.
  destruct (alloc_pages_correct ex_lists ex_buddy 1 ex_buddy_inv) as (r&s'&tr&E&H).
  { unfold PAGE_MAX_ORDER. lia. }
  exists r, s', tr. split; [exact E|].
  assert (r = Some 0) as -> by (vm_compute in E; by injection E as <- _ _).
  by destruct H as (_&_&?&_).
Defined.
