(* ===== verification/BuddyFree.v ===== *)
(** * The buddy allocator: release

    [free_pages] gives a block back and merges it with its buddies.  The merge
    with a buddy on the right keeps the invariant; the merge with one on the
    left leaves the buddy linked in the list of its old order, which later hands
    out the same page twice. *)

From S2P Require Import Prelude Kmath E820 Mem Buddy BuddyFacts BuddyAlloc.
From Stdlib Require Import ZArith Lia Znumtheory.
From stdpp Require Import base gmap list strings.

Open Scope Z_scope.

(** ** Alignment *)

Lemma alignment_order_spec p k :
  0 <= p -> 0 <= k <= PAGE_MAX_ORDER -> (2 ^ k | p) <-> k <= alignment_order p.
Proof.
  intros Hp Hk. unfold alignment_order, PAGE_MAX_ORDER in *. destruct (Z.eqb_spec p 0) as [->|].
  - simpl. split; [lia|intros; apply Z.divide_0_r].
  - rewrite ctzll_spec by lia. rewrite Z.gtb_ltb. destruct (Z.ltb_spec 10 (ctzll p)); lia.
Qed.

Lemma alignment_order_range p : 0 <= alignment_order p <= PAGE_MAX_ORDER.
Proof.
  unfold alignment_order, PAGE_MAX_ORDER. destruct (p =? 0); [simpl; lia|].
  rewrite Z.gtb_ltb. pose proof (ctzll_nonneg p). destruct (Z.ltb_spec 10 (ctzll p)); lia.
Qed.

(** ** Taking a block back *)

(** The allocated block [p] has become a free block that is in no list yet. *)
Lemma released_inv L s s' p k :
  buddy_inv everywhere L s -> allocated s p k -> same_frame s s' -> free_matrix s' = free_matrix s ->
  (forall x, links s' x = if decide (x = p) then Some (None, None) else links s x) ->
  (forall x, hdr s' x = if decide (x = p) then Some (PG_BUDDY, k) else hdr s x) ->
  buddy_inv (except p) L s'.
Proof.
  intros HI Hp [Hnr _] Hfm Hl Hh. unfold allocated in Hp.
  assert (forall j, 0 <= j <= PAGE_MAX_ORDER -> p ∉ L j) as Hpl.
  { intros j Hj Hin. apply (list_hdr _ _ _ _ _ HI Hj) in Hin. by rewrite Hp in Hin. }
  split.
  - intros x. rewrite Hh, Hnr, <- (bi_dom _ _ _ HI). case_decide; [subst|done]. by rewrite Hp.
  - intros x st j Hx. rewrite Hh, decide_False by done. intros Hxh Hs.
    eapply block_ok_frame; [exact Hnr| |by eapply (bi_block _ _ _ HI)].
    intros y Hy. rewrite Hh, decide_False; [done|]. intros ->.
    eapply (head_uncovered _ _ _ p _ _ HI Hp); [by right|done|exact Hxh|done|done].
  - intros j Hj. rewrite Hfm. by apply (bi_head _ _ _ HI).
  - intros j Hj. eapply dllseg_frame; [|by apply (bi_dll _ _ _ HI)].
    intros x Hx. rewrite Hl, decide_False; [done|]. intros ->. by apply (Hpl j).
  - apply (bi_nodup _ _ _ HI).
  - intros x j Hj. rewrite (bi_mem _ _ _ HI x j Hj), Hh. unfold except, everywhere.
    case_decide; [subst|tauto]. rewrite Hp. split; [intros [_ [=]]|tauto].
Qed.

(** ** Merging with the buddy on the right *)

Definition merge_inv (s0 : mem) (p k : Z) (L : Z -> list Z) (j : Z) (s : mem) : Prop :=
  buddy_inv (except p) L s /\ hdr s p = Some (PG_BUDDY, j) /\ block_ok s p j /\ same_frame s0 s /\
  (forall x, x < p -> hdr s x = hdr s0 x) /\
  (forall x i, allocated s x i <-> allocated s0 x i /\ x <> p) /\
  (forall y, free_in (except p) s y \/ in_block p j y <-> free_page s0 y \/ in_block p k y).

Lemma block_ok_merge s p b j o :
  block_ok s p j -> block_ok s b j -> b = p + 2 ^ j -> hdr s b = Some (PG_TAIL, o) ->
  j < PAGE_MAX_ORDER -> (2 ^ (j + 1) | p) -> block_ok s p (j + 1).
Proof.
  intros (Hk&_&Hx&Hn&Ht) (_&_&_&Hn'&Ht') -> Hb Hj Hd.
  assert (2 ^ (j + 1) = 2 ^ j + 2 ^ j) as E by (rewrite Z.pow_add_r by lia; lia).
  split_and!; [lia|lia|done|lia|lia|]. intros y Hy.
  destruct (Z.lt_trichotomy y (p + 2 ^ j)) as [|[->|]]; [apply Ht; lia|by exists o|apply Ht'; lia].
Qed.

(** The headers after a merge step: [b] is a tail and [p] has the next order. *)
Lemma merge_headers s0 p k L j s s' :
  merge_inv s0 p k L j s ->
  let b := p + 2 ^ j in
  hdr s b = Some (PG_BUDDY, j) ->
  (forall x, hdr s' x = if decide (x = p) then Some (PG_BUDDY, j + 1)
                        else if decide (x = b) then Some (PG_TAIL, j) else hdr s x) ->
  (forall x, x < p -> hdr s' x = hdr s0 x) /\
  (forall x i, allocated s' x i <-> allocated s0 x i /\ x <> p) /\
  (forall y, free_in (except p) s' y \/ in_block p (j + 1) y <-> free_page s0 y \/ in_block p k y).
Proof.
  intros (_&Hp&Hblk&_&Hlow&Hal&Hfr) b Hb Hh. pose proof (proj1 Hblk) as Hj.
  assert (2 ^ (j + 1) = 2 ^ j + 2 ^ j) as E by (rewrite Z.pow_add_r by lia; lia).
  assert (0 < 2 ^ j) by (apply Z.pow_pos_nonneg; lia).
  unfold allocated in *. split_and!.
  - intros x Hx. rewrite Hh, !decide_False by lia. by apply Hlow.
  - intros x i. rewrite <- Hal, Hh. repeat case_decide; subst; [rewrite Hp|rewrite Hb|done]; split; intros [=].
  - intros y. rewrite <- Hfr. unfold free_in, except, in_block. split.
    + intros [(x&i&Hne&Hx&Hin)|Hin].
      * rewrite Hh, decide_False in Hx by done. case_decide; [done|]. left. by exists x, i.
      * destruct (decide (y < b)); [right; lia|]. left. exists b, j. split_and!; [lia|done|lia|lia].
    + intros [(x&i&Hne&Hx&Hin)|Hin]; [|right; lia]. destruct (decide (x = b)) as [->|].
      * rewrite Hb in Hx. simplify_eq. right. lia.
      * left. exists x, i. by rewrite Hh, !decide_False by done.
Qed.

(** A single header outside the described blocks. *)
Lemma retouched_one P L s s' p st k st' k' :
  buddy_inv P L s -> ~ P p -> hdr s p = Some (st, k) -> is_head st ->
  same_frame s s' -> free_matrix s' = free_matrix s -> (forall x, links s' x = links s x) ->
  (forall x, hdr s' x = if decide (x = p) then Some (st', k') else hdr s x) -> buddy_inv P L s'.
Proof.
  intros HI HP Hp Hs [Hnr _] Hfm Hl Hh. eapply retouched_inv; [|exact HI].
  split_and!; [done..|]. intros x. rewrite Hh. case_decide; [subst|by left].
  right. right. rewrite Hp. split_and!; [done| |done|done]. by eapply head_uncovered.
Qed.

Lemma merge_step {A} s0 p k L j s (m : M mem A) (Q : A -> mem -> Prop) :
  merge_inv s0 p k L j s -> j < PAGE_MAX_ORDER -> (2 ^ (j + 1) | p) ->
  hdr s (p + 2 ^ j) = Some (PG_BUDDY, j) ->
  (forall L' s', merge_inv s0 p k L' (j + 1) s' -> wp m Q s') ->
  wp (remove_free (p + 2 ^ j);; upd_page (p + 2 ^ j) (set_state PG_TAIL);;
      upd_page p (fun pg => set_order (u8 (pg_order pg + 1)) pg);; m) Q s.
Proof.
  intros HM Hj Hd Hb HQ. pose proof HM as (HI&Hp&Hblk&Hsf&_). pose proof (proj1 Hblk) as Hj0.
  assert (0 < 2 ^ j) by (apply Z.pow_pos_nonneg; lia).
  assert (block_ok s (p + 2 ^ j) j) as Hbb.
  { eapply (bi_block _ _ _ HI); [|exact Hb|by left]. unfold except. lia. }
  wp_step. eapply remove_free_inv; [exact HI|unfold except; lia|done|exact Hb|].
  intros l1 l2 s1 _ HI1 Hsf1 Hh1. set (L1 := upd_list L j (l1 ++ l2)) in *.
  wp_step. eapply (wp_upd_hdr _ PG_BUDDY j _ PG_TAIL j); [by rewrite Hh1|by intros pg _ <-|].
  intros s2 Hsf2 Hm2 Hl2 Hh2. wp_step.
  assert (buddy_inv (without (except p) (p + 2 ^ j)) L1 s2) as HI2.
  { eapply (retouched_one _ _ s1 s2 (p + 2 ^ j)); [done|by intros [_ ?]|rewrite Hh1; exact Hb|by left|done..]. }
  eapply (wp_upd_hdr _ PG_BUDDY j _ PG_BUDDY (j + 1)).
  { by rewrite Hh2, decide_False, Hh1 by lia. }
  { intros pg <- <-. simpl. unfold PAGE_MAX_ORDER in *. by rewrite u8_small by lia. }
  intros s3 Hsf3 Hm3 Hl3 Hh3.
  assert (forall x, hdr s3 x = if decide (x = p) then Some (PG_BUDDY, j + 1)
            else if decide (x = p + 2 ^ j) then Some (PG_TAIL, j) else hdr s x) as Hfin.
  { intros x. by rewrite Hh3, Hh2, Hh1. }
  assert (same_frame s s3) as Hss by (by eapply same_frame_trans, same_frame_trans).
  destruct (merge_headers s0 p k L j s s3 HM Hb Hfin) as (G1&G2&G3).
  apply (HQ L1). split_and!; [| | |by eapply same_frame_trans|done..].
  - eapply (tail_joins _ _ _ (p + 2 ^ j) j); [|by rewrite Hfin, decide_False, decide_True by lia].
    eapply (retouched_one _ _ s2 s3 p PG_BUDDY j); [done|by intros [[] _]| |by left|done..].
    by rewrite Hh2, decide_False, Hh1 by lia.
  - by rewrite Hfin, decide_True.
  - eapply (block_ok_merge _ _ (p + 2 ^ j)); [| |done| |done|done].
    + eapply block_ok_frame; [apply Hss| |exact Hblk]. intros y Hy. by rewrite Hfin, !decide_False by lia.
    + eapply block_ok_frame; [apply Hss| |exact Hbb]. intros y Hy. by rewrite Hfin, !decide_False by lia.
    + by rewrite Hfin, decide_False, decide_True by lia.
Qed.

(** The release of [p] does not meet a free buddy on the left. *)
Definition no_left_merge (s : mem) (p : Z) : Prop :=
  let a := alignment_order p in
  a = PAGE_MAX_ORDER \/ hdr s (p - 2 ^ a) <> Some (PG_BUDDY, a).

Lemma merge_loop_spec s0 p k fuel : forall L j s,
  merge_inv s0 p k L j s -> mem_nr_pages s0 <= 2 ^ 52 -> no_left_merge s0 p ->
  (Z.to_nat (PAGE_MAX_ORDER - j) < fuel)%nat ->
  wp (merge_loop p fuel) (fun q s' => q = p /\ exists L' j', merge_inv s0 p k L' j' s') s.
Proof.
  induction fuel as [|fuel IH]; intros L j s HM Hnr Hnl Hf; [lia|].
  pose proof HM as (HI&Hp&Hblk&Hsf&Hlow&_). pose proof Hblk as (Hj&Hd&Hp0&Hpn&_).
  assert (0 < 2 ^ j) by (apply Z.pow_pos_nonneg; lia).
  destruct Hsf as [Hnr' _].
  simpl. wp_step. eapply wp_get_hdr; [exact Hp|]. intros pg Hst ->.
  destruct (Z.ltb_spec j PAGE_MAX_ORDER) as [Hlt|]; [|wp_step; eauto].
  wp_step. wp_step. rewrite (u64_small p) by lia.
  pose proof (alignment_order_spec p j Hp0 Hj) as Ha.
  rewrite Z.gtb_ltb. destruct (Z.ltb_spec j (alignment_order p)) as [Hal|Hal].
  - rewrite Z.geb_leb. destruct (Z.leb_spec (mem_nr_pages s) (p + 2 ^ j)) as [|Hin]; [wp_step; eauto|].
    assert (is_Some (hdr s (p + 2 ^ j))) as [[bst bk] Hb] by (apply (bi_dom _ _ _ HI); lia).
    wp_step. eapply wp_get_hdr; [exact Hb|]. intros bpg -> ->.
    destruct ((bst =? PG_BUDDY) && (bk =? j)) eqn:Et; [|wp_step; eauto].
    apply andb_prop in Et as [->%Z.eqb_eq ->%Z.eqb_eq].
    eapply (merge_step s0 p k L j); [done|done| |done|].
    { apply alignment_order_spec; [done|lia|lia]. }
    intros L' s' HM'. apply (IH L' (j + 1)); [done|done|done|lia].
  - destruct (Z.ltb_spec (p - 2 ^ j) 0) as [|Hge]; [wp_step; eauto|].
    assert (is_Some (hdr s (p - 2 ^ j))) as [[bst bk] Hb] by (apply (bi_dom _ _ _ HI); lia).
    wp_step. eapply wp_get_hdr; [exact Hb|]. intros bpg -> ->.
    destruct ((bst =? PG_BUDDY) && (bk =? j)) eqn:Et; [|wp_step; eauto].
    apply andb_prop in Et as [->%Z.eqb_eq ->%Z.eqb_eq]. exfalso.
    assert (alignment_order p = j) as Eaj by (apply Ha in Hd; lia).
    destruct Hnl as [?|Hnl]; [lia|]. apply Hnl. rewrite Eaj, <- Hlow by lia. done.
Qed.

(** The block [p .. p + 2^k) has moved from the allocated to the free pages. *)
Definition moved_to_free (s s' : mem) (p k : Z) : Prop :=
  (forall y, free_page s' y <-> free_page s y \/ in_block p k y) /\
  (forall x j, allocated s' x j <-> allocated s x j /\ x <> p).

Lemma release_start L s s1 p k :
  buddy_inv everywhere L s -> allocated s p k -> same_frame s s1 -> free_matrix s1 = free_matrix s ->
  (forall x, links s1 x = if decide (x = p) then Some (None, None) else links s x) ->
  (forall x, hdr s1 x = if decide (x = p) then Some (PG_BUDDY, k) else hdr s x) ->
  merge_inv s p k L k s1.
Proof.
  intros HI Hp Hsf Hfm Hl Hh. split_and!; [by eapply released_inv|by rewrite Hh, decide_True| |done|..].
  - eapply block_ok_frame; [apply Hsf| |eapply (bi_block _ _ _ HI); [done|exact Hp|by right]].
    intros y Hy. by rewrite Hh, decide_False by lia.
  - intros x Hx. by rewrite Hh, decide_False by lia.
  - intros x i. unfold allocated. rewrite Hh. case_decide; subst; [|tauto]. split; [intros [=]|tauto].
  - intros y. unfold free_page, free_in, everywhere, except. split; (intros [(x&i&HP&Hx&Hin)|?]; [|by right]); left; exists x, i.
    + by rewrite Hh, decide_False in Hx by done.
    + assert (x <> p) by (intros ->; unfold allocated in Hp; by rewrite Hp in Hx).
      by rewrite Hh, decide_False by done.
Qed.

Lemma release_finish L s0 p k j s s' :
  merge_inv s0 p k L j s -> (forall x, hdr s' x = if decide (x = p) then Some (PG_BUDDY, j) else hdr s x) ->
  moved_to_free s0 s' p k.
Proof.
  intros (_&Hp&_&_&_&Hal&Hfr) Hh.
  assert (forall x, hdr s' x = hdr s x) as Hh' by (intros x; rewrite Hh; case_decide; by subst).
  split.
  - intros y. rewrite <- Hfr. unfold free_page, free_in, everywhere, except. setoid_rewrite Hh'. split.
    + intros (x&i&_&Hx&Hin). destruct (decide (x = p)) as [->|]; [right; congruence|left; by exists x, i].
    + intros [(x&i&_&Hx&Hin)|Hin]; [by exists x, i|by exists p, j].
  - intros x i. rewrite <- Hal. unfold allocated. by rewrite Hh'.
Qed.

Lemma free_pages_wp L s p k :
  buddy_inv everywhere L s -> mem_nr_pages s <= 2 ^ 52 -> allocated s p k -> no_left_merge s p ->
  wp (free_pages p) (fun _ s' =>
    same_frame s s' /\ (exists L', buddy_inv everywhere L' s') /\ moved_to_free s s' p k) s.
Proof.
  intros HI Hnr Hp Hnl. pose proof Hp as (pg&Hpg&Hst&Hk)%hdr_Some.
  unfold free_pages. remember 11%nat as fuel eqn:Ef. mem_auto. rewrite Hst. simpl. mem_auto. subst fuel.
  match goal with |- wp _ _ ?s1 => assert (merge_inv s p k L k s1) as HM end.
  { eapply release_start; [done|done|done|done|solve_view|]. rewrite <- Hk. solve_view. }
  assert (block_ok s p k) as (Hk'&_) by (eapply (bi_block _ _ _ HI); [done|exact Hp|by right]).
  eapply wp_mono; [eapply (merge_loop_spec s p k); [exact HM|done|done|unfold PAGE_MAX_ORDER; lia]|].
  intros q s2 (->&L2&j&HM2). pose proof HM2 as (HI2&Hp2&Hblk2&Hsf2&_).
  eapply (insert_free_inv _ _ _ p PG_BUDDY j); [exact HI2|exact Hp2|by intros [[] _]|done| |].
  { eapply head_uncovered; [exact HI2|exact Hp2|by left]. }
  intros s3 HI3 Hsf3 Hh3. split_and!; [by eapply same_frame_trans| |by eapply release_finish].
  eexists. eapply buddy_inv_ext; [|exact HI3]. intros x. split; [done|]. intros _.
  destruct (decide (x = p)); [by right|by left].
Qed.

(** ** Properties of release *)

(** C4: Releasing an allocated block whose left buddy is not free makes exactly
    its pages free again, leaves the other allocations alone and re-establishes
    the invariant, whatever merges with buddies on the right take place. *)
Theorem free_pages_correct L s p k :
  buddy_inv everywhere L s -> mem_nr_pages s <= 2 ^ 52 -> allocated s p k -> no_left_merge s p ->
  exists s' tr, free_pages p s = Ok tt s' tr /\
    (exists L', buddy_inv everywhere L' s') /\
    (forall y, free_page s' y <-> free_page s y \/ in_block p k y) /\
    (forall x j, allocated s' x j <-> allocated s x j /\ x <> p).
Proof.
  intros HI Hnr Hp Hnl. destruct (wp_elim _ _ _ (free_pages_wp L s p k HI Hnr Hp Hnl)) as ([]&s'&tr&E&_&HI'&H1&H2).
  by exists s', tr.
Qed.

(** The example allocator after an allocation of two pages. *)
Definition ex_alloc : mem :=
  match alloc_pages 1 ex_buddy with Ok _ s _ => s | _ => ex_buddy end.

Lemma ex_alloc_inv : exists L, buddy_inv everywhere L ex_alloc.
Proof.
  assert (exists tr, alloc_pages 1 ex_buddy = Ok (Some 0) ex_alloc tr) as [tr E] by (eexists; vm_compute; done).
  assert (0 <= 1 <= PAGE_MAX_ORDER) as H1 by (unfold PAGE_MAX_ORDER; lia).
  by destruct (wp_run _ _ _ _ _ _ (alloc_pages_wp _ _ 1 ex_buddy_inv H1) E) as (_&?&_).
Qed.

Lemma free_pages_correct_witness :
  exists s' tr, free_pages 0 ex_alloc = Ok tt s' tr /\ (forall y, free_page s' y <-> free_page ex_alloc y \/ in_block 0 1 y).
Proof.
  destruct ex_alloc_inv as [L HI].
  destruct (free_pages_correct L ex_alloc 0 1 HI) as (s'&tr&E&_&H&_);
    [vm_compute; by intros [=]|vm_compute; reflexivity|left; reflexivity|].
  exists s', tr. split; [exact E|exact H].
Defined.

(** [free_pages] ignores a page that is not the first page of an allocated
    block: a second release of the same block changes nothing. *)
Theorem free_pages_ignores s p st k :
  hdr s p = Some (st, k) -> st <> PG_ALLOCATED -> free_pages p s = Ok tt s [].
Proof.
  intros (pg&Hp&Hst&_)%hdr_Some Hne. unfold free_pages, mbind, M_bind, get_page, get, deref.
  remember 11%nat as fuel eqn:Ef. clear Ef. unfold mbind, M_bind. rewrite Hp. simpl. rewrite Hst.
  by destruct (Z.eqb_spec st PG_ALLOCATED).
Qed.

Lemma free_pages_ignores_witness : free_pages 1 ex_buddy = Ok tt ex_buddy [].
Proof. apply (free_pages_ignores ex_buddy 1 PG_TAIL 0); [reflexivity|by intros [=]]. Defined.

(** ** Refinement of an abstract page allocator

    The abstract allocator keeps a set of free pages and a set of live blocks;
    which free block it returns is not specified. *)

Record astate := mk_astate { a_free : Z -> Prop; a_live : Z -> Z -> Prop }.

#[export] Instance astate_equiv : Equiv astate := fun a b =>
  (forall y, a_free a y <-> a_free b y) /\ (forall p k, a_live a p k <-> a_live b p k).
#[export] Instance astate_equivalence : Equivalence (≡@{astate}).
Proof.
  split.
  - by intros a.
  - intros a b [H1 H2]. split; intros; [by rewrite H1|by rewrite H2].
  - intros a b c [H1 H2] [H3 H4]. split; intros; [by rewrite H1, H3|by rewrite H2, H4].
Qed.

Inductive call := CAlloc (order : Z) (r : option Z) | CFree (p : Z).

Inductive astep : astate -> call -> astate -> Prop :=
| astep_alloc a order p a' :
    (2 ^ order | p) -> (forall y, in_block p order y -> a_free a y) ->
    a' ≡ mk_astate (fun y => a_free a y /\ ~ in_block p order y)
                   (fun x k => a_live a x k \/ (x = p /\ k = order)) ->
    astep a (CAlloc order (Some p)) a'
| astep_none a order a' : a' ≡ a -> astep a (CAlloc order None) a'
| astep_free a p k a' :
    a_live a p k ->
    a' ≡ mk_astate (fun y => a_free a y \/ in_block p k y) (fun x j => a_live a x j /\ x <> p) ->
    astep a (CFree p) a'.

Inductive asteps : astate -> list call -> astate -> Prop :=
| asteps_nil a a' : a ≡ a' -> asteps a [] a'
| asteps_cons a c a1 cs a' : astep a c a1 -> asteps a1 cs a' -> asteps a (c :: cs) a'.

(** What a client sees of the concrete allocator. *)
Definition abs (s : mem) : astate := mk_astate (free_page s) (allocated s).

(** Calls made by a client that releases live blocks only, and whose releases
    meet no free buddy on the left. *)
Inductive bsteps : mem -> list call -> mem -> Prop :=
| bsteps_nil s : bsteps s [] s
| bsteps_alloc s order r s1 tr cs s' :
    0 <= order <= PAGE_MAX_ORDER -> alloc_pages order s = Ok r s1 tr -> bsteps s1 cs s' ->
    bsteps s (CAlloc order r :: cs) s'
| bsteps_free s p k s1 tr cs s' :
    allocated s p k -> no_left_merge s p -> free_pages p s = Ok tt s1 tr -> bsteps s1 cs s' ->
    bsteps s (CFree p :: cs) s'.

Lemma bsteps_sim s cs s' :
  bsteps s cs s' -> forall L, buddy_inv everywhere L s -> mem_nr_pages s <= 2 ^ 52 ->
  asteps (abs s) cs (abs s') /\ exists L', buddy_inv everywhere L' s'.
Proof.
  induction 1 as [s|s order r s1 tr cs s' Ho E _ IH|s p k s1 tr cs s' Hp Hnl E _ IH]; intros L HI Hnr.
  - split; [by constructor|by exists L].
  - pose proof (wp_run _ _ _ _ _ _ (alloc_pages_wp L s order HI Ho) E) as H. destruct r as [p|].
    + destruct H as (Hsf&[L1 HI1]&Hblk&_&Hf1&Hf2&Hal).
      destruct (IH L1 HI1) as [Has HL']; [by rewrite (proj1 Hsf)|]. split; [|done].
      eapply asteps_cons; [|exact Has]. apply astep_alloc; [apply Hblk|exact Hf2|by split].
    + destruct H as [-> _]. destruct (IH L HI Hnr) as [Has HL']. split; [|done].
      eapply asteps_cons; [|exact Has]. by apply astep_none.
  - pose proof (wp_run _ _ _ _ _ _ (free_pages_wp L s p k HI Hnr Hp Hnl) E) as (Hsf&[L1 HI1]&Hf&Hal).
    destruct (IH L1 HI1) as [Has HL']; [by rewrite (proj1 Hsf)|]. split; [|done].
    eapply asteps_cons; [|exact Has]. by eapply astep_free.
Qed.

(** C2: Every sequence of allocations and (right-merging) releases is a run of
    the abstract allocator, and at its end the live blocks are pairwise disjoint
    and share no page with the free pages. *)
Theorem buddy_refines L s cs s' :
  buddy_inv everywhere L s -> mem_nr_pages s <= 2 ^ 52 -> bsteps s cs s' ->
  asteps (abs s) cs (abs s') /\
  (forall p k q j y, allocated s' p k -> allocated s' q j -> in_block p k y -> in_block q j y -> p = q) /\
  (forall p k y, allocated s' p k -> in_block p k y -> ~ free_page s' y).
Proof.
  intros HI Hnr Hs. destruct (bsteps_sim s cs s' Hs L HI Hnr) as [Has [L' HI']].
  split; [done|]. split.
  - intros p k q j y Hp Hq Hy Hy'.
    eapply (blocks_disjoint _ _ _ p q _ _ k j y HI'); [done|done|exact Hp|exact Hq|by right|by right|done|done].
  - intros p k y Hp Hy (x&j&_&Hx&Hin). assert (p = x) as ->.
    { eapply (blocks_disjoint _ _ _ p x _ _ k j y HI'); [done|done|exact Hp|exact Hx|by right|by left|done|done]. }
    unfold allocated in Hp. by rewrite Hp in Hx.
Qed.

Lemma buddy_refines_witness :
  exists s', bsteps ex_buddy [CAlloc 1 (Some 0); CFree 0] s' /\ asteps (abs ex_buddy) [CAlloc 1 (Some 0); CFree 0] (abs s').
Proof.
  destruct (free_pages 0 ex_alloc) as [[] s' tr|f a tr|tr] eqn:E; [|vm_compute in E; discriminate E..].
  exists s'. assert (bsteps ex_buddy [CAlloc 1 (Some 0); CFree 0] s') as Hs.
  { eapply (bsteps_alloc _ _ _ ex_alloc); [unfold PAGE_MAX_ORDER; lia|vm_compute; reflexivity|].
    eapply (bsteps_free _ _ 1); [vm_compute; reflexivity|left; reflexivity|exact E|constructor]. }
  split; [exact Hs|]. eapply (buddy_refines ex_lists); [apply ex_buddy_inv|vm_compute; by intros [=]|exact Hs].
Defined.

(** ** The merge to the left *)

(** Four pages of RAM, and an e820 map that describes them. *)
Definition ex_ram : e820_table :=
  mk_table 2 (mk_entry 0 0x4000 E820_TYPE_RAM :: mk_entry 0x4000 0x1000 2 :: replicate 254 (mk_entry 0 0 0)).
Definition ex_boot : mem := mk_mem (cleared_map 4) 4 ∅ 0.

(** Two blocks of one page each are allocated and released, and one page is
    allocated again, before four pages are asked for. *)
Definition left_merge_client : M mem (option Z * option Z * option Z * option Z) :=
  buddy_build ex_ram 512 513;;
  a ← alloc_pages 0;
  b ← alloc_pages 0;
  free_pages 0;;
  free_pages 1;;
  c ← alloc_pages 0;
  d ← alloc_pages 2;
  mret (a, b, c, d).

(** After a release that merged with the buddy on the left, that buddy is
    still linked in the list of its old order: the allocator, set up by its own
    initialisation, hands out page 0 twice without any release in between, first
    as a single page and then inside a block of four. *)
Example free_pages_left_merge_double_allocation :
  wp left_merge_client (fun r _ => r = (Some 0, Some 1, Some 0, Some 0)) ex_boot.
Proof. vm_compute. reflexivity. Qed.
