(* ===== verification/BuddyInit.v ===== *)
(** * The buddy allocator: initialisation

    [buddy_init] marks the pages of the RAM ranges outside the reserved pages as
    free and groups them into aligned blocks.  Its own consistency check (the
    number of pages grouped is the number of pages marked) never fails on a sane
    e820 table, and it establishes the allocator invariant. *)

From S2P Require Import Prelude Kmath E820 E820Facts Bootmem BootmemFacts Mem Buddy BuddyFacts BuddyAlloc BuddyFree.
From Stdlib Require Import ZArith Lia Znumtheory.
From stdpp Require Import base gmap list strings.

Open Scope Z_scope.

(** ** Counting pages *)

(** The number of [y] in [a .. a + n) with [B y]. *)
Definition cnt (B : Z -> bool) (a n : Z) : Z :=
  Z.of_nat (length (filter (fun y => B y = true) (seqZ a n))).

Lemma cnt_split B a n m : 0 <= n -> 0 <= m -> cnt B a (n + m) = cnt B a n + cnt B (a + n) m.
Proof. intros. unfold cnt. rewrite seqZ_app, filter_app, length_app by done. lia. Qed.

Lemma cnt_ext B B' a n : (forall y, a <= y < a + n -> B y = B' y) -> cnt B a n = cnt B' a n.
Proof.
  intros H. unfold cnt. do 2 f_equal.
  assert (forall y, y ∈ seqZ a n -> B y = B' y) as HB by (intros y Hy%elem_of_seqZ; apply H; lia).
  clear H. induction (seqZ a n) as [|y l IH]; [done|]. rewrite !filter_cons, (HB y) by set_solver.
  rewrite IH by set_solver. done.
Qed.

Lemma cnt_const (b : bool) B a n :
  0 <= n -> (forall y, a <= y < a + n -> B y = b) -> cnt B a n = if b then n else 0.
Proof.
  intros Hn H. rewrite (cnt_ext _ (fun _ => b)) by done. unfold cnt.
  assert (length (filter (fun _ : Z => b = true) (seqZ a n)) = if b then length (seqZ a n) else 0%nat) as ->.
  { clear H. induction (seqZ a n) as [|y l IH]; [by destruct b|].
    rewrite filter_cons. by destruct b; simpl in *; rewrite ?IH. }
  rewrite length_seqZ. destruct b; lia.
Qed.

Lemma cnt_range B a n : 0 <= n -> 0 <= cnt B a n <= n.
Proof.
  intros Hn. unfold cnt. pose proof (length_filter (fun y => B y = true) (seqZ a n)) as H.
  rewrite length_seqZ in H. lia.
Qed.

Definition upto (B : Z -> bool) (a b y : Z) : bool := B y || ((a <=? y) && (y <? b)).

Lemma upto_spec B a b y : upto B a b y = true <-> B y = true \/ a <= y < b.
Proof. unfold upto. rewrite orb_true_iff, andb_true_iff, Z.leb_le, Z.ltb_lt. tauto. Qed.

(** Equality of two sets of pages. *)
Ltac upto_solve := apply eq_iff_eq_true; rewrite ?upto_spec; intuition lia.

Lemma cnt_upto B a b n :
  0 <= a <= b -> b <= n -> (forall y, a <= y < b -> B y = false) ->
  cnt (upto B a b) 0 n = cnt B 0 n + (b - a).
Proof.
  intros Ha Hb HB. replace n with (a + ((b - a) + (n - b))) by lia.
  rewrite !(cnt_split _ 0 a), !(cnt_split _ (0 + a) (b - a)) by lia. rewrite !Z.add_0_l.
  rewrite (cnt_ext (upto B a b) B 0 a), (cnt_ext (upto B a b) B (a + (b - a)) (n - b)).
  - assert (cnt (upto B a b) a (b - a) = b - a) as ->.
    { apply (cnt_const true); [lia|]. intros y Hy. apply upto_spec. lia. }
    assert (cnt B a (b - a) = 0) as ->; [|lia].
    apply (cnt_const false); [lia|]. intros y Hy. apply HB. lia.
  - intros y Hy. unfold upto. destruct (Z.ltb_spec y b); [lia|]. by rewrite andb_false_r, orb_false_r.
  - intros y Hy. unfold upto. destruct (Z.leb_spec a y); [lia|]. by rewrite orb_false_r.
Qed.

(** ** Marking the free pages *)

(** While marking, a page is free (a block of order 0) where [B] says so, and
    reserved elsewhere. *)
Definition marked (B : Z -> bool) (s : mem) : Prop :=
  free_matrix s = ∅ /\
  forall x, hdr s x = if decide (0 <= x < mem_nr_pages s)
                      then Some (if B x then PG_BUDDY else PG_RESERVED, 0) else None.

Lemma marked_ext B B' s :
  (forall y, 0 <= y < mem_nr_pages s -> B y = B' y) -> marked B s -> marked B' s.
Proof. intros HB [Hf Hh]. split; [done|]. intros x. rewrite Hh. case_decide; [|done]. by rewrite HB. Qed.

Lemma mark_range_spec B n : forall i s,
  marked B s -> 0 <= i -> i + Z.of_nat n <= mem_nr_pages s ->
  wp (mark_range i n) (fun _ s' => same_frame s s' /\ marked (upto B i (i + Z.of_nat n)) s') s.
Proof.
  revert B. induction n as [|n IH]; intros B i s HB Hi Hn; simpl.
  { wp_step. split; [done|]. eapply marked_ext; [|exact HB]. intros y _.
    upto_solve. }
  destruct HB as [Hfm Hh]. pose proof (Hh i) as Hi'. rewrite decide_True in Hi' by lia.
  wp_step. eapply (wp_upd_hdr i _ 0 _ PG_BUDDY 0); [exact Hi'|by intros pg _ <-|].
  intros s1 [Hn1 ?] Hm1 _ Hh1. wp_step.
  eapply (wp_upd_hdr i PG_BUDDY 0 _ PG_BUDDY 0); [by rewrite Hh1, decide_True|by intros pg <- _|].
  intros s2 [Hn2 ?] Hm2 _ Hh2. assert (mem_nr_pages s2 = mem_nr_pages s) as Hnr by congruence.
  eapply wp_mono; [apply (IH (upto B i (i + 1))); [split; [congruence|]|lia|lia]|].
  - intros x. rewrite Hh2, Hh1, Hnr. destruct (decide (x = i)) as [->|].
    + rewrite decide_True by lia. by rewrite (proj2 (upto_spec B i (i + 1) i)) by lia.
    + rewrite Hh. case_decide; [|done]. by replace (upto B i (i + 1) x) with (B x) by upto_solve.
  - intros _ s' [Hsf HB']. split; [eapply same_frame_trans; [|exact Hsf]; split; congruence|].
    eapply marked_ext; [|exact HB']. intros y Hy. upto_solve.
Qed.

Lemma set_first_order_spec B a b s :
  marked B s -> 0 <= a -> (forall y, a <= y < b -> y < mem_nr_pages s -> B y = false) ->
  0 <= mem_nr_pages s ->
  wp (set_first_order_buddy_for_range a b) (fun r s' =>
    same_frame s s' /\ marked (upto B a b) s' /\
    cnt (upto B a b) 0 (mem_nr_pages s) = cnt B 0 (mem_nr_pages s) + r) s.
Proof.
  intros HB Ha Hfree Hnr. unfold set_first_order_buddy_for_range. do 2 wp_step.
  set (e := if b >? mem_nr_pages s then mem_nr_pages s else b).
  assert (e = Z.min b (mem_nr_pages s)) as He.
  { unfold e. rewrite Z.gtb_ltb. destruct (Z.ltb_spec (mem_nr_pages s) b); lia. }
  assert (forall y, 0 <= y < mem_nr_pages s -> upto B a (Z.max a e) y = upto B a b y) as Hext.
  { intros y Hy. upto_solve. }
  rewrite Z.geb_leb. destruct (Z.leb_spec e a) as [Hle|Hlt].
  - wp_step. split_and!; [done| |].
    + eapply marked_ext; [|exact HB]. intros y Hy. rewrite <- Hext by done.
      upto_solve.
    + rewrite <- (cnt_ext (upto B a (Z.max a e))) by (intros y Hy; apply Hext; lia).
      rewrite (cnt_ext _ B); [lia|]. intros y Hy. upto_solve.
  - wp_step. eapply wp_mono; [apply mark_range_spec; [exact HB|lia|lia]|].
    intros _ s' [Hsf HB']. wp_step. split_and!; [done| |].
    + eapply marked_ext; [|exact HB']. intros y Hy. rewrite (proj1 Hsf) in Hy. rewrite <- Hext by done.
      upto_solve.
    + rewrite <- (cnt_ext (upto B a (Z.max a e))) by (intros y Hy; apply Hext; lia).
      rewrite Z.max_r by lia. apply cnt_upto; [lia|lia|]. intros y Hy. apply Hfree; lia.
Qed.

(** The pages of an entry that are to be free. *)
Definition page_in (e : e820_entry) (y : Z) : bool :=
  (e_type e =? E820_TYPE_RAM) && (e_addr e <=? y * PAGE_SIZE) &&
  (y * PAGE_SIZE + PAGE_SIZE <=? e_addr e + e_size e).
Definition reserved (rs re y : Z) : bool := (rs <=? y) && (y <? re).
Definition usable (es : list e820_entry) (rs re y : Z) : bool :=
  existsb (fun e => page_in e y) es && negb (reserved rs re y).

Lemma page_in_spec e y : page_in e y = true <-> ram_entry_page e (y * PAGE_SIZE).
Proof. unfold page_in, ram_entry_page. rewrite !andb_true_iff, Z.eqb_eq, !Z.leb_le. tauto. Qed.

Lemma usable_spec es rs re y :
  usable es rs re y = true <->
  (exists e, e ∈ es /\ ram_entry_page e (y * PAGE_SIZE)) /\ ~ rs <= y < re.
Proof.
  unfold usable, reserved. rewrite andb_true_iff, existsb_exists, negb_true_iff, andb_false_iff.
  setoid_rewrite page_in_spec. setoid_rewrite <- list_elem_of_In. rewrite Z.leb_gt, Z.ltb_ge.
  split; (intros [H1 H2]; split; [done|lia]).
Qed.

(** The page numbers of a RAM range. *)
Lemma entry_pages e y :
  e_type e = E820_TYPE_RAM -> 0 <= e_addr e -> 0 < e_size e -> e_addr e + e_size e <= 2 ^ 52 ->
  ram_entry_page e (y * PAGE_SIZE) <->
  DIV_UP (e_addr e) PAGE_SIZE <= y < u64 (e_addr e + e_size e) / PAGE_SIZE.
Proof.
  intros Ht Ha Hs He. unfold ram_entry_page.
  pose proof (div_up_bounds (e_addr e) PAGE_SIZE ltac:(plia) Ha ltac:(plia)) as Hd.
  rewrite (u64_small (e_addr e + e_size e)) by lia.
  pose proof (Z.div_mod (e_addr e + e_size e) PAGE_SIZE ltac:(plia)) as Hm.
  pose proof (Z.mod_pos_bound (e_addr e + e_size e) PAGE_SIZE ltac:(plia)) as Hm'.
  split; [intros (_&?&?)|intros ?; split; [done|]]; plia.
Qed.

Section marking.
Context (rs re : Z) (Hrs : 0 <= rs <= re).

Lemma clip_start a :
  (if (a >=? rs) && (a <? re) then re else a) = if decide (rs <= a < re) then re else a.
Proof. rewrite Z.geb_leb. destruct (Z.leb_spec rs a), (Z.ltb_spec a re); simpl; case_decide; lia. Qed.

Lemma clip_end b :
  (if (b >? rs) && (b <=? re) then rs else b) = if decide (rs < b <= re) then rs else b.
Proof. rewrite Z.gtb_ltb. destruct (Z.ltb_spec rs b), (Z.leb_spec b re); simpl; case_decide; lia. Qed.

Lemma marking_ext B B' s s' n :
  same_frame s s' -> marked B s' -> (forall y, 0 <= y < mem_nr_pages s -> B y = B' y) ->
  cnt B 0 (mem_nr_pages s) = n ->
  same_frame s s' /\ marked B' s' /\ cnt B' 0 (mem_nr_pages s) = n.
Proof.
  intros Hsf HB HE Hc. split_and!; [done| |].
  - eapply marked_ext; [|exact HB]. rewrite (proj1 Hsf). done.
  - rewrite <- Hc. symmetry. apply cnt_ext. done.
Qed.

Lemma mark_entry_spec B e s :
  marked B s -> 0 <= mem_nr_pages s -> e_type e = E820_TYPE_RAM -> 0 <= e_addr e -> 0 < e_size e ->
  e_addr e + e_size e <= 2 ^ 52 ->
  (forall y, ram_entry_page e (y * PAGE_SIZE) -> B y = false) ->
  wp (mark_entry rs re e) (fun r s' =>
    let B' := fun y => B y || usable [e] rs re y in
    same_frame s s' /\ marked B' s' /\
    cnt B' 0 (mem_nr_pages s) = cnt B 0 (mem_nr_pages s) + r) s.
Proof.
  intros HB Hnr Ht Ha Hs He Hfree.
  assert (forall y, usable [e] rs re y = true <->
    DIV_UP (e_addr e) PAGE_SIZE <= y < u64 (e_addr e + e_size e) / PAGE_SIZE /\ ~ rs <= y < re) as Hu.
  { intros y. rewrite usable_spec, <- entry_pages by done. split; [|set_solver].
    intros [(f&->%list_elem_of_singleton&?) ?]. done. }
  pose proof (fun y => proj2 (entry_pages e y Ht Ha Hs He)) as Hin.
  unfold mark_entry. set (a := DIV_UP (e_addr e) PAGE_SIZE) in *.
  set (b := u64 (e_addr e + e_size e) / PAGE_SIZE) in *.
  assert (0 <= a) as Ha0.
  { pose proof (div_up_bounds (e_addr e) PAGE_SIZE ltac:(plia) Ha ltac:(plia)). plia. }
  clearbody a b. set (a1 := if (a >=? rs) && (a <? re) then re else a).
  set (b1 := if (b >? rs) && (b <=? re) then rs else b).
  assert (a1 = if decide (rs <= a < re) then re else a) as Ea by apply clip_start.
  assert (b1 = if decide (rs < b <= re) then rs else b) as Eb by apply clip_end.
  clearbody a1 b1. subst a1 b1. set (a1 := if decide _ then re else a). set (b1 := if decide _ then rs else b).
  rewrite Z.geb_leb. destruct (Z.leb_spec b1 a1) as [Hemp|Hne].
  - wp_step. apply (marking_ext B); [done|done| |lia]. intros y Hy. apply eq_iff_eq_true.
    rewrite orb_true_iff, Hu. unfold a1, b1 in *. repeat case_decide; intuition lia.
  - rewrite Z.gtb_ltb. destruct (Z.ltb_spec a1 rs), (Z.ltb_spec re b1); simpl.
    2-4: (eapply wp_mono; [apply (set_first_order_spec B); [done|unfold a1; case_decide; lia| |done]|]).
    1: { wp_step. eapply wp_mono; [apply (set_first_order_spec B a1 rs); [done|unfold a1; case_decide; lia| |done]|].
      { intros y Hy _. apply Hfree, Hin. unfold a1, b1 in *. repeat case_decide; lia. }
      intros r1 s1 (Hsf1&HB1&Hc1). wp_step.
      eapply wp_mono; [apply (set_first_order_spec (upto B a1 rs) re b1); [exact HB1|lia| |rewrite (proj1 Hsf1); done]|].
      { intros y Hy _. apply not_true_iff_false. rewrite upto_spec. rewrite Hfree; [intuition lia|].
        apply Hin. unfold a1, b1 in *. repeat case_decide; lia. }
      intros r2 s2 (Hsf2&HB2&Hc2). wp_step. rewrite (proj1 Hsf1) in Hc2.
      apply (marking_ext (upto (upto B a1 rs) re b1)); [by eapply same_frame_trans|done| |lia].
      intros y Hy. apply eq_iff_eq_true. rewrite orb_true_iff, Hu, !upto_spec.
      unfold a1, b1 in *. repeat case_decide; intuition lia. }
    all: try (intros y Hy _; apply Hfree, Hin; unfold a1, b1 in *; repeat case_decide; lia).
    all: intros r s' (Hsf&HB'&Hc).
    all: apply (marking_ext (upto B a1 b1)); [done|done| |done].
    all: intros y Hy; apply eq_iff_eq_true; rewrite orb_true_iff, Hu, !upto_spec.
    all: unfold a1, b1 in *; repeat case_decide; intuition lia.
Qed.

Context (t : e820_table) `{!E820Table t}.

(** Different entries have no page in common. *)
Lemma entry_pages_disjoint i j e f p :
  used t !! i = Some e -> used t !! j = Some f -> (i < j)%nat ->
  ram_entry_page e p -> ram_entry_page f p -> False.
Proof.
  intros Hi Hj Hij (_&?&?) (_&?&?).
  pose proof (sane_index_le _ i j e f et_sane Hij Hi Hj). plia.
Qed.

Lemma usable_snoc es e y :
  usable (es ++ [e]) rs re y = usable es rs re y || usable [e] rs re y.
Proof. unfold usable. rewrite existsb_app. by destruct (existsb _ es), (existsb _ [e]), (reserved rs re y). Qed.

Lemma mark_entries_spec n : forall i s,
  (i + n = length (used t))%nat -> 0 <= mem_nr_pages s <= 2 ^ 52 ->
  marked (usable (take i (used t)) rs re) s ->
  wp (mark_entries t rs re i n (cnt (usable (take i (used t)) rs re) 0 (mem_nr_pages s)))
    (fun r s' => same_frame s s' /\ marked (usable (used t) rs re) s' /\
      r = cnt (usable (used t) rs re) 0 (mem_nr_pages s)) s.
Proof.
  induction n as [|n IH]; intros i s Hn Hnr HB; simpl.
  { wp_step. rewrite take_ge in * by lia. done. }
  destruct (used_lookup t i) as (e&He&Hent&Ha&Hs&_&Hend&_); [lia|].
  wp_step. apply (wp_deref e); [done|].
  assert (take (S i) (used t) = take i (used t) ++ [e]) as Etake by (by apply take_S_r).
  destruct (Z.eqb_spec (e_type e) E820_TYPE_RAM) as [Ht|Ht]; simpl.
  - wp_step. eapply wp_mono; [apply mark_entry_spec; [exact HB|lia|done|lia|lia|lia|]|].
    + intros y Hy. apply not_true_iff_false. rewrite usable_spec.
      intros [(f&[j Hj]%list_elem_of_lookup&Hf) _].
      apply lookup_take_Some in Hj as [Hj ?]. by eapply (entry_pages_disjoint j i f e).
    + intros r s' (Hsf&HB'&Hc). cbv zeta in HB', Hc.
      pose proof (cnt_range (fun y => usable (take i (used t)) rs re y || usable [e] rs re y) 0 (mem_nr_pages s)).
      rewrite u64_small by lia. rewrite <- Hc.
      rewrite (cnt_ext _ (usable (take (S i) (used t)) rs re)) by (intros y _; by rewrite Etake, usable_snoc).
      rewrite <- (proj1 Hsf). eapply wp_mono; [apply IH; [lia|rewrite (proj1 Hsf); lia|]|].
      * eapply marked_ext; [|exact HB']. intros y _. by rewrite Etake, usable_snoc.
      * intros r' s2 (Hsf2&H2&->). split_and!; [by eapply same_frame_trans|done|done].
  - assert (forall y, usable (take (S i) (used t)) rs re y = usable (take i (used t)) rs re y) as E.
    { intros y. rewrite Etake, usable_snoc. unfold usable at 2. simpl. unfold page_in.
      destruct (Z.eqb_spec (e_type e) E820_TYPE_RAM); [done|]. simpl. by rewrite orb_false_r. }
    rewrite (cnt_ext _ (usable (take (S i) (used t)) rs re)) by done.
    apply IH; [lia|done|]. eapply marked_ext; [|exact HB]. done.
Qed.
End marking.

(** ** Grouping *)

Lemma run_end_spec n : forall j s,
  (forall y, j <= y < j + Z.of_nat n -> is_Some (hdr s y)) ->
  wp (run_end j n) (fun r s' => s' = s /\ j <= r <= j + Z.of_nat n /\
    (forall y, j <= y < r -> exists k, hdr s y = Some (PG_BUDDY, k)) /\
    (r = j + Z.of_nat n \/ forall k, hdr s r <> Some (PG_BUDDY, k))) s.
Proof.
  induction n as [|n IH]; intros j s Hd; simpl.
  { wp_step. split_and!; [done|lia|lia| |left; lia]. intros. lia. }
  destruct (Hd j) as [[st k] Hj]; [lia|]. wp_step. eapply wp_get_hdr; [exact Hj|]. intros pg -> _.
  destruct (Z.eqb_spec st PG_BUDDY) as [->|]; simpl.
  - eapply wp_mono; [apply IH; intros y Hy; apply Hd; lia|].
    intros r s' (->&Hr&Hall&Hmax). split_and!; [done|lia|lia| |destruct Hmax; [left; lia|by right]].
    intros y Hy. destruct (decide (y = j)) as [->|]; [by exists k|]. apply Hall. lia.
  - wp_step. split_and!; [done|lia|lia|intros; lia|]. right. intros k' E. rewrite Hj in E. by simplify_eq.
Qed.

Lemma mark_tails_spec n : forall j s,
  (forall y, j <= y < j + Z.of_nat n -> exists st, hdr s y = Some (st, 0)) ->
  wp (mark_tails j n) (fun _ s' => same_frame s s' /\ free_matrix s' = free_matrix s /\
    (forall x, links s' x = links s x) /\
    forall x, hdr s' x = if decide (j <= x < j + Z.of_nat n) then Some (PG_TAIL, 0) else hdr s x) s.
Proof.
  induction n as [|n IH]; intros j s Hd; simpl.
  { wp_step. split_and!; [done..|]. intros x. by rewrite decide_False by lia. }
  destruct (Hd j) as [st Hj]; [lia|].
  wp_step. eapply (wp_upd_hdr j st 0 _ PG_TAIL 0); [exact Hj|by intros pg _ <-|].
  intros s1 Hsf1 Hm1 Hl1 Hh1. eapply wp_mono; [apply IH|].
  - intros y Hy. rewrite Hh1, decide_False by lia. apply Hd. lia.
  - intros _ s' (Hsf&Hm&Hl&Hh). split_and!; [by eapply same_frame_trans|congruence|congruence|].
    intros x. rewrite Hh, Hh1. repeat case_decide; (done || lia).
Qed.

Definition below (i : Z) : Z -> Prop := fun x => x < i.

(** The pages below [i] are grouped, the others only marked. *)
Definition grouped (B : Z -> bool) (i : Z) (L : Z -> list Z) (s0 s : mem) : Prop :=
  buddy_inv (below i) L s /\ same_frame s0 s /\
  (forall x, i <= x -> hdr s x = if decide (0 <= x < mem_nr_pages s0)
                                 then Some (if B x then PG_BUDDY else PG_RESERVED, 0) else None) /\
  (forall y, free_in (below i) s y <-> 0 <= y < i /\ B y = true) /\
  (forall x k, ~ allocated s x k).

Lemma length_order_spec c :
  0 < c -> 0 <= length_order c /\ 2 ^ length_order c <= c < 2 ^ (length_order c + 1).
Proof.
  intros Hc. unfold length_order. destruct (Z.eqb_spec c 0); [lia|].
  change (8 * 8 - 1) with 63. split; [|by apply clzll_spec].
  unfold clzll. pose proof (Z.log2_nonneg c). lia.
Qed.

Lemma block_ok_of_hdr s i k :
  0 <= k <= PAGE_MAX_ORDER -> 0 <= i -> i + 2 ^ k <= mem_nr_pages s -> (2 ^ k | i) ->
  (forall y, i < y < i + 2 ^ k -> hdr s y = Some (PG_TAIL, 0)) -> block_ok s i k.
Proof. intros. split_and!; try done; try lia. intros y Hy. exists 0. auto. Qed.

(** The block formed at [i] joins the grouped pages. *)
Lemma grouped_block B i L s0 s s' k L' :
  grouped B i L s0 s -> 0 <= i -> 0 <= k -> (forall y, i <= y < i + 2 ^ k -> B y = true) ->
  buddy_inv (adjoin (below i) i) L' s' -> same_frame s s' ->
  (forall x, hdr s' x = if decide (x = i) then Some (PG_BUDDY, k)
                        else if decide (i < x < i + 2 ^ k) then Some (PG_TAIL, 0) else hdr s x) ->
  grouped B (i + 2 ^ k) L' s0 s'.
Proof.
  intros (HI&Hsf&Hmk&Hfr&Hal) Hi Hk HB HI' Hsf' Hh.
  assert (0 < 2 ^ k) by (apply Z.pow_pos_nonneg; lia).
  split_and!; [|by eapply same_frame_trans|..].
  - eapply nonheads_join; [exact HI'|unfold adjoin, below; lia|].
    intros x st j Hx Hxh Hs. unfold adjoin, below in *. rewrite Hh in Hxh.
    destruct (decide (x <= i)); [lia|]. rewrite decide_False, decide_True in Hxh by lia.
    simplify_eq. by apply tail_not_head in Hs.
  - intros x Hx. rewrite Hh, !decide_False by lia. apply Hmk. lia.
  - intros y. unfold free_in, below in *. split.
    + intros (x&j&Hx&Hxh&Hin). rewrite Hh in Hxh. case_decide; [subst|case_decide; [done|]].
      * simplify_eq. unfold in_block in Hin. split; [lia|apply HB; lia].
      * assert (x < i) by lia. destruct (proj1 (Hfr y)) as [Hy HBy]; [by exists x, j|]. split; [lia|done].
    + intros [Hy HBy]. destruct (decide (y < i)).
      * destruct (proj2 (Hfr y)) as (x&j&Hx&Hxh&Hin); [split; [lia|done]|]. exists x, j.
        rewrite Hh, !decide_False by lia. split_and!; [lia|done|done..].
      * exists i, k. rewrite Hh, decide_True by done. unfold in_block. split_and!; [lia|done|lia|lia].
  - intros x j. unfold allocated in *. rewrite Hh. repeat case_decide; [by intros [=]|by intros [=]|apply Hal].
Qed.

(** Setting the order of the block at [i], marking its tails and linking it. *)
Lemma form_block_spec B i L s0 s k :
  grouped B i L s0 s -> 0 <= i -> 0 <= k <= PAGE_MAX_ORDER -> (2 ^ k | i) ->
  i + 2 ^ k <= mem_nr_pages s0 ->
  (forall y, i <= y < i + 2 ^ k -> hdr s y = Some (PG_BUDDY, 0) /\ B y = true) ->
  wp (upd_page i (set_order k);; pg ← get_page i;
      let pages_in_block := 2 ^ pg_order pg in
      mark_tails (i + 1) (Z.to_nat (pages_in_block - 1));; insert_free i;; mret pages_in_block)
    (fun n s' => n = 2 ^ k /\ exists L', grouped B (i + 2 ^ k) L' s0 s') s.
Proof.
  intros HG Hi Hk Hd Hfit Hrun'. pose proof HG as (HI&Hsf&_).
  assert (0 < 2 ^ k) by (apply Z.pow_pos_nonneg; lia).
  wp_step. eapply (wp_upd_hdr i PG_BUDDY 0 _ PG_BUDDY k); [apply Hrun'; lia|by intros pg <- _|].
  intros s1 Hsf1 Hm1 Hl1 Hh1. wp_step. eapply wp_get_hdr; [by rewrite Hh1, decide_True|]. intros pg _ ->.
  cbv zeta. wp_step. eapply wp_mono; [apply mark_tails_spec|].
  { intros y Hy. rewrite Hh1, decide_False by lia. exists PG_BUDDY. apply Hrun'. lia. }
  intros _ s2 (Hsf2&Hm2&Hl2&Hh2).
  assert (same_frame s s2) as Hss by (by eapply same_frame_trans).
  assert (forall x, hdr s2 x = if decide (x = i) then Some (PG_BUDDY, k)
            else if decide (i < x < i + 2 ^ k) then Some (PG_TAIL, 0) else hdr s x) as Hh.
  { intros x. rewrite Hh2, Hh1. repeat case_decide; (done || lia). }
  clear Hh1 Hh2. assert (buddy_inv (below i) L s2) as HI2.
  { eapply retouched_inv; [|exact HI]. split_and!; [apply Hss|congruence|congruence|].
    intros x. rewrite Hh. destruct (decide (i <= x < i + 2 ^ k)); [|left; by rewrite !decide_False by lia].
    right. right. destruct (Hrun' x) as [Hx _]; [lia|]. rewrite Hx. unfold below. split_and!; [lia| |done|].
    - eapply head_uncovered; [exact HI|exact Hx|by left].
    - by repeat case_decide; try lia. }
  wp_step. eapply (insert_free_inv _ _ _ i PG_BUDDY k); [exact HI2|by rewrite Hh, decide_True|..].
  - unfold below. lia.
  - apply block_ok_of_hdr; [lia|lia|rewrite (proj1 Hss), (proj1 Hsf); lia|done|].
    intros y Hy. by rewrite Hh, decide_False, decide_True by lia.
  - eapply head_uncovered; [exact HI2|by rewrite Hh, decide_True|by left].
  - intros s3 HI3 Hsf3 Hh3. wp_step. split; [done|].
    eexists. eapply (grouped_block B i L s0 s s3 k); [done|lia|lia| |exact HI3|by eapply same_frame_trans|].
    + intros y Hy. apply Hrun'. lia.
    + intros x. rewrite Hh3, Hh. by repeat case_decide.
Qed.

Lemma group_block_spec B i L s0 s :
  grouped B i L s0 s -> 0 <= i < mem_nr_pages s0 -> mem_nr_pages s0 <= 2 ^ 52 -> B i = true ->
  wp (group_block i) (fun k s' => 0 < k /\ i + k <= mem_nr_pages s0 /\
    (forall y, i <= y < i + k -> B y = true) /\ exists L', grouped B (i + k) L' s0 s') s.
Proof.
  intros HG Hi Hnr HBi. pose proof HG as (HI&Hsf&Hmk&_&_).
  pose proof (alignment_order_range i) as Ha. unfold group_block. do 2 wp_step. cbv zeta.
  assert (0 < 2 ^ alignment_order i) by (apply Z.pow_pos_nonneg; lia).
  rewrite (proj1 Hsf). set (e := if _ <=? _ then _ else _).
  assert (e = Z.min (i + 2 ^ alignment_order i) (mem_nr_pages s0)) as He.
  { unfold e. destruct (Z.leb_spec (i + 2 ^ alignment_order i) (mem_nr_pages s0)); lia. }
  clearbody e. wp_step. eapply wp_mono; [apply run_end_spec|].
  { intros y Hy. rewrite Hmk, decide_True by lia. done. }
  intros j s' (->&Hj&Hrun&Hmax).
  assert (forall y, i <= y < j -> hdr s y = Some (PG_BUDDY, 0) /\ B y = true) as Hrun'.
  { intros y Hy. destruct (Hrun y Hy) as [o Ho]. rewrite Hmk, decide_True in Ho |- * by lia. by destruct (B y). }
  assert (i < j) as Hij.
  { destruct (decide (i = j)) as [<-|]; [|lia]. destruct Hmax as [|Hmax]; [lia|].
    exfalso. apply (Hmax 0). rewrite Hmk, decide_True, HBi by lia. done. }
  clear Hrun Hmax. destruct (length_order_spec (j - i)) as (Hk0&Hk1&_); [lia|].
  set (k := length_order (j - i)) in *. clearbody k.
  assert (k <= alignment_order i) as Hka by (apply (Z.pow_le_mono_r_iff 2); lia).
  assert (2 ^ k | i) as Hd by (apply alignment_order_spec; lia).
  assert (0 < 2 ^ k) by (apply Z.pow_pos_nonneg; lia).
  assert (u8 k = k) as Eu by (apply u8_small; unfold PAGE_MAX_ORDER in *; lia). rewrite Eu. clear Eu.
  eapply wp_mono; [apply (form_block_spec B i L s0 s k); [done|lia|lia|done|lia|]|].
  - intros y Hy. apply Hrun'. lia.
  - intros n s' [-> HG']. split_and!; [lia|lia| |done]. intros y Hy. apply Hrun'. lia.
Qed.

Lemma grouped_skip B i L s0 s :
  grouped B i L s0 s -> 0 <= i < mem_nr_pages s0 -> B i = false -> grouped B (i + 1) L s0 s.
Proof.
  intros (HI&Hsf&Hmk&Hfr&Hal) Hi HB.
  assert (hdr s i = Some (PG_RESERVED, 0)) as Hhi by (by rewrite Hmk, decide_True, HB by lia).
  split_and!; [|done|intros x Hx; apply Hmk; lia| |done].
  - eapply nonheads_join; [exact HI|unfold below; lia|]. intros x st k Hx Hxh Hs.
    unfold below in *. destruct (decide (x = i)) as [->|]; [|lia].
    rewrite Hhi in Hxh. simplify_eq. by destruct Hs.
  - intros y. unfold free_in, below in *. split.
    + intros (x&k&Hx&Hxh&Hin). destruct (decide (x = i)) as [->|]; [by rewrite Hhi in Hxh|].
      destruct (proj1 (Hfr y)) as [Hy ?]; [exists x, k; split; [lia|done]|]. split; [lia|done].
    + intros [Hy HBy]. assert (y <> i) by congruence.
      destruct (proj2 (Hfr y)) as (x&k&Hx&Hxh&Hin); [split; [lia|done]|]. exists x, k. split; [lia|done].
Qed.

Lemma group_loop_spec B s0 fuel : forall i L s,
  grouped B i L s0 s -> 0 <= i <= mem_nr_pages s0 -> mem_nr_pages s0 <= 2 ^ 52 ->
  (Z.to_nat (mem_nr_pages s0 - i) < fuel)%nat ->
  wp (group_loop i (cnt B 0 i) fuel) (fun r s' =>
    r = cnt B 0 (mem_nr_pages s0) /\ exists L', grouped B (mem_nr_pages s0) L' s0 s') s.
Proof.
  induction fuel as [|fuel IH]; intros i L s HG Hi Hnr Hf; [lia|].
  pose proof HG as (_&Hsf&Hmk&_). simpl. do 2 wp_step. rewrite (proj1 Hsf).
  destruct (Z.ltb_spec i (mem_nr_pages s0)) as [Hlt|].
  2:{ assert (i = mem_nr_pages s0) as -> by lia. wp_step. split; [done|]. by exists L. }
  pose proof (Hmk i ltac:(lia)) as Hhi. rewrite decide_True in Hhi by lia.
  assert (forall k, 0 <= k -> cnt B 0 (i + k) = cnt B 0 i + cnt B i k) as Hsplit.
  { intros k Hk. by rewrite cnt_split by lia. }
  wp_step. eapply wp_get_hdr; [exact Hhi|]. intros pg -> _. destruct (B i) eqn:EB; simpl.
  - wp_step. eapply wp_mono; [by apply (group_block_spec B i L s0 s); try lia|].
    intros k s' (Hk&Hfit&Hall&L'&HG').
    pose proof (cnt_range B 0 i ltac:(lia)). rewrite u64_small by lia.
    rewrite <- (cnt_const true B i k) at 2 by (done || lia).
    rewrite <- Hsplit by lia. apply (IH (i + k) L'); [done|lia|lia|lia].
  - replace (cnt B 0 i) with (cnt B 0 (i + 1)).
    + apply (IH (i + 1) L); [apply grouped_skip; [done|lia|done]|lia|lia|lia].
    + rewrite Hsplit by lia. rewrite (cnt_const false B i 1); [lia|lia|].
      intros y Hy. by replace y with i by lia.
Qed.

(** ** buddy_build and buddy_init *)

Lemma marked_grouped B s : 0 <= mem_nr_pages s -> marked B s -> grouped B 0 (fun _ => []) s s.
Proof.
  intros Hnr [Hfm Hh]. split_and!; [|done|intros x _; apply Hh|..].
  - split.
    + intros x. rewrite Hh. case_decide; split; (done || intros [? [=]]).
    + intros x st k Hx Hxh _. unfold below in Hx. by rewrite Hh, decide_False in Hxh by lia.
    + intros k _. by rewrite Hfm, lookup_empty.
    + done.
    + intros k _. apply NoDup_nil_2.
    + intros x k _. unfold below. rewrite elem_of_nil. split; [done|]. intros [Hx Hxh].
      by rewrite Hh, decide_False in Hxh by lia.
  - intros y. unfold free_in, below. split; [|lia]. intros (x&k&Hx&Hxh&_).
    by rewrite Hh, decide_False in Hxh by lia.
  - intros x k. unfold allocated. rewrite Hh. case_decide; [|done]. by destruct (B x).
Qed.

(** All pages reserved and no free block: the array [mem_init] has cleared. *)
Definition cleared (s : mem) : Prop := marked (fun _ => false) s.

Lemma cleared_map_cleared nr m : 0 <= nr -> cleared (mk_mem (cleared_map nr) nr ∅ m).
Proof. intros Hnr. split; [done|]. intros x. unfold hdr. simpl. rewrite lookup_cleared. by case_decide. Qed.

Lemma cnt_empty n : 0 <= n -> cnt (usable [] 0 0) 0 n = 0.
Proof. intros. by apply (cnt_const false). Qed.

Lemma grouped_complete B nr L s0 s :
  grouped B nr L s0 s -> mem_nr_pages s0 = nr -> buddy_inv everywhere L s /\
  (forall y, free_page s y <-> 0 <= y < nr /\ B y = true) /\ (forall x k, ~ allocated s x k).
Proof.
  intros (HI&Hsf&Hmk&Hfr&Hal) Hnr.
  assert (forall x h, hdr s x = Some h -> below nr x) as Hb.
  { intros x h Hx. unfold below. destruct (decide (x < nr)); [done|].
    by rewrite Hmk, decide_False in Hx by lia. }
  split_and!; [|intros y; rewrite <- Hfr|done].
  - eapply nonheads_join; [exact HI|done|]. intros x st k _ Hx _. by eapply Hb.
  - split; intros (x&k&_&Hx&Hin); exists x, k; [|done]. split; [by eapply Hb|done].
Qed.

Section build.
Context (t : e820_table) `{!E820Table t} (rs re : Z) (Hrs : 0 <= rs <= re).

Lemma buddy_build_wp s :
  cleared s -> 0 <= mem_nr_pages s <= 2 ^ 40 ->
  wp (buddy_build t rs re) (fun _ s' =>
    mem_nr_pages s' = mem_nr_pages s /\ (exists L, buddy_inv everywhere L s') /\
    (forall y, free_page s' y <->
       0 <= y < mem_nr_pages s /\ ram_page t (y * PAGE_SIZE) /\ ~ rs <= y < re) /\
    (forall x k, ~ allocated s' x k) /\
    managed_mem s' = cnt (usable (used t) rs re) 0 (mem_nr_pages s) * PAGE_SIZE) s.
Proof.
  intros Hc Hnr. unfold buddy_build. wp_step. rewrite (count_u32 t).
  pose proof (mark_entries_spec rs re Hrs t (length (used t)) 0 s) as Hm.
  assert (cnt (usable (take 0 (used t)) rs re) 0 (mem_nr_pages s) = 0) as E0.
  { apply (cnt_const false); [lia|done]. }
  rewrite E0 in Hm. eapply wp_mono; [apply Hm; [done|lia|exact Hc]|]. clear Hm E0.
  intros ? s1 (Hsf1&HB&->). set (B := usable (used t) rs re) in *. do 3 wp_step.
  assert (mem_nr_pages s1 = mem_nr_pages s) as Hn1 by apply Hsf1.
  assert (0 = cnt B 0 0) as E0 by done.
  eapply wp_mono; [rewrite E0 at 2; apply (group_loop_spec B s1 _ 0 (fun _ => []));
    [apply marked_grouped; [lia|done]|lia|lia|lia]|].
  intros acc s2 (->&L&HG). rewrite Hn1, Z.eqb_refl. simpl. do 3 wp_step. simpl.
  destruct (grouped_complete B _ L s1 s2 HG) as (HI&Hfr&Hal); [done|].
  pose proof (cnt_range B 0 (mem_nr_pages s) ltac:(lia)).
  split_and!.
  - rewrite <- Hn1. apply HG.
  - exists L. eapply retouched_inv; [|exact HI]. split_and!; [done..|]. intros x. by left.
  - intros y. rewrite Hn1 in Hfr.
    change (free_page (set_managed _ s2) y) with (free_page s2 y). rewrite (Hfr y).
    unfold B. rewrite usable_spec. unfold ram_page.
    assert (PAGE_SIZE | y * PAGE_SIZE) by (by exists y). tauto.
  - exact Hal.
  - rewrite u64_small; [done|plia].
Qed.
End build.

Lemma buddy_init_wp t s :
  E820Table t -> cleared (mm_mem s) -> 0 <= mem_nr_pages (mm_mem s) <= 2 ^ 40 ->
  KERNEL_PHYS <= pool_end (mm_boot s) <= 2 ^ 53 ->
  wp (buddy_init t) (fun r s' => r = 0 /\ bm_st (mm_boot s') = LOCKED /\
    (exists L, buddy_inv everywhere L (mm_mem s')) /\
    (forall y, free_page (mm_mem s') y <-> 0 <= y < mem_nr_pages (mm_mem s) /\
       ram_page t (y * PAGE_SIZE) /\
       ~ KERNEL_PHYS <= y * PAGE_SIZE < pool_end (mm_boot s)) /\
    (forall x k, ~ allocated (mm_mem s') x k) /\
    managed_mem (mm_mem s') =
      PAGE_SIZE * cnt (usable (used t) (KERNEL_PHYS / PAGE_SIZE) (DIV_UP (pool_end (mm_boot s)) PAGE_SIZE))
                    0 (mem_nr_pages (mm_mem s)) /\
    mem_nr_pages (mm_mem s') = mem_nr_pages (mm_mem s) /\ pool_end (mm_boot s') = pool_end (mm_boot s)) s.
Proof.
  intros Ht Hc Hnr Hpe. unfold KERNEL_PHYS in *.
  pose proof (div_up_bounds (pool_end (mm_boot s)) PAGE_SIZE ltac:(plia) ltac:(lia) ltac:(plia)) as Hd.
  assert (0x200000 / PAGE_SIZE = 512) as E5 by done.
  assert (0 <= 512 <= DIV_UP (pool_end (mm_boot s)) PAGE_SIZE) as Hrs by plia.
  rewrite E5. set (re := DIV_UP (pool_end (mm_boot s)) PAGE_SIZE) in *.
  unfold buddy_init, KERNEL_PHYS. wp_step. apply wp_zoom. unfold bootmem_lock. wp_auto.
  change (bootmem_get_pool_end _) with (pool_end (mm_boot s)). fold re. rewrite E5.
  apply wp_zoom. eapply wp_mono; [by apply (buddy_build_wp t 512 re Hrs)|].
  intros [] m (Hnr'&HL&Hfr&Hal&Hm). wp_step. simpl. split_and!; try done; [|by rewrite Hm, Z.mul_comm].
  intros y. rewrite Hfr.
  assert (512 <= y < re <-> 0x200000 <= y * PAGE_SIZE < pool_end (mm_boot s)) as ->; [plia|done].
Qed.

(** C5: On a sane e820 table and a cleared page array, [buddy_init] neither
    panics nor faults: its count of grouped pages agrees with its count of marked
    pages.  It locks the boot pool, and establishes an allocator in which no page
    is allocated and the free pages are exactly the RAM pages of the array outside
    the kernel image and the boot pool; [managed_mem] is their total size. *)
Theorem buddy_init_correct t s :
  E820Table t -> cleared (mm_mem s) -> 0 <= mem_nr_pages (mm_mem s) <= 2 ^ 40 ->
  KERNEL_PHYS <= pool_end (mm_boot s) <= 2 ^ 53 ->
  exists s' tr, buddy_init t s = Ok 0 s' tr /\
    bm_st (mm_boot s') = LOCKED /\ (exists L, buddy_inv everywhere L (mm_mem s')) /\
    (forall y, free_page (mm_mem s') y <-> 0 <= y < mem_nr_pages (mm_mem s) /\
       ram_page t (y * PAGE_SIZE) /\
       ~ KERNEL_PHYS <= y * PAGE_SIZE < pool_end (mm_boot s)) /\
    (forall x k, ~ allocated (mm_mem s') x k) /\
    managed_mem (mm_mem s') =
      PAGE_SIZE * cnt (usable (used t) (KERNEL_PHYS / PAGE_SIZE) (DIV_UP (pool_end (mm_boot s)) PAGE_SIZE))
                    0 (mem_nr_pages (mm_mem s)).
Proof.
  intros Ht Hc Hnr Hpe. destruct (wp_elim _ _ _ (buddy_init_wp t s Ht Hc Hnr Hpe)) as (r&s'&tr&E&->&Hst&HL&Hfr&Hal&Hm&_).
  exists s', tr. by split_and!.
Qed.

(** The example map of the boot pool, with the pages below 16 MiB. *)
Definition ex_mm : mm_state := mk_mm ex_pool (mk_mem (cleared_map 4096) 4096 ∅ 0).

Lemma buddy_init_correct_witness :
  exists s' tr, buddy_init ex_sane ex_mm = Ok 0 s' tr /\ exists L, buddy_inv everywhere L (mm_mem s').
Proof.
  destruct (buddy_init_correct ex_sane ex_mm ex_sane_table) as (s'&tr&E&_&HL&_).
  - apply (cleared_map_cleared 4096). lia.
  - simpl. lia.
  - unfold ex_mm, KERNEL_PHYS. simpl. lia.
  - exists s', tr. split; [exact E|exact HL].
Defined.
