(* ===== verification/Vmm.v ===== *)
(** * The virtual memory manager (arch/x86/vmm.c) and its boot-time client

    Page tables are words of physical memory.  A [uint64_t*] is a virtual
    address; [resolve] is the translation that is in force for the pointers the
    manager itself uses: the window of the kernel image, the low identity map
    while it exists, and the direct map (HHDM) once it is built.  The page walk
    of the processor, by which everything else is reached, is the specification of the tables. *)

From S2P Require Import Prelude Kmath E820 Bootmem Mem Buddy.
From Stdlib Require Import ZArith Lia.
From stdpp Require Import base gmap list strings.

Open Scope Z_scope.

(** ** Constants of vmm.h and vmm.c *)

Definition PT_PRESENT : Z := 0x1.
Definition PT_WRITABLE : Z := 0x2.
Definition PT_USER : Z := 0x4.
Definition PT_PWT : Z := 0x8.
Definition PT_PCD : Z := 0x10.
Definition PT_ACCESSED : Z := 0x20.
Definition PT_DIRTY : Z := 0x40.
Definition PT_PSE : Z := 0x80.
Definition PT_GLOBAL : Z := 0x100.
Definition PT_NX : Z := 0x8000000000000000.

Definition KERN_PML4 : Z := 0xFFFFFFFFFFFFFFFF.
Definition SIZE_MAX : Z := 0xFFFFFFFFFFFFFFFF.
Definition FLAGS_MASK : Z := 0x8000000000000FFF.
Definition LARGE_PAGE_SIZE : Z := 0x200000.
Definition LARGE_FLAGS_MASK : Z := 0x80000000001FFFFF.
Definition CR3_ADDR_MASK : Z := 0x000FFFFFFFFFF000.

(** [v & mask] as a condition, and [v & ~mask]. *)
Definition has (v mask : Z) : bool := negb (Z.land v mask =? 0).
Definition clear_bits (v mask : Z) : Z := Z.ldiff v mask.

(** ** The page walk of the processor *)

(** Index of [v] in a table of level [l] (4 is the PML4). *)
Definition tidx (l : nat) (v : Z) : Z := Z.land (Z.shiftr v (3 + 9 * Z.of_nat l)) 0x1FF.

(** Bits 51:12 of an entry. *)
Definition HW_FRAME : Z := 0x000FFFFFFFFFF000.
Definition hw_frame (e : Z) : Z := Z.land e HW_FRAME.

(** The leaf entry that translates [v], with its level. *)
Fixpoint walk (r : Z -> Z) (l : nat) (f v : Z) : option (Z * nat) :=
  match l with
  | O => None
  | S l' =>
      let e := r (f + 8 * tidx l v) in
      if negb (has e PT_PRESENT) then None
      else if Nat.eqb l 1 || (has e PT_PSE && Nat.ltb l 4) then Some (e, l)
      else walk r l' (hw_frame e) v
  end.

(** The physical address [v] is translated to, with the leaf entry. *)
Definition page_bits (l : nat) : Z := 3 + 9 * Z.of_nat l.
Definition translate (r : Z -> Z) (root v : Z) : option (Z * Z) :=
  (fun el => (clear_bits (hw_frame el.1) (2 ^ page_bits el.2 - 1) + v mod 2 ^ page_bits el.2, el.1))
    <$> walk r 4 root v.

(** ** State *)

Definition VMM_EARLY : Z := 0.
Definition VMM_IDENTITY : Z := 1.
Definition VMM_TRANSITION : Z := 2.
Definition VMM_VIRTUAL_ONLY : Z := 3.
Definition VMM_READY : Z := 4.

Record vmm := mk_vmm {
  vm_state : Z;
  low_map_end : Z;
  ram : Z -> Z;
  cr3 : Z;
  cr4 : Z;
  efer : Z;
}.

Definition set_vm_state (v : Z) (s : vmm) := mk_vmm v (low_map_end s) (ram s) (cr3 s) (cr4 s) (efer s).
Definition set_low_end (v : Z) (s : vmm) := mk_vmm (vm_state s) v (ram s) (cr3 s) (cr4 s) (efer s).
Definition set_ram (v : Z -> Z) (s : vmm) := mk_vmm (vm_state s) (low_map_end s) v (cr3 s) (cr4 s) (efer s).
Definition set_cr3_reg (v : Z) (s : vmm) := mk_vmm (vm_state s) (low_map_end s) (ram s) v (cr4 s) (efer s).
Definition set_cr4_reg (v : Z) (s : vmm) := mk_vmm (vm_state s) (low_map_end s) (ram s) (cr3 s) v (efer s).
Definition set_efer (v : Z) (s : vmm) := mk_vmm (vm_state s) (low_map_end s) (ram s) (cr3 s) (cr4 s) v.

(** The memory management statics: boot pool, page allocator, page tables. *)
Record kernel := mk_kernel { k_mm : mm_state; k_vm : vmm }.
Definition k_boot (s : kernel) : bootmem := mm_boot (k_mm s).
Definition k_mem (s : kernel) : mem := mm_mem (k_mm s).
Definition set_boot (b : bootmem) (s : kernel) := mk_kernel (mk_mm b (k_mem s)) (k_vm s).
Definition set_mem (m : mem) (s : kernel) := mk_kernel (mk_mm (k_boot s) m) (k_vm s).
Definition set_vm (v : vmm) (s : kernel) := mk_kernel (k_mm s) v.

Definition on_boot {A} (m : M bootmem A) : M kernel A := zoom k_boot set_boot m.
Definition on_mem {A} (m : M mem A) : M kernel A := zoom k_mem set_mem m.
Definition vmod (f : vmm -> vmm) : M kernel unit := modify (fun s => set_vm (f (k_vm s)) s).

(** The addresses the linker gives the static tables. *)
Class KernelLayout := {
  kern_pml4 : Z;
  pdpt_low : Z;
  pd_low : Z;
  pdpt_kern : Z;
  pd_kern : Z;
}.

(** ** Pointers *)

(** The physical address behind a pointer of the manager: the 2 MiB window of
    the kernel image; the direct map from [VMM_TRANSITION] on; the low identity
    map up to [VMM_TRANSITION]. *)
Definition resolve (s : vmm) (ptr : Z) : option Z :=
  if (kernel_vma_start <=? ptr) && (ptr <? kernel_vma_start + LARGE_PAGE_SIZE)
  then Some (ptr - kernel_vma_start + KERNEL_PHYS)
  else if (HHDM_BASE <=? ptr) && (ptr <? kernel_vma_start) then
    if VMM_TRANSITION <=? vm_state s then Some (ptr - HHDM_BASE) else None
  else if (0 <=? ptr) && (ptr <? 0x40000000) then
    if vm_state s <=? VMM_TRANSITION then Some ptr else None
  else None.

(** [table[idx]], and [table[idx] = v]. *)
Definition load (table idx : Z) : M kernel Z :=
  s ← get;
  a ← deref (resolve (k_vm s) (table + 8 * idx));
  mret (ram (k_vm s) a).
Definition upd_word (a v : Z) (r : Z -> Z) : Z -> Z := fun x => if x =? a then v else r x.
Definition store (table idx v : Z) : M kernel unit :=
  s ← get;
  a ← deref (resolve (k_vm s) (table + 8 * idx));
  vmod (set_ram (upd_word a v (ram (k_vm s)))).
(** [memset(table, 0, PAGE_SIZE)]. *)
Definition clear_words (a : Z) (r : Z -> Z) : Z -> Z :=
  fun x => if (a <=? x) && (x <? a + PAGE_SIZE) then 0 else r x.
Definition clear_table (table : Z) : M kernel unit :=
  s ← get;
  a ← deref (resolve (k_vm s) table);
  vmod (set_ram (clear_words a (ram (k_vm s)))).

Definition virt_to_phys (virt : Z) : Z :=
  if virt >=? kernel_vma_start then u64 (u64 (virt + KERNEL_PHYS) - kernel_vma_start)
  else if virt >=? HHDM_BASE then clear_bits (virt - HHDM_BASE) FLAGS_MASK
  else clear_bits virt FLAGS_MASK.

Definition phys_to_virt (s : vmm) (phys : Z) : Z :=
  if vm_state s >=? VMM_TRANSITION then u64 (phys + HHDM_BASE) else phys.

Definition set_cr3 (pml4 : Z) : M kernel unit :=
  vmod (set_cr3_reg pml4);; emit (EvCr3 pml4).

(** [for (i = start; n iterations; i += step) body(i)]. *)
Fixpoint for_loop {S} (i step : Z) (n : nat) (body : Z -> M S unit) : M S unit :=
  match n with
  | O => mret tt
  | Datatypes.S n' => body i;; for_loop (i + step) step n' body
  end.

(** A write of [n] bytes at [virt], the start of a page, through the tables in CR3: a page fault
    unless each of the pages is mapped and writable.  The loop counts the pages. *)
Definition writable (s : vmm) (v : Z) : bool :=
  match translate (ram s) (cr3 s) v with Some (_, e) => has e PT_WRITABLE | None => false end.
Definition write_range (virt n : Z) : M kernel unit :=
  for_loop 0 PAGE_SIZE (Z.to_nat ((n + PAGE_SIZE - 1) / PAGE_SIZE))
    (fun off => s ← get; if writable (k_vm s) (virt + off) then mret tt else fault).

Section vmm.
Context `{KernelLayout}.
(** The e820 table that [e820_get_table] points to. *)
Context (table : e820_table).

(** ** Initialisation *)

Definition map_low_identity : M kernel unit :=
  store kern_pml4 0 (Z.lor (Z.lor (virt_to_phys pdpt_low) PT_PRESENT) PT_WRITABLE);;
  store pdpt_low 0 (Z.lor (Z.lor (virt_to_phys pd_low) PT_PRESENT) PT_WRITABLE);;
  for_loop 0 1 512 (fun i =>
    store pd_low i (Z.lor (Z.lor (Z.lor (i * 0x200000) PT_PRESENT) PT_WRITABLE) PT_PSE));;
  vmod (set_vm_state VMM_IDENTITY);;
  vmod (set_low_end (512 * 0x200000)).

Definition map_kernel : M kernel unit :=
  let idx := Z.land (Z.shiftr kernel_vma_start 39) 0x1FF in
  store kern_pml4 idx (Z.lor (Z.lor (virt_to_phys pdpt_kern) PT_PRESENT) PT_WRITABLE);;
  let idx := Z.land (Z.shiftr kernel_vma_start 30) 0x1FF in
  store pdpt_kern idx (Z.lor (Z.lor (virt_to_phys pd_kern) PT_PRESENT) PT_WRITABLE);;
  let idx := Z.land (Z.shiftr kernel_vma_start 21) 0x1FF in
  store pd_kern idx
    (Z.lor (Z.lor (Z.lor (Z.lor KERNEL_PHYS PT_PRESENT) PT_WRITABLE) PT_PSE) PT_GLOBAL).

Definition enable_nxe : M kernel unit := vmod (fun s => set_efer (Z.lor (efer s) (Z.shiftl 1 11)) s).
Definition enable_pge : M kernel unit := vmod (fun s => set_cr4_reg (Z.lor (cr4 s) (Z.shiftl 1 7)) s).

Definition vmm_init : M kernel unit :=
  enable_nxe;;
  enable_pge;;
  map_low_identity;;
  map_kernel;;
  set_cr3 (virt_to_phys kern_pml4);;
  printk (line "[OK] VMM initialized") [].

Definition vmm_get_low_map_end : M kernel Z := gets (fun s => low_map_end (k_vm s)).

(** ** Tables *)

(** [page_to_hhdm(NULL)], met when the page allocator has no page left, is
    pointer arithmetic outside of any object. *)
Definition __alloc_table : M kernel Z :=
  s ← get;
  let st := vm_state (k_vm s) in
  if st =? VMM_IDENTITY then on_boot (bootmem_alloc_page_phys table)
  else if (st =? VMM_TRANSITION) || (st =? VMM_VIRTUAL_ONLY) then on_boot (bootmem_alloc_page table)
  else if st =? VMM_READY then
    page ← on_mem (alloc_pages 0);
    p ← deref page;
    mret (page_to_hhdm p)
  else
    printk (KERN_ERR +:+ line "No present allocator for VMM, can't alloc") [];;
    mret 0.

Definition get_or_create_table (tbl idx : Z) : M kernel Z :=
  s ← get;
  if vm_state (k_vm s) <? VMM_IDENTITY then mret 0 else
  if idx >=? 512 then mret 0 else
  entry ← load tbl idx;
  if has entry PT_PRESENT then
    if has entry PT_PSE then mret 0
    else mret (phys_to_virt (k_vm s) (clear_bits entry FLAGS_MASK))
  else
    sub_table ← __alloc_table;
    if sub_table =? 0 then mret 0 else
    clear_table sub_table;;
    store tbl idx (Z.lor (Z.lor (Z.lor (virt_to_phys sub_table) PT_PRESENT) PT_WRITABLE) PT_USER);;
    mret sub_table.

Definition pml4_idx (virt : Z) : Z := Z.land (Z.shiftr virt 39) 0x1FF.
Definition pdpt_idx (virt : Z) : Z := Z.land (Z.shiftr virt 30) 0x1FF.
Definition pd_idx (virt : Z) : Z := Z.land (Z.shiftr virt 21) 0x1FF.
Definition pt_idx (virt : Z) : Z := Z.land (Z.shiftr virt 12) 0x1FF.

Definition get_or_create_pt (pml4 virt : Z) : M kernel Z :=
  pdpt ← get_or_create_table pml4 (pml4_idx virt);
  if pdpt =? 0 then mret 0 else
  pd ← get_or_create_table pdpt (pdpt_idx virt);
  if pd =? 0 then mret 0 else
  get_or_create_table pd (pd_idx virt).

Definition get_or_create_pd (pml4 virt : Z) : M kernel Z :=
  pdpt ← get_or_create_table pml4 (pml4_idx virt);
  if pdpt =? 0 then mret 0 else
  get_or_create_table pdpt (pdpt_idx virt).

(** ** Single pages: [true] is the return value 0, [false] is -1 *)

Definition set_page (pml4 virt phys flags : Z) (overwrite : bool) : M kernel bool :=
  if has virt (PAGE_SIZE - 1) then mret false else
  if has phys (PAGE_SIZE - 1) then mret false else
  pt ← get_or_create_pt pml4 virt;
  if pt =? 0 then mret false else
  let idx := pt_idx virt in
  old ← load pt idx;
  if negb overwrite && has old PT_PRESENT then mret false else
  store pt idx (Z.lor (clear_bits phys FLAGS_MASK) flags);;
  mret true.

Definition set_large_page (pml4 virt phys flags : Z) (overwrite : bool) : M kernel bool :=
  if has virt (LARGE_PAGE_SIZE - 1) then mret false else
  if has phys (LARGE_PAGE_SIZE - 1) then mret false else
  pd ← get_or_create_pd pml4 virt;
  if pd =? 0 then mret false else
  let idx := pd_idx virt in
  old ← load pd idx;
  if negb overwrite && has old PT_PRESENT then mret false else
  store pd idx (Z.lor (Z.lor (clear_bits phys LARGE_FLAGS_MASK) flags) PT_PSE);;
  mret true.

(** ** Ranges *)

(** The loop of [set_pages] and [set_large_pages]: [n] pages of [step] bytes. *)
Fixpoint set_loop (set : Z -> Z -> M kernel bool) (virt phys step i : Z) (n : nat) (failed : Z) : M kernel Z :=
  match n with
  | O => mret failed
  | S n' =>
      ok ← set (u64 (virt + i)) (u64 (phys + i));
      set_loop set virt phys step (i + step) n' (if ok : bool then failed else u64 (failed + step))
  end.

Definition set_pages (pml4 virt phys size flags : Z) (overwrite : bool) : M kernel Z :=
  if has virt (PAGE_SIZE - 1) then mret size else
  if has phys (PAGE_SIZE - 1) then mret size else
  if has size (PAGE_SIZE - 1) then mret size else
  set_loop (fun v p => set_page pml4 v p flags overwrite) virt phys PAGE_SIZE 0
    (Z.to_nat (size / PAGE_SIZE)) 0.

Definition set_large_pages (pml4 virt phys size flags : Z) (overwrite : bool) : M kernel Z :=
  if has virt (LARGE_PAGE_SIZE - 1) then mret size else
  if has phys (LARGE_PAGE_SIZE - 1) then mret size else
  if has size (LARGE_PAGE_SIZE - 1) then mret size else
  set_loop (fun v p => set_large_page pml4 v p flags overwrite) virt phys LARGE_PAGE_SIZE 0
    (Z.to_nat (size / LARGE_PAGE_SIZE)) 0.

(** [set_range], after the check that both addresses have the same offset in
    their 2 MiB frame: rounding to whole pages, and the three parts.  The plan
    [(pre, large, pos)] lists them as [(virt, phys, size)]. *)
Definition align_start (virt phys failed : Z) : Z * Z * Z :=
  if has virt (PAGE_SIZE - 1) then
    let offset := u64 (ROUND_UP virt PAGE_SIZE - virt) in
    (u64 (virt + offset), u64 (phys + offset), u64 (failed + offset))
  else (virt, phys, failed).

Definition align_end (virt_end failed : Z) : Z * Z :=
  if has virt_end (PAGE_SIZE - 1) then
    let offset := u64 (virt_end - ROUND_DOWN virt_end PAGE_SIZE) in
    (u64 (virt_end - offset), u64 (failed + offset))
  else (virt_end, failed).

Definition range_plan (virt phys virt_end : Z) : (Z * Z * Z) * (Z * Z * Z) * (Z * Z * Z) :=
  let large_virt := ROUND_UP virt LARGE_PAGE_SIZE in
  let large_phys := ROUND_UP phys LARGE_PAGE_SIZE in
  let large_virt_end := ROUND_DOWN virt_end LARGE_PAGE_SIZE in
  let large_size := if large_virt_end >? large_virt then large_virt_end - large_virt else 0 in
  let pre_pad_end := if large_virt <? virt_end then large_virt else virt_end in
  let pre_pad_size := if pre_pad_end >? virt then pre_pad_end - virt else 0 in
  let pos_pad_virt := u64 (large_virt + large_size) in
  let pos_pad_phys := u64 (large_phys + large_size) in
  let pos_pad_size := if virt_end >? pos_pad_virt then virt_end - pos_pad_virt else 0 in
  ((virt, phys, pre_pad_size), (large_virt, large_phys, large_size),
   (pos_pad_virt, pos_pad_phys, pos_pad_size)).

Definition part (set : Z -> Z -> Z -> M kernel Z) (p : Z * Z * Z) (failed : Z) : M kernel Z :=
  let '(v, ph, n) := p in
  if n =? 0 then mret failed else
  k ← set v ph n;
  mret (u64 (failed + k)).

Definition set_range (pml4 virt phys size flags : Z) (overwrite : bool) : M kernel Z :=
  if negb (Z.land virt (LARGE_PAGE_SIZE - 1) =? Z.land phys (LARGE_PAGE_SIZE - 1)) then mret size else
  let virt_end := u64 (virt + size) in
  let '(virt, phys, failed) := align_start virt phys 0 in
  let '(virt_end, failed) := align_end virt_end failed in
  if virt >=? virt_end then mret size else
  let '(pre, large, pos) := range_plan virt phys virt_end in
  failed ← part (fun v p n => set_pages pml4 v p n flags overwrite) pre failed;
  failed ← part (fun v p n => set_large_pages pml4 v p n flags overwrite) large failed;
  part (fun v p n => set_pages pml4 v p n flags overwrite) pos failed.

(** ** The direct map *)

Definition hhdm_flags (ty : Z) : Z :=
  let flags := Z.lor (Z.lor PT_PRESENT PT_GLOBAL) PT_NX in
  if ty =? E820_TYPE_RAM then Z.lor flags PT_WRITABLE
  else if (ty =? E820_TYPE_NVS) || (ty =? E820_TYPE_ACPI) then flags
  else Z.lor PT_PCD PT_PWT.

Fixpoint map_hhdm_loop (i n : nat) (failed total : Z) : M kernel (Z * Z) :=
  match n with
  | O => mret (failed, total)
  | S n' =>
      e ← deref (entries table !! i);
      k ← set_range kern_pml4 (u64 (HHDM_BASE + e_addr e)) (e_addr e) (e_size e) (hhdm_flags (e_type e)) false;
      map_hhdm_loop (S i) n' (u64 (failed + k)) (u64 (total + e_size e))
  end.

Definition vmm_map_hhdm : M kernel Z :=
  s ← get;
  if negb (vm_state (k_vm s) =? VMM_IDENTITY) then
    printk (KERN_ERR +:+ line "[ERR] Low identity is not present, can't perform HHDM mapping") [];;
    mret (-1)
  else
    '(failed, total) ← map_hhdm_loop 0 (Z.to_nat (entries_count table)) 0 0;
    vga_failed ← set_range kern_pml4 (u64 (HHDM_BASE + 0xA0000)) 0xA0000 0x20000
      (Z.lor (Z.lor (Z.lor (Z.lor (Z.lor PT_PRESENT PT_WRITABLE) PT_GLOBAL) PT_NX) PT_PCD) PT_PWT) false;
    when (negb (vga_failed =? 0))
      (printk (KERN_WARNING +:+ line "[WARN] Failed to fully map VGA framebuffer") []);;
    vmod (set_vm_state VMM_TRANSITION);;
    if negb (failed =? 0) then
      printk (KERN_WARNING +:+ line "[WARN] HHDM mapped %llu KiB and skipped %llu KiB")
        [u64 (total - failed) / 1024; failed / 1024];;
      mret (-1)
    else
      printk (line "[OK] HHDM mapped %llu KiB") [total / 1024];;
      mret 0.

(** The message of the error branch is passed as an argument of a format that is
    the bare log level. *)
Definition vmm_unmap_low_identity : M kernel Z :=
  s ← get;
  if negb (vm_state (k_vm s) =? VMM_TRANSITION) then
    printk KERN_ERR [];;
    mret (-1)
  else
    store kern_pml4 0 0;;
    set_cr3 (cr3 (k_vm s));;
    vmod (set_vm_state VMM_VIRTUAL_ONLY);;
    printk (line "[OK] VMM unmapped low identity") [];;
    mret 0.

(** ** Mapping interface *)

Definition vmm_map (pml4 virt phys size flags : Z) : M kernel Z :=
  let pml4 := if pml4 =? KERN_PML4 then kern_pml4 else pml4 in
  if pml4 =? 0 then mret SIZE_MAX else
  if negb (pml4 mod 0x1000 =? 0) then mret SIZE_MAX else
  if negb (Z.land virt (LARGE_PAGE_SIZE - 1) =? Z.land phys (LARGE_PAGE_SIZE - 1)) then
    if negb (Z.land virt (PAGE_SIZE - 1) =? Z.land phys (PAGE_SIZE - 1)) then mret size else
    let virt_end := u64 (virt + size) in
    let '(virt, phys, failed) := align_start virt phys 0 in
    let '(virt_end, failed) := align_end virt_end failed in
    if virt >=? virt_end then mret size else
    k ← set_pages pml4 virt phys (u64 (virt_end - virt)) flags false;
    mret (u64 (failed + k))
  else set_range pml4 virt phys size flags false.

Fixpoint pt_mapped_loop (pt i : Z) (n : nat) : M kernel Z :=
  match n with
  | O => mret 0
  | S n' =>
      entry ← load pt i;
      if negb (has entry PT_PRESENT) then pt_mapped_loop pt (i + 1) n' else mret 1
  end.
Definition is_pt_mapped (pt start_idx entries_count : Z) : M kernel Z :=
  if pt =? 0 then mret (-1) else
  let end_idx := u32 (start_idx + entries_count) in
  let end_idx := if end_idx >? 512 then 512 else end_idx in
  pt_mapped_loop pt start_idx (Z.to_nat (end_idx - start_idx)).

(** One iteration of the search: [None] when a mapping is found, otherwise the
    next address to look at. *)
Definition skip_unmapped (pml4 virt : Z) : M kernel (option Z) :=
  s ← get;
  entry ← load pml4 (pml4_idx virt);
  if negb (has entry PT_PRESENT) then mret (Some (u64 (ROUND_DOWN virt 0x8000000000 + 0x8000000000))) else
  let pdpt := phys_to_virt (k_vm s) (clear_bits entry FLAGS_MASK) in
  entry ← load pdpt (pdpt_idx virt);
  if negb (has entry PT_PRESENT) then mret (Some (u64 (ROUND_DOWN virt 0x40000000 + 0x40000000))) else
  if has entry PT_PSE then mret None else
  let pd := phys_to_virt (k_vm s) (clear_bits entry FLAGS_MASK) in
  entry ← load pd (pd_idx virt);
  if negb (has entry PT_PRESENT) then
    mret (Some (u64 (ROUND_DOWN virt LARGE_PAGE_SIZE + LARGE_PAGE_SIZE))) else
  if has entry PT_PSE then mret None else
  let pt := phys_to_virt (k_vm s) (clear_bits entry FLAGS_MASK) in
  entry ← load pt (pt_idx virt);
  if negb (has entry PT_PRESENT) then mret (Some (u64 (virt + PAGE_SIZE))) else mret None.

(** [while (virt < end)]; each iteration moves [virt] up by a page or to the next
    table boundary, from where on it moves by whole pages. *)
Fixpoint has_mapping_loop (pml4 virt end_ : Z) (fuel : nat) : M kernel Z :=
  if virt <? end_ then
    match fuel with
    | O => fault
    | S fuel' =>
        next ← skip_unmapped pml4 virt;
        match next with
        | None => mret 1
        | Some v => has_mapping_loop pml4 v end_ fuel'
        end
    end
  else mret 0.

Definition vmm_virt_range_has_mapping (pml4 virt size : Z) : M kernel Z :=
  let pml4 := if pml4 =? KERN_PML4 then kern_pml4 else pml4 in
  if pml4 =? 0 then mret (-1) else
  if negb (pml4 mod 0x1000 =? 0) then mret (-1) else
  has_mapping_loop pml4 virt (u64 (virt + size)) (Z.to_nat (size / PAGE_SIZE) + 2).

Definition vmm_use_alloc_pages : M kernel Z :=
  s ← get;
  if vm_state (k_vm s) <? VMM_VIRTUAL_ONLY then mret (-1) else
  vmod (set_vm_state VMM_READY);;
  mret 0.

(** ** User address spaces *)

Definition vmm_create_user_pml4 : M kernel Z :=
  pml4 ← __alloc_table;
  if pml4 =? 0 then mret 0 else
  clear_table pml4;;
  for_loop 256 1 256 (fun i => v ← load kern_pml4 i; store pml4 i v);;
  mret pml4.

(** The four nested loops of [vmm_destroy_user_pml4], innermost first. *)
Definition free_hhdm (addr : Z) : M kernel unit := on_mem (free_pages (hhdm_to_page addr)).

Definition destroy_pt (pt : Z) : M kernel unit :=
  for_loop 0 1 512 (fun l =>
    s ← get;
    pt_entry ← load pt l;
    when (has pt_entry PT_PRESENT)
      (free_hhdm (phys_to_virt (k_vm s) (clear_bits pt_entry FLAGS_MASK))));;
  free_hhdm pt.

Definition destroy_pd (pd : Z) : M kernel unit :=
  for_loop 0 1 512 (fun k =>
    s ← get;
    pd_entry ← load pd k;
    when (has pd_entry PT_PRESENT)
      (let addr := phys_to_virt (k_vm s) (clear_bits pd_entry FLAGS_MASK) in
       if has pd_entry PT_PSE then
         if negb (addr mod 0x200000 =? 0) then
           panic (line "VMM: corrupted 2MB page alignment detected at %p") [addr]
         else free_hhdm addr
       else destroy_pt addr));;
  free_hhdm pd.

Definition destroy_pdpt (pdpt : Z) : M kernel unit :=
  for_loop 0 1 512 (fun j =>
    s ← get;
    pdpt_entry ← load pdpt j;
    when (has pdpt_entry PT_PRESENT)
      (destroy_pd (phys_to_virt (k_vm s) (clear_bits pdpt_entry FLAGS_MASK))));;
  free_hhdm pdpt.

Definition vmm_destroy_user_pml4 (pml4 : Z) : M kernel Z :=
  if pml4 =? kern_pml4 then mret (-1) else
  s ← get;
  when (phys_to_virt (k_vm s) (Z.land (cr3 (k_vm s)) CR3_ADDR_MASK) =? pml4)
    (set_cr3 (virt_to_phys kern_pml4));;
  for_loop 0 1 256 (fun i =>
    s ← get;
    pml4_entry ← load pml4 i;
    when (has pml4_entry PT_PRESENT)
      (destroy_pdpt (phys_to_virt (k_vm s) (clear_bits pml4_entry FLAGS_MASK))));;
  free_hhdm pml4;;
  mret 0.

Definition vmm_set_table (pml4 : Z) : M kernel unit := set_cr3 (virt_to_phys pml4).

(** ** bootmem_alloc_mapped (bootmem.c) *)

(** [while (segment)]: the chain is finite, its nodes are different pages. *)
Fixpoint map_segments (virt flags offset failed : Z) (segment : option Z) (fuel : nat) : M kernel (Z * Z) :=
  match segment with
  | None => mret (failed, offset)
  | Some seg =>
      match fuel with
      | O => fault
      | S fuel' =>
          let phys := u64 (seg - HHDM_BASE) in
          s ← get;
          sg ← deref (segs (k_boot s) !! seg);
          failed ← vmm_map KERN_PML4 (u64 (virt + offset)) phys (seg_size sg) flags;
          map_segments virt flags (u64 (offset + seg_size sg)) failed (seg_next sg) fuel'
      end
  end.

Definition bootmem_alloc_mapped (virt bytes flags : Z) : M kernel Z :=
  s ← get;
  if negb (bool_decide (bm_st (k_boot s) = ENABLED)) then on_boot (not_enabled (bm_st (k_boot s)));; mret 0 else
  if virt =? 0 then mret 0 else
  if bytes =? 0 then mret 0 else
  let bytes := ROUND_UP bytes PAGE_SIZE in
  mapped ← vmm_virt_range_has_mapping KERN_PML4 virt bytes;
  if negb (mapped =? 0) then mret 0 else
  segment ← on_boot (__alloc table bytes);
  match segment with
  | None => mret 0
  | Some _ =>
      s ← get;
      '(failed, offset) ← map_segments virt flags 0 0 segment (size (segs (k_boot s)));
      if negb (failed =? 0) then panic (line "Bootmem map alloc failed, can't recover") [] else
      if negb (offset =? bytes) then panic (line "Bootmem map alloc failed, can't recover") [] else
      mret virt
  end.

(** ** mem_init (mm/mem.c) *)

Definition MEM_MAP_ADDR : Z := 0xFFFFEA0000000000.
Definition sizeof_page : Z := 24.

(** [memset] and the loop write the whole array, through its mapping; then it is cleared
    and every page marked reserved. *)
Definition mem_init (last_ram_addr : Z) : M kernel Z :=
  let nr := last_ram_addr / PAGE_SIZE in
  mem_map ← bootmem_alloc_mapped MEM_MAP_ADDR (u64 (nr * sizeof_page))
    (Z.lor (Z.lor (Z.lor PT_PRESENT PT_GLOBAL) PT_NX) PT_WRITABLE);
  if mem_map =? 0 then panic (line "Memory map module failed to allocate") [] else
  write_range mem_map (u64 (nr * sizeof_page));;
  modify (fun s => set_mem (mk_mem (cleared_map nr) nr (free_matrix (k_mem s)) (managed_mem (k_mem s))) s);;
  printk (line "[OK] Memory map initialized") [];;
  mret 0.
End vmm.
