(* ===== verification/VmmFacts.v ===== *)
(** * Correctness of the page tables

    The specification is the page walk of the processor (Vmm.v).  Tables are described by
    an ownership map: every table frame has one level and one virtual prefix, so
    that a write to one table cannot change the translation of an address
    elsewhere. *)

From S2P Require Import Prelude Kmath E820 E820Facts Bootmem BootmemFacts Mem Buddy Vmm.
From Stdlib Require Import ZArith Lia Znumtheory Bool.
From stdpp Require Import base gmap list strings.

Open Scope Z_scope.

(** ** Bits *)

Lemma tidx_div l v : tidx l v = (v / 2 ^ page_bits l) mod 512.
Proof.
  unfold tidx, page_bits. change 0x1FF with (Z.ones 9). rewrite Z.land_ones by lia.
  rewrite Z.shiftr_div_pow2 by lia. done.
Qed.

Lemma tidx_range l v : 0 <= tidx l v < 512.
Proof. rewrite tidx_div. apply Z.mod_pos_bound. lia. Qed.

(** Virtual prefix of the tables of level [l] on the path of [v]. *)
Definition vpre (l : nat) (v : Z) : Z := (v mod 2 ^ 48) / 2 ^ page_bits (S l).

Lemma vpre_root v : vpre 4 v = 0.
Proof. unfold vpre. apply Z.div_small. change (2 ^ page_bits 5) with (2 ^ 48). apply Z.mod_pos_bound. lia. Qed.

Lemma page_bits_S l : 2 ^ page_bits (S l) = 2 ^ page_bits l * 512.
Proof.
  unfold page_bits. replace (3 + 9 * Z.of_nat (S l)) with (3 + 9 * Z.of_nat l + 9) by lia.
  by rewrite Z.pow_add_r by lia.
Qed.

Lemma page_bits_pos l : 0 < 2 ^ page_bits l.
Proof. apply Z.pow_pos_nonneg; unfold page_bits; lia. Qed.

Lemma vpre_child l v : (l < 4)%nat -> vpre l v = vpre (S l) v * 512 + tidx (S l) v.
Proof.
  intros Hl. unfold vpre. rewrite tidx_div, (page_bits_S (S l)).
  pose proof (page_bits_pos (S l)) as Hp. set (b := 2 ^ page_bits (S l)) in *.
  rewrite <- Z.div_div by lia.
  assert ((v / b) mod 512 = (v mod 2 ^ 48 / b) mod 512) as ->.
  { assert (exists c, 2 ^ 48 = b * 512 * c) as [c Hc].
    { exists (2 ^ (9 * (3 - Z.of_nat l))). unfold b, page_bits.
      rewrite <- !Z.mul_assoc. change 512 with (2 ^ 9). rewrite <- !Z.pow_add_r by lia. f_equal. lia. }
    rewrite (Z.div_mod v (2 ^ 48)) at 1 by lia. rewrite Hc at 1.
    replace (b * 512 * c * (v / 2 ^ 48) + v mod 2 ^ 48) with (v mod 2 ^ 48 + (512 * (c * (v / 2 ^ 48))) * b) by ring.
    rewrite Z.div_add by lia. rewrite Z.mul_comm, Z.mod_add by lia. done. }
  pose proof (Z.div_mod (v mod 2 ^ 48 / b) 512 ltac:(lia)). lia.
Qed.

(** Two addresses agree down to level [l] when they lie in the same page of that
    level. *)
Definition same_page (l : nat) (v v' : Z) : Prop :=
  (v mod 2 ^ 48) / 2 ^ page_bits l = (v' mod 2 ^ 48) / 2 ^ page_bits l.

Lemma same_page_idx l v v' : (0 < l <= 4)%nat ->
  same_page l v v' <-> vpre l v = vpre l v' /\ tidx l v = tidx l v'.
Proof.
  intros Hl. destruct l as [|l]; [lia|].
  assert (forall x, (x mod 2 ^ 48) / 2 ^ page_bits (S l) = vpre (S l) x * 512 + tidx (S l) x) as E.
  { intros x. by rewrite <- vpre_child by lia. }
  unfold same_page. rewrite !E. pose proof (tidx_range (S l) v). pose proof (tidx_range (S l) v'). lia.
Qed.

Lemma clear_bits_land v m : clear_bits v m = Z.land v (Z.lnot m).
Proof. unfold clear_bits. apply Z.ldiff_land. Qed.

(** The flag bits lie outside the address bits. *)
Lemma hw_frame_clear e : hw_frame e = hw_frame (clear_bits e FLAGS_MASK).
Proof.
  unfold hw_frame. rewrite clear_bits_land, <- Z.land_assoc. by f_equal.
Qed.

Lemma hw_frame_id f : 0 <= f < 2 ^ 52 -> (PAGE_SIZE | f) -> hw_frame f = f.
Proof.
  intros Hf Hd. unfold hw_frame. change HW_FRAME with (Z.ldiff (Z.ones 52) (Z.ones 12)).
  rewrite Z.ldiff_land, Z.land_assoc, Z.land_ones by lia.
  rewrite Z.mod_small by lia. rewrite <- Z.ldiff_land, Z.ldiff_ones_r by lia.
  rewrite Z.shiftl_mul_pow2, Z.shiftr_div_pow2 by lia. destruct Hd as [q ->]. change PAGE_SIZE with (2 ^ 12).
  by rewrite Z.div_mul by lia.
Qed.

Lemma clear_frame e f :
  clear_bits e FLAGS_MASK = f -> 0 <= f < 2 ^ 52 -> (PAGE_SIZE | f) -> hw_frame e = f.
Proof. intros <- ??. rewrite hw_frame_clear. by apply hw_frame_id. Qed.

Lemma has_lor a b m : has (Z.lor a b) m = has a m || has b m.
Proof.
  unfold has. rewrite Z.land_lor_distr_l.
  destruct (Z.eqb_spec (Z.land a m) 0) as [->|Ha]; simpl.
  - by rewrite Z.lor_0_l.
  - destruct (Z.eqb_spec (Z.lor (Z.land a m) (Z.land b m)) 0) as [E|]; [|done].
    apply Z.lor_eq_0_iff in E. tauto.
Qed.

(** Bits of a page-aligned address. *)
Lemma aligned_testbit k p n : 0 <= k -> (2 ^ k | p) -> n < k -> Z.testbit p n = false.
Proof.
  intros Hk [q ->] Hn. destruct (decide (0 <= n)); [|by apply Z.testbit_neg_r; lia].
  apply Z.mul_pow2_bits_low. lia.
Qed.

Lemma high_testbit k p n : 0 <= p < 2 ^ k -> k <= n -> 0 <= k -> Z.testbit p n = false.
Proof.
  intros Hp Hn Hk. destruct (decide (p = 0)) as [->|]; [apply Z.testbit_0_l|].
  apply Z.bits_above_log2; [lia|]. assert (Z.log2 p < k) by (apply Z.log2_lt_pow2; lia). lia.
Qed.

Lemma has_bit v k : 0 <= k -> has v (2 ^ k) = Z.testbit v k.
Proof.
  intros Hk. unfold has. destruct (Z.testbit v k) eqn:E.
  - apply negb_true_iff, Z.eqb_neq. intros H0. apply (f_equal (fun x => Z.testbit x k)) in H0.
    rewrite Z.land_spec, E, Z.pow2_bits_true, Z.bits_0 in H0 by done. done.
  - apply negb_false_iff, Z.eqb_eq, Z.bits_inj_0. intros i. rewrite Z.land_spec, Z.pow2_bits_eqb by done.
    destruct (Z.eqb_spec k i) as [<-|]; [by rewrite E|apply andb_false_r].
Qed.

(** A leaf with the flags of a writable mapping, up to the page size bit, is writable. *)
Lemma writable_leaf e flags : has flags PT_WRITABLE = true ->
  clear_bits (Z.land e FLAGS_MASK) PT_PSE = clear_bits flags PT_PSE -> has e PT_WRITABLE = true.
Proof.
  intros Hf E. apply (f_equal (fun x => Z.testbit x 1)) in E. unfold clear_bits in E. rewrite !Z.ldiff_spec, Z.land_spec in E.
  change (Z.testbit PT_PSE 1) with false in E. change (Z.testbit FLAGS_MASK 1) with true in E. rewrite !andb_true_r in E.
  change PT_WRITABLE with (2 ^ 1) in *. rewrite has_bit in * by lia. congruence.
Qed.

Lemma has_aligned k p m : 0 <= k -> (2 ^ k | p) -> 0 <= m < 2 ^ k -> has p m = false.
Proof.
  intros Hk Hp Hm. unfold has. assert (Z.land p m = 0) as ->; [|done].
  apply Z.bits_inj'. intros n Hn. rewrite Z.land_spec, Z.testbit_0_l.
  destruct (decide (n < k)); [by rewrite (aligned_testbit k)|].
  rewrite (high_testbit k m) by lia. apply andb_false_r.
Qed.

Lemma FLAGS_MASK_eq : FLAGS_MASK = Z.lor (Z.shiftl 1 63) (Z.ones 12).
Proof. done. Qed.

(** Masking the flags out of a physical page address, with bits [k] to 51. *)
Lemma clear_flags_id p : 0 <= p < 2 ^ 52 -> (2 ^ 12 | p) -> clear_bits p FLAGS_MASK = p.
Proof.
  intros Hp Hd. unfold clear_bits. apply Z.bits_inj'. intros n Hn. rewrite Z.ldiff_spec.
  destruct (decide (n < 12)); [by rewrite (aligned_testbit 12)|].
  destruct (decide (52 <= n)); [by rewrite (high_testbit 52)|].
  rewrite FLAGS_MASK_eq, Z.lor_spec, Z.shiftl_spec, Z.ones_spec_high by lia.
  rewrite (Z.testbit_neg_r 1) by lia. simpl. apply andb_true_r.
Qed.

(** A flag word sets bits of [FLAGS_MASK] only. *)
Definition flags_ok (fl : Z) : Prop := clear_bits fl FLAGS_MASK = 0.

Lemma clear_entry p fl :
  0 <= p < 2 ^ 52 -> (2 ^ 12 | p) -> flags_ok fl -> clear_bits (Z.lor p fl) FLAGS_MASK = p.
Proof.
  intros Hp Hd Hf. unfold flags_ok in Hf. rewrite clear_bits_land in *.
  rewrite Z.land_lor_distr_l, Hf, Z.lor_0_r, <- clear_bits_land. by apply clear_flags_id.
Qed.

(** ** Table ownership *)

Abbreviation owners := (gmap Z (nat * Z)).

(** [own] gives every table frame a level and a prefix; the present non-leaf
    entries of a table point to tables owned accordingly. *)
Record tables (own : owners) (r : Z -> Z) : Prop := {
  tb_frame : forall f l pre, own !! f = Some (l, pre) ->
    (PAGE_SIZE | f) /\ 0 <= f < 2 ^ 47 /\ (1 <= l <= 4)%nat;
  tb_child : forall f l pre i, own !! f = Some (l, pre) -> (1 < l)%nat -> 0 <= i < 512 ->
    has (r (f + 8 * i)) PT_PRESENT = true ->
    (has (r (f + 8 * i)) PT_PSE = true /\ (l < 4)%nat) \/
    (has (r (f + 8 * i)) PT_PSE = false /\
     own !! clear_bits (r (f + 8 * i)) FLAGS_MASK = Some (pred l, pre * 512 + i));
}.

(** Words of different frames, or of different indices, are different. *)
Lemma word_inj f g i j :
  (PAGE_SIZE | f) -> (PAGE_SIZE | g) -> 0 <= i < 512 -> 0 <= j < 512 ->
  f + 8 * i = g + 8 * j -> f = g /\ i = j.
Proof. intros [a ->] [b ->] Hi Hj E. unfold PAGE_SIZE in *. assert (a = b) as -> by lia. lia. Qed.

(** A step of the walk goes to an owned table. *)
Lemma walk_step own r l f v :
  tables own r -> own !! f = Some (S l, vpre (S l) v) ->
  let e := r (f + 8 * tidx (S l) v) in
  (has e PT_PRESENT = false /\ walk r (S l) f v = None) \/
  (has e PT_PRESENT = true /\ Nat.eqb (S l) 1 || (has e PT_PSE && Nat.ltb (S l) 4) = true /\
   walk r (S l) f v = Some (e, S l)) \/
  (has e PT_PRESENT = true /\ has e PT_PSE = false /\ own !! hw_frame e = Some (l, vpre l v) /\
   walk r (S l) f v = walk r l (hw_frame e) v).
Proof.
  intros HT Hf e. pose proof (tidx_range (S l) v) as Hi.
  destruct (tb_frame _ _ HT _ _ _ Hf) as (_&_&Hl). simpl. fold e.
  destruct (has e PT_PRESENT) eqn:Ep; [right|by left]. simpl.
  destruct l as [|l]; [by left; auto|].
  destruct (tb_child _ _ HT f _ _ _ Hf ltac:(lia) Hi Ep) as [[Es Hlt]|[Es Hc]]; fold e in Es; rewrite Es.
  - left. assert (Nat.ltb (S (S l)) 4 = true) as Hb by (apply Nat.ltb_lt; lia).
    simpl in Hb |- *. by rewrite Hb.
  - right. fold e in Hc. simpl in Hc. destruct (tb_frame _ _ HT _ _ _ Hc) as (Hd&Hr&_).
    assert (hw_frame e = clear_bits e FLAGS_MASK) as -> by (by apply clear_frame; [|lia|]).
    split_and!; [done|done| |done]. rewrite Hc. by rewrite (vpre_child (S l)) by lia.
Qed.

(** The walk depends only on the words of owned tables on the path of [v]. *)
Lemma walk_ext own r r' l : forall f v,
  tables own r -> own !! f = Some (l, vpre l v) ->
  (forall k g, own !! g = Some (k, vpre k v) -> r' (g + 8 * tidx k v) = r (g + 8 * tidx k v)) ->
  walk r' l f v = walk r l f v.
Proof.
  induction l as [|l IH]; intros f v HT Hf Hw; [done|].
  pose proof (walk_step own r l f v HT Hf) as Hs. simpl in Hs. simpl. rewrite (Hw _ _ Hf).
  destruct Hs as [(->&_)|[(->&Hs&_)|(Hp&Es&Hc&_)]]; simpl; [done|by rewrite Hs|].
  rewrite Hp, Es. simpl. destruct (Nat.eqb l 0); [done|]. simpl. by apply IH.
Qed.

(** Where present entries are not changed, translations stay. *)
Lemma walk_keep own r r' w l : forall f v,
  tables own r -> own !! f = Some (l, vpre l v) ->
  (forall g k p j, own !! g = Some (k, p) -> 0 <= j < 512 -> has (r (g + 8 * j)) PT_PRESENT = true -> r' (g + 8 * j) = r (g + 8 * j)) ->
  walk r l f v = Some w -> walk r' l f v = Some w.
Proof.
  induction l as [|l IH]; intros f v HT Hf Hk Hw; [done|].
  pose proof (walk_step own r l f v HT Hf) as Hs. simpl in Hs. pose proof (Hk f _ _ (tidx (S l) v) Hf (tidx_range _ _)) as He.
  destruct Hs as [(Hp&_)|[(Hp&Hs&_)|(Hp&Es&Hc&_)]]; cbn [walk] in Hw |- *; [by rewrite Hp in Hw|..]; rewrite Hp in Hw; rewrite (He Hp), Hp.
  - cbn [negb] in *. simpl in Hs, Hw |- *. by rewrite Hs in Hw |- *.
  - cbn [negb] in *. rewrite Es in Hw |- *. rewrite orb_false_r in Hw |- *. destruct (Nat.eqb (S l) 1); [done|]. by apply IH.
Qed.

(** Writing an entry of a table of level [l] changes the translation of the
    addresses of one page of that level only. *)
Lemma walk_store own r f l pre i e root v :
  tables own r -> own !! f = Some (l, pre) -> 0 <= i < 512 ->
  own !! root = Some (4%nat, 0) -> ~ (vpre l v = pre /\ tidx l v = i) ->
  walk (upd_word (f + 8 * i) e r) 4 root v = walk r 4 root v.
Proof.
  intros HT Hf Hi Hr Hne. eapply walk_ext; [done|by rewrite vpre_root|].
  intros k g Hg. unfold upd_word. destruct (Z.eqb_spec (g + 8 * tidx k v) (f + 8 * i)) as [E|]; [|done].
  apply word_inj in E as [-> E]; [..|apply tidx_range|done].
  - rewrite Hf in Hg. simplify_eq. destruct Hne. done.
  - by apply (tb_frame _ _ HT _ _ _ Hg).
  - by apply (tb_frame _ _ HT _ _ _ Hf).
Qed.

Lemma upd_word_eq a e r : upd_word a e r a = e.
Proof. unfold upd_word. by rewrite Z.eqb_refl. Qed.

Lemma upd_word_other own r f l pre i e g k p j :
  tables own r -> own !! f = Some (l, pre) -> own !! g = Some (k, p) -> 0 <= i < 512 -> 0 <= j < 512 ->
  ~ (g = f /\ j = i) -> upd_word (f + 8 * i) e r (g + 8 * j) = r (g + 8 * j).
Proof.
  intros HT Hf Hg Hi Hj Hne. unfold upd_word.
  destruct (Z.eqb_spec (g + 8 * j) (f + 8 * i)) as [E|]; [|done].
  apply word_inj in E; [tauto| | |done|done].
  - by apply (tb_frame _ _ HT _ _ _ Hg).
  - by apply (tb_frame _ _ HT _ _ _ Hf).
Qed.

(** An entry may be a leaf, or point to a table of the right level and prefix. *)
Lemma tables_store own r f l pre i e :
  tables own r -> own !! f = Some (l, pre) -> 0 <= i < 512 ->
  (has e PT_PRESENT = true -> (1 < l)%nat ->
     (has e PT_PSE = true /\ (l < 4)%nat) \/
     (has e PT_PSE = false /\ own !! clear_bits e FLAGS_MASK = Some (pred l, pre * 512 + i))) ->
  tables own (upd_word (f + 8 * i) e r).
Proof.
  intros HT Hf Hi He. split; [apply HT|]. intros g k p j Hg Hk Hj.
  destruct (decide (g = f /\ j = i)) as [[-> ->]|Hne].
  - rewrite upd_word_eq. rewrite Hf in Hg. simplify_eq. auto.
  - rewrite (upd_word_other own r f l pre i e g k p j) by done. by apply HT.
Qed.

(** ** Adding a table *)

Section create.
Context (own : owners) (r : Z -> Z) (f : Z) (l : nat) (pre i f' e' : Z).
Context (HT : tables own r) (Hf : own !! f = Some (l, pre)) (Hl : (1 < l)%nat) (Hi : 0 <= i < 512).
Context (Hnp : has (r (f + 8 * i)) PT_PRESENT = false).
Context (Hnew : own !! f' = None) (Hf'd : (PAGE_SIZE | f')) (Hf'r : 0 <= f' < 2 ^ 47).
Context (He'p : has e' PT_PRESENT = true) (He's : has e' PT_PSE = false).
Context (He'c : clear_bits e' FLAGS_MASK = f').

Definition own_create : owners := <[f' := (pred l, pre * 512 + i)]> own.
Definition ram_create : Z -> Z := upd_word (f + 8 * i) e' (clear_words f' r).

Lemma ram_create_new j : 0 <= j < 512 -> ram_create (f' + 8 * j) = 0.
Proof.
  intros Hj. unfold ram_create, upd_word, clear_words.
  destruct (Z.eqb_spec (f' + 8 * j) (f + 8 * i)) as [E|].
  - apply word_inj in E as [E _]; [|done|by apply (tb_frame _ _ HT _ _ _ Hf)|done|done]. congruence.
  - destruct (Z.leb_spec f' (f' + 8 * j)), (Z.ltb_spec (f' + 8 * j) (f' + PAGE_SIZE)); simpl; plia.
Qed.

Lemma ram_create_entry : ram_create (f + 8 * i) = e'.
Proof. unfold ram_create, upd_word. by rewrite Z.eqb_refl. Qed.

Lemma ram_create_old g k p j :
  own !! g = Some (k, p) -> 0 <= j < 512 -> ~ (g = f /\ j = i) -> ram_create (g + 8 * j) = r (g + 8 * j).
Proof.
  intros Hg Hj Hne. destruct (tb_frame _ _ HT _ _ _ Hg) as (Hgd&_&_).
  unfold ram_create, upd_word, clear_words.
  destruct (Z.eqb_spec (g + 8 * j) (f + 8 * i)) as [E|_].
  { apply word_inj in E; [tauto|done|by apply (tb_frame _ _ HT _ _ _ Hf)|done|done]. }
  destruct (Z.leb_spec f' (g + 8 * j)), (Z.ltb_spec (g + 8 * j) (f' + PAGE_SIZE)); simpl; try done.
  assert (g = f') by (destruct Hgd as [a ->], Hf'd as [b ->]; unfold PAGE_SIZE in *; f_equal; lia).
  congruence.
Qed.

Lemma tables_create : tables own_create ram_create.
Proof.
  destruct (tb_frame _ _ HT _ _ _ Hf) as (_&_&Hl4). unfold own_create. split.
  - intros g k p. rewrite lookup_insert. case_decide; [|apply HT].
    intros [= <- <-]. subst. split_and!; [done|lia|lia|lia|lia].
  - intros g k p j Hg Hk Hj. rewrite lookup_insert in Hg. case_decide as Hgf; [subst g|].
    { by rewrite ram_create_new. }
    destruct (decide (g = f /\ j = i)) as [[-> ->]|Hne].
    + rewrite ram_create_entry. intros _. right. split; [done|].
      rewrite Hf in Hg. simplify_eq. by rewrite lookup_insert_eq.
    + rewrite (ram_create_old g k p j) by done. intros Hp.
      destruct (tb_child _ _ HT g k p j Hg Hk Hj Hp) as [?|[Hs Hc]]; [by left|right]. split; [done|].
      rewrite lookup_insert_ne; [done|]. congruence.
Qed.

Lemma walk_create k : forall g v, own !! g = Some (k, vpre k v) -> walk ram_create k g v = walk r k g v.
Proof.
  induction k as [|k IH]; intros g v Hg; [done|]. pose proof (tidx_range (S k) v) as Hx.
  destruct (decide (g = f /\ tidx (S k) v = i)) as [[-> Ei]|Hne].
  - assert (l = S k) as El by congruence. simpl. rewrite Ei, Hnp, ram_create_entry, He'p, He's. simpl.
    destruct k as [|k]; [lia|]. simpl.
    destruct (tb_frame _ _ HT _ _ _ Hf) as (Hd&_&_).
    rewrite (clear_frame e' f') by (done || lia). by rewrite ram_create_new by apply tidx_range.
  - destruct (walk_step own r k g v HT Hg) as [(Hp&Hw)|[(Hp&Hc&Hw)|(Hp&Hs&Hc&Hw)]]; rewrite Hw; simpl;
      rewrite (ram_create_old g _ _ _ Hg Hx Hne).
    + by rewrite Hp.
    + rewrite Hp. simpl in Hc |- *. by rewrite Hc.
    + rewrite Hp, Hs. simpl. destruct k as [|k]; [|by apply IH].
      by destruct (tb_frame _ _ HT _ _ _ Hc) as (_&_&?&_); lia.
Qed.
End create.

(** ** Pointers to tables *)

(** The frames that the manager reaches through [phys_to_virt]. *)
Definition reach (st f : Z) : Prop :=
  (PAGE_SIZE | f) /\ (if st <? VMM_TRANSITION then 0 < f else 0 <= f) /\
  f + PAGE_SIZE <= (if st <? VMM_TRANSITION then 0x40000000 else kernel_vma_start - HHDM_BASE).
(** [p] points to the table in frame [f]. *)
Definition points (s : vmm) (p f : Z) : Prop :=
  p <> 0 /\ forall i, 0 <= i < 512 -> resolve s (p + 8 * i) = Some (f + 8 * i).

Lemma reach_bound st f : reach st f -> 0 <= f < 2 ^ 47.
Proof.
  intros (_&?&Hb). unfold kernel_vma_start, HHDM_BASE, PAGE_SIZE in Hb. destruct (st <? VMM_TRANSITION); lia.
Qed.

Lemma phys_to_virt_eq s f : reach (vm_state s) f ->
  phys_to_virt s f = (if vm_state s <? VMM_TRANSITION then f else f + HHDM_BASE) /\ phys_to_virt s f <> 0.
Proof.
  intros (_&Hf&Hb). unfold phys_to_virt. rewrite Z.geb_leb, Z.ltb_antisym in *.
  destruct (Z.leb_spec VMM_TRANSITION (vm_state s)); simpl in *; unfold kernel_vma_start, HHDM_BASE, PAGE_SIZE in *.
  - rewrite u64_small by lia. split; [done|lia].
  - split; [done|lia].
Qed.

Lemma reach_points s f : reach (vm_state s) f -> points s (phys_to_virt s f) f.
Proof.
  intros Hr. destruct (phys_to_virt_eq s f Hr) as [E Hn]. split; [done|]. rewrite E. clear E Hn.
  destruct Hr as (_&Hf&Hb). intros i Hi. unfold resolve. rewrite Z.ltb_antisym in *.
  unfold VMM_TRANSITION, kernel_vma_start, HHDM_BASE, PAGE_SIZE, LARGE_PAGE_SIZE in *.
  destruct (Z.leb_spec 2 (vm_state s)); simpl in *; repeat case_match; blia || f_equal; try lia.
  all: exfalso.
  all: repeat match goal with H : _ && _ = false |- _ => apply andb_false_iff in H end; blia.
Qed.

Lemma virt_to_phys_reach s f : reach (vm_state s) f -> virt_to_phys (phys_to_virt s f) = f.
Proof.
  intros Hr. pose proof (reach_bound _ _ Hr). destruct (phys_to_virt_eq s f Hr) as [-> _].
  destruct Hr as (Hd&Hf&Hb). unfold virt_to_phys. rewrite !Z.geb_leb.
  unfold kernel_vma_start, HHDM_BASE, PAGE_SIZE in *.
  destruct (vm_state s <? VMM_TRANSITION);
    repeat match goal with |- context [?a <=? ?b] => destruct (Z.leb_spec a b); try lia end.
  - apply clear_flags_id; [lia|done].
  - rewrite Z.add_simpl_r. apply clear_flags_id; [lia|done].
Qed.

(** ** Paths *)

(** [path r v k f l g]: the walk of [v] from the table [f] of level [k] goes
    through the table [g] of level [l]. *)
Inductive path (r : Z -> Z) (v : Z) : nat -> Z -> nat -> Z -> Prop :=
| path_here l g : path r v l g l g
| path_down k f l g :
    let e := r (f + 8 * tidx (S k) v) in
    has e PT_PRESENT = true -> has e PT_PSE = false -> path r v k (hw_frame e) l g ->
    path r v (S k) f l g.

Lemma path_le r v k f l g : path r v k f l g -> (l <= k)%nat.
Proof. induction 1; lia. Qed.

Lemma path_walk r v k f l g : path r v k f l g -> (0 < l)%nat -> walk r k f v = walk r l g v.
Proof.
  induction 1 as [|k f l g e Hp Hs Hpath IH]; intros Hl; [done|]. pose proof (path_le _ _ _ _ _ _ Hpath).
  simpl. fold e. rewrite Hp, Hs. simpl. destruct k as [|k]; [lia|]. simpl. by apply IH.
Qed.

Lemma path_snoc r v k f l g :
  path r v k f (S l) g -> has (r (g + 8 * tidx (S l) v)) PT_PRESENT = true ->
  has (r (g + 8 * tidx (S l) v)) PT_PSE = false ->
  path r v k f l (hw_frame (r (g + 8 * tidx (S l) v))).
Proof.
  intros Hpath. remember (S l) as l' eqn:El. induction Hpath as [l' g|k f l' g e Hp Hs Hpath IH]; intros H1 H2; subst.
  - apply path_down; [done|done|constructor].
  - apply path_down; [done|done|]. by apply IH.
Qed.

(** Paths are kept by updates that keep the present entries above their end. *)
Lemma path_ext own r r' v k f l g :
  path r v k f l g -> tables own r -> own !! f = Some (k, vpre k v) -> (0 < l)%nat ->
  (forall h j p i, own !! h = Some (j, p) -> (l < j)%nat -> 0 <= i < 512 ->
     has (r (h + 8 * i)) PT_PRESENT = true -> r' (h + 8 * i) = r (h + 8 * i)) ->
  path r' v k f l g.
Proof.
  induction 1 as [|k f l g e Hp Hs Hpath IH]; intros HT Hf Hl Hkeep; [constructor|].
  pose proof (path_le _ _ _ _ _ _ Hpath).
  assert (r' (f + 8 * tidx (S k) v) = e) as E.
  { eapply Hkeep; [exact Hf|lia|apply tidx_range|done]. }
  apply path_down; rewrite E; [done|done|]. apply IH; [done| |done|done].
  pose proof (walk_step own r k f v HT Hf) as Hw. cbv zeta in Hw. fold e in Hw.
  destruct Hw as [[Hn _]|[[_ [Hc _]]|(_&_&Hc&_)]]; [congruence| |done].
  rewrite Hs in Hc. simpl in Hc. rewrite orb_false_r in Hc. apply Nat.eqb_eq in Hc. lia.
Qed.

Lemma same_page_up l k v v' : (l <= k <= 4)%nat -> same_page l v v' -> same_page k v v'.
Proof.
  intros Hk Hs. unfold same_page in *.
  assert (2 ^ page_bits k = 2 ^ page_bits l * 2 ^ (9 * (Z.of_nat k - Z.of_nat l))) as ->.
  { unfold page_bits. rewrite <- Z.pow_add_r by lia. f_equal. lia. }
  pose proof (page_bits_pos l). rewrite <- !Z.div_div by (try apply Z.pow_pos_nonneg; lia). by rewrite Hs.
Qed.

Lemma path_same_page r v v' k f l g :
  path r v k f l g -> (0 < l)%nat -> (k <= 4)%nat -> same_page l v v' -> path r v' k f l g.
Proof.
  induction 1 as [|k f l g e Hp Hs Hpath IH]; intros Hl Hk Hsp; [constructor|].
  pose proof (path_le _ _ _ _ _ _ Hpath).
  assert (tidx (S k) v' = tidx (S k) v) as E.
  { symmetry. apply same_page_idx; [lia|]. apply (same_page_up l); [lia|done]. }
  apply path_down; rewrite E; [done|done|]. apply IH; [done|lia|done].
Qed.

(** ** Writing a leaf entry *)

Section leaf.
Context (own : owners) (r : Z -> Z) (root f : Z) (l : nat) (virt e : Z).
Context (HT : tables own r) (Hroot : own !! root = Some (4%nat, 0)).
Context (Hf : own !! f = Some (l, vpre l virt)) (Hpath : path r virt 4 root l f).
Context (Hleaf : l = 1%nat \/ (has e PT_PSE = true /\ (l < 4)%nat)).

Definition ram_leaf : Z -> Z := upd_word (f + 8 * tidx l virt) e r.

Lemma leaf_level : (0 < l <= 4)%nat.
Proof using HT Hf. destruct (tb_frame _ _ HT _ _ _ Hf) as (_&_&?). clear Hleaf. lia. Qed.

Lemma ram_leaf_other h j p i :
  own !! h = Some (j, p) -> 0 <= i < 512 -> ~ (h = f /\ i = tidx l virt) -> ram_leaf (h + 8 * i) = r (h + 8 * i).
Proof. intros. by eapply upd_word_other; [..|apply tidx_range| |]. Qed.

Lemma tables_leaf : tables own ram_leaf.
Proof.
  eapply tables_store; [done|exact Hf|apply tidx_range|]. intros _ Hl. left. destruct Hleaf; [lia|done].
Qed.

Lemma walk_leaf v : same_page l virt v ->
  walk ram_leaf 4 root v = if has e PT_PRESENT then Some (e, l) else None.
Proof.
  intros Hsp. pose proof leaf_level as Hl.
  assert (path ram_leaf v 4 root l f) as Hp.
  { eapply path_same_page; [|lia|lia|exact Hsp].
    eapply path_ext; [exact Hpath|exact HT|by rewrite vpre_root|lia|].
    intros h j p i Hh Hj Hi _. apply (ram_leaf_other h j p i); [done|done|].
    intros [-> _]. rewrite Hf in Hh. simplify_eq. lia. }
  rewrite (path_walk _ _ _ _ _ _ Hp) by lia.
  assert (tidx l v = tidx l virt) as Ei by (symmetry; by apply same_page_idx).
  assert (ram_leaf (f + 8 * tidx l virt) = e) as Er by (unfold ram_leaf, upd_word; by rewrite Z.eqb_refl).
  destruct l as [|l']; [lia|]. cbn [walk]. rewrite Ei, Er.
  destruct (has e PT_PRESENT); [simpl|done].
  destruct Hleaf as [E|[-> Hlt]]; [injection E as ->; done|].
  assert (Nat.ltb (S l') 4 = true) as Hb by (by apply Nat.ltb_lt). simpl in Hb. rewrite Hb.
  by rewrite orb_true_r.
Qed.

Lemma walk_leaf_other root' v :
  own !! root' = Some (4%nat, 0) -> ~ same_page l virt v -> walk ram_leaf 4 root' v = walk r 4 root' v.
Proof.
  intros Hr Hsp. eapply walk_store; [exact HT|exact Hf|apply tidx_range|done|].
  rewrite same_page_idx in Hsp by apply leaf_level.
  intros [E1 E2]. apply Hsp. by split.
Qed.

(** Before the write, an absent entry translated nothing. *)
Lemma walk_leaf_before v : same_page l virt v -> has (r (f + 8 * tidx l virt)) PT_PRESENT = false ->
  walk r 4 root v = None.
Proof using HT Hf Hpath.
  intros Hsp Hn. pose proof leaf_level as Hl. clear Hleaf.
  rewrite (path_walk r v 4 root l f) by (try lia; by eapply path_same_page; [exact Hpath|lia|lia|]).
  destruct l as [|l']; [lia|]. simpl.
  assert (tidx (S l') v = tidx (S l') virt) as -> by (symmetry; by apply same_page_idx).
  by rewrite Hn.
Qed.
End leaf.

(** ** Cleared pages *)

Lemma clear_words_zero a r x : a <= x < a + PAGE_SIZE -> clear_words a r x = 0.
Proof. intros [H1 H2]. unfold clear_words. apply Z.leb_le in H1. apply Z.ltb_lt in H2. by rewrite H1, H2. Qed.

Lemma clear_words_keep a r x : r x = 0 -> clear_words a r x = 0.
Proof. intros Hr. unfold clear_words. by destruct (_ && _). Qed.

(** Clearing the pages of a list leaves every word of them zero. *)
Lemma cleared_words ps r a x : a ∈ ps -> a <= x < a + PAGE_SIZE -> foldr clear_words r ps x = 0.
Proof.
  induction ps as [|p ps IH]; [by intros []%elem_of_nil|]. intros [-> | Hin]%elem_of_cons Hx; cbn [foldr].
  - by apply clear_words_zero.
  - apply clear_words_keep. by apply IH.
Qed.
