(* ===== verification/VmmMap.v ===== *)
(** * Correctness of the mapping operations

    [set_page], [set_large_page], the range operations and [vmm_map] are proved
    against the page walk, over any source of table frames that keeps the
    contract [TableSource]; the boot pool discharges it. *)

From S2P Require Import Prelude Kmath E820 E820Facts Bootmem BootmemFacts Mem Buddy Vmm VmmFacts.
From Stdlib Require Import ZArith Lia Znumtheory Bool.
From stdpp Require Import base gmap list strings.

Open Scope Z_scope.

(** ** Interface to the frame allocators *)

(** [I n own s]: the allocator is in order, will not hand out a frame of [own], and can be asked
    for [n] more frames.  It may refuse only if [dry]. *)
Class TableSource (t : e820_table) (dry : Prop) (I : nat -> owners -> kernel -> Prop) : Prop := {
  ts_alloc : forall n own s, I (S n) own s ->
    wp (__alloc_table t) (fun p s' => k_vm s' = k_vm s /\
      ((p = 0 /\ dry /\ I n own s') \/
       exists f, p = phys_to_virt (k_vm s) f /\ reach (vm_state (k_vm s)) f /\ own !! f = None /\
         forall x, I n (<[f := x]> own) s')) s;
  ts_pred : forall n own s, I (S n) own s -> I n own s;
  ts_vm : forall n own s s', I n own s -> k_mm s' = k_mm s ->
    vm_state (k_vm s') = vm_state (k_vm s) -> I n own s';
}.

(** ** Memory accesses *)

Lemma wp_load p f i s (Q : Z -> kernel -> Prop) :
  points (k_vm s) p f -> 0 <= i < 512 -> Q (ram (k_vm s) (f + 8 * i)) s -> wp (load p i) Q s.
Proof.
  intros [_ Hp] Hi HQ. unfold load. do 3 wp_step. eapply wp_deref; [by apply Hp|]. by wp_step.
Qed.

Lemma wp_store p f i v s (Q : unit -> kernel -> Prop) :
  points (k_vm s) p f -> 0 <= i < 512 ->
  Q tt (set_vm (set_ram (upd_word (f + 8 * i) v (ram (k_vm s))) (k_vm s)) s) -> wp (store p i v) Q s.
Proof.
  intros [_ Hp] Hi HQ. unfold store. do 3 wp_step. eapply wp_deref; [by apply Hp|]. by unfold vmod; wp_step.
Qed.

Lemma wp_clear_table p f s (Q : unit -> kernel -> Prop) :
  points (k_vm s) p f ->
  Q tt (set_vm (set_ram (clear_words f (ram (k_vm s))) (k_vm s)) s) -> wp (clear_table p) Q s.
Proof.
  intros [_ Hp] HQ. unfold clear_table. do 3 wp_step.
  eapply wp_deref; [rewrite <- (Z.add_0_r p); change 0 with (8 * 0); apply Hp; lia|].
  rewrite Z.add_0_r. by unfold vmod; wp_step.
Qed.

Lemma points_state s s' p f : vm_state s' = vm_state s -> points s p f -> points s' p f.
Proof. intros E [Hn Hp]. split; [done|]. intros i Hi. unfold resolve. rewrite E. by apply Hp. Qed.

(** ** The invariant of the manager *)

Record vm_inv (own : owners) (s : vmm) : Prop := {
  vi_tables : tables own (ram s);
  vi_reach : forall f x, own !! f = Some x -> reach (vm_state s) f;
  vi_state : VMM_IDENTITY <= vm_state s;
}.

(** Everything but the memory is unchanged. *)
Definition same_regs (s s' : vmm) : Prop :=
  vm_state s' = vm_state s /\ low_map_end s' = low_map_end s /\ cr3 s' = cr3 s /\ cr4 s' = cr4 s /\ efer s' = efer s.

Lemma same_regs_trans s1 s2 s3 : same_regs s1 s2 -> same_regs s2 s3 -> same_regs s1 s3.
Proof. unfold same_regs. intuition congruence. Qed.

(** ** What a translation should be *)

(** The address [x] (low 48 bits) of a range mapped from [a] to [phys] with
    [flags]: translated to [phys + (x - a)] with these flags (a large page also
    has the page size bit), or not at all when [flags] lack the present bit. *)
Definition maps_to (phys a flags x : Z) (w : option (Z * nat)) : Prop :=
  if has flags PT_PRESENT then
    exists e l, w = Some (e, l) /\
      clear_bits (hw_frame e) (2 ^ page_bits l - 1) + x mod 2 ^ page_bits l = phys + (x - a) /\
      clear_bits (Z.land e FLAGS_MASK) PT_PSE = clear_bits flags PT_PSE
  else w = None.

Lemma land_flags p fl : 0 <= p < 2 ^ 52 -> (2 ^ 12 | p) -> flags_ok fl -> Z.land (Z.lor p fl) FLAGS_MASK = fl.
Proof.
  intros Hp Hd Hf. rewrite Z.land_lor_distr_l.
  assert (Z.land p FLAGS_MASK = 0) as ->.
  { pose proof (clear_flags_id p Hp Hd) as E. pose proof (Z.land_ldiff p FLAGS_MASK) as E2.
    unfold clear_bits in E. rewrite Z.ldiff_land in E. rewrite <- E, <- Z.land_assoc. by rewrite Z.land_0_r. }
  rewrite Z.lor_0_l. unfold flags_ok, clear_bits in Hf. apply Z.bits_inj'. intros n Hn. rewrite Z.land_spec.
  assert (Z.testbit (Z.ldiff fl FLAGS_MASK) n = false) as E by (by rewrite Hf, Z.testbit_0_l).
  rewrite Z.ldiff_spec in E. by destruct (Z.testbit fl n), (Z.testbit FLAGS_MASK n).
Qed.

Lemma clear_low k p : 0 <= k -> (2 ^ k | p) -> clear_bits p (2 ^ k - 1) = p.
Proof.
  intros Hk [q ->]. unfold clear_bits. replace (2 ^ k - 1) with (Z.ones k) by (rewrite Z.ones_equiv; lia).
  rewrite Z.ldiff_ones_r, Z.shiftl_mul_pow2, Z.shiftr_div_pow2 by lia. rewrite Z.div_mul; [done|].
  apply Z.pow_nonzero; lia.
Qed.

(** A leaf entry for the page at [q] translates the page as it should. *)
Lemma leaf_maps_to l q fl flags phys a x0 x :
  (1 <= l)%nat -> (2 ^ page_bits l | q) -> 0 <= q < 2 ^ 52 -> flags_ok fl ->
  has fl PT_PRESENT = has flags PT_PRESENT -> clear_bits fl PT_PSE = clear_bits flags PT_PSE ->
  q = phys + (x0 - a) -> (2 ^ page_bits l | x0) -> x0 <= x < x0 + 2 ^ page_bits l ->
  maps_to phys a flags x (if has (Z.lor q fl) PT_PRESENT then Some (Z.lor q fl, l) else None).
Proof.
  intros Hl Hq Hr Hfl Hpr Hps -> Hx0 Hx.
  assert (2 ^ 12 | phys + (x0 - a)) as H12.
  { etrans; [|exact Hq]. exists (2 ^ (page_bits l - 12)). rewrite <- Z.pow_add_r; [f_equal|..]; unfold page_bits; lia. }
  set (q := phys + (x0 - a)) in *.
  unfold maps_to. rewrite has_lor, (has_aligned 12 q) by (done || unfold PT_PRESENT; lia). simpl.
  rewrite Hpr. destruct (has flags PT_PRESENT); [|done]. exists (Z.lor q fl), l. split; [done|]. split.
  - rewrite (clear_frame _ q) by (done || by apply clear_entry). rewrite clear_low by (done || unfold page_bits; lia).
    destruct Hx0 as [k ->]. pose proof (page_bits_pos l).
    replace (x mod 2 ^ page_bits l) with (x - k * 2 ^ page_bits l); [unfold q; lia|].
    apply (Z.mod_unique_pos x _ k); lia.
  - by rewrite land_flags.
Qed.

Lemma has_step_mask k p : 0 <= k -> has p (2 ^ k - 1) = false <-> (2 ^ k | p).
Proof.
  intros Hk. unfold has. replace (2 ^ k - 1) with (Z.ones k) by (rewrite Z.ones_equiv; lia).
  rewrite Z.land_ones by done. rewrite negb_false_iff, Z.eqb_eq. apply Z.mod_divide. apply Z.pow_nonzero; lia.
Qed.

(** Offsets within one 2^48 window. *)
Lemma low48_add virt i : 0 <= virt < 2 ^ 64 -> 0 <= i -> virt mod 2 ^ 48 + i < 2 ^ 48 ->
  u64 (virt + i) = virt + i /\ (virt + i) mod 2 ^ 48 = virt mod 2 ^ 48 + i.
Proof.
  intros Hvr Hi Hai. pose proof (Z.div_mod virt (2 ^ 48) ltac:(lia)) as Hd.
  pose proof (Z.mod_pos_bound virt (2 ^ 48) ltac:(lia)).
  assert (virt / 2 ^ 48 < 2 ^ 16) by (apply Z.div_lt_upper_bound; lia).
  split; [apply u64_small; lia|].
  symmetry. apply (Z.mod_unique_pos _ _ (virt / 2 ^ 48)); lia.
Qed.

(** ** The three parts of a range *)

Lemma divide_mod_eq m x y : 0 < m -> x mod m = y mod m -> (m | x - y).
Proof.
  intros Hm E. exists (x / m - y / m). pose proof (Z.div_mod x m ltac:(lia)). pose proof (Z.div_mod y m ltac:(lia)). lia.
Qed.

(** Before the large pages up to the first 2 MiB boundary, the large pages, and
    the rest: the parts are adjacent, aligned and cover the range. *)
Lemma range_plan_spec virt phys virt_end :
  0 <= virt < virt_end -> virt_end + LARGE_PAGE_SIZE <= 2 ^ 64 -> 0 <= phys -> phys + LARGE_PAGE_SIZE <= 2 ^ 64 ->
  (PAGE_SIZE | virt) -> (PAGE_SIZE | virt_end) -> phys + (virt_end - virt) <= 2 ^ 52 ->
  (LARGE_PAGE_SIZE | virt - phys) ->
  exists v2 p2 v3 p3 n1 n2 n3,
    range_plan virt phys virt_end = ((virt, phys, n1), (v2, p2, n2), (v3, p3, n3)) /\
    0 <= n1 /\ 0 <= n2 /\ 0 <= n3 /\ n1 + n2 + n3 = virt_end - virt /\
    (PAGE_SIZE | n1) /\ (LARGE_PAGE_SIZE | n2) /\ (PAGE_SIZE | n3) /\
    (n2 <> 0 -> v2 = virt + n1 /\ p2 = phys + n1 /\ (LARGE_PAGE_SIZE | v2) /\ (LARGE_PAGE_SIZE | p2)) /\
    (n3 <> 0 -> v3 = virt + n1 + n2 /\ p3 = phys + n1 + n2).
Proof.
  intros Hv Hve Hp Hpe [cv Ev] [ce Ee] Hpb [d Hd]. unfold range_plan.
  pose proof (round_up_bounds virt LARGE_PAGE_SIZE ltac:(done) ltac:(lia) ltac:(lia)) as Hlv.
  pose proof (round_up_divide virt LARGE_PAGE_SIZE ltac:(done) ltac:(lia) ltac:(lia)) as [clv Elv].
  pose proof (round_up_bounds phys LARGE_PAGE_SIZE ltac:(done) ltac:(lia) ltac:(lia)) as Hlp.
  pose proof (round_up_divide phys LARGE_PAGE_SIZE ltac:(done) ltac:(lia) ltac:(lia)) as [clp Elp].
  pose proof (round_down_bounds virt_end LARGE_PAGE_SIZE ltac:(done) ltac:(unfold LARGE_PAGE_SIZE in *; lia)) as Hld.
  pose proof (round_down_divide virt_end LARGE_PAGE_SIZE ltac:(done) ltac:(unfold LARGE_PAGE_SIZE in *; lia)) as [cld Eld].
  set (lv := ROUND_UP virt LARGE_PAGE_SIZE) in *. set (lp := ROUND_UP phys LARGE_PAGE_SIZE) in *.
  set (ld := ROUND_DOWN virt_end LARGE_PAGE_SIZE) in *. clearbody lv lp ld.
  unfold LARGE_PAGE_SIZE, PAGE_SIZE in *. rewrite !Z.gtb_ltb.
  destruct (Z.ltb_spec lv virt_end) as [Hlt|Hge].
  - destruct (Z.ltb_spec virt lv) as [H1|H1], (Z.ltb_spec lv ld) as [H2|H2];
      rewrite (u64_small (lv + _)), (u64_small (lp + _)) by lia;
      match goal with |- context [?x <? virt_end] => destruct (Z.ltb_spec x virt_end) end.
    all: do 7 eexists; (split; [reflexivity|]).
    all: split_and!; try lia; try (exists (clv * 512 - cv); lia); try (exists (cld - clv); lia);
      try (exists (ce - cld * 512); lia); try (exists 0; lia).
    all: try (intros _; split_and!; try lia; try (by exists clv); by exists clp).
  - destruct (Z.ltb_spec lv ld); [lia|]. destruct (Z.ltb_spec virt virt_end); [|lia].
    rewrite (u64_small (lv + _)), (u64_small (lp + _)) by lia.
    destruct (Z.ltb_spec (lv + 0) virt_end); [lia|].
    do 7 eexists; (split; [reflexivity|]).
    split_and!; try lia; try (exists (ce - cv); lia); try (exists 0; lia).
Qed.

(** ** Rounding to whole pages *)

Lemma align_start_spec virt phys :
  0 <= virt -> virt + PAGE_SIZE <= 2 ^ 64 -> 0 <= phys -> phys + PAGE_SIZE <= 2 ^ 64 ->
  exists o, 0 <= o < PAGE_SIZE /\ align_start virt phys 0 = (virt + o, phys + o, o) /\ (PAGE_SIZE | virt + o).
Proof.
  intros Hv Hvb Hp Hpb. unfold align_start. destruct (has virt (PAGE_SIZE - 1)) eqn:E.
  - pose proof (round_up_bounds virt PAGE_SIZE ltac:(plia) Hv ltac:(plia)) as Hr.
    pose proof (round_up_divide virt PAGE_SIZE ltac:(plia) Hv ltac:(plia)) as Hd.
    set (x := ROUND_UP virt PAGE_SIZE) in *. exists (x - virt). unfold PAGE_SIZE in *.
    rewrite (u64_small (x - virt)) by lia. rewrite !u64_small by lia. rewrite Z.add_0_l.
    replace (virt + (x - virt)) with x by lia. split_and!; [lia|lia|done|done].
  - exists 0. rewrite !Z.add_0_r. split; [plia|]. split; [done|]. by apply (has_step_mask 12) in E.
Qed.

Lemma align_end_spec virt_end failed :
  0 <= virt_end < 2 ^ 64 -> 0 <= failed -> failed + PAGE_SIZE < 2 ^ 64 ->
  exists o, 0 <= o < PAGE_SIZE /\ o <= virt_end /\
    align_end virt_end failed = (virt_end - o, failed + o) /\ (PAGE_SIZE | virt_end - o).
Proof.
  intros Hv Hf Hfb. unfold align_end. destruct (has virt_end (PAGE_SIZE - 1)) eqn:E.
  - pose proof (round_down_bounds virt_end PAGE_SIZE ltac:(plia) Hv) as Hr.
    pose proof (round_down_divide virt_end PAGE_SIZE ltac:(plia) Hv) as Hd.
    assert (0 <= ROUND_DOWN virt_end PAGE_SIZE) by (apply u64_range).
    set (x := ROUND_DOWN virt_end PAGE_SIZE) in *. exists (virt_end - x). unfold PAGE_SIZE in *.
    rewrite (u64_small (virt_end - x)) by lia. rewrite !u64_small by lia.
    replace (virt_end - (virt_end - x)) with x by lia. split_and!; [lia|lia|lia|done|done].
  - exists 0. rewrite Z.sub_0_r, Z.add_0_r. split; [plia|]. split; [lia|]. split; [done|].
    by apply (has_step_mask 12) in E.
Qed.

(** Well-formed tables, and a source in the state [J]. *)
Definition good (J : owners -> kernel -> Prop) (own : owners) (s : kernel) : Prop := vm_inv own (k_vm s) /\ J own s.

(** The tables that mapping [size] bytes can need: at most three per page. *)
Definition tables_for (size : Z) : nat := 3 * Z.to_nat (size / PAGE_SIZE).

Lemma tables_for_le a b : a <= b -> (tables_for a <= tables_for b)%nat.
Proof. intros Hab. unfold tables_for. pose proof (Z.div_le_mono a b PAGE_SIZE ltac:(plia) Hab). lia. Qed.

Lemma tables_for_add a b : (PAGE_SIZE | a) -> 0 <= a -> 0 <= b -> tables_for (a + b) = (tables_for a + tables_for b)%nat.
Proof.
  intros [q ->] Ha Hb. unfold tables_for. rewrite Z.add_comm, Z.div_add, Z.div_mul by plia.
  pose proof (Z.div_pos b PAGE_SIZE Hb ltac:(plia)). unfold PAGE_SIZE in *. lia.
Qed.

Section ops.
Context (t : e820_table) {dry : Prop} (I : nat -> owners -> kernel -> Prop) `{!TableSource t dry I}.

Lemma good_le m n own s : (n <= m)%nat -> good (I m) own s -> good (I n) own s.
Proof. induction 1 as [|m _ IH]; [done|]. intros [HV HI]. apply IH. split; [done|by apply ts_pred]. Qed.

(** Present entries of the tables are as they were. *)
Definition kept_words (own : owners) (s s' : kernel) : Prop :=
  forall g k p j, own !! g = Some (k, p) -> 0 <= j < 512 -> has (ram (k_vm s) (g + 8 * j)) PT_PRESENT = true ->
    ram (k_vm s') (g + 8 * j) = ram (k_vm s) (g + 8 * j).

Lemma kept_words_trans own1 s1 own2 s2 s3 : own1 ⊆ own2 -> kept_words own1 s1 s2 -> kept_words own2 s2 s3 -> kept_words own1 s1 s3.
Proof.
  intros Hsub H1 H2 g k p j Hg Hj Hp. pose proof (H1 g k p j Hg Hj Hp) as E.
  rewrite <- E. eapply H2; [by eapply lookup_weaken|done|by rewrite E].
Qed.

(** [grown n own s own' s']: tables may have been added, and [n] more can be; no translation
    has changed and no present entry has been rewritten. *)
Record grown (n : nat) (own : owners) (s : kernel) (own' : owners) (s' : kernel) : Prop := {
  gr_good : good (I n) own' s';
  gr_sub : own ⊆ own';
  gr_regs : same_regs (k_vm s) (k_vm s');
  gr_walk : forall root v, own !! root = Some (4%nat, 0) ->
    walk (ram (k_vm s')) 4 root v = walk (ram (k_vm s)) 4 root v;
  gr_keep : kept_words own s s';
}.

(** A translation that exists stays, in every address space. *)
Lemma kept_words_walk own s s' root v w : tables own (ram (k_vm s)) -> kept_words own s s' -> own !! root = Some (4%nat, 0) ->
  walk (ram (k_vm s)) 4 root v = Some w -> walk (ram (k_vm s')) 4 root v = Some w.
Proof. intros HT Hk Hr. eapply walk_keep; [exact HT|by rewrite vpre_root|exact Hk]. Qed.

Lemma grown_refl n own s : good (I n) own s -> grown n own s own s.
Proof. intros HG. by split. Qed.

Lemma grown_le m n own s own' s' : (n <= m)%nat -> grown m own s own' s' -> grown n own s own' s'.
Proof. intros Hle [H1 H2 H3 H4 H5]. split; try done. by eapply good_le. Qed.

Lemma grown_trans m n own1 s1 own2 s2 own3 s3 :
  grown m own1 s1 own2 s2 -> grown n own2 s2 own3 s3 -> grown n own1 s1 own3 s3.
Proof.
  intros [_ Hs1 Hr1 Hw1 Hk1] [HG Hs2 Hr2 Hw2 Hk2]. split; [done|by etrans|by eapply same_regs_trans|..].
  - intros root v Hr. rewrite Hw2, Hw1 by (done || by eapply lookup_weaken). done.
  - by eapply kept_words_trans.
Qed.

(** The new entry that points to a table. *)
Definition table_entry (f : Z) : Z := Z.lor (Z.lor (Z.lor f PT_PRESENT) PT_WRITABLE) PT_USER.

Lemma table_entry_spec st f : reach st f ->
  has (table_entry f) PT_PRESENT = true /\ has (table_entry f) PT_PSE = false /\
  clear_bits (table_entry f) FLAGS_MASK = f.
Proof.
  intros Hr. pose proof (reach_bound _ _ Hr). destruct Hr as [Hd _]. unfold table_entry.
  rewrite <- !Z.lor_assoc, !(has_lor f).
  rewrite !(has_aligned 12 f) by (done || unfold PT_PRESENT, PT_PSE; lia).
  split_and!; [done|done|]. apply clear_entry; [lia|done|done].
Qed.

(** The state after a table has been created in the fresh frame [f']. *)
Lemma created_grown m n own s s1 tf l pre i f' :
  good (I m) own s -> own !! tf = Some (l, pre) -> (1 < l)%nat -> 0 <= i < 512 ->
  has (ram (k_vm s) (tf + 8 * i)) PT_PRESENT = false ->
  reach (vm_state (k_vm s)) f' -> own !! f' = None -> k_vm s1 = k_vm s ->
  I n (own_create own l pre i f') s1 ->
  grown n own s (own_create own l pre i f')
    (set_vm (set_ram (ram_create (ram (k_vm s)) tf i f' (table_entry f')) (k_vm s1)) s1).
Proof.
  intros [[HT HR Hst] _] Hf Hl Hi Hnp Hr Hnew Evm HI.
  destruct (table_entry_spec _ _ Hr) as (He1&He2&He3).
  pose proof (reach_bound _ _ Hr) as Hb. pose proof (proj1 Hr) as Hd. rewrite Evm. split.
  - split; [split|eapply ts_vm; [exact HI|done|by rewrite Evm]]; simpl.
    + by apply tables_create.
    + intros g x. unfold own_create. rewrite lookup_insert. case_decide; [by subst|apply HR].
    + done.
  - by apply insert_subseteq.
  - done.
  - intros root v Hroot. cbn [k_vm set_vm ram set_ram]. eapply walk_create; try done. by rewrite vpre_root.
  - intros g k p j Hg Hj Hp. simpl. eapply ram_create_old; try done. intros [-> ->]. congruence.
Qed.

Lemma get_or_create_table_spec n own s tp tf l pre i :
  good (I (S n)) own s -> points (k_vm s) tp tf -> own !! tf = Some (l, pre) -> (1 < l)%nat -> 0 <= i < 512 ->
  wp (get_or_create_table t tp i) (fun p s' => exists own', grown n own s own' s' /\
    ((p = 0 /\ (dry \/ has (ram (k_vm s) (tf + 8 * i)) PT_PRESENT = true /\ has (ram (k_vm s) (tf + 8 * i)) PT_PSE = true /\ (l < 4)%nat)) \/
     exists f, points (k_vm s') p f /\ own' !! f = Some (pred l, pre * 512 + i) /\
       has (ram (k_vm s') (tf + 8 * i)) PT_PRESENT = true /\
       has (ram (k_vm s') (tf + 8 * i)) PT_PSE = false /\ hw_frame (ram (k_vm s') (tf + 8 * i)) = f)) s.
Proof.
  intros HG Hp Hf Hl Hi. pose proof HG as [[HT HR Hst] HI]. unfold get_or_create_table.
  do 2 wp_step. destruct (Z.ltb_spec (vm_state (k_vm s)) VMM_IDENTITY); [lia|].
  rewrite Z.geb_leb. destruct (Z.leb_spec 512 i); [lia|].
  wp_step. eapply wp_load; [done|done|]. set (e := ram (k_vm s) (tf + 8 * i)).
  destruct (has e PT_PRESENT) eqn:Ep.
  - destruct (tb_child _ _ HT tf l pre i Hf Hl Hi Ep) as [[Hs Hl4]|[Hs Hc]]; fold e in Hs; rewrite Hs.
    { wp_step. exists own. split; [by apply (grown_le (S n)), grown_refl; [lia|]|left]. split; [done|by right]. }
    fold e in Hc. pose proof (HR _ _ Hc) as Hr. pose proof (reach_bound _ _ Hr).
    wp_step. exists own. split; [by apply (grown_le (S n)), grown_refl; [lia|]|right]. exists (clear_bits e FLAGS_MASK).
    split_and!; [by apply reach_points|done|done|done|]. apply clear_frame; [done|lia|apply Hr].
  - wp_step. eapply wp_mono; [by apply ts_alloc|]. intros p s1 (Evm&[(->&Hdry&HI1)|(f'&->&Hr&Hnew&HI1)]).
    { simpl. wp_step. exists own. split; [|left; by auto].
      split; unfold kept_words; rewrite ?Evm; try done. split; [|done]. by rewrite Evm. }
    destruct (phys_to_virt_eq _ _ Hr) as [_ Hnz]. destruct (Z.eqb_spec (phys_to_virt (k_vm s) f') 0); [done|].
    pose proof (reach_points _ _ Hr) as Hpt. rewrite (virt_to_phys_reach _ _ Hr).
    wp_step. eapply (wp_clear_table _ f'); [by rewrite Evm|]. wp_step.
    eapply (wp_store tp tf); [by rewrite Evm|done|]. wp_step.
    exists (own_create own l pre i f'). simpl. rewrite Evm. split.
    + pose proof (created_grown _ n own s s1 tf l pre i f' HG Hf Hl Hi Ep Hr Hnew Evm (HI1 _)) as Hgr.
      by rewrite Evm in Hgr.
    + right. exists f'. destruct (table_entry_spec _ _ Hr) as (He1&He2&He3).
      pose proof (reach_bound _ _ Hr).
      assert (forall r, upd_word (tf + 8 * i) (table_entry f') r (tf + 8 * i) = table_entry f') as Eu.
      { intros r. unfold upd_word. by rewrite Z.eqb_refl. }
      fold (table_entry f'). rewrite Eu. split_and!; [done| |done|done|].
      * unfold own_create. by rewrite lookup_insert_eq.
      * apply clear_frame; [done|lia|apply Hr].
Qed.

(** ** Descending the tables *)

(** [p] points to the table of level [l] on the path of [virt] from [root]. *)
Definition at_level (own : owners) (s : kernel) (virt root : Z) (l : nat) (p : Z) : Prop :=
  exists f, points (k_vm s) p f /\ own !! f = Some (l, vpre l virt) /\
    path (ram (k_vm s)) virt 4 root l f.

Lemma descend n own0 s0 own s virt root l p :
  grown (S n) own0 s0 own s -> own0 !! root = Some (4%nat, 0) -> at_level own s virt root (S l) p -> (0 < l)%nat ->
  wp (get_or_create_table t p (tidx (S l) virt)) (fun q s' => exists own', grown n own0 s0 own' s' /\
    ((q = 0 /\ (dry \/ walk (ram (k_vm s0)) 4 root virt <> None)) \/ (q <> 0 /\ at_level own' s' virt root l q))) s.
Proof.
  intros Hgr Hroot0 (f&Hp&Hf&Hpath) Hl. assert (own !! root = Some (4%nat, 0)) as Hroot by (by eapply lookup_weaken, gr_sub). pose proof (gr_good _ _ _ _ _ Hgr) as HG.
  eapply wp_mono; [by eapply get_or_create_table_spec; [|done|exact Hf|lia|apply tidx_range]|].
  intros q s' (own'&Hgr'&Hq). exists own'. split; [by eapply grown_trans|].
  destruct Hq as [[-> Hq]|(g&Hpg&Hg&He1&He2&He3)].
  { left. split; [done|]. destruct Hq as [?|(Hpr&Hps&Hl4)]; [by left|right]. rewrite <- (gr_walk _ _ _ _ _ Hgr) by done.
    rewrite (path_walk _ _ _ _ _ _ Hpath) by lia. cbn [walk]. rewrite Hpr, Hps, (proj2 (Nat.ltb_lt _ _) Hl4). by rewrite orb_true_r. }
  right. split; [apply Hpg|]. exists g.
  destruct HG as [[HT _ _] _].
  destruct (tb_frame _ _ HT _ _ _ Hf) as (_&_&Hl4).
  split_and!; [done|rewrite (vpre_child l) by lia; exact Hg|]. rewrite <- He3. apply path_snoc; [|done|done].
  eapply path_ext; [exact Hpath|exact HT|by rewrite vpre_root|lia|].
  intros h j pr i Hh _ Hi Hpr. by eapply (gr_keep _ _ _ _ _ Hgr').
Qed.

Lemma get_or_create_pd_spec n own s virt root rp :
  good (I (2 + n)) own s -> own !! root = Some (4%nat, 0) -> points (k_vm s) rp root ->
  wp (get_or_create_pd t rp virt) (fun q s' => exists own', grown n own s own' s' /\
    ((q = 0 /\ (dry \/ walk (ram (k_vm s)) 4 root virt <> None)) \/ (q <> 0 /\ at_level own' s' virt root 2 q))) s.
Proof.
  intros HG Hroot Hp. unfold get_or_create_pd. wp_step.
  eapply wp_mono; [apply (descend (S n) own s own s virt root 3); [by apply grown_refl|done| |lia]|].
  { exists root. rewrite vpre_root. split_and!; [done|done|constructor]. }
  intros q s' (own'&Hgr&[[-> Hq]|[Hq Hat]]); [simpl; wp_step; exists own'; split; [by apply (grown_le (S n)); [lia|]|left; by split]|].
  destruct (Z.eqb_spec q 0); [done|].
  apply (descend n own s own' s' virt root 2); [done|done|done|lia].
Qed.

Lemma get_or_create_pt_spec n own s virt root rp :
  good (I (3 + n)) own s -> own !! root = Some (4%nat, 0) -> points (k_vm s) rp root ->
  wp (get_or_create_pt t rp virt) (fun q s' => exists own', grown n own s own' s' /\
    ((q = 0 /\ (dry \/ walk (ram (k_vm s)) 4 root virt <> None)) \/ (q <> 0 /\ at_level own' s' virt root 1 q))) s.
Proof.
  intros HG Hroot Hp.
  assert (wp (pd ← get_or_create_pd t rp virt; if pd =? 0 then mret 0 else get_or_create_table t pd (pd_idx virt))
    (fun q s' => exists own', grown n own s own' s' /\
      ((q = 0 /\ (dry \/ walk (ram (k_vm s)) 4 root virt <> None)) \/ (q <> 0 /\ at_level own' s' virt root 1 q))) s) as H.
  { wp_step. eapply wp_mono; [by apply (get_or_create_pd_spec (S n))|].
    intros q s' (own'&Hgr&[[-> Hq]|[Hq Hat]]); [simpl; wp_step; exists own'; split; [by apply (grown_le (S n)); [lia|]|left; by split]|].
    destruct (Z.eqb_spec q 0); [done|]. apply (descend n own s own' s' virt root 1); [done|done|done|lia]. }
  unfold get_or_create_pd in H. unfold get_or_create_pt. apply wp_bind_inv, wp_bind_inv in H. wp_step.
  eapply wp_mono; [exact H|]. intros pdpt s' H'. simpl in H' |- *.
  destruct (pdpt =? 0); [exact H'|]. by apply wp_bind.
Qed.

(** ** Single pages *)

(** What writing [e] for the page of level [l] at [virt] in the address space
    [root] means: its addresses are translated by [e] if [e] is present, all
    other addresses, in all address spaces, as before. *)
Record mapped (n : nat) (own : owners) (s : kernel) (own' : owners) (s' : kernel) (root virt e : Z) (l : nat) : Prop := {
  mp_good : good (I n) own' s';
  mp_sub : own ⊆ own';
  mp_regs : same_regs (k_vm s) (k_vm s');
  mp_here : forall v, same_page l virt v ->
    walk (ram (k_vm s')) 4 root v = if has e PT_PRESENT then Some (e, l) else None;
  mp_other : forall root' v, own !! root' = Some (4%nat, 0) -> ~ same_page l virt v ->
    walk (ram (k_vm s')) 4 root' v = walk (ram (k_vm s)) 4 root' v;
}.

(** The last step of [set_page] and [set_large_page]. *)
Lemma write_leaf n own0 s0 own s virt root l p e overwrite :
  grown n own0 s0 own s -> own0 !! root = Some (4%nat, 0) -> at_level own s virt root l p ->
  l = 1%nat \/ (has e PT_PSE = true /\ (l < 4)%nat) ->
  wp (old ← load p (tidx l virt);
      if negb overwrite && has old PT_PRESENT then mret false else
      store p (tidx l virt) e;; mret true)
    (fun b s' => exists own',
      if b : bool then mapped n own0 s0 own' s' root virt e l /\
        (overwrite = false -> (forall v, same_page l virt v -> walk (ram (k_vm s0)) 4 root v = None) /\ kept_words own0 s0 s')
      else grown n own0 s0 own' s' /\ overwrite = false /\
        forall v, same_page l virt v -> l = 1%nat -> walk (ram (k_vm s0)) 4 root v <> None) s.
Proof.
  intros Hgr Hroot (f&Hp&Hf&Hpath) Hleaf. pose proof (gr_good _ _ _ _ _ Hgr) as [[HT HR Hst] HI].
  assert (own !! root = Some (4%nat, 0)) as Hroot' by (by eapply lookup_weaken, gr_sub).
  pose proof (tidx_range l virt) as Hi.
  wp_step. eapply wp_load; [done|done|]. set (old := ram (k_vm s) (f + 8 * tidx l virt)).
  destruct (negb overwrite && has old PT_PRESENT) eqn:Eo.
  - wp_step. exists own. apply andb_prop in Eo as [Eo Ep]. apply negb_true_iff in Eo.
    split_and!; [done|done|]. intros v Hv ->. rewrite <- (gr_walk _ _ _ _ _ Hgr) by done.
    assert (path (ram (k_vm s)) v 4 root 1 f) as Hpv by (eapply path_same_page; [exact Hpath|lia|lia|done]).
    rewrite (path_walk _ _ _ _ _ _ Hpv) by lia.
    cbn [walk]. assert (tidx 1 v = tidx 1 virt) as -> by (symmetry; apply same_page_idx; [lia|done]).
    fold old. by rewrite Ep.
  - wp_step. eapply wp_store; [done|done|]. wp_step. exists own. split.
    + split; [split; [split|eapply ts_vm; [exact HI|done|done]]|apply Hgr|apply Hgr|..];
        cbn [k_vm set_vm ram set_ram vm_state].
      * by eapply tables_leaf.
      * done.
      * done.
      * by eapply walk_leaf.
      * intros root' v Hr' Hv. rewrite <- (gr_walk _ _ _ _ _ Hgr root') by done.
        eapply walk_leaf_other; try done. by eapply lookup_weaken, gr_sub.
    + intros ->. simpl in Eo. split.
      * intros v Hv. rewrite <- (gr_walk _ _ _ _ _ Hgr) by done. by eapply walk_leaf_before.
      * intros g k q j Hg Hj Hpr. pose proof (gr_keep _ _ _ _ _ Hgr g k q j Hg Hj Hpr) as E. cbn [k_vm set_vm ram set_ram].
        unfold upd_word. destruct (Z.eqb_spec (g + 8 * j) (f + 8 * tidx l virt)) as [Ea|]; [|done].
        rewrite Ea in E. fold old in E. by rewrite Ea, <- E, Eo in Hpr.
Qed.

Lemma set_page_spec n own s rp root virt phys flags overwrite :
  good (I (3 + n)) own s -> own !! root = Some (4%nat, 0) -> points (k_vm s) rp root ->
  has virt (PAGE_SIZE - 1) = false -> has phys (PAGE_SIZE - 1) = false ->
  wp (set_page t rp virt phys flags overwrite) (fun b s' => exists own',
    if b : bool then mapped n own s own' s' root virt (Z.lor (clear_bits phys FLAGS_MASK) flags) 1 /\
      (overwrite = false -> (forall v, same_page 1 virt v -> walk (ram (k_vm s)) 4 root v = None) /\ kept_words own s s')
    else grown n own s own' s' /\ (dry \/ walk (ram (k_vm s)) 4 root virt <> None)) s.
Proof.
  intros HG Hroot Hp Hv Hph. unfold set_page. rewrite Hv, Hph.
  wp_step. eapply wp_mono; [by apply get_or_create_pt_spec|].
  intros q s' (own'&Hgr&[[-> Hq]|[Hq Hat]]); [simpl; wp_step; exists own'; by split|]. destruct (Z.eqb_spec q 0); [done|].
  eapply wp_mono; [eapply (write_leaf n own s own' s' virt root 1); [done|done|done|by left]|].
  intros [] s2 (own2&Hs2); exists own2; [tauto|]. destruct Hs2 as (Hs2&_&Hw). split; [done|]. right. by apply Hw.
Qed.

Lemma set_large_page_spec n own s rp root virt phys flags overwrite :
  good (I (2 + n)) own s -> own !! root = Some (4%nat, 0) -> points (k_vm s) rp root ->
  has virt (LARGE_PAGE_SIZE - 1) = false -> has phys (LARGE_PAGE_SIZE - 1) = false ->
  wp (set_large_page t rp virt phys flags overwrite) (fun b s' => exists own',
    if b : bool then mapped n own s own' s' root virt
        (Z.lor (Z.lor (clear_bits phys LARGE_FLAGS_MASK) flags) PT_PSE) 2 /\
      (overwrite = false -> (forall v, same_page 2 virt v -> walk (ram (k_vm s)) 4 root v = None) /\ kept_words own s s')
    else grown n own s own' s') s.
Proof.
  intros HG Hroot Hp Hv Hph. unfold set_large_page. rewrite Hv, Hph.
  wp_step. eapply wp_mono; [by apply get_or_create_pd_spec|].
  intros q s' (own'&Hgr&[[-> Hq]|[Hq Hat]]); [simpl; wp_step; eauto|]. destruct (Z.eqb_spec q 0); [done|].
  eapply wp_mono; [eapply (write_leaf n own s own' s' virt root 2); [done|done|done|]|].
  { right. split; [|lia]. by rewrite has_lor, orb_true_r. }
  intros [] s2 (own2&Hs2); exists own2; tauto.
Qed.

(** ** Ranges *)

Context (overwrite : bool).

(** Addresses are compared by their low 48 bits.  [region .. lo hi P ok]: no
    translation outside [lo .. hi) has changed, in any address space; without
    [overwrite] no translation at all has been replaced; and if [ok], the
    translation of every address inside satisfies [P]. *)
Record region (n : nat) (own : owners) (s : kernel) (own' : owners) (s' : kernel) (root lo hi : Z)
    (P : Z -> option (Z * nat) -> Prop) (ok : Prop) : Prop := {
  rg_good : good (I n) own' s';
  rg_sub : own ⊆ own';
  rg_regs : same_regs (k_vm s) (k_vm s');
  rg_in : ok -> forall v, lo <= v mod 2 ^ 48 < hi -> P (v mod 2 ^ 48) (walk (ram (k_vm s')) 4 root v);
  rg_out : forall root' v, own !! root' = Some (4%nat, 0) -> ~ lo <= v mod 2 ^ 48 < hi ->
    walk (ram (k_vm s')) 4 root' v = walk (ram (k_vm s)) 4 root' v;
  rg_keep : overwrite = false -> forall v w,
    walk (ram (k_vm s)) 4 root v = Some w -> walk (ram (k_vm s')) 4 root v = Some w;
  rg_words : overwrite = false -> kept_words own s s';
}.

Lemma region_app m n own1 s1 own2 s2 own3 s3 root lo mid hi P ok1 ok2 :
  own1 !! root = Some (4%nat, 0) -> lo <= mid <= hi ->
  region m own1 s1 own2 s2 root lo mid P ok1 -> region n own2 s2 own3 s3 root mid hi P ok2 ->
  region n own1 s1 own3 s3 root lo hi P (ok1 /\ ok2).
Proof.
  intros Hroot Hm [_ Hs1 Hr1 Hi1 Ho1 Hk1 Hw1] [HG Hs2 Hr2 Hi2 Ho2 Hk2 Hw2].
  split; [done|by etrans|by eapply same_regs_trans|..].
  - intros [H1 H2] v Hv. destruct (decide (v mod 2 ^ 48 < mid)); [|apply Hi2; [done|lia]].
    rewrite Ho2 by (try lia; by eapply lookup_weaken). apply Hi1; [done|lia].
  - intros root' v Hr Hv. rewrite Ho2 by (try lia; by eapply lookup_weaken). apply Ho1; [done|lia].
  - intros Hov v w Hw. by apply Hk2, Hk1.
  - intros Hov. by eapply kept_words_trans; [|apply Hw1|apply Hw2].
Qed.

Lemma region_weaken n own s own' s' root lo hi P (ok ok' : Prop) :
  (ok' -> ok) -> region n own s own' s' root lo hi P ok -> region n own s own' s' root lo hi P ok'.
Proof. intros Hok [H1 H2 H3 H4 H5 H6 H7]. split; auto. Qed.

Lemma region_empty n own s root lo hi P : good (I n) own s -> hi <= lo -> region n own s own s root lo hi P True.
Proof. intros HG Hh. split; [done|done|done| |done|done|done]. intros _ v Hv. lia. Qed.

Lemma grown_region n own s own' s' root lo hi P :
  own !! root = Some (4%nat, 0) -> grown n own s own' s' -> region n own s own' s' root lo hi P False.
Proof.
  intros Hroot [H1 H2 H3 H4 H5]. split; [done|done|done|done|..].
  - intros. by apply H4.
  - intros _ v w <-. by apply H4.
  - done.
Qed.

(** A page of level [l] as a region. *)
Lemma same_page_range l x v :
  (2 ^ page_bits l | x) -> 0 <= x < 2 ^ 48 -> same_page l x v <-> x <= v mod 2 ^ 48 < x + 2 ^ page_bits l.
Proof.
  intros [q Hq] Hx. unfold same_page. pose proof (page_bits_pos l) as Hb. rewrite (Z.mod_small x) by lia.
  set (b := 2 ^ page_bits l) in *. clearbody b. subst x. rewrite Z.div_mul by lia. set (y := v mod 2 ^ 48).
  pose proof (Z.div_mod y b ltac:(lia)). pose proof (Z.mod_pos_bound y b Hb). split; [intros E; subst q; lia|].
  intros Hy. apply (Z.div_unique_pos y b q (y - q * b)); lia.
Qed.

Lemma same_page_low l x v : same_page l (x mod 2 ^ 48) v <-> same_page l x v.
Proof. unfold same_page. by rewrite Z.mod_mod by lia. Qed.

Lemma mapped_region n own s own' s' root virt e l lo P :
  mapped n own s own' s' root virt e l -> lo = virt mod 2 ^ 48 -> (2 ^ page_bits l | lo) ->
  (overwrite = false -> (forall v, same_page l virt v -> walk (ram (k_vm s)) 4 root v = None) /\ kept_words own s s') ->
  own !! root = Some (4%nat, 0) ->
  (forall x, lo <= x < lo + 2 ^ page_bits l -> P x (if has e PT_PRESENT then Some (e, l) else None)) ->
  region n own s own' s' root lo (lo + 2 ^ page_bits l) P True.
Proof.
  intros [H1 H2 H3 H4 H5] -> Hd Hbefore Hroot HP.
  pose proof (Z.mod_pos_bound virt (2 ^ 48) ltac:(lia)) as Hx.
  split; [done|done|done|..].
  - intros _ v Hv. rewrite H4; [by apply HP|]. rewrite <- same_page_low. by apply same_page_range.
  - intros root' v Hr Hv. apply H5; [done|]. rewrite <- same_page_low. by rewrite same_page_range.
  - intros Hov v w Hw. rewrite H5; [done|done|]. intros Hsp. by rewrite (proj1 (Hbefore Hov) v Hsp) in Hw.
  - intros Hov. by apply Hbefore.
Qed.

(** The loop of [set_pages] and [set_large_pages]. *)
Section loop.
Context (root rp virt phys flags : Z) (l : nat) (ent : Z -> Z) (set : Z -> Z -> M kernel bool).
Context (Hl : (1 <= l <= 2)%nat).
Let step := 2 ^ page_bits l.
Let a := virt mod 2 ^ 48.
Context (Hset : forall n own s v p, good (I (3 + n)) own s -> own !! root = Some (4%nat, 0) -> points (k_vm s) rp root ->
  (step | v) -> (step | p) ->
  wp (set v p) (fun b s' => exists own',
    if b : bool then mapped n own s own' s' root v (ent p) l /\
      (overwrite = false -> (forall v', same_page l v v' -> walk (ram (k_vm s)) 4 root v' = None) /\ kept_words own s s')
    else grown n own s own' s') s).
Context (Hent : forall p x0 x, (step | p) -> 0 <= p < 2 ^ 52 -> p = phys + (x0 - a) -> (step | x0) ->
  x0 <= x < x0 + step ->
  maps_to phys a flags x (if has (ent p) PT_PRESENT then Some (ent p, l) else None)).
Context (Hv : (step | virt)) (Hvr : 0 <= virt < 2 ^ 64) (Hp : (step | phys)) (Hpr : 0 <= phys).

Lemma step_divides : (step | 2 ^ 48).
Proof.
  unfold step. exists (2 ^ (48 - page_bits l)). rewrite <- Z.pow_add_r; unfold page_bits; [f_equal|..]; lia.
Qed.

Lemma a_aligned : (step | a).
Proof.
  unfold a. rewrite Z.mod_eq by lia. apply Z.divide_sub_r; [done|]. apply Z.divide_mul_l, step_divides.
Qed.

Lemma set_loop_spec m n : forall i own s failed,
  good (I (3 * n + m)) own s -> own !! root = Some (4%nat, 0) -> points (k_vm s) rp root ->
  0 <= i -> (step | i) -> a + i + Z.of_nat n * step <= 2 ^ 48 ->
  phys + i + Z.of_nat n * step <= 2 ^ 52 -> 0 <= failed -> failed + Z.of_nat n * step < 2 ^ 64 ->
  wp (set_loop set virt phys step i n failed) (fun r s' => exists own',
    failed <= r <= failed + Z.of_nat n * step /\
    region m own s own' s' root (a + i) (a + i + Z.of_nat n * step) (maps_to phys a flags) (r = failed)) s.
Proof.
  pose proof (page_bits_pos l) as Hstep. fold step in Hstep.
  induction n as [|n IH]; intros i own s failed HG Hroot Hrp Hi Hid Ha Hph Hf Hfb; simpl.
  { wp_step. exists own. split; [lia|]. eapply region_weaken; [|apply region_empty; [exact HG|lia]]. done. }
  destruct (low48_add virt i Hvr Hi ltac:(unfold a in *; lia)) as [E1 E2]. rewrite E1, (u64_small (phys + i)) by lia.
  assert (step | virt + i) by (by apply Z.divide_add_r).
  assert (step | phys + i) by (by apply Z.divide_add_r).
  assert (step | a + i) by (apply Z.divide_add_r; [apply a_aligned|done]).
  replace (3 * S n + m)%nat with (3 + (3 * n + m))%nat in HG by lia.
  wp_step. eapply wp_mono; [by apply (Hset (3 * n + m))|]. intros b s1 (own1&Hb).
  assert (exists ok1 : Prop, region (3 * n + m) own s own1 s1 root (a + i) (a + i + step) (maps_to phys a flags) ok1 /\
            (b = true -> ok1)) as (ok1&R1&Hok1).
  { destruct b; [exists True|exists False]; (split; [|done]); [|by apply grown_region].
    destruct Hb as [Hb Hbf]. eapply mapped_region; [exact Hb|done|done|done|done|]. intros x Hx. apply (Hent (phys + i) (a + i) x); [done|lia|lia|done|done]. }
  assert (own1 !! root = Some (4%nat, 0)) as Hroot1 by (eapply lookup_weaken; [done|apply R1]).
  assert (points (k_vm s1) rp root) as Hrp1 by (eapply points_state; [apply R1|done]).
  eapply wp_mono; [apply (IH (i + step) own1 s1); [apply R1|done|done|lia|..]|].
  - by apply Z.divide_add_r; [|apply Z.divide_refl].
  - lia.
  - lia.
  - destruct b; [lia|]. rewrite u64_small by lia. lia.
  - destruct b; [lia|]. rewrite u64_small by lia. lia.
  - intros r s2 (own2&Hr&R2). exists own2. rewrite Z.add_assoc in R2.
    assert ((if b then failed else u64 (failed + step)) = if b then failed else failed + step) as E.
    { destruct b; [done|]. apply u64_small. lia. }
    rewrite E in Hr, R2. split; [destruct b; lia|].
    replace (a + i + Z.of_nat (S n) * step) with (a + i + step + Z.of_nat n * step) by lia.
    eapply region_weaken; [|eapply region_app; [done| |exact R1|exact R2]]; [|lia].
    intros ->. destruct b; [|lia]. split; [by apply Hok1|done].
Qed.
End loop.

(** ** set_pages and set_large_pages *)

Section ranges.
Context (root rp flags : Z) (Hflags : flags_ok flags).

(** The contract of an operation that maps [size] bytes. *)
Definition range_spec (unit : Z) (set : Z -> Z -> Z -> M kernel Z) : Prop :=
  forall n own s virt phys size,
    good (I (tables_for size + n)) own s -> own !! root = Some (4%nat, 0) -> points (k_vm s) rp root ->
    (unit | virt) -> (unit | phys) -> (unit | size) -> 0 <= virt < 2 ^ 64 -> 0 <= phys -> 0 <= size ->
    virt mod 2 ^ 48 + size <= 2 ^ 48 -> phys + size <= 2 ^ 52 ->
    wp (set virt phys size) (fun r s' => exists own', 0 <= r <= size /\
      region n own s own' s' root (virt mod 2 ^ 48) (virt mod 2 ^ 48 + size)
        (maps_to phys (virt mod 2 ^ 48) flags) (r = 0)) s.

Lemma set_pages_spec : range_spec PAGE_SIZE (fun v p n => set_pages t rp v p n flags overwrite).
Proof.
  intros n own s virt phys size HG Hroot Hrp Hv Hp Hs Hvr Hpr Hsr Ha Hph. unfold set_pages.
  change (PAGE_SIZE - 1) with (2 ^ 12 - 1).
  rewrite !(proj2 (has_step_mask 12 _ ltac:(lia))) by done.
  assert (Z.of_nat (Z.to_nat (size / PAGE_SIZE)) * PAGE_SIZE = size) as En.
  { destruct Hs as [q ->]. rewrite Z.div_mul by plia. unfold PAGE_SIZE in *. lia. }
  eapply wp_mono; [apply (set_loop_spec root rp virt phys flags 1
    (fun p => Z.lor (clear_bits p FLAGS_MASK) flags) (fun v p => set_page t rp v p flags overwrite) ltac:(lia))|].
  - intros n1 own1 s1 v p HG1 Hroot1 Hrp1 Hdv Hdp.
    eapply wp_mono; [apply (set_page_spec n1); [done|done|done|..]; by apply (has_step_mask 12)|].
    intros [] s2 (own2&H2); exists own2; tauto.
  - intros p x0 x Hdp Hpb Ep Hdx Hx. rewrite clear_flags_id by done.
    eapply (leaf_maps_to 1); try done; lia.
  - done. - done. - done. - done. - done. - done. - done. - done. - apply Z.divide_0_r.
  - change (2 ^ page_bits 1) with PAGE_SIZE. lia.
  - change (2 ^ page_bits 1) with PAGE_SIZE. lia.
  - done.
  - change (2 ^ page_bits 1) with PAGE_SIZE. lia.
  - change (2 ^ page_bits 1) with PAGE_SIZE. intros r s' (own'&Hr&R). exists own'.
    rewrite En, Z.add_0_r in R. rewrite En in Hr. done.
Qed.

Lemma clear_large p : 0 <= p < 2 ^ 52 -> (2 ^ 21 | p) -> clear_bits p LARGE_FLAGS_MASK = p.
Proof.
  intros Hp Hd. unfold clear_bits. change LARGE_FLAGS_MASK with (Z.lor (Z.shiftl 1 63) (Z.ones 21)).
  apply Z.bits_inj'. intros n Hn. rewrite Z.ldiff_spec.
  destruct (decide (n < 21)); [by rewrite (aligned_testbit 21)|].
  destruct (decide (52 <= n)); [by rewrite (high_testbit 52)|].
  rewrite Z.lor_spec, Z.shiftl_spec, Z.ones_spec_high by lia.
  rewrite (Z.testbit_neg_r 1) by lia. simpl. apply andb_true_r.
Qed.

Lemma flags_ok_pse : flags_ok (Z.lor flags PT_PSE).
Proof.
  unfold flags_ok in *. rewrite clear_bits_land in *. by rewrite Z.land_lor_distr_l, Hflags.
Qed.

Lemma clear_pse : clear_bits (Z.lor flags PT_PSE) PT_PSE = clear_bits flags PT_PSE.
Proof. rewrite !clear_bits_land, Z.land_lor_distr_l. by rewrite Z.land_lnot_diag, Z.lor_0_r. Qed.

Lemma set_large_pages_spec :
  range_spec LARGE_PAGE_SIZE (fun v p n => set_large_pages t rp v p n flags overwrite).
Proof.
  intros n own s virt phys size HG Hroot Hrp Hv Hp Hs Hvr Hpr Hsr Ha Hph. unfold set_large_pages.
  change (LARGE_PAGE_SIZE - 1) with (2 ^ 21 - 1).
  rewrite !(proj2 (has_step_mask 21 _ ltac:(lia))) by done.
  assert (Z.of_nat (Z.to_nat (size / LARGE_PAGE_SIZE)) * LARGE_PAGE_SIZE = size) as En.
  { destruct Hs as [q ->]. rewrite Z.div_mul by done. unfold LARGE_PAGE_SIZE in *. lia. }
  eapply wp_mono; [apply (set_loop_spec root rp virt phys flags 2
    (fun p => Z.lor (Z.lor (clear_bits p LARGE_FLAGS_MASK) flags) PT_PSE)
    (fun v p => set_large_page t rp v p flags overwrite) ltac:(lia))|].
  - intros n1 own1 s1 v p HG1 Hroot1 Hrp1 Hdv Hdp.
    eapply wp_mono; [apply (set_large_page_spec n1); [by eapply good_le; [|exact HG1]; lia|done|done|..]; by apply (has_step_mask 21)|].
    intros [] s2 (own2&H2); exists own2; tauto.
  - intros p x0 x Hdp Hpb Ep Hdx Hx. rewrite clear_large, <- Z.lor_assoc by done.
    eapply (leaf_maps_to 2); try done; try lia.
    + apply flags_ok_pse.
    + by rewrite has_lor, orb_false_r.
    + apply clear_pse.
  - done. - done. - done. - done.
  - eapply good_le; [|exact HG]. unfold tables_for. apply Nat.add_le_mono_r, Nat.mul_le_mono_l.
    pose proof (Z.div_le_compat_l size PAGE_SIZE LARGE_PAGE_SIZE Hsr ltac:(done)). lia.
  - done. - done. - done. - apply Z.divide_0_r.
  - change (2 ^ page_bits 2) with LARGE_PAGE_SIZE. lia.
  - change (2 ^ page_bits 2) with LARGE_PAGE_SIZE. lia.
  - done.
  - change (2 ^ page_bits 2) with LARGE_PAGE_SIZE. lia.
  - change (2 ^ page_bits 2) with LARGE_PAGE_SIZE. intros r s' (own'&Hr&R). exists own'.
    rewrite En, Z.add_0_r in R. rewrite En in Hr. done.
Qed.

(** ** set_range *)

Lemma maps_to_shift p p' c c' x w : p - c = p' - c' -> maps_to p c flags x w -> maps_to p' c' flags x w.
Proof.
  intros E. unfold maps_to. destruct (has flags PT_PRESENT); [|done].
  intros (e&l&->&H1&H2). exists e, l. split_and!; [done|lia|done].
Qed.

Lemma region_mono n own s own' s' lo hi (P P' : Z -> option (Z * nat) -> Prop) ok :
  (forall x w, P x w -> P' x w) -> region n own s own' s' root lo hi P ok -> region n own s own' s' root lo hi P' ok.
Proof. intros HP [H1 H2 H3 H4 H5 H6 H7]. split; auto. Qed.

(** Widening to a larger range, in which not everything is mapped. *)
Lemma region_widen n own s own' s' lo hi lo' hi' P (ok ok' : Prop) :
  lo' <= lo -> hi <= hi' -> (ok' -> ok /\ lo = lo' /\ hi = hi') ->
  region n own s own' s' root lo hi P ok -> region n own s own' s' root lo' hi' P ok'.
Proof.
  intros Hlo Hhi Hok [H1 H2 H3 H4 H5 H6 H7]. split; [done|done|done|..|done|done].
  - intros [? [-> ->]]%Hok. by apply H4.
  - intros root' v Hr Hv. apply H5; [done|lia].
Qed.

Lemma part_spec n unit set own s virt phys size failed P :
  range_spec unit set -> good (I (tables_for size + n)) own s -> own !! root = Some (4%nat, 0) -> points (k_vm s) rp root ->
  (size <> 0 -> (unit | virt) /\ (unit | phys) /\ (unit | size) /\ 0 <= virt < 2 ^ 64 /\ 0 <= phys /\
     virt mod 2 ^ 48 + size <= 2 ^ 48 /\ phys + size <= 2 ^ 52 /\
     forall x w, maps_to phys (virt mod 2 ^ 48) flags x w -> P x w) ->
  0 <= size -> 0 <= failed -> failed + size < 2 ^ 64 ->
  forall lo, (size <> 0 -> lo = virt mod 2 ^ 48) ->
  wp (part set (virt, phys, size) failed) (fun r s' => exists own', failed <= r <= failed + size /\
    region n own s own' s' root lo (lo + size) P (r = failed)) s.
Proof.
  intros Hset HG Hroot Hrp Hside Hs Hf Hfb lo Hlo. unfold part. destruct (Z.eqb_spec size 0) as [->|Hne].
  { wp_step. exists own. split; [lia|]. eapply region_weaken; [|apply region_empty; [done|lia]]. done. }
  destruct (Hside Hne) as (?&?&?&?&?&?&?&HP). rewrite (Hlo Hne).
  wp_step. eapply wp_mono; [by apply Hset|]. intros r s' (own'&Hr&R). wp_step. exists own'.
  rewrite u64_small by lia. split; [lia|]. eapply region_mono; [exact HP|].
  eapply region_weaken; [|exact R]. lia.
Qed.

Lemma set_parts_spec n own s virt phys virt_end failed :
  good (I (tables_for (virt_end - virt) + n)) own s -> own !! root = Some (4%nat, 0) -> points (k_vm s) rp root ->
  0 <= virt < virt_end -> virt_end + LARGE_PAGE_SIZE <= 2 ^ 64 -> 0 <= phys ->
  (PAGE_SIZE | virt) -> (PAGE_SIZE | virt_end) -> phys + (virt_end - virt) <= 2 ^ 52 ->
  (LARGE_PAGE_SIZE | virt - phys) -> virt mod 2 ^ 48 + (virt_end - virt) <= 2 ^ 48 ->
  0 <= failed -> failed + (virt_end - virt) < 2 ^ 64 ->
  wp (let '(pre, large, pos) := range_plan virt phys virt_end in
      failed ← part (fun v p n => set_pages t rp v p n flags overwrite) pre failed;
      failed ← part (fun v p n => set_large_pages t rp v p n flags overwrite) large failed;
      part (fun v p n => set_pages t rp v p n flags overwrite) pos failed)
    (fun r s' => exists own', failed <= r <= failed + (virt_end - virt) /\
      region n own s own' s' root (virt mod 2 ^ 48) (virt mod 2 ^ 48 + (virt_end - virt))
        (maps_to phys (virt mod 2 ^ 48) flags) (r = failed)) s.
Proof.
  intros HG Hroot Hrp Hv Hve Hp Hdv Hde Hpb Hvp Ha Hf Hfb. set (a := virt mod 2 ^ 48) in *.
  assert (PAGE_SIZE | phys) as Hdp.
  { replace phys with (virt - (virt - phys)) by lia. apply Z.divide_sub_r; [done|]. etrans; [|exact Hvp]. by exists 512. }
  assert (phys + LARGE_PAGE_SIZE <= 2 ^ 64) by (unfold LARGE_PAGE_SIZE; lia).
  destruct (range_plan_spec virt phys virt_end) as (v2&p2&v3&p3&n1&n2&n3&->&Hn1&Hn2&Hn3&Hsum&Hd1&Hd2&Hd3&Hs2&Hs3);
    [done..|].
  assert (forall d, 0 <= d < virt_end - virt -> (virt + d) mod 2 ^ 48 = a + d) as Hmod.
  { intros d Hd. apply low48_add; unfold a, LARGE_PAGE_SIZE in *; lia. }
  assert (virt_end < 2 ^ 64) by (unfold LARGE_PAGE_SIZE in *; lia).
  assert (PAGE_SIZE | n2) as Hd2' by (etrans; [|exact Hd2]; by exists 512).
  rewrite <- Hsum, !tables_for_add in HG by (done || lia || by apply Z.divide_add_r). rewrite <- !Nat.add_assoc in HG.
  wp_step. eapply wp_mono; [apply (part_spec (tables_for n2 + (tables_for n3 + n)) PAGE_SIZE _ own s virt phys n1 failed (maps_to phys a flags))
    with (lo := a); [apply set_pages_spec|done|done|done| |lia|lia|lia|done]|].
  { intros _. split_and!; try done; lia. }
  intros r1 s1 (own1&Hr1&R1).
  assert (own1 !! root = Some (4%nat, 0)) as Hroot1 by (eapply lookup_weaken; [done|apply R1]).
  assert (points (k_vm s1) rp root) as Hrp1 by (eapply points_state; [apply R1|done]).
  wp_step. eapply wp_mono; [apply (part_spec (tables_for n3 + n) LARGE_PAGE_SIZE _ own1 s1 v2 p2 n2 r1 (maps_to phys a flags))
    with (lo := a + n1); [apply set_large_pages_spec|apply R1|done|done| |lia|lia|lia|]|].
  { intros Hne. destruct (Hs2 Hne) as (->&->&?&?). rewrite Hmod by lia.
    split_and!; try done; try lia. intros x w. apply maps_to_shift. lia. }
  { intros Hne. destruct (Hs2 Hne) as (->&->&?&?). by rewrite Hmod by lia. }
  intros r2 s2 (own2&Hr2&R2).
  assert (own2 !! root = Some (4%nat, 0)) as Hroot2 by (eapply lookup_weaken; [done|apply R2]).
  assert (points (k_vm s2) rp root) as Hrp2 by (eapply points_state; [apply R2|done]).
  eapply wp_mono; [apply (part_spec n PAGE_SIZE _ own2 s2 v3 p3 n3 r2 (maps_to phys a flags))
    with (lo := a + n1 + n2); [apply set_pages_spec|apply R2|done|done| |lia|lia|lia|]|].
  { intros Hne. destruct (Hs3 Hne) as (->&->). rewrite <- !Z.add_assoc, Hmod by lia.
    split_and!; try done; try lia; try (apply Z.divide_add_r; [done|by apply Z.divide_add_r]).
    intros x w. apply maps_to_shift. lia. }
  { intros Hne. destruct (Hs3 Hne) as (->&->). rewrite <- !Z.add_assoc, Hmod by lia. lia. }
  intros r3 s3 (own3&Hr3&R3). exists own3. split; [lia|].
  replace (a + (virt_end - virt)) with (a + n1 + n2 + n3) by lia.
  eapply region_weaken; [|eapply region_app; [done| |eapply region_app; [done| |exact R1|exact R2]|exact R3]]; lia.
Qed.

(** The bounds under which no address computation wraps and the range stays in
    one half of the address space. *)
Definition range_ok (virt phys size : Z) : Prop :=
  0 <= virt /\ 0 <= size /\ virt + size + LARGE_PAGE_SIZE <= 2 ^ 64 /\
  virt mod 2 ^ 48 + size <= 2 ^ 48 /\ 0 <= phys /\ phys + size <= 2 ^ 52.

(** The result of a range operation. *)
Definition range_post (n : nat) (own : owners) (s : kernel) (virt phys size : Z) (r : Z) (s' : kernel) : Prop :=
  exists own', 0 <= r <= size /\
    region n own s own' s' root (virt mod 2 ^ 48) (virt mod 2 ^ 48 + size)
      (maps_to phys (virt mod 2 ^ 48) flags) (r = 0).

(** Nothing is mapped, and the whole size reported as failed. *)
Lemma range_post_all n own s virt phys size :
  good (I n) own s -> 0 <= size -> range_post n own s virt phys size size s.
Proof.
  intros HG Hs. exists own. split; [lia|]. split; [done|done|done| |done|done|done]. intros -> v Hv. lia.
Qed.

(** Passing from the rounded range to the requested one. *)
Lemma range_post_rounded n own s virt phys size o1 o2 r s' own' :
  0 <= o1 -> 0 <= o2 -> virt + o1 < virt + size - o2 -> 0 <= virt < 2 ^ 64 -> virt mod 2 ^ 48 + size <= 2 ^ 48 ->
  o1 + o2 <= r <= size ->
  region n own s own' s' root ((virt + o1) mod 2 ^ 48)
    ((virt + o1) mod 2 ^ 48 + (virt + size - o2 - (virt + o1)))
    (maps_to (phys + o1) ((virt + o1) mod 2 ^ 48) flags) (r = o1 + o2) ->
  range_post n own s virt phys size r s'.
Proof.
  intros Ho1 Ho2 Hlt Hv Ha Hr R. exists own'. split; [lia|].
  destruct (low48_add virt o1 Hv Ho1 ltac:(lia)) as [_ E]. rewrite E in R.
  eapply region_widen; [| | |eapply region_mono; [|exact R]]; [lia|lia|lia|].
  intros x w. apply maps_to_shift. lia.
Qed.

Lemma set_range_spec n own s virt phys size :
  good (I (tables_for size + n)) own s -> own !! root = Some (4%nat, 0) -> points (k_vm s) rp root -> range_ok virt phys size ->
  wp (set_range t rp virt phys size flags overwrite) (range_post n own s virt phys size) s.
Proof.
  intros HG Hroot Hrp (Hv&Hs&Hve&Ha&Hp&Hpe). unfold set_range, LARGE_PAGE_SIZE in *.
  change (0x200000 - 1) with (Z.ones 21). rewrite !Z.land_ones by lia.
  destruct (Z.eqb_spec (virt mod 2 ^ 21) (phys mod 2 ^ 21)) as [Em|_]; simpl;
    [|wp_step; apply range_post_all; [by eapply good_le; [|exact HG]; lia|done]].
  apply divide_mod_eq in Em; [|lia]. rewrite (u64_small (virt + size)) by lia.
  destruct (align_start_spec virt phys) as (o1&Ho1&->&Hd1); [lia|plia|lia|plia|].
  destruct (align_end_spec (virt + size) o1) as (o2&Ho2&Hle&->&Hd2); [lia|lia|plia|].
  rewrite Z.geb_leb. destruct (Z.leb_spec (virt + size - o2) (virt + o1)); [wp_step; apply range_post_all; [by eapply good_le; [|exact HG]; lia|done]|].
  eapply wp_mono; [apply (set_parts_spec n own s (virt + o1) (phys + o1) (virt + size - o2) (o1 + o2))|].
  - eapply good_le; [|exact HG]. apply Nat.add_le_mono_r, tables_for_le. lia. - done. - done. - lia. - unfold LARGE_PAGE_SIZE. lia. - lia. - done. - done. - lia.
  - replace (virt + o1 - (phys + o1)) with (virt - phys) by lia. done.
  - destruct (low48_add virt o1) as [_ ->]; lia.
  - lia.
  - lia.
  - intros r s' (own'&Hr&R). eapply (range_post_rounded n own s virt phys size o1 o2); try done; lia.
Qed.
End ranges.
End ops.

(** ** The boot pool as a source of table frames *)

Section boot_source.
Context (t : e820_table) `{!E820Table t} (kernel_end : Z).

(** All RAM that the pool can hand out is reachable by the manager in state
    [st]: below the end of the identity map, or inside the direct map. *)
Definition ram_reachable (st : Z) : Prop :=
  forall p, ram_page t p ->
    p + PAGE_SIZE <= (if st <? VMM_TRANSITION then 0x40000000 else kernel_vma_start - HHDM_BASE).

(** Every table frame lies between the kernel image and the pool end, so that
    later pages differ. *)
Definition boot_source (own : owners) (s : kernel) : Prop :=
  bm_inv t kernel_end (k_boot s) /\
  (KERNEL_PHYS <= kernel_end /\ forall f x, own !! f = Some x -> KERNEL_PHYS <= f < pool_end (k_boot s)) /\
  VMM_IDENTITY <= vm_state (k_vm s) <= VMM_VIRTUAL_ONLY /\ ram_reachable (vm_state (k_vm s)).

Lemma boot_alloc own s : boot_source own s ->
  wp (on_boot (bootmem_alloc_page_phys t)) (fun p s' => k_vm s' = k_vm s /\
    ((p = 0 /\ boot_source own s') \/
     (0 < p /\ reach (vm_state (k_vm s)) p /\ own !! p = None /\ forall x, boot_source (<[p := x]> own) s'))) s.
Proof.
  intros (Hbm&[Hke Hlt]&Hst&Hram). apply wp_zoom. eapply wp_mono; [by apply alloc_page_phys_ok|].
  intros p b (Hbm'&[(->&->&_)|(Hnz&Hp&Hge&Hend&_)]); simpl; (split; [done|]).
  { left. split; [done|]. exact (conj Hbm (conj (conj Hke Hlt) (conj Hst Hram))). }
  right. pose proof (bi_kernel _ _ _ Hbm). pose proof (bi_order _ _ _ Hbm).
  pose proof (Hram p Hp). split_and!; [lia| | |].
  - split; [apply Hp|]. split; [destruct (_ <? _); lia|done].
  - destruct (own !! p) as [x|] eqn:E; [|done]. specialize (Hlt p x E). lia.
  - intros x. split; [exact Hbm'|]. split; [|exact (conj Hst Hram)]. split; [exact Hke|]. intros f y Hf.
    change (KERNEL_PHYS <= f < pool_end b). rewrite Hend.
    apply lookup_insert_Some in Hf as [[<- _]|[_ Hf]]; [plia|]. specialize (Hlt f y Hf). plia.
Qed.

#[export] Instance boot_table_source : TableSource t True (fun _ => boot_source).
Proof.
  split.
  - intros _ own s HI. pose proof HI as (_&_&[Hst1 Hst2]&_). unfold __alloc_table. do 2 wp_step.
    unfold VMM_IDENTITY, VMM_VIRTUAL_ONLY in Hst1, Hst2.
    assert (vm_state (k_vm s) = 1 \/ vm_state (k_vm s) = 2 \/ vm_state (k_vm s) = 3) as Hs by lia.
    destruct (Z.eqb_spec (vm_state (k_vm s)) VMM_IDENTITY) as [Es|Es].
    + eapply wp_mono; [by apply boot_alloc|]. intros p s' (Evm&[[? ?]|(Hp&Hr&Hn&HI')]); (split; [done|]); [by left|right].
      exists p. split_and!; [|done|done|done]. unfold phys_to_virt. by rewrite Es.
    + assert ((vm_state (k_vm s) =? VMM_TRANSITION) || (vm_state (k_vm s) =? VMM_VIRTUAL_ONLY) = true) as ->.
      { destruct Hs as [E|[E|E]]; rewrite E in *; done. }
      unfold bootmem_alloc_page.
      assert (wp (phys ← on_boot (bootmem_alloc_page_phys t);
                  if phys =? 0 then mret 0 else mret (u64 (HHDM_BASE + phys)))
        (fun p s' => k_vm s' = k_vm s /\
          ((p = 0 /\ True /\ boot_source own s') \/
           exists f, p = phys_to_virt (k_vm s) f /\ reach (vm_state (k_vm s)) f /\ own !! f = None /\
             forall x, boot_source (<[f := x]> own) s')) s) as H.
      { wp_step. eapply wp_mono; [by apply boot_alloc|].
        intros p s' (Evm&[[-> ?]|(Hp&Hr&Hn&HI')]); [simpl; wp_step; auto|].
        destruct (Z.eqb_spec p 0); [lia|]. wp_step. split; [done|]. right. exists p.
        split_and!; [|done|done|done]. unfold phys_to_virt. rewrite Z.geb_leb.
        destruct (Z.leb_spec VMM_TRANSITION (vm_state (k_vm s))); [by rewrite Z.add_comm|].
        unfold VMM_IDENTITY, VMM_TRANSITION in *. lia. }
      revert H. unfold wp, mbind, M_bind, on_boot, zoom.
      destruct (bootmem_alloc_page_phys t (k_boot s)) as [p b tr| |]; [|done..]. by destruct (p =? 0).
  - done.
  - intros _ own s s' (Hbm&Hlt&Hst&Hram) Emm Est. unfold boot_source, k_boot in *. by rewrite Emm, Est.
Qed.
End boot_source.

(** ** vmm_map *)

Section vmm_map.
Context `{KernelLayout} (t : e820_table) {dry : Prop} (I : nat -> owners -> kernel -> Prop) `{!TableSource t dry I}.

(** The table a [pml4] argument stands for. *)
Definition pml4_of (pml4 : Z) : Z := if pml4 =? KERN_PML4 then kern_pml4 else pml4.

Lemma vmm_map_spec n own s root pml4 virt phys size flags :
  good (I (tables_for size + n)) own s -> own !! root = Some (4%nat, 0) -> points (k_vm s) (pml4_of pml4) root ->
  (0x1000 | pml4_of pml4) -> flags_ok flags -> range_ok virt phys size ->
  wp (vmm_map t pml4 virt phys size flags) (range_post I false root flags n own s virt phys size) s.
Proof.
  intros HG Hroot Hrp Hal Hfl Hr. pose proof Hr as (Hv&Hs&Hve&Ha&Hp&Hpe). unfold vmm_map. fold (pml4_of pml4).
  destruct (Z.eqb_spec (pml4_of pml4) 0); [by destruct Hrp|].
  rewrite (proj2 (Z.mod_divide (pml4_of pml4) 0x1000 ltac:(lia)) Hal). simpl.
  case_match; [|by eapply set_range_spec].
  case_match; [wp_step; apply range_post_all; [by eapply (good_le t I); [|exact HG]; lia|done]|].
  unfold LARGE_PAGE_SIZE in *. rewrite (u64_small (virt + size)) by lia.
  destruct (align_start_spec virt phys) as (o1&Ho1&->&Hd1); [lia|plia|lia|plia|].
  destruct (align_end_spec (virt + size) o1) as (o2&Ho2&Hle&->&Hd2); [lia|lia|plia|].
  rewrite Z.geb_leb. destruct (Z.leb_spec (virt + size - o2) (virt + o1)); [wp_step; apply range_post_all; [by eapply (good_le t I); [|exact HG]; lia|done]|].
  assert (PAGE_SIZE | phys + o1) as Hdp.
  { match goal with E : negb (Z.land virt (PAGE_SIZE - 1) =? _) = false |- _ =>
      apply negb_false_iff, Z.eqb_eq in E; change (PAGE_SIZE - 1) with (Z.ones 12) in E;
      rewrite !Z.land_ones in E by lia; apply divide_mod_eq in E; [|lia] end.
    replace (phys + o1) with (virt + o1 - (virt - phys)) by lia. by apply Z.divide_sub_r. }
  rewrite (u64_small (_ - _)) by lia.
  wp_step. eapply wp_mono; [eapply (set_pages_spec t I false root (pml4_of pml4) flags Hfl n own s);
    [eapply (good_le t I); [|exact HG]; apply Nat.add_le_mono_r, tables_for_le; lia|done|done|done|done| |lia|lia|lia| |lia]|].
  - apply Z.divide_sub_r; done.
  - destruct (low48_add virt o1) as [_ ->]; lia.
  - intros r s' (own'&Hr'&R). wp_step. rewrite u64_small by lia.
    eapply (range_post_rounded I false root flags n own s virt phys size o1 o2); try done; try lia.
    eapply region_weaken; [|exact R]. lia.
Qed.
End vmm_map.

(** ** Properties of vmm_map *)

Lemma mod_window v k : 0 <= k <= 48 -> (v mod 2 ^ 48) mod 2 ^ k = v mod 2 ^ k.
Proof.
  intros Hk. symmetry. apply Zmod_div_mod; [apply Z.pow_pos_nonneg; lia|lia|].
  exists (2 ^ (48 - k)). rewrite <- Z.pow_add_r by lia. f_equal. lia.
Qed.

Lemma walk_level r l f v e k : walk r l f v = Some (e, k) -> (k <= l)%nat.
Proof.
  revert f. induction l as [|l IH]; intros f; cbn [walk]; [done|].
  destruct (negb _); [done|]. destruct (_ || _); [intros [=]; lia|]. intros Hw%IH. lia.
Qed.

Lemma maps_to_translate phys a flags r root v :
  maps_to phys a flags (v mod 2 ^ 48) (walk r 4 root v) -> has flags PT_PRESENT = true ->
  exists e, translate r root v = Some (phys + (v mod 2 ^ 48 - a), e) /\
    clear_bits (Z.land e FLAGS_MASK) PT_PSE = clear_bits flags PT_PSE.
Proof.
  unfold maps_to, translate. intros Hm Hpr. rewrite Hpr in Hm. destruct Hm as (e&l&E&Ha&Hf). exists e. split; [|done].
  pose proof (walk_level _ _ _ _ _ _ E) as Hl. rewrite E. cbn [fmap option_fmap option_map fst snd].
  rewrite mod_window in Ha by (unfold page_bits; lia). by rewrite Ha.
Qed.

Lemma kept_translate own s s' root v pe : tables own (ram (k_vm s)) -> kept_words own s s' -> own !! root = Some (4%nat, 0) ->
  translate (ram (k_vm s)) root v = Some pe -> translate (ram (k_vm s')) root v = Some pe.
Proof.
  intros HT Hk Hr. unfold translate. rewrite !fmap_Some. intros (w&Hw&->). exists w. split; [|done]. by eapply kept_words_walk.
Qed.

(** What a range that is mapped as a whole means for the processor. *)
Lemma region_translate I overwrite n own s own' s' root virt phys size flags :
  region I overwrite n own s own' s' root (virt mod 2 ^ 48) (virt mod 2 ^ 48 + size) (maps_to phys (virt mod 2 ^ 48) flags) (0 = 0) ->
  range_ok virt phys size -> has flags PT_PRESENT = true -> forall d, 0 <= d < size -> exists e,
    translate (ram (k_vm s')) root (virt + d) = Some (phys + d, e) /\
    clear_bits (Z.land e FLAGS_MASK) PT_PSE = clear_bits flags PT_PSE.
Proof.
  intros [_ _ _ H4 _ _ _] (Hv&_&Hve&Ha&_) Hpr d Hd. unfold LARGE_PAGE_SIZE in Hve.
  destruct (low48_add virt d ltac:(lia) ltac:(lia) ltac:(lia)) as [_ Em].
  destruct (maps_to_translate phys (virt mod 2 ^ 48) flags (ram (k_vm s')) root (virt + d)) as (e&Et&He).
  - apply H4; [done|]. rewrite Em. lia.
  - done.
  - exists e. split; [|done]. rewrite Et, Em. repeat f_equal. lia.
Qed.

(** A kernel whose PML4 is the only table, in the state after [vmm_init]. *)
Definition ex_layout : KernelLayout := {|
  kern_pml4 := kernel_vma_start + 0x10000; pdpt_low := kernel_vma_start + 0x11000;
  pd_low := kernel_vma_start + 0x12000; pdpt_kern := kernel_vma_start + 0x13000;
  pd_kern := kernel_vma_start + 0x14000 |}.
Definition ex_kernel : kernel :=
  mk_kernel (mk_mm ex_pool (mk_mem ∅ 0 ∅ 0)) (mk_vmm VMM_IDENTITY 0x40000000 (fun _ => 0) 0x210000 0 0).
Definition ex_own : owners := {[ 0x210000 := (4%nat, 0) ]}.
Definition ex_flags : Z := Z.lor PT_PRESENT PT_WRITABLE.

Lemma ex_ram_reachable st : ram_reachable ex_sane st.
Proof.
  intros p [_ (e&He&(_&_&Hp))].
  assert (Forall (fun e => e_addr e + e_size e <= 0x40000000) (used ex_sane)) as Hall
    by (unfold ex_sane, used; simpl; repeat constructor; simpl; lia).
  rewrite Forall_forall in Hall. specialize (Hall e He). simpl in Hall.
  destruct (st <? VMM_TRANSITION); unfold kernel_vma_start, HHDM_BASE; lia.
Qed.

Lemma ex_good : good (boot_source ex_sane 0x323456) ex_own ex_kernel.
Proof.
  unfold ex_own. split.
  - split; simpl; [split|..]; try done.
    + intros f l pre [<- [= <- <-]]%lookup_singleton_Some. split_and!; [by exists 0x210|lia|lia|lia|lia].
    + intros f x [<- <-]%lookup_singleton_Some. split_and!; [by exists 0x210|simpl; lia|done].
  - split; [apply ex_pool_inv|]. split; [|split; [done|apply ex_ram_reachable]]. split; [done|].
    intros f x [<- <-]%lookup_singleton_Some. unfold KERNEL_PHYS. simpl. lia.
Qed.

Lemma ex_points s : points s (pml4_of (H := ex_layout) KERN_PML4) 0x210000.
Proof.
  split; [done|]. intros i Hi. unfold pml4_of, resolve. simpl.
  unfold kernel_vma_start, KERNEL_PHYS, LARGE_PAGE_SIZE.
  destruct (Z.leb_spec 0xFFFFFFFF80000000 (0xFFFFFFFF80000000 + 0x10000 + 8 * i)); [|lia].
  destruct (Z.ltb_spec (0xFFFFFFFF80000000 + 0x10000 + 8 * i) (0xFFFFFFFF80000000 + 0x200000)); [|lia].
  simpl. f_equal. lia.
Qed.
