(* ===== verification/VmmBoot.v ===== *)
(** * Page tables at boot

    [vmm_init] builds the identity map of the first GiB and the window of the
    kernel image from zeroed tables, and [vmm_virt_range_has_mapping] decides
    whether an address range is free of translations. *)

From S2P Require Import Prelude Kmath E820 E820Facts Bootmem BootmemFacts Mem Buddy Vmm VmmFacts VmmMap.
From Stdlib Require Import ZArith Lia Znumtheory Bool.
From stdpp Require Import base gmap list strings.

Open Scope Z_scope.

(** ** The static tables *)

(** Frame of a static table, given by its address in the kernel window. *)
Definition fr (p : Z) : Z := p - kernel_vma_start + KERNEL_PHYS.

(** The linker places the tables at different pages of the kernel window. *)
Class LayoutOk `{KernelLayout} : Prop := {
  lo_window : Forall (fun p => (PAGE_SIZE | p) /\
      kernel_vma_start <= p /\ p + PAGE_SIZE <= kernel_vma_start + LARGE_PAGE_SIZE)
    [kern_pml4; pdpt_low; pd_low; pdpt_kern; pd_kern];
  lo_nodup : NoDup [kern_pml4; pdpt_low; pd_low; pdpt_kern; pd_kern];
}.

Section boot.
Context `{LayoutOk}.

Lemma fr_inj p q : fr p = fr q -> p = q.
Proof. unfold fr. lia. Qed.

Lemma layout_page p : p ∈ [kern_pml4; pdpt_low; pd_low; pdpt_kern; pd_kern] ->
  exists a, fr p = PAGE_SIZE * a /\ 512 <= a < 1024.
Proof.
  intros Hp. pose proof lo_window as Hw. rewrite Forall_forall in Hw. destruct (Hw p Hp) as ([a ->]&H1&H2).
  exists (a - 0xFFFFFFFF80000 + 512).
  unfold fr, kernel_vma_start, KERNEL_PHYS, PAGE_SIZE, LARGE_PAGE_SIZE in *. lia.
Qed.

(** The five frames, as page numbers, are different. *)
Lemma layout_frames : exists a b c d e,
  fr kern_pml4 = PAGE_SIZE * a /\ fr pdpt_low = PAGE_SIZE * b /\ fr pd_low = PAGE_SIZE * c /\
  fr pdpt_kern = PAGE_SIZE * d /\ fr pd_kern = PAGE_SIZE * e /\
  (a <> b /\ a <> c /\ a <> d /\ a <> e /\ b <> c /\ b <> d /\ b <> e /\ c <> d /\ c <> e /\ d <> e) /\
  512 <= a < 1024 /\ 512 <= b < 1024 /\ 512 <= c < 1024 /\ 512 <= d < 1024 /\ 512 <= e < 1024.
Proof.
  destruct (layout_page kern_pml4) as (a&Ea&Ha); [set_solver|].
  destruct (layout_page pdpt_low) as (b&Eb&Hb); [set_solver|].
  destruct (layout_page pd_low) as (c&Ec&Hc); [set_solver|].
  destruct (layout_page pdpt_kern) as (d&Ed&Hd); [set_solver|].
  destruct (layout_page pd_kern) as (e&Ee&He); [set_solver|].
  exists a, b, c, d, e. pose proof lo_nodup as Hnd. rewrite !NoDup_cons, !not_elem_of_cons in Hnd.
  destruct Hnd as ((?&?&?&?&_)&(?&?&?&_)&(?&?&_)&(?&_)&_).
  split_and!; try done; try apply Ha; try apply Hb; try apply Hc; try apply Hd; try apply He; intros ->;
    match goal with Hne : ?p <> ?q, E1 : fr ?p = ?x, E2 : fr ?q = ?x |- _ => apply Hne, fr_inj; congruence end.
Qed.

Lemma layout_pointers s p : p ∈ [kern_pml4; pdpt_low; pd_low; pdpt_kern; pd_kern] ->
  points s p (fr p) /\ virt_to_phys p = fr p.
Proof.
  intros Hp. pose proof lo_window as Hw. rewrite Forall_forall in Hw.
  destruct (Hw p Hp) as (_&H1&H2). unfold points, resolve, virt_to_phys, fr.
  unfold kernel_vma_start, KERNEL_PHYS, PAGE_SIZE, LARGE_PAGE_SIZE in *. split_and!; [lia|..].
  - intros i Hi. destruct (Z.leb_spec 0xFFFFFFFF80000000 (p + 8 * i)); [|lia].
    destruct (Z.ltb_spec (p + 8 * i) (0xFFFFFFFF80000000 + 0x200000)); [|lia]. simpl. f_equal. lia.
  - rewrite Z.geb_leb. destruct (Z.leb_spec 0xFFFFFFFF80000000 p); [|lia]. unfold wrap.
    rewrite Zminus_mod_idemp_l. rewrite Z.mod_small by lia. lia.
Qed.

(** ** vmm_init *)

Lemma for_store p f ent n : forall i s,
  points (k_vm s) p f -> 0 <= i -> i + Z.of_nat n <= 512 ->
  wp (for_loop i 1 n (fun j => store p j (ent j))) (fun _ s' =>
    k_mm s' = k_mm s /\ same_regs (k_vm s) (k_vm s') /\
    (forall j, i <= j < i + Z.of_nat n -> ram (k_vm s') (f + 8 * j) = ent j) /\
    (forall x, (forall j, i <= j < i + Z.of_nat n -> x <> f + 8 * j) -> ram (k_vm s') x = ram (k_vm s) x)) s.
Proof.
  induction n as [|n IH]; intros i s Hp Hi Hn; simpl.
  { wp_step. split_and!; try done. intros j Hj. lia. }
  wp_step. eapply wp_store; [done|lia|]. eapply wp_mono; [apply IH; [done|lia|lia]|].
  intros _ s' (H1&H2&H3&H4). split_and!; try done.
  - intros j Hj. destruct (decide (j = i)) as [->|]; [|apply H3; lia].
    rewrite H4 by (intros; lia). simpl. apply upd_word_eq.
  - intros x Hx. rewrite H4 by (intros j Hj; apply Hx; lia). simpl. unfold upd_word.
    destruct (Z.eqb_spec x (f + 8 * i)); [|done]. exfalso. by apply (Hx i); [lia|].
Qed.

Definition link_entry (f : Z) : Z := Z.lor (Z.lor f PT_PRESENT) PT_WRITABLE.
Definition low_entry (i : Z) : Z := Z.lor (Z.lor (Z.lor (i * 0x200000) PT_PRESENT) PT_WRITABLE) PT_PSE.
Definition kernel_entry : Z := Z.lor (Z.lor (Z.lor (Z.lor KERNEL_PHYS PT_PRESENT) PT_WRITABLE) PT_PSE) PT_GLOBAL.

(** The content of the static tables after [vmm_init], from zeroed ones. *)
Definition zeroed (r : Z -> Z) : Prop :=
  forall p i, p ∈ [kern_pml4; pdpt_low; pd_low; pdpt_kern; pd_kern] -> 0 <= i < 512 -> r (fr p + 8 * i) = 0.
Record boot_tables (r : Z -> Z) : Prop := {
  bt_pml4 : forall i, 0 <= i < 512 -> r (fr kern_pml4 + 8 * i) =
    if i =? 0 then link_entry (fr pdpt_low) else if i =? 511 then link_entry (fr pdpt_kern) else 0;
  bt_pdpt_low : forall i, 0 <= i < 512 -> r (fr pdpt_low + 8 * i) = if i =? 0 then link_entry (fr pd_low) else 0;
  bt_pd_low : forall i, 0 <= i < 512 -> r (fr pd_low + 8 * i) = low_entry i;
  bt_pdpt_kern : forall i, 0 <= i < 512 -> r (fr pdpt_kern + 8 * i) = if i =? 510 then link_entry (fr pd_kern) else 0;
  bt_pd_kern : forall i, 0 <= i < 512 -> r (fr pd_kern + 8 * i) = if i =? 0 then kernel_entry else 0;
}.

Lemma upd_word_ne a v r x : x <> a -> upd_word a v r x = r x.
Proof. intros Hx. unfold upd_word. by destruct (Z.eqb_spec x a). Qed.
(** A write to another word. *)
Ltac upd_skip := rewrite upd_word_ne by (unfold PAGE_SIZE; lia).

(** The stores of [vmm_init], in order. *)
Lemma boot_tables_intro r r1 :
  zeroed r ->
  (forall j, 0 <= j < 0 + 512 -> r1 (fr pd_low + 8 * j) = low_entry j) ->
  (forall x, (forall j, 0 <= j < 0 + 512 -> x <> fr pd_low + 8 * j) -> r1 x =
     upd_word (fr pdpt_low + 8 * 0) (link_entry (fr pd_low))
       (upd_word (fr kern_pml4 + 8 * 0) (link_entry (fr pdpt_low)) r) x) ->
  boot_tables (upd_word (fr pd_kern + 8 * 0) kernel_entry
    (upd_word (fr pdpt_kern + 8 * 510) (link_entry (fr pd_kern))
      (upd_word (fr kern_pml4 + 8 * 511) (link_entry (fr pdpt_kern)) r1))).
Proof.
  intros Hz Hin Hout. destruct layout_frames as (a&b&c&d&e&Ea&Eb&Ec&Ed&Ee&Hne&Hra).
  assert (forall q i, q <> c -> 0 <= i < 512 -> r1 (PAGE_SIZE * q + 8 * i) =
    upd_word (fr pdpt_low + 8 * 0) (link_entry (fr pd_low))
      (upd_word (fr kern_pml4 + 8 * 0) (link_entry (fr pdpt_low)) r) (PAGE_SIZE * q + 8 * i)) as Hr1.
  { intros q i Hq Hi. apply Hout. intros j Hj. rewrite Ec. plia. }
  assert (forall p q i, p ∈ [kern_pml4; pdpt_low; pd_low; pdpt_kern; pd_kern] -> fr p = PAGE_SIZE * q ->
    0 <= i < 512 -> r (PAGE_SIZE * q + 8 * i) = 0) as Hz'.
  { intros p q i Hp <- Hi. by apply Hz. }
  assert (forall i, 0 <= i < 512 -> r1 (PAGE_SIZE * c + 8 * i) = low_entry i) as Hlow.
  { intros i Hi. rewrite <- Ec. apply Hin. lia. }
  clear Hz Hin Hout. pose proof (Hz' kern_pml4 a) as Za. pose proof (Hz' pdpt_low b) as Zb.
  pose proof (Hz' pdpt_kern d) as Zd. pose proof (Hz' pd_kern e) as Ze. clear Hz'.
  set (l1 := link_entry (fr pdpt_low)) in *. set (l2 := link_entry (fr pd_low)) in *.
  set (l3 := link_entry (fr pdpt_kern)). set (l4 := link_entry (fr pd_kern)).
  rewrite Ea, Eb in Hr1. rewrite Ea, Ed, Ee.
  split; intros i Hi; fold l1 l2 l3 l4; rewrite ?Ea, ?Eb, ?Ec, ?Ed, ?Ee.
  - destruct (Z.eqb_spec i 0) as [->|]; [|destruct (Z.eqb_spec i 511) as [->|]].
    + do 3 upd_skip. rewrite Hr1 by lia. upd_skip. apply upd_word_eq.
    + do 2 upd_skip. apply upd_word_eq.
    + do 3 upd_skip. rewrite Hr1 by lia. do 2 upd_skip. by apply Za; [set_solver| |].
  - do 3 upd_skip. rewrite Hr1 by lia. destruct (Z.eqb_spec i 0) as [->|]; [apply upd_word_eq|].
    do 2 upd_skip. by apply Zb; [set_solver| |].
  - do 3 upd_skip. by apply Hlow.
  - upd_skip. destruct (Z.eqb_spec i 510) as [->|]; [apply upd_word_eq|].
    do 2 upd_skip. rewrite Hr1 by lia. do 2 upd_skip. by apply Zd; [set_solver| |].
  - destruct (Z.eqb_spec i 0) as [->|]; [apply upd_word_eq|].
    do 3 upd_skip. rewrite Hr1 by lia. do 2 upd_skip. by apply Ze; [set_solver| |].
Qed.

Lemma vmm_init_wp s :
  zeroed (ram (k_vm s)) ->
  wp vmm_init (fun _ s' => k_mm s' = k_mm s /\ vm_state (k_vm s') = VMM_IDENTITY /\
    low_map_end (k_vm s') = 0x40000000 /\ cr3 (k_vm s') = fr kern_pml4 /\
    cr4 (k_vm s') = Z.lor (cr4 (k_vm s)) 0x80 /\ efer (k_vm s') = Z.lor (efer (k_vm s)) 0x800 /\
    boot_tables (ram (k_vm s'))) s.
Proof.
  intros Hz. destruct layout_frames as (a&b&c&d&e&Ea&Eb&Ec&Ed&Ee&Hne&Hra).
  pose proof (fun s => proj1 (layout_pointers s kern_pml4 ltac:(set_solver))) as Pa.
  pose proof (fun s => proj1 (layout_pointers s pdpt_low ltac:(set_solver))) as Pb.
  pose proof (fun s => proj1 (layout_pointers s pd_low ltac:(set_solver))) as Pc.
  pose proof (fun s => proj1 (layout_pointers s pdpt_kern ltac:(set_solver))) as Pd.
  pose proof (fun s => proj1 (layout_pointers s pd_kern ltac:(set_solver))) as Pe.
  unfold vmm_init, enable_nxe, enable_pge, map_low_identity, map_kernel, vmod.
  rewrite (proj2 (layout_pointers (k_vm s) kern_pml4 ltac:(set_solver))),
    (proj2 (layout_pointers (k_vm s) pdpt_low ltac:(set_solver))),
    (proj2 (layout_pointers (k_vm s) pd_low ltac:(set_solver))),
    (proj2 (layout_pointers (k_vm s) pdpt_kern ltac:(set_solver))),
    (proj2 (layout_pointers (k_vm s) pd_kern ltac:(set_solver))).
  change (Z.land (Z.shiftr kernel_vma_start 39) 0x1FF) with 511.
  change (Z.land (Z.shiftr kernel_vma_start 30) 0x1FF) with 510.
  change (Z.land (Z.shiftr kernel_vma_start 21) 0x1FF) with 0. cbv zeta.
  do 6 wp_step. eapply wp_store; [apply Pa|lia|]. wp_step. eapply wp_store; [apply Pb|lia|].
  wp_step. eapply wp_mono; [apply (for_store pd_low (fr pd_low) low_entry 512); [apply Pc|lia|lia]|].
  intros _ s1 (Em&(Es&El&E3&E4&Ef)&Hin&Hout). do 5 wp_step.
  eapply wp_store; [apply Pa|lia|]. wp_step. eapply wp_store; [apply Pd|lia|].
  eapply wp_store; [apply Pe|lia|]. unfold set_cr3, vmod. do 5 wp_step. cbn.
  split_and!; [done|done|done|done|by rewrite E4|by rewrite Ef|].
  by eapply boot_tables_intro.
Qed.

(** ** The translations of the boot tables *)

Lemma link_entry_spec f : (PAGE_SIZE | f) -> 0 <= f < 2 ^ 47 ->
  has (link_entry f) PT_PRESENT = true /\ has (link_entry f) PT_PSE = false /\
  clear_bits (link_entry f) FLAGS_MASK = f /\ hw_frame (link_entry f) = f.
Proof.
  intros Hd Hf. unfold link_entry. rewrite <- !Z.lor_assoc, !(has_lor f).
  rewrite !(has_aligned 12 f) by (done || unfold PT_PRESENT, PT_PSE; lia).
  assert (clear_bits (Z.lor f (Z.lor PT_PRESENT PT_WRITABLE)) FLAGS_MASK = f) as E by (apply clear_entry; [lia|done|done]).
  split_and!; [done|done|done|]. apply clear_frame; [done|lia|done].
Qed.

Lemma layout_reach p st : p ∈ [kern_pml4; pdpt_low; pd_low; pdpt_kern; pd_kern] -> reach st (fr p).
Proof.
  intros Hp. destruct (layout_page p Hp) as (a&->&Ha). split; [by exists a; lia|].
  unfold kernel_vma_start, HHDM_BASE, PAGE_SIZE. destruct (st <? VMM_TRANSITION); lia.
Qed.

Lemma low_leaf i x : 0 <= i < 512 -> i * 0x200000 <= x < i * 0x200000 + 0x200000 ->
  maps_to 0 0 (Z.lor PT_PRESENT PT_WRITABLE) x (Some (low_entry i, 2%nat)).
Proof.
  intros Hi Hx. unfold low_entry. rewrite <- !Z.lor_assoc.
  pose proof (leaf_maps_to 2 (i * 0x200000) (Z.lor PT_PRESENT (Z.lor PT_WRITABLE PT_PSE))
    (Z.lor PT_PRESENT PT_WRITABLE) 0 0 (i * 0x200000) x) as Hm.
  change (2 ^ page_bits 2) with 0x200000 in Hm.
  assert (has (Z.lor (i * 0x200000) (Z.lor PT_PRESENT (Z.lor PT_WRITABLE PT_PSE))) PT_PRESENT = true) as Hpr
    by (rewrite has_lor; apply orb_true_iff; by right).
  rewrite Hpr in Hm. apply Hm; try done; try lia; by exists i.
Qed.

Lemma tidx_low l v : (0 < l <= 4)%nat -> tidx l v = tidx l (v mod 2 ^ 48).
Proof. intros Hl. apply same_page_idx; [done|]. unfold same_page. by rewrite Z.mod_mod by lia. Qed.

(** The indices that lead to the two mapped ranges. *)
Lemma low_index x : 0 <= x < 2 ^ 48 ->
  (tidx 4 x = 0 /\ tidx 3 x = 0 <-> x < 2 ^ 30) /\ (x < 2 ^ 30 -> tidx 2 x = x / 2 ^ 21).
Proof.
  intros Hx. rewrite !tidx_div. change (page_bits 4) with 39. change (page_bits 3) with 30.
  change (page_bits 2) with 21. split; [split|]; Z.to_euclidean_division_equations; lia.
Qed.

Lemma kernel_index x : 0 <= x < 2 ^ 48 ->
  tidx 4 x = 511 /\ tidx 3 x = 510 /\ tidx 2 x = 0 <-> 0xFFFF80000000 <= x < 0xFFFF80000000 + 2 ^ 21.
Proof.
  intros Hx. rewrite !tidx_div. change (page_bits 4) with 39. change (page_bits 3) with 30.
  change (page_bits 2) with 21. split; Z.to_euclidean_division_equations; lia.
Qed.

Lemma boot_walk r v : boot_tables r -> let x := v mod 2 ^ 48 in
  walk r 4 (fr kern_pml4) v =
  if decide (x < 2 ^ 30) then Some (low_entry (x / 2 ^ 21), 2%nat)
  else if decide (0xFFFF80000000 <= x < 0xFFFF80000000 + 2 ^ 21) then Some (kernel_entry, 2%nat) else None.
Proof.
  intros Hb x. assert (0 <= x < 2 ^ 48) as Hx by (by apply Z.mod_pos_bound).
  destruct (low_index x Hx) as [Hlow Hlow2]. pose proof (kernel_index x Hx) as Hker.
  assert (forall p, p ∈ [kern_pml4; pdpt_low; pd_low; pdpt_kern; pd_kern] ->
    has (link_entry (fr p)) PT_PRESENT = true /\ has (link_entry (fr p)) PT_PSE = false /\
    hw_frame (link_entry (fr p)) = fr p) as Hlink.
  { intros p Hp. pose proof (layout_reach p 0 Hp) as Hr. pose proof (reach_bound _ _ Hr).
    destruct (link_entry_spec (fr p)) as (?&?&_&?); [apply Hr|done|done]. }
  cbn [walk]. rewrite !(tidx_low _ v) by lia. fold x.
  pose proof (tidx_range 4 x). pose proof (tidx_range 3 x). pose proof (tidx_range 2 x).
  rewrite (bt_pml4 _ Hb) by done. destruct (Z.eqb_spec (tidx 4 x) 0) as [E4|N4].
  - destruct (Hlink pdpt_low) as (->&->&->); [set_solver|]. cbn [negb orb andb Nat.eqb].
    rewrite (bt_pdpt_low _ Hb) by done. destruct (Z.eqb_spec (tidx 3 x) 0) as [E3|N3].
    + destruct (Hlink pd_low) as (->&->&->); [set_solver|]. cbn [negb orb andb Nat.eqb].
      rewrite (bt_pd_low _ Hb) by done. rewrite decide_True by (by apply Hlow). rewrite Hlow2 by (by apply Hlow).
      unfold low_entry. by rewrite !has_lor, !orb_true_r.
    + rewrite !decide_False by lia. done.
  - destruct (Z.eqb_spec (tidx 4 x) 511) as [E4|N4']; [|rewrite !decide_False by lia; done].
    destruct (Hlink pdpt_kern) as (->&->&->); [set_solver|]. cbn [negb orb andb Nat.eqb].
    rewrite (bt_pdpt_kern _ Hb) by done. destruct (Z.eqb_spec (tidx 3 x) 510) as [E3|N3];
      [|rewrite !decide_False by lia; done].
    destruct (Hlink pd_kern) as (->&->&->); [set_solver|]. cbn [negb orb andb Nat.eqb].
    rewrite (bt_pd_kern _ Hb) by done. destruct (Z.eqb_spec (tidx 2 x) 0) as [E2|N2].
    + rewrite decide_False by lia. rewrite decide_True by lia. done.
    + rewrite !decide_False by lia. done.
Qed.

(** Levels and prefixes of the static tables. *)
Definition own_boot : owners :=
  <[fr kern_pml4 := (4%nat, 0)]> (<[fr pdpt_low := (3%nat, 0)]> (<[fr pd_low := (2%nat, 0)]>
    (<[fr pdpt_kern := (3%nat, 511)]> {[fr pd_kern := (2%nat, 511 * 512 + 510)]}))).

Lemma own_boot_cases f x : own_boot !! f = Some x <->
  (f = fr kern_pml4 /\ x = (4%nat, 0)) \/ (f = fr pdpt_low /\ x = (3%nat, 0)) \/
  (f = fr pd_low /\ x = (2%nat, 0)) \/ (f = fr pdpt_kern /\ x = (3%nat, 511)) \/
  (f = fr pd_kern /\ x = (2%nat, 511 * 512 + 510)).
Proof.
  destruct layout_frames as (a&b&c&d&e&Ea&Eb&Ec&Ed&Ee&(?&?&?&?&?&?&?&?&?&?)&_).
  unfold own_boot. rewrite Ea, Eb, Ec, Ed, Ee. unfold PAGE_SIZE.
  rewrite !lookup_insert_Some, lookup_singleton_Some. split.
  - intuition (subst; auto 10).
  - intros [[-> ->]|[[-> ->]|[[-> ->]|[[-> ->]|[-> ->]]]]]; [left; done|right..].
    + split; [lia|]. left. done.
    + split; [lia|]. right. split; [lia|]. left. done.
    + split; [lia|]. right. split; [lia|]. right. split; [lia|]. left. done.
    + split; [lia|]. right. split; [lia|]. right. split; [lia|]. right. split; [lia|]. done.
Qed.

Lemma own_boot_reach st f x : own_boot !! f = Some x -> reach st f.
Proof.
  intros [[-> ->]|[[-> ->]|[[-> ->]|[[-> ->]|[-> ->]]]]]%own_boot_cases; apply layout_reach; set_solver.
Qed.

Lemma boot_tables_ok r : boot_tables r -> tables own_boot r.
Proof.
  intros Hb.
  assert (forall p, p ∈ [kern_pml4; pdpt_low; pd_low; pdpt_kern; pd_kern] ->
    has (link_entry (fr p)) PT_PSE = false /\ clear_bits (link_entry (fr p)) FLAGS_MASK = fr p) as Hlink.
  { intros p Hp. pose proof (layout_reach p 0 Hp) as Hr. pose proof (reach_bound _ _ Hr).
    destruct (link_entry_spec (fr p)) as (?&?&?&?); [apply Hr|done|done]. }
  split.
  - intros f l pre Hf. pose proof (own_boot_reach 0 _ _ Hf) as Hr. pose proof (reach_bound _ _ Hr).
    split_and!; [apply Hr|lia|lia|..];
      apply own_boot_cases in Hf as [[_ [= -> _]]|[[_ [= -> _]]|[[_ [= -> _]]|[[_ [= -> _]]|[_ [= -> _]]]]]]; lia.
  - intros f l pre i Hf Hl Hi.
    apply own_boot_cases in Hf as [[-> [= -> ->]]|[[-> [= -> ->]]|[[-> [= -> ->]]|[[-> [= -> ->]]|[-> [= -> ->]]]]]].
    + rewrite (bt_pml4 _ Hb) by done. destruct (Z.eqb_spec i 0) as [->|]; [|destruct (Z.eqb_spec i 511) as [->|]; [|done]].
      * intros _. right. destruct (Hlink pdpt_low) as [-> ->]; [set_solver|]. split; [done|]. apply own_boot_cases. tauto.
      * intros _. right. destruct (Hlink pdpt_kern) as [-> ->]; [set_solver|]. split; [done|]. apply own_boot_cases. tauto.
    + rewrite (bt_pdpt_low _ Hb) by done. destruct (Z.eqb_spec i 0) as [->|]; [|done]. intros _. right.
      destruct (Hlink pd_low) as [-> ->]; [set_solver|]. split; [done|]. apply own_boot_cases. tauto.
    + rewrite (bt_pd_low _ Hb) by done. intros _. left. split; [|lia]. unfold low_entry.
      rewrite has_lor. apply orb_true_iff. by right.
    + rewrite (bt_pdpt_kern _ Hb) by done. destruct (Z.eqb_spec i 510) as [->|]; [|done]. intros _. right.
      destruct (Hlink pd_kern) as [-> ->]; [set_solver|]. split; [done|]. apply own_boot_cases. tauto.
    + rewrite (bt_pd_kern _ Hb) by done. destruct (Z.eqb_spec i 0) as [->|]; [|done]. intros _. left. split; [done|lia].
Qed.

Lemma kernel_leaf x : 0xFFFF80000000 <= x < 0xFFFF80000000 + 2 ^ 21 ->
  maps_to KERNEL_PHYS 0xFFFF80000000 (Z.lor (Z.lor PT_PRESENT PT_WRITABLE) PT_GLOBAL) x (Some (kernel_entry, 2%nat)).
Proof.
  intros Hx. unfold maps_to. cbn [has]. change (has _ _) with true. cbv iota. exists kernel_entry, 2%nat.
  split; [done|]. split; [|done]. change (clear_bits _ _) with KERNEL_PHYS. change (2 ^ page_bits 2) with 0x200000.
  replace (x mod 0x200000) with (x - 0xFFFF80000000); [lia|].
  apply (Z.mod_unique_pos x _ 0x7FFFC00); lia.
Qed.

(** Flag bits of an entry, from the flags it was made with. *)
Lemma entry_flag e fl m :
  clear_bits (Z.land e FLAGS_MASK) PT_PSE = clear_bits fl PT_PSE ->
  Z.land FLAGS_MASK (Z.land (Z.lnot PT_PSE) m) = m -> Z.land (Z.lnot PT_PSE) m = m -> has e m = has fl m.
Proof.
  intros E Em Em'. unfold has. rewrite !clear_bits_land in E. rewrite <- Em at 1. rewrite Z.land_assoc, Z.land_assoc, E.
  by rewrite <- Z.land_assoc, Em'.
Qed.

(** C22: From zeroed static tables, [vmm_init] loads the kernel PML4 and leaves
    page tables in which the first GiB is identity-mapped and writable, the
    2 MiB window of the kernel image is mapped to its load address, and nothing
    else is translated; the no-execute and global-page features are enabled, the
    state is the one in which tables come from the boot pool, and the table
    invariant of the mapping operations holds. *)
Theorem vmm_init_correct s :
  zeroed (ram (k_vm s)) ->
  exists s' tr, vmm_init s = Ok tt s' tr /\
    k_mm s' = k_mm s /\ vm_state (k_vm s') = VMM_IDENTITY /\ low_map_end (k_vm s') = 2 ^ 30 /\
    cr3 (k_vm s') = virt_to_phys kern_pml4 /\ Z.testbit (cr4 (k_vm s')) 7 = true /\
    Z.testbit (efer (k_vm s')) 11 = true /\ vm_inv own_boot (k_vm s') /\
    own_boot !! cr3 (k_vm s') = Some (4%nat, 0) /\
    (forall v, 0 <= v < 2 ^ 30 -> exists e, translate (ram (k_vm s')) (cr3 (k_vm s')) v = Some (v, e) /\
       has e PT_WRITABLE = true) /\
    (forall d, 0 <= d < 2 ^ 21 -> exists e,
       translate (ram (k_vm s')) (cr3 (k_vm s')) (kernel_vma_start + d) = Some (KERNEL_PHYS + d, e) /\
       has e PT_GLOBAL = true) /\
    (forall v, 2 ^ 30 <= v mod 2 ^ 48 ->
       ~ (kernel_vma_start mod 2 ^ 48 <= v mod 2 ^ 48 < kernel_vma_start mod 2 ^ 48 + 2 ^ 21) ->
       translate (ram (k_vm s')) (cr3 (k_vm s')) v = None).
Proof.
  intros Hz. destruct (wp_elim _ _ _ (vmm_init_wp s Hz)) as ([]&s'&tr&E&Hmm&Hst&Hlow&Hc3&Hc4&Hef&Hb).
  exists s', tr. rewrite (proj2 (layout_pointers (k_vm s) kern_pml4 ltac:(set_solver))), Hc3, Hc4, Hef.
  rewrite !Z.lor_spec. split_and!; try done; try apply orb_true_r.
  - split; [by apply boot_tables_ok|by apply own_boot_reach|by rewrite Hst].
  - apply own_boot_cases. by left.
  - intros v Hv. pose proof (boot_walk _ v Hb) as Hw. cbv zeta in Hw.
    rewrite (Z.mod_small v), decide_True in Hw by lia.
    destruct (maps_to_translate 0 0 (Z.lor PT_PRESENT PT_WRITABLE) (ram (k_vm s')) (fr kern_pml4) v) as (e&Et&He).
    + rewrite Hw, (Z.mod_small v) by lia. apply low_leaf; Z.to_euclidean_division_equations; lia.
    + done.
    + exists e. rewrite Et, (Z.mod_small v) by lia. split; [repeat f_equal; lia|]. by rewrite (entry_flag _ _ _ He).
  - intros d Hd. destruct (low48_add kernel_vma_start d ltac:(done) ltac:(lia)) as [_ Em].
    { change (kernel_vma_start mod 2 ^ 48) with 0xFFFF80000000. lia. }
    change (kernel_vma_start mod 2 ^ 48) with 0xFFFF80000000 in Em.
    pose proof (boot_walk _ (kernel_vma_start + d) Hb) as Hw. cbv zeta in Hw.
    rewrite Em, decide_False, decide_True in Hw by lia.
    destruct (maps_to_translate KERNEL_PHYS 0xFFFF80000000 (Z.lor (Z.lor PT_PRESENT PT_WRITABLE) PT_GLOBAL)
      (ram (k_vm s')) (fr kern_pml4) (kernel_vma_start + d)) as (e&Et&He).
    + rewrite Hw, Em. apply kernel_leaf. lia.
    + done.
    + exists e. rewrite Et, Em. split; [repeat f_equal; lia|]. by rewrite (entry_flag _ _ _ He).
  - intros v Hv Hn. unfold translate. rewrite boot_walk by done. cbv zeta.
    change (kernel_vma_start mod 2 ^ 48) with 0xFFFF80000000 in Hn. rewrite !decide_False by (done || lia). done.
Qed.
End boot.

#[export] Instance ex_layout_ok : LayoutOk (H := ex_layout).
Proof.
  split.
  - simpl. repeat constructor; simpl; try done; unfold kernel_vma_start;
      match goal with |- (_ | ?x) => exists (x / 4096); done end.
  - apply (bool_decide_unpack _). vm_compute. done.
Qed.

Definition ex_power_on : kernel :=
  mk_kernel (mk_mm bootmem_reset (mk_mem ∅ 0 ∅ 0)) (mk_vmm VMM_EARLY 0 (fun _ => 0) 0 0 0).

Lemma vmm_init_correct_witness :
  exists s' tr, vmm_init (H := ex_layout) ex_power_on = Ok tt s' tr /\ vm_inv (own_boot (H := ex_layout)) (k_vm s').
Proof.
  destruct (vmm_init_correct (H := ex_layout) ex_power_on) as (s'&tr&E&_&_&_&_&_&_&Hi&_); [done|].
  exists s', tr. split; [exact E|exact Hi].
Defined.
