(* ===== verification/VmmQuery.v ===== *)
(** * Searching a range for translations

    [vmm_virt_range_has_mapping] skips whole unmapped subtrees; it terminates and
    agrees with the page walk on every address of the range. *)

From S2P Require Import Prelude Kmath E820 E820Facts Bootmem BootmemFacts Mem Buddy Vmm VmmFacts VmmMap.
From Stdlib Require Import ZArith Lia Znumtheory Bool.
From stdpp Require Import base gmap list strings.

Open Scope Z_scope.

(** Addresses with the same quotient lie in the same page. *)
Lemma same_page_div l v x : (l <= 4)%nat -> v / 2 ^ page_bits l = x / 2 ^ page_bits l -> same_page l v x.
Proof.
  intros Hl E. unfold same_page. pose proof (page_bits_pos l) as Hb.
  set (c := 2 ^ (48 - page_bits l)).
  assert (0 < c) by (apply Z.pow_pos_nonneg; unfold page_bits; lia).
  assert (2 ^ 48 = 2 ^ page_bits l * c) as ->.
  { unfold c. rewrite <- Z.pow_add_r by (unfold page_bits; lia). f_equal. lia. }
  assert (forall y, (y mod (2 ^ page_bits l * c)) / 2 ^ page_bits l = (y / 2 ^ page_bits l) mod c) as Hy.
  { intros y. rewrite Z.rem_mul_r by lia. rewrite (Z.mul_comm (2 ^ page_bits l)), Z.div_add by lia.
    rewrite Z.div_small by (by apply Z.mod_pos_bound). lia. }
  by rewrite !Hy, E.
Qed.

Section query.
Context (own : owners) (s : kernel) (root rp : Z).
Context (Hvm : vm_inv own (k_vm s)) (Hroot : own !! root = Some (4%nat, 0)) (Hrp : points (k_vm s) rp root).
Let r := ram (k_vm s).

(** [p] points to the table of level [l] on the path of [v]. *)
Definition here (v : Z) (l : nat) (p : Z) : Prop :=
  exists f, points (k_vm s) p f /\ own !! f = Some (l, vpre l v) /\ path r v 4 root l f.

(** Reading the entry of [v] in a table of its path: it ends the walk of the
    whole page without a translation, or with one, or leads one level down. *)
Lemma peek v l p (Q : Z -> kernel -> Prop) :
  here v (S l) p ->
  (forall e, has e PT_PRESENT = false -> (forall x, same_page (S l) v x -> walk r 4 root x = None) -> Q e s) ->
  (forall e, has e PT_PRESENT = true -> walk r 4 root v <> None -> l = 0%nat \/ has e PT_PSE = true /\ (S l < 4)%nat -> Q e s) ->
  (forall e, has e PT_PRESENT = true -> has e PT_PSE = false ->
     here v l (phys_to_virt (k_vm s) (clear_bits e FLAGS_MASK)) -> Q e s) ->
  wp (load p (tidx (S l) v)) Q s.
Proof.
  intros (f&Hp&Hf&Hpath) Q1 Q2 Q3. destruct Hvm as [HT HR _]. fold r in HT.
  eapply wp_load; [exact Hp|apply tidx_range|]. fold r.
  pose proof (walk_step own r l f v HT Hf) as Hw. cbv zeta in Hw.
  destruct Hw as [[Hnp _]|[(Hpr&Hc&Hw)|(Hpr&Hs&Hc&Hw)]].
  - apply Q1; [done|]. intros x Hx. by eapply (walk_leaf_before own r root f (S l) v).
  - apply Q2; [done| |].
    + rewrite (path_walk _ _ _ _ _ _ Hpath) by lia. by rewrite Hw.
    + apply orb_true_iff in Hc as [Hc|Hc].
      * apply Nat.eqb_eq in Hc. left. lia.
      * apply andb_prop in Hc as [? Hlt]. apply Nat.ltb_lt in Hlt. by right.
  - destruct (tb_frame _ _ HT _ _ _ Hc) as (Hd&Hr&Hl).
    destruct (tb_frame _ _ HT _ _ _ Hf) as (_&_&Hl4).
    destruct (tb_child _ _ HT f _ _ (tidx (S l) v) Hf ltac:(lia) (tidx_range _ _) Hpr) as [[? _]|[_ Hcl]]; [congruence|].
    destruct (tb_frame _ _ HT _ _ _ Hcl) as (Hd'&Hr'&_).
    assert (hw_frame (r (f + 8 * tidx (S l) v)) = clear_bits (r (f + 8 * tidx (S l) v)) FLAGS_MASK) as Eh
      by (apply clear_frame; [done|lia|done]).
    apply Q3; [done|done|]. exists (clear_bits (r (f + 8 * tidx (S l) v)) FLAGS_MASK).
    rewrite Eh in Hc. split_and!; [apply reach_points; by eapply HR|done|].
    rewrite <- Eh. by apply path_snoc.
Qed.

(** Where the search continues behind an unmapped page of level [l]. *)
Definition next_addr (l : nat) (v : Z) : Z :=
  if Nat.eqb l 1 then u64 (v + PAGE_SIZE) else u64 (ROUND_DOWN v (2 ^ page_bits l) + 2 ^ page_bits l).

Lemma skip_unmapped_spec v :
  wp (skip_unmapped rp v) (fun o s' => s' = s /\
    match o with
    | None => walk r 4 root v <> None
    | Some v' => exists l, (1 <= l <= 4)%nat /\ v' = next_addr l v /\
                   forall x, same_page l v x -> walk r 4 root x = None
    end) s.
Proof.
  assert (here v 4 rp) as H4 by (exists root; rewrite vpre_root; split_and!; [done|done|constructor]).
  unfold skip_unmapped. do 3 wp_step. apply (peek v 3 rp); [exact H4|..].
  { intros e -> Hn. simpl. wp_step. split; [done|]. exists 4%nat. split_and!; [lia|lia|done|exact Hn]. }
  { intros e _ _ [?|[_ ?]]; lia. }
  intros e -> _ H3. cbn [negb]. cbv zeta. wp_step. apply (peek v 2); [exact H3|..].
  { intros e3 -> Hn. simpl. wp_step. split; [done|]. exists 3%nat. split_and!; [lia|lia|done|exact Hn]. }
  { intros e3 -> Hw [?|[-> _]]; [lia|]. simpl. wp_step. done. }
  intros e3 -> -> H2. cbn [negb]. cbv zeta. wp_step. apply (peek v 1); [exact H2|..].
  { intros e2 -> Hn. simpl. wp_step. split; [done|]. exists 2%nat. split_and!; [lia|lia|done|exact Hn]. }
  { intros e2 -> Hw [?|[-> _]]; [lia|]. simpl. wp_step. done. }
  intros e2 -> -> H1. cbn [negb]. cbv zeta. wp_step. apply (peek v 0); [exact H1|..].
  { intros e1 -> Hn. simpl. wp_step. split; [done|]. exists 1%nat. split_and!; [lia|lia|done|exact Hn]. }
  { intros e1 -> Hw _. simpl. wp_step. done. }
  intros e1 _ _ (f&_&Hf&_). destruct Hvm as [HT _ _]. destruct (tb_frame _ _ HT _ _ _ Hf) as (_&_&?). lia.
Qed.

(** The next address is behind the page and again page aligned. *)
Lemma next_addr_spec l v :
  (1 <= l <= 4)%nat -> (PAGE_SIZE | v) -> 0 <= v -> v + 2 ^ 39 < 2 ^ 64 ->
  (PAGE_SIZE | next_addr l v) /\ v + PAGE_SIZE <= next_addr l v /\
  forall x, v <= x < next_addr l v -> same_page l v x.
Proof.
  intros Hl Hd Hv Hb. unfold next_addr.
  assert (2 ^ page_bits l <= 2 ^ 39) as Hp by (apply Z.pow_le_mono_r; unfold page_bits; lia).
  assert (PAGE_SIZE | 2 ^ page_bits l) as Hpd.
  { exists (2 ^ (page_bits l - 12)). unfold PAGE_SIZE. change 4096 with (2 ^ 12).
    rewrite <- Z.pow_add_r by (unfold page_bits; lia). f_equal. lia. }
  pose proof (page_bits_pos l) as Hpos. assert (PAGE_SIZE <= 2 ^ page_bits l) as Hle by (by apply Z.divide_pos_le).
  destruct (Nat.eqb_spec l 1) as [->|Hne].
  - rewrite u64_small by plia. split_and!; [by apply Z.divide_add_r; [|apply Z.divide_refl]|lia|].
    intros x Hx. apply same_page_div; [lia|]. change (2 ^ page_bits 1) with PAGE_SIZE. destruct Hd as [q ->].
    rewrite Z.div_mul by plia. apply (Z.div_unique_pos x _ q (x - q * PAGE_SIZE)); plia.
  - pose proof (round_down_bounds v (2 ^ page_bits l) Hpos ltac:(lia)) as Hr.
    pose proof (round_down_divide v (2 ^ page_bits l) Hpos ltac:(lia)) as Hrd.
    assert (0 <= ROUND_DOWN v (2 ^ page_bits l)) by apply u64_range.
    set (y := ROUND_DOWN v (2 ^ page_bits l)) in *. rewrite u64_small by lia.
    assert (PAGE_SIZE | y + 2 ^ page_bits l) as Hd2 by (apply Z.divide_add_r; [by etrans|done]).
    split_and!; [done| |].
    + assert (PAGE_SIZE | y + 2 ^ page_bits l - v) as Hd3 by (by apply Z.divide_sub_r).
      assert (PAGE_SIZE <= y + 2 ^ page_bits l - v) by (apply Z.divide_pos_le; [lia|done]). lia.
    + intros x Hx. apply same_page_div; [lia|]. destruct Hrd as [q Hq].
      rewrite <- (Z.div_unique_pos v _ q (v - y)) by lia. apply (Z.div_unique_pos x _ q (x - y)); lia.
Qed.

Lemma has_mapping_loop_spec fuel : forall v e,
  (PAGE_SIZE | v) -> 0 <= v -> e + 2 ^ 39 < 2 ^ 64 -> e - v <= Z.of_nat fuel * PAGE_SIZE ->
  wp (has_mapping_loop rp v e fuel) (fun b s' => s' = s /\
    ((b = 0 /\ forall x, v <= x < e -> walk r 4 root x = None) \/
     (b = 1 /\ exists x, v <= x < e /\ walk r 4 root x <> None))) s.
Proof.
  induction fuel as [|fuel IH]; intros v e Hd Hv Hb Hf; cbn [has_mapping_loop].
  all: destruct (Z.ltb_spec v e); [|wp_step; split; [done|]; left; split; [done|]; intros; lia].
  { unfold PAGE_SIZE in *. lia. }
  wp_step. eapply wp_mono; [apply skip_unmapped_spec|]. intros [v'|] s' [-> Ho].
  - destruct Ho as (l&Hl&->&Hnone). destruct (next_addr_spec l v Hl Hd Hv ltac:(lia)) as (Hd'&Hnx&Hsp).
    eapply wp_mono; [apply (IH (next_addr l v) e); [done|plia|done|plia]|].
    intros b s' [-> [[-> Hall]|(->&x&Hx&Hw)]]; (split; [done|]).
    + left. split; [done|]. intros x Hx. destruct (decide (x < next_addr l v)).
      * apply Hnone, Hsp. lia.
      * apply Hall. lia.
    + right. split; [done|]. exists x. split; [plia|done].
  - wp_step. split; [done|]. right. split; [done|]. exists v. split; [lia|done].
Qed.
End query.

Lemma has_mapping_wp `{KernelLayout} own s root pml4 virt size :
  vm_inv own (k_vm s) -> own !! root = Some (4%nat, 0) -> points (k_vm s) (pml4_of pml4) root ->
  (0x1000 | pml4_of pml4) -> (PAGE_SIZE | virt) -> 0 <= virt -> 0 <= size -> virt + size + 2 ^ 39 < 2 ^ 64 ->
  wp (vmm_virt_range_has_mapping pml4 virt size) (fun b s' => s' = s /\ (b = 0 \/ b = 1) /\
    (b = 0 <-> forall x, virt <= x < virt + size -> translate (ram (k_vm s)) root x = None)) s.
Proof.
  intros Hvm Hroot Hrp Hal Hd Hv Hs Hb.
  unfold vmm_virt_range_has_mapping. fold (pml4_of pml4).
    destruct (Z.eqb_spec (pml4_of pml4) 0); [by destruct Hrp|].
    rewrite (proj2 (Z.mod_divide (pml4_of pml4) 0x1000 ltac:(lia)) Hal). simpl.
    rewrite (u64_small (virt + size)) by lia.
    eapply wp_mono; [apply (has_mapping_loop_spec own s root (pml4_of pml4) Hvm Hroot Hrp); [done|lia|lia|]|].
    { pose proof (Z.div_mod size PAGE_SIZE ltac:(plia)). pose proof (Z.mod_pos_bound size PAGE_SIZE ltac:(plia)).
      assert (0 <= size / PAGE_SIZE) by (apply Z.div_pos; plia). unfold PAGE_SIZE in *. lia. }
    intros b s' [-> [[-> Hall]|(->&x&Hx&Hw)]]; (split; [done|]).
    - split; [by left|]. split; [|done]. intros _ x Hx. unfold translate. by rewrite Hall.
    - split; [by right|]. split; [done|]. intros Hall. specialize (Hall x Hx). unfold translate in Hall.
      apply fmap_None in Hall. done.
Qed.

(** C32: Over well-formed page tables, [vmm_virt_range_has_mapping] terminates
    without touching anything, and for a page-aligned start address it returns 0
    exactly when no address of the range has a translation, and 1 otherwise. *)
Theorem vmm_virt_range_has_mapping_correct `{KernelLayout} own s root pml4 virt size :
  vm_inv own (k_vm s) -> own !! root = Some (4%nat, 0) -> points (k_vm s) (pml4_of pml4) root ->
  (0x1000 | pml4_of pml4) -> (PAGE_SIZE | virt) -> 0 <= virt -> 0 <= size -> virt + size + 2 ^ 39 < 2 ^ 64 ->
  exists b tr, vmm_virt_range_has_mapping pml4 virt size s = Ok b s tr /\ (b = 0 \/ b = 1) /\
    (b = 0 <-> forall x, virt <= x < virt + size -> translate (ram (k_vm s)) root x = None).
Proof.
  intros Hvm Hroot Hrp Hal Hd Hv Hs Hb.
  destruct (wp_elim _ _ _ (has_mapping_wp own s root pml4 virt size Hvm Hroot Hrp Hal Hd Hv Hs Hb)) as (b&s'&tr&E&->&Hb01&Hiff).
  by exists b, tr.
Qed.

Lemma vmm_virt_range_has_mapping_correct_witness :
  exists b tr, vmm_virt_range_has_mapping (H := ex_layout) KERN_PML4 MEM_MAP_ADDR 0x3000 ex_kernel = Ok b ex_kernel tr /\
    (b = 0 \/ b = 1).
Proof.
  destruct (vmm_virt_range_has_mapping_correct (H := ex_layout) ex_own ex_kernel 0x210000 KERN_PML4 MEM_MAP_ADDR 0x3000)
    as (b&tr&E&Hb&_).
  - apply ex_good.
  - reflexivity.
  - apply ex_points.
  - by exists 0xFFFFFFFF80010.
  - by exists 0xFFFFEA0000000.
  - unfold MEM_MAP_ADDR. lia.
  - lia.
  - unfold MEM_MAP_ADDR. lia.
  - exists b, tr. split; [exact E|exact Hb].
Defined.

(** Two pages, of which the second is mapped. *)
Definition ex_two_pages : kernel :=
  mk_kernel (mk_mm ex_pool (mk_mem ∅ 0 ∅ 0))
    (mk_vmm VMM_IDENTITY 0x40000000
      (upd_word 0x213008 0x5003 (upd_word 0x212000 0x213003 (upd_word 0x211000 0x212003 (upd_word 0x210000 0x211003 (fun _ => 0)))))
      0x210000 0 0).
(** with a start address that is not page aligned, the search can step over
    the last page of the range: here the second page of the two-page range is
    mapped, and the answer is that nothing is. *)
Theorem vmm_virt_range_has_mapping_unaligned_miss :
  wp (vmm_virt_range_has_mapping (H := ex_layout) 0x210000 0x800 0x1000) (fun b _ => b = 0) ex_two_pages /\
  translate (ram (k_vm ex_two_pages)) 0x210000 0x1000 = Some (0x5000, 0x5003).
Proof. split; vm_compute; reflexivity. Qed.
