(* ===== verification/VmmHhdm.v ===== *)
(** * The direct map and the end of the identity map

    [vmm_map_hhdm] maps all memory of the e820 table at [HHDM_BASE];
    [vmm_unmap_low_identity] then removes the low identity map.  With both, the
    pointers by which the manager reaches its tables ([Vmm.resolve]) are the ones
    the processor translates. *)

From S2P Require Import Prelude Kmath E820 E820Facts Bootmem BootmemFacts Mem Buddy Vmm VmmFacts VmmMap VmmBoot.
From Stdlib Require Import ZArith Lia Znumtheory Bool.
From stdpp Require Import base gmap list strings.

Open Scope Z_scope.

(** The extent of the direct map: below the kernel window. *)
Definition HHDM_SIZE : Z := kernel_vma_start - HHDM_BASE.

(** All ranges of the table fit into the direct map, with room for rounding. *)
Definition fits (t : e820_table) : Prop :=
  Forall (fun e => e_addr e + e_size e + LARGE_PAGE_SIZE <= HHDM_SIZE) (used t).

(** Offsets of the direct map in the low 48 bits. *)
Lemma hhdm_low d : 0 <= d <= HHDM_SIZE -> (HHDM_BASE + d) mod 2 ^ 48 = 0x888000000000 + d.
Proof.
  intros Hd. symmetry. apply (Z.mod_unique_pos _ _ 0xFFFF); unfold HHDM_SIZE, kernel_vma_start, HHDM_BASE in *; lia.
Qed.

Lemma hhdm_flags_ok ty : flags_ok (hhdm_flags ty).
Proof. unfold hhdm_flags. by repeat case_match. Qed.

(** Ranges that the direct map makes accessible. *)
Definition accessible (ty : Z) : bool := (ty =? E820_TYPE_RAM) || (ty =? E820_TYPE_NVS) || (ty =? E820_TYPE_ACPI).

Lemma hhdm_flags_present ty : has (hhdm_flags ty) PT_PRESENT = accessible ty.
Proof.
  unfold hhdm_flags, accessible. destruct (ty =? E820_TYPE_RAM); [done|].
  by destruct (ty =? E820_TYPE_NVS), (ty =? E820_TYPE_ACPI).
Qed.

Section hhdm.
Context `{LayoutOk} (t : e820_table) `{!E820Table t} (kernel_end : Z) (Hfits : fits t).
Abbreviation I := (boot_source t kernel_end).

(** [e] is mapped in [s]: every address of it, if it is accessible at all. *)
Definition entry_mapped (s : kernel) (e : e820_entry) : Prop :=
  accessible (e_type e) = true -> forall v, 0x888000000000 + e_addr e <= v mod 2 ^ 48 < 0x888000000000 + e_addr e + e_size e ->
    maps_to (e_addr e) (0x888000000000 + e_addr e) (hhdm_flags (e_type e)) (v mod 2 ^ 48)
      (walk (ram (k_vm s)) 4 (fr kern_pml4) v).

(** From [s] to [s'] only translations of the direct map were added. *)
Record extended (own : owners) (s : kernel) (own' : owners) (s' : kernel) : Prop := {
  xt_good : good I own' s';
  xt_sub : own ⊆ own';
  xt_regs : same_regs (k_vm s) (k_vm s');
  xt_out : forall root' v, own !! root' = Some (4%nat, 0) ->
    ~ 0x888000000000 <= v mod 2 ^ 48 < 0x888000000000 + HHDM_SIZE ->
    walk (ram (k_vm s')) 4 root' v = walk (ram (k_vm s)) 4 root' v;
  xt_keep : forall v w, walk (ram (k_vm s)) 4 (fr kern_pml4) v = Some w ->
    walk (ram (k_vm s')) 4 (fr kern_pml4) v = Some w;
}.

Lemma extended_refl own s : good I own s -> extended own s own s.
Proof. by split. Qed.

Lemma extended_trans own1 s1 own2 s2 own3 s3 :
  extended own1 s1 own2 s2 -> extended own2 s2 own3 s3 -> extended own1 s1 own3 s3.
Proof.
  intros [_ S1 R1 O1 K1] [G S2 R2 O2 K2]. split; [done|by etrans|by eapply same_regs_trans|..].
  - intros root' v Hr Hv. rewrite O2, O1 by (done || by eapply lookup_weaken). done.
  - auto.
Qed.

(** A mapped entry stays mapped. *)
Lemma entry_mapped_keep own s own' s' e : extended own s own' s' -> entry_mapped s e -> entry_mapped s' e.
Proof.
  intros HE Hm Ha v Hv. specialize (Hm Ha v Hv). revert Hm. unfold maps_to. rewrite hhdm_flags_present, Ha.
  intros (en&l&Hw&H1&H2). exists en, l. split; [by eapply xt_keep|done].
Qed.

(** One range of physical memory. *)
Lemma hhdm_range own s addr size flags :
  good I own s -> own !! fr kern_pml4 = Some (4%nat, 0) -> flags_ok flags ->
  0 <= addr -> 0 <= size -> addr + size + LARGE_PAGE_SIZE <= HHDM_SIZE ->
  wp (set_range t kern_pml4 (u64 (HHDM_BASE + addr)) addr size flags false) (fun k s' => exists own',
    0 <= k <= size /\ extended own s own' s' /\
    (k = 0 -> forall v, 0x888000000000 + addr <= v mod 2 ^ 48 < 0x888000000000 + addr + size ->
       maps_to addr (0x888000000000 + addr) flags (v mod 2 ^ 48) (walk (ram (k_vm s')) 4 (fr kern_pml4) v))) s.
Proof.
  intros HG Hroot Hfl Ha Hs Hb. unfold LARGE_PAGE_SIZE in *.
  rewrite u64_small by (unfold HHDM_SIZE, kernel_vma_start, HHDM_BASE in *; lia).
  eapply wp_mono; [eapply (set_range_spec t (fun _ => I) false (fr kern_pml4) kern_pml4 flags Hfl 0 own s)|].
  - done.
  - done.
  - apply layout_pointers. set_solver.
  - unfold range_ok, LARGE_PAGE_SIZE. rewrite hhdm_low by lia. unfold HHDM_SIZE, kernel_vma_start, HHDM_BASE in *. lia.
  - intros k s' (own'&Hk&[G S R Hin Hout Hkeep]). rewrite hhdm_low in Hin, Hout by lia. exists own'. split; [done|].
    split; [|exact Hin]. split; [done|done|done| |auto].
    intros root' v Hr Hv. apply Hout; [done|]. lia.
Qed.

Lemma map_hhdm_loop_spec n : forall i own s failed total,
  good I own s -> own !! fr kern_pml4 = Some (4%nat, 0) ->
  Z.of_nat i + Z.of_nat n = entries_count t -> 0 <= failed -> failed + Z.of_nat n * HHDM_SIZE < 2 ^ 64 ->
  wp (map_hhdm_loop t i n failed total) (fun r s' => exists own', failed <= r.1 /\ extended own s own' s' /\
    (r.1 = failed -> forall j e, (i <= j)%nat -> used t !! j = Some e -> entry_mapped s' e)) s.
Proof.
  induction n as [|n IH]; intros i own s failed total HG Hroot Hin Hf Hfb; cbn [map_hhdm_loop].
  { wp_step. exists own. split; [simpl; lia|]. split; [by apply extended_refl|]. intros _ j e Hj He.
    apply lookup_lt_Some in He. unfold used in He. rewrite length_take in He. lia. }
  pose proof et_count. pose proof et_array as Harr.
  destruct (entries t !! i) as [e|] eqn:Ei; [|apply lookup_ge_None in Ei; lia].
  assert (used t !! i = Some e) as Hu by (unfold used; rewrite lookup_take_lt; [done|lia]).
  assert (e ∈ used t) as Hin' by (by eapply list_elem_of_lookup_2).
  pose proof Hfits as Hfit. unfold fits in Hfit. rewrite Forall_forall in Hfit. specialize (Hfit e Hin').
  pose proof (sane_ok (es := used t)) as Hok. rewrite Forall_forall in Hok. destruct (Hok e Hin') as [[Ha _] Hsz].
  wp_step. eapply wp_deref; [done|]. wp_step.
  assert (e_addr e + e_size e <= HHDM_SIZE) by (unfold LARGE_PAGE_SIZE in *; lia).
  eapply wp_mono; [eapply (hhdm_range own s (e_addr e) (e_size e) (hhdm_flags (e_type e)));
    [done|done|apply hhdm_flags_ok|lia|lia|done]|].
  intros k s1 (own1&Hk&HE1&Hm1). change HHDM_SIZE with 0x777F80000000 in *. rewrite (u64_small (failed + k)) by lia.
  eapply wp_mono; [apply (IH (S i) own1 s1); [apply HE1|eapply lookup_weaken; [done|apply HE1]|lia|lia|
    change HHDM_SIZE with 0x777F80000000; lia]|].
  intros [r1 r2] s2 (own2&Hr&HE2&Hm2). exists own2. simpl in *. split; [lia|].
  split; [by eapply extended_trans|]. intros -> j e' Hj He'.
  destruct (decide (j = i)) as [->|]; [|apply (Hm2 ltac:(lia) j); [lia|done]].
  assert (e' = e) as -> by congruence. eapply entry_mapped_keep; [exact HE2|]. intros _. apply Hm1. lia.
Qed.

(** Entering the state in which tables are reached through the direct map. *)
Lemma transition_good own s :
  good I own s -> vm_state (k_vm s) = VMM_IDENTITY ->
  good I own (set_vm (set_vm_state VMM_TRANSITION (k_vm s)) s).
Proof.
  intros [[HT HR _] (Hb&Hlt&_&_)] Est. split; [split|split_and!]; cbn [k_vm set_vm set_vm_state ram vm_state].
  - done.
  - intros f x Hf. destruct (HR f x Hf) as (Hd&Hp&Hle). rewrite Est in Hp, Hle. simpl in Hp, Hle.
    split_and!; [done|simpl; lia|simpl; unfold kernel_vma_start, HHDM_BASE; lia].
  - done.
  - exact Hb.
  - exact (proj1 Hlt).
  - exact (proj2 Hlt).
  - done.
  - done.
  - intros p [_ (e&He&_&_&Hp)]. simpl. unfold fits in Hfits. rewrite Forall_forall in Hfits.
    specialize (Hfits e He). unfold HHDM_SIZE, LARGE_PAGE_SIZE in Hfits. lia.
Qed.

Lemma vmm_map_hhdm_wp own s :
  good I own s -> own !! fr kern_pml4 = Some (4%nat, 0) -> vm_state (k_vm s) = VMM_IDENTITY ->
  wp (vmm_map_hhdm t) (fun r s' => exists own' s1, extended own s own' s1 /\
    s' = set_vm (set_vm_state VMM_TRANSITION (k_vm s1)) s1 /\ (r = 0 \/ r = -1) /\
    (r = 0 -> forall e, e ∈ used t -> entry_mapped s' e)) s.
Proof.
  intros HG Hroot Est. unfold vmm_map_hhdm. do 2 wp_step. rewrite Est. cbn [negb Z.eqb VMM_IDENTITY]. simpl.
  pose proof et_count. wp_step.
  eapply wp_mono; [apply (map_hhdm_loop_spec (Z.to_nat (entries_count t)) 0 own s 0 0); [done|done|lia|lia|
    change HHDM_SIZE with 0x777F80000000; lia]|].
  intros [failed total] s1 (own1&Hf&HE1&Hm). simpl in Hf, Hm. cbv beta iota.
  wp_step. change (u64 (HHDM_BASE + 0xA0000)) with (u64 (HHDM_BASE + 0xA0000)).
  eapply wp_mono; [eapply (hhdm_range own1 s1 0xA0000 0x20000);
    [apply HE1|eapply lookup_weaken; [done|apply HE1]|done|lia|lia|done]|].
  intros k s2 (own2&_&HE2&_).
  assert (extended own s own2 s2) as HE by (by eapply extended_trans).
  assert (failed = 0 -> forall e, e ∈ used t -> entry_mapped (set_vm (set_vm_state VMM_TRANSITION (k_vm s2)) s2) e) as Hall.
  { intros -> e [j Hj]%list_elem_of_lookup. apply (entry_mapped_keep own1 s1 own2 s2); [done|].
    apply (Hm eq_refl j); [lia|done]. }
  wp_step. apply wp_when; intros _; [unfold printk; wp_step|]; unfold vmod; do 2 wp_step;
    (destruct (Z.eqb_spec failed 0); simpl; do 2 wp_step; wp_step; exists own2, s2; split_and!; auto; done).
Qed.
End hhdm.

Lemma same_regs_state s s' : same_regs s s' -> vm_state s' = vm_state s.
Proof. by intros [? _]. Qed.

(** C12: [vmm_map_hhdm], called with the identity map and the boot pool in
    place, never panics or faults and enters the transition state with
    well-formed tables.  If it returns 0, every address of a RAM, ACPI or NVS range
    is translated from the direct map to itself, not executable, and writable
    exactly if it is RAM, which is also where the manager finds it from now on.
    Translations that existed before are kept, and none is added outside of the
    direct map. *)
Theorem vmm_map_hhdm_correct `{LayoutOk} t `{!E820Table t} kernel_end own s :
  fits t -> good (boot_source t kernel_end) own s -> own !! fr kern_pml4 = Some (4%nat, 0) ->
  vm_state (k_vm s) = VMM_IDENTITY ->
  exists r s' tr own', vmm_map_hhdm t s = Ok r s' tr /\ (r = 0 \/ r = -1) /\
    good (boot_source t kernel_end) own' s' /\ own ⊆ own' /\ vm_state (k_vm s') = VMM_TRANSITION /\
    (r = 0 -> forall e a, e ∈ used t -> accessible (e_type e) = true -> e_addr e <= a < e_addr e + e_size e ->
       resolve (k_vm s') (HHDM_BASE + a) = Some a /\
       exists en, translate (ram (k_vm s')) (fr kern_pml4) (HHDM_BASE + a) = Some (a, en) /\
         has en PT_WRITABLE = (e_type e =? E820_TYPE_RAM) /\ has en PT_NX = true) /\
    (forall v pe, translate (ram (k_vm s)) (fr kern_pml4) v = Some pe ->
       translate (ram (k_vm s')) (fr kern_pml4) v = Some pe) /\
    (forall root' v, own !! root' = Some (4%nat, 0) ->
       ~ HHDM_BASE mod 2 ^ 48 <= v mod 2 ^ 48 < kernel_vma_start mod 2 ^ 48 ->
       translate (ram (k_vm s')) root' v = translate (ram (k_vm s)) root' v).
Proof.
  intros Hfits HG Hroot Est.
  destruct (wp_elim _ _ _ (vmm_map_hhdm_wp t kernel_end Hfits own s HG Hroot Est))
    as (r&s'&tr&E&own'&s1&[G S R Hout Hkeep]&Es'&Hr&Hm).
  assert (vm_state (k_vm s1) = VMM_IDENTITY) as Est1 by (by rewrite (same_regs_state _ _ R)).
  assert (ram (k_vm s') = ram (k_vm s1)) as Eram by (by subst s').
  exists r, s', tr, own'. split_and!; [done|done|subst s'; by apply transition_good|done|by subst s'|..].
  - intros Hr0 e a He Hacc Ha. pose proof Hfits as Hf. unfold fits in Hf. rewrite Forall_forall in Hf.
    specialize (Hf e He). unfold LARGE_PAGE_SIZE in Hf.
    pose proof (sane_ok (es := used t)) as Hok. rewrite Forall_forall in Hok. destruct (Hok e He) as [[Ha0 _] _].
    split.
    + unfold resolve. subst s'. cbn [k_vm set_vm set_vm_state vm_state]. unfold HHDM_SIZE, kernel_vma_start, HHDM_BASE in *.
      destruct (Z.leb_spec 0xFFFFFFFF80000000 (0xFFFF888000000000 + a)); [lia|].
      destruct (Z.leb_spec 0xFFFF888000000000 (0xFFFF888000000000 + a)); [|lia].
      destruct (Z.ltb_spec (0xFFFF888000000000 + a) 0xFFFFFFFF80000000); [|lia]. simpl. f_equal. lia.
    + pose proof (hhdm_low a ltac:(lia)) as El.
      specialize (Hm Hr0 e He Hacc (HHDM_BASE + a)). rewrite El in Hm. specialize (Hm ltac:(lia)).
      destruct (maps_to_translate (e_addr e) (0x888000000000 + e_addr e) (hhdm_flags (e_type e))
        (ram (k_vm s')) (fr kern_pml4) (HHDM_BASE + a)) as (en&Et&Hen).
      * by rewrite El.
      * by rewrite hhdm_flags_present.
      * exists en. rewrite Et, El. split; [repeat f_equal; lia|].
        rewrite !(entry_flag _ _ _ Hen) by done. revert Hacc. unfold hhdm_flags, accessible.
        destruct (e_type e =? E820_TYPE_RAM); [done|]. by destruct (e_type e =? E820_TYPE_NVS), (e_type e =? E820_TYPE_ACPI).
  - intros v pe. unfold translate. rewrite Eram, !fmap_Some. intros (w&Hw&->). exists w. split; [by apply Hkeep|done].
  - intros root' v Hr' Hv. unfold translate. by rewrite Eram, Hout.
Qed.

Lemma ex_fits : fits ex_sane.
Proof. unfold fits, ex_sane, used. simpl. repeat constructor; simpl; vm_compute; by intros [=]. Qed.

(** The value returned on the example, computed. *)
Definition returned {S A} (d : A) (o : outcome S A) : A := match o with Ok a _ _ => a | _ => d end.

Lemma ex_hhdm_code : returned 1 (vmm_map_hhdm (H := ex_layout) ex_sane ex_kernel) = 0.
Proof. vm_compute. reflexivity. Qed.

Lemma vmm_map_hhdm_correct_witness :
  exists s' tr, vmm_map_hhdm (H := ex_layout) ex_sane ex_kernel = Ok 0 s' tr /\
    exists en, translate (ram (k_vm s')) 0x210000 (HHDM_BASE + 0x123456) = Some (0x123456, en).
Proof.
  destruct (vmm_map_hhdm_correct (H := ex_layout) ex_sane 0x323456 ex_own ex_kernel ex_fits ex_good eq_refl eq_refl)
    as (r&s'&tr&own'&E&_&_&_&_&Hm&_).
  assert (r = 0) as Hr.
  { pose proof ex_hhdm_code as Ec. rewrite E in Ec. exact Ec. }
  rewrite Hr in E. exists s', tr. split; [exact E|].
  destruct (Hm Hr (mk_entry 0x100000 0x100000 1) 0x123456) as (_&en&Ht&_).
  - apply (list_elem_of_lookup_2 (used ex_sane) 2). reflexivity.
  - reflexivity.
  - simpl. lia.
  - exists en. exact Ht.
Defined.

(** ** Removing the identity map *)

(** The first entry of a PML4 covers the lowest 512 GiB. *)
Lemma tidx_first v : 0 <= v mod 2 ^ 48 < 2 ^ 39 <-> tidx 4 v = 0.
Proof.
  rewrite tidx_div. change (2 ^ page_bits 4) with (2 ^ 39).
  replace ((v / 2 ^ 39) mod 512) with (v mod 2 ^ 48 / 2 ^ 39).
  - pose proof (Z.mod_pos_bound v (2 ^ 48) ltac:(lia)). set (x := v mod 2 ^ 48) in *.
    pose proof (Z.div_mod x (2 ^ 39) ltac:(lia)). pose proof (Z.mod_pos_bound x (2 ^ 39) ltac:(lia)).
    split; intros; nia.
  - pose proof (Z.div_mod v (2 ^ 48) ltac:(lia)) as Hd. pose proof (Z.mod_pos_bound v (2 ^ 48) ltac:(lia)).
    set (x := v mod 2 ^ 48) in *. set (q := v / 2 ^ 48) in *.
    replace (v / 2 ^ 39) with (x / 2 ^ 39 + q * 512).
    + rewrite Z.mod_add by lia. symmetry. apply Z.mod_small.
      split; [apply Z.div_pos; lia|apply Z.div_lt_upper_bound; lia].
    + rewrite Hd. replace (2 ^ 48 * q + x) with (x + (q * 512) * 2 ^ 39) by lia. by rewrite Z.div_add by lia.
Qed.

(** The steps of [vmm_unmap_low_identity] are followed on the walk. *)
Lemma vmm_unmap_wp `{LayoutOk} t kernel_end own s :
  good (boot_source t kernel_end) own s -> own !! fr kern_pml4 = Some (4%nat, 0) ->
  vm_state (k_vm s) = VMM_TRANSITION ->
  wp vmm_unmap_low_identity (fun r s' => r = 0 /\ good (boot_source t kernel_end) own s' /\
    vm_state (k_vm s') = VMM_VIRTUAL_ONLY /\ cr3 (k_vm s') = cr3 (k_vm s) /\
    ram (k_vm s') = upd_word (fr kern_pml4 + 8 * 0) 0 (ram (k_vm s))) s.
Proof.
  intros [[HT HR Hst] (Hb&Hlt&_&Hram)] Hroot Est. unfold vmm_unmap_low_identity. do 2 wp_step. rewrite Est. simpl.
  wp_step. eapply wp_store; [apply layout_pointers; set_solver|lia|].
  unfold set_cr3, vmod, printk. do 9 wp_step. split_and!; try done.
  split; [split|split_and!]; cbn [k_vm set_vm set_vm_state set_ram set_cr3_reg ram vm_state].
  - eapply tables_store; [done|exact Hroot|lia|]. by intros.
  - intros f x Hf. specialize (HR f x Hf). rewrite Est in HR. exact HR.
  - done.
  - exact Hb.
  - exact (proj1 Hlt).
  - exact (proj2 Hlt).
  - done.
  - done.
  - rewrite Est in Hram. exact Hram.
Qed.

(** Clearing the first entry of the PML4, seen by the walk. *)
Lemma unmap_walk `{LayoutOk} own r v : tables own r -> own !! fr kern_pml4 = Some (4%nat, 0) ->
  walk (upd_word (fr kern_pml4 + 8 * 0) 0 r) 4 (fr kern_pml4) v =
    if decide (v mod 2 ^ 48 < 2 ^ 39) then None else walk r 4 (fr kern_pml4) v.
Proof.
  intros HT Hroot. case_decide as Hv.
  - pose proof (Z.mod_pos_bound v (2 ^ 48) ltac:(lia)). cbn [walk].
    rewrite (proj1 (tidx_first v)) by lia. by rewrite upd_word_eq.
  - rewrite (walk_store own _ _ 4 0 0 0); [done|exact HT|exact Hroot|lia|exact Hroot|].
    intros [_ Hi]. apply tidx_first in Hi. lia.
Qed.

(** C24: In the transition state, [vmm_unmap_low_identity] removes every
    translation of the lowest 512 GiB from the kernel's address space and no other
    one, reloads CR3 so that no stale translation remains cached, and keeps the
    tables well-formed for the state in which only the direct map is used. *)
Theorem vmm_unmap_low_identity_correct `{LayoutOk} t kernel_end own s :
  good (boot_source t kernel_end) own s -> own !! fr kern_pml4 = Some (4%nat, 0) ->
  vm_state (k_vm s) = VMM_TRANSITION ->
  exists s' tr, vmm_unmap_low_identity s = Ok 0 s' tr /\ EvCr3 (cr3 (k_vm s)) ∈ tr /\
    good (boot_source t kernel_end) own s' /\ vm_state (k_vm s') = VMM_VIRTUAL_ONLY /\
    forall v, translate (ram (k_vm s')) (fr kern_pml4) v =
      if decide (v mod 2 ^ 48 < 2 ^ 39) then None else translate (ram (k_vm s)) (fr kern_pml4) v.
Proof.
  intros HG Hroot Est. destruct (wp_elim _ _ _ (vmm_unmap_wp t kernel_end own s HG Hroot Est))
    as (r&s'&tr&E&->&HG'&Hst&Hc&Hr). exists s', tr. split; [done|]. split.
  - revert E. unfold vmm_unmap_low_identity, mbind, M_bind, get. cbv beta iota. rewrite Est. simpl.
    destruct (store kern_pml4 0 0 s) as [[] s1 tr1| |]; [|done..]. simpl. intros [= _ <-]. set_solver.
  - split_and!; [done|done|]. intros v. pose proof HG as [[HT _ _] _]. unfold translate. rewrite Hr.
    rewrite (unmap_walk own) by done. by case_decide.
Qed.

Lemma vmm_unmap_low_identity_correct_witness :
  exists s s' tr, vmm_unmap_low_identity (H := ex_layout) s = Ok 0 s' tr /\ vm_state (k_vm s') = VMM_VIRTUAL_ONLY.
Proof.
  destruct (vmm_unmap_low_identity_correct (H := ex_layout) ex_sane 0x323456 ex_own
    (set_vm (set_vm_state VMM_TRANSITION (k_vm ex_kernel)) ex_kernel)) as (s'&tr&E&_&_&Hs&_).
  - apply (transition_good ex_sane 0x323456 ex_fits ex_own ex_kernel); [exact ex_good|reflexivity].
  - reflexivity.
  - reflexivity.
  - do 2 eexists. exists tr. split; [exact E|exact Hs].
Defined.
