(* ===== verification/VmmUser.v ===== *)
(** * User address spaces

    [vmm_create_user_pml4] makes a PML4 with an empty user half that shares the
    kernel half; its frame comes from whatever allocator is in use.  The last part
    is the allocator of the running kernel: frames from the page allocator. *)

From S2P Require Import Prelude Kmath E820 E820Facts Bootmem BootmemFacts Mem Buddy BuddyFacts BuddyAlloc Vmm VmmFacts VmmMap VmmBoot VmmHhdm.
From Stdlib Require Import ZArith Lia Znumtheory Bool.
From stdpp Require Import base gmap list strings.

Open Scope Z_scope.

(** The kernel half: the upper 256 entries. *)
Lemma tidx_half v : 2 ^ 47 <= v mod 2 ^ 48 <-> 256 <= tidx 4 v.
Proof.
  rewrite tidx_div. change (2 ^ page_bits 4) with (2 ^ 39).
  replace ((v / 2 ^ 39) mod 512) with (v mod 2 ^ 48 / 2 ^ 39) by (Z.to_euclidean_division_equations; lia).
  pose proof (Z.mod_pos_bound v (2 ^ 48) ltac:(lia)). set (x := v mod 2 ^ 48) in *.
  split; intros Hx; [apply Z.div_le_lower_bound; lia|].
  pose proof (Z.mul_div_le x (2 ^ 39) ltac:(lia)). nia.
Qed.

(** [f] is the root of a new address space: the tables are well-formed with it,
    nothing is mapped in its user half, its kernel half is the one of [kroot], and
    the address spaces that existed are as they were. *)
Record new_space (own : owners) (s : vmm) (kroot f : Z) (s' : vmm) : Prop := {
  ns_new : own !! f = None;
  ns_inv : vm_inv (<[f := (4%nat, 0)]> own) s';
  ns_regs : same_regs s s';
  ns_user : forall v, v mod 2 ^ 48 < 2 ^ 47 -> walk (ram s') 4 f v = None;
  ns_kernel : forall v, 2 ^ 47 <= v mod 2 ^ 48 -> walk (ram s') 4 f v = walk (ram s) 4 kroot v;
  ns_old : forall root v, own !! root = Some (4%nat, 0) -> walk (ram s') 4 root v = walk (ram s) 4 root v;
}.

(** The copy loop. *)
Lemma copy_loop kp kroot p f n : forall i s,
  points (k_vm s) kp kroot -> points (k_vm s) p f -> 0 <= i -> i + Z.of_nat n <= 512 ->
  (forall j k, 0 <= j < 512 -> 0 <= k < 512 -> kroot + 8 * j <> f + 8 * k) ->
  wp (for_loop i 1 n (fun i => v ← load kp i; store p i v)) (fun _ s' =>
    k_mm s' = k_mm s /\ same_regs (k_vm s) (k_vm s') /\
    (forall j, i <= j < i + Z.of_nat n -> ram (k_vm s') (f + 8 * j) = ram (k_vm s) (kroot + 8 * j)) /\
    (forall x, (forall j, i <= j < i + Z.of_nat n -> x <> f + 8 * j) -> ram (k_vm s') x = ram (k_vm s) x)) s.
Proof.
  induction n as [|n IH]; intros i s Hk Hp Hi Hn Hne; cbn [for_loop].
  { wp_step. split_and!; try done. intros j Hj. lia. }
  wp_step. wp_step. eapply wp_load; [done|lia|]. eapply wp_store; [done|lia|].
  eapply wp_mono; [apply IH; [done|done|lia|lia|done]|].
  intros _ s' (H1&H2&H3&H4). cbn [k_vm set_vm ram set_ram k_mm] in *. split_and!; try done.
  - intros j Hj. destruct (decide (j = i)) as [->|].
    + rewrite H4 by (intros; lia). apply upd_word_eq.
    + rewrite H3 by lia. unfold upd_word. destruct (Z.eqb_spec (kroot + 8 * j) (f + 8 * i)); [|done].
      exfalso. by apply (Hne j i); [lia|lia|].
  - intros x Hx. rewrite H4 by (intros j Hj; apply Hx; lia). unfold upd_word.
    destruct (Z.eqb_spec x (f + 8 * i)); [|done]. exfalso. by apply (Hx i); [lia|].
Qed.

(** The words of the new table, and all others. *)
Lemma space_built own s kroot f s' :
  vm_inv own s -> own !! kroot = Some (4%nat, 0) -> own !! f = None -> reach (vm_state s) f -> same_regs s s' ->
  (forall j, 0 <= j < 256 -> ram s' (f + 8 * j) = 0) ->
  (forall j, 256 <= j < 512 -> ram s' (f + 8 * j) = ram s (kroot + 8 * j)) ->
  (forall g j, (PAGE_SIZE | g) -> g <> f -> 0 <= j < 512 -> ram s' (g + 8 * j) = ram s (g + 8 * j)) ->
  new_space own s kroot f s'.
Proof.
  intros [HT HR Hst] Hk Hnew Hr Hregs Hlow Hhigh Hother. pose proof (reach_bound _ _ Hr) as Hfb.
  assert (forall g l pre j, own !! g = Some (l, pre) -> 0 <= j < 512 -> ram s' (g + 8 * j) = ram s (g + 8 * j)) as Hown.
  { intros g l pre j Hg Hj. apply Hother; [by apply (tb_frame _ _ HT g l pre)|congruence|done]. }
  assert (forall root v, own !! root = Some (4%nat, 0) -> walk (ram s') 4 root v = walk (ram s) 4 root v) as Hold.
  { intros root v Hroot. eapply walk_ext; [exact HT|by rewrite vpre_root|].
    intros k g Hg. eapply Hown; [exact Hg|apply tidx_range]. }
  split; [done| |done| | |done].
  - destruct Hregs as [Est _]. split; [split| |by rewrite Est].
    + intros g l pre [[<- [= <- <-]]|[_ Hg]]%lookup_insert_Some; [split_and!; [apply Hr|lia..]|by apply (tb_frame _ _ HT g l pre)].
    + intros g l pre j [[<- [= <- <-]]|[Hne Hg]]%lookup_insert_Some Hl Hj.
      * destruct (decide (j < 256)); [by rewrite Hlow by lia|]. rewrite Hhigh by lia. intros Hp. right.
        destruct (tb_child _ _ HT kroot 4 0 j Hk ltac:(lia) Hj Hp) as [[_ ?]|[Hs Hc]]; [lia|].
        split; [done|]. rewrite lookup_insert_ne; [done|congruence].
      * rewrite (Hown g l pre j Hg Hj). intros Hp.
        destruct (tb_child _ _ HT g l pre j Hg Hl Hj Hp) as [?|[Hs Hc]]; [by left|right].
        split; [done|]. rewrite lookup_insert_ne; [done|congruence].
    + intros g x [[<- _]|[_ Hg]]%lookup_insert_Some; rewrite Est; [done|by eapply HR].
  - intros v Hv. cbn [walk]. pose proof (tidx_range 4 v). rewrite Hlow; [done|].
    pose proof (tidx_half v). lia.
  - intros v Hv. apply tidx_half in Hv. pose proof (tidx_range 4 v). rewrite <- (Hold kroot v Hk). cbn [walk].
    by rewrite Hhigh, <- (Hown kroot 4%nat 0) by (done || lia).
Qed.

Section create.
Context `{KernelLayout} (t : e820_table).

(** [vmm_create_user_pml4] on top of any successful or failing allocation. *)
Lemma create_user_wp own s kroot (Post : Z -> kernel -> Prop) :
  wp (__alloc_table t) (fun p s1 => k_vm s1 = k_vm s /\ Post p s1 /\
    (p = 0 \/ exists f, p = phys_to_virt (k_vm s) f /\ reach (vm_state (k_vm s)) f /\ own !! f = None)) s ->
  vm_inv own (k_vm s) -> own !! kroot = Some (4%nat, 0) -> points (k_vm s) kern_pml4 kroot ->
  wp (vmm_create_user_pml4 t) (fun p s' => exists s1, Post p s1 /\ k_mm s' = k_mm s1 /\
    ((p = 0 /\ s' = s1 /\ k_vm s' = k_vm s) \/
     exists f, p = phys_to_virt (k_vm s) f /\ p <> 0 /\ new_space own (k_vm s) kroot f (k_vm s'))) s.
Proof.
  intros Halloc HI Hk Hkp. unfold vmm_create_user_pml4. wp_step. eapply wp_mono; [exact Halloc|].
  intros p s1 (Evm&HP&[->|(f&->&Hr&Hnew)]); [rewrite Z.eqb_refl; wp_step; exists s1; auto 10|].
  destruct (phys_to_virt_eq _ _ Hr) as [_ Hnz]. destruct (Z.eqb_spec (phys_to_virt (k_vm s) f) 0); [done|].
  pose proof HI as [HT _ _]. destruct (tb_frame _ _ HT _ _ _ Hk) as (Hkd&_&_).
  assert (forall s2, vm_state (k_vm s2) = vm_state (k_vm s) -> points (k_vm s2) (phys_to_virt (k_vm s) f) f) as Hpf.
  { intros s2 Es. eapply points_state; [exact Es|]. by apply reach_points. }
  wp_step. eapply wp_clear_table; [apply Hpf; by rewrite Evm|]. wp_step.
  eapply wp_mono; [apply (copy_loop kern_pml4 kroot _ f)|].
  - eapply points_state; [|exact Hkp]. cbn [k_vm set_vm vm_state set_ram]. by rewrite Evm.
  - apply Hpf. cbn [k_vm set_vm vm_state set_ram]. by rewrite Evm.
  - lia.
  - lia.
  - intros j k Hj Hk' E. apply word_inj in E as [E _]; [congruence|done|apply Hr|done|done].
  - intros _ s2 (Hmm&Hregs&Hcp&Hoth). wp_step. exists s1. cbn [k_vm set_vm ram set_ram k_mm] in *.
    split; [done|]. split; [done|]. right. exists f. split; [done|]. split; [done|]. rewrite Evm in *.
    assert (forall x, f <= x < f + PAGE_SIZE -> clear_words f (ram (k_vm s)) x = 0) as Hclr.
    { intros x Hx. by apply clear_words_zero. }
    assert (forall g j, (PAGE_SIZE | g) -> g <> f -> 0 <= j < 512 ->
      clear_words f (ram (k_vm s)) (g + 8 * j) = ram (k_vm s) (g + 8 * j)) as Hkeep.
    { intros g j [a ->] Hne Hj. destruct (proj1 Hr) as [b Eb]. unfold clear_words, PAGE_SIZE in *.
      destruct (Z.leb_spec f (a * 4096 + 8 * j)), (Z.ltb_spec (a * 4096 + 8 * j) (f + 4096)); (done || lia). }
    apply space_built; try done.
    + intros j Hj. rewrite Hoth by (intros; lia). apply Hclr. unfold PAGE_SIZE. lia.
    + intros j Hj. rewrite Hcp by lia. apply Hkeep; [done|congruence|lia].
    + intros g j Hg Hne Hj. rewrite Hoth; [by apply Hkeep|].
      intros k Hk' E. apply word_inj in E as [E _]; [done|done|apply Hr|done|lia].
Qed.
End create.



(** ** Frames from the page allocator *)

(** The running kernel: tables are taken from the page allocator, whose pages
    lie in the direct map; no free page is a table. *)
Record ready (own : owners) (s : kernel) : Prop := {
  rd_state : vm_state (k_vm s) = VMM_READY;
  rd_inv : exists L, buddy_inv everywhere L (k_mem s);
  rd_size : mem_nr_pages (k_mem s) * PAGE_SIZE <= HHDM_SIZE;
  rd_free : forall y, free_page (k_mem s) y -> own !! (y * PAGE_SIZE) = None;
}.

Lemma ready_vm own s s' : ready own s -> k_mm s' = k_mm s -> vm_state (k_vm s') = vm_state (k_vm s) -> ready own s'.
Proof.
  intros [H1 H2 H3 H4] Emm Est. unfold k_mem in *. split; unfold k_mem; rewrite ?Emm, ?Est; done.
Qed.

(** One page: the lowest-order free block is split down to it. *)
Lemma ready_alloc t own s :
  ready own s -> (exists y, free_page (k_mem s) y) ->
  wp (__alloc_table t) (fun p s1 => k_vm s1 = k_vm s /\ exists y, free_page (k_mem s) y /\
    p = phys_to_virt (k_vm s) (y * PAGE_SIZE) /\ p <> 0 /\ reach (vm_state (k_vm s)) (y * PAGE_SIZE) /\
    own !! (y * PAGE_SIZE) = None /\ (forall x, ready (<[y * PAGE_SIZE := x]> own) s1) /\
    allocated (k_mem s1) y 0 /\ (forall z, free_page (k_mem s1) z <-> free_page (k_mem s) z /\ z <> y) /\
    (forall x k, allocated (k_mem s1) x k <-> allocated (k_mem s) x k \/ (x = y /\ k = 0)) /\
    k_boot s1 = k_boot s) s.
Proof.
  intros HR [y0 Hy0]. pose proof HR as [Est [L HI] Hsz Hfree]. unfold __alloc_table. do 2 wp_step. rewrite Est. simpl.
  wp_step. apply wp_zoom. eapply wp_mono; [apply (alloc_pages_wp L _ 0 HI); unfold PAGE_MAX_ORDER; lia|].
  intros [p|] m; [|intros [-> HL]].
  2:{ exfalso. destruct Hy0 as (x&k&_&Hx&_).
      destruct (bi_block _ _ _ HI x PG_BUDDY k ltac:(done) Hx ltac:(by left)) as (Hk&_).
      assert (x ∈ L k) as Hin by (apply (bi_mem _ _ _ HI); done). rewrite HL in Hin by done. by apply elem_of_nil in Hin. }
  intros ([Hnr _]&[L' HI']&(_&_&Hp0&Hpn&_)&Hal&Hfr&Hwas&Hall). wp_step. eapply wp_deref; [reflexivity|]. wp_step.
  assert (forall z, in_block p 0 z <-> z = p) as Hin by (intros z; unfold in_block; change (2 ^ 0) with 1; lia).
  assert (free_page (k_mem s) p) as Hfp by (apply Hwas, Hin; done).
  assert (reach (vm_state (k_vm s)) (p * PAGE_SIZE)) as Hr.
  { rewrite Est. split; [by exists p|]. simpl. change (2 ^ 0) with 1 in Hpn. rewrite Hnr in Hpn.
    unfold HHDM_SIZE, PAGE_SIZE in *. simpl in *. unfold k_mem in *. lia. }
  destruct (phys_to_virt_eq _ _ Hr) as [Ep Hnz].
  assert (page_to_hhdm p = phys_to_virt (k_vm s) (p * PAGE_SIZE)) as ->.
  { unfold page_to_hhdm. rewrite Ep, Est. simpl. destruct Hr as (_&Hr1&Hr2). rewrite Est in Hr1, Hr2. simpl in Hr1, Hr2.
    unfold kernel_vma_start, HHDM_BASE, PAGE_SIZE in *. rewrite (u64_small (p * 4096)) by lia. by rewrite u64_small by lia. }
  split; [done|]. exists p. split_and!; try done.
  - rewrite <- Est. exact Hr.
  - by apply Hfree.
  - intros x. split; [done|by exists L'|unfold k_mem in *; simpl; by rewrite Hnr|].
    intros y Hy. change (free_page m y) in Hy. apply Hfr in Hy as [Hy Hne]. rewrite Hin in Hne.
    rewrite lookup_insert_ne; [by apply Hfree|unfold PAGE_SIZE; lia].
  - intros z. change (free_page m z <-> free_page (k_mem s) z /\ z <> p). rewrite Hfr, Hin. done.
Qed.

(** At least [n] numbers satisfy [P]. *)
Definition at_least (n : nat) (P : Z -> Prop) : Prop := exists l, NoDup l /\ length l = n /\ Forall P l.

Lemma at_least_le m n (P Q : Z -> Prop) : (n <= m)%nat -> (forall z, P z -> Q z) -> at_least m P -> at_least n Q.
Proof.
  intros Hle HPQ (l&Hn&Hl&Hf). exists (take n l).
  split_and!; [by eapply sublist_NoDup, sublist_take|rewrite length_take; lia|]. eapply Forall_impl; [by apply Forall_take|done].
Qed.

Lemma filter_absent (y : Z) (l : list Z) : y ∉ l -> filter (.≠ y) l = l.
Proof.
  induction l as [|x l IH]; [done|]. intros [Hne Hl]%not_elem_of_cons. rewrite filter_cons_True by done. by rewrite IH.
Qed.

Lemma at_least_remove n (P : Z -> Prop) y : at_least (S n) P -> at_least n (fun z => P z /\ z <> y).
Proof.
  intros (l&Hn&Hl&Hf). apply (at_least_le (length (filter (.≠ y) l)) n (fun z => P z /\ z <> y)); [|done|].
  - assert (length l <= S (length (filter (.≠ y) l)))%nat as Hc; [|lia]. clear Hl Hf.
    induction Hn as [|x l Hx Hn IH]; [simpl; lia|]. rewrite filter_cons. case_decide as Hd; cbn [length]; [lia|].
    subst x. rewrite (filter_absent y l Hx). lia.
  - exists (filter (.≠ y) l). split_and!; [by apply NoDup_filter|done|]. apply Forall_forall. intros z [Hz Hin]%list_elem_of_filter.
    rewrite Forall_forall in Hf. split; [by apply Hf|done].
Qed.

(** The page allocator with [n] free pages is a source of [n] table frames. *)
Definition free_pages_left (n : nat) (m : mem) : Prop := at_least n (free_page m).
Definition page_source (n : nat) (own : owners) (s : kernel) : Prop := ready own s /\ free_pages_left n (k_mem s).

#[export] Instance page_table_source t : TableSource t False page_source.
Proof.
  split.
  - intros n own s [HR Hl]. pose proof Hl as ([|y l]&_&Hlen&Hf); [done|]. inversion_clear Hf as [|? ? Hy _].
    eapply wp_mono; [by apply ready_alloc; [|exists y]|].
    intros p s' (Evm&z&_&Hp&_&Hr&Hnone&HR'&_&Hfr&_). split; [done|]. right. exists (z * PAGE_SIZE). split_and!; try done.
    intros x. split; [done|]. apply (at_least_le n n (fun w => free_page (k_mem s) w /\ w <> z)); [done| |by apply at_least_remove]. intros w Hw. by apply Hfr.
  - intros n own s [HR Hl]. split; [done|]. eapply at_least_le; [|done|exact Hl]. lia.
  - intros n own s s' [HR Hl] Emm Est. split; [by eapply ready_vm|]. unfold k_mem in *. by rewrite Emm.
Qed.
