(* ===== verification/VmmTotal.v ===== *)
(** * When mapping succeeds

    [vmm_map] reports what it could not map.  With a source of frames that does not run
    dry it maps everything: a page-aligned range of less than 2 MiB in which nothing is translated
    yet.  The page allocator is such a source, as long as it has pages. *)

From S2P Require Import Prelude Kmath E820 E820Facts Bootmem BootmemFacts Mem Buddy BuddyFacts BuddyAlloc Vmm VmmFacts VmmMap VmmBoot VmmHhdm VmmUser.
From Stdlib Require Import ZArith Lia Znumtheory Bool.
From stdpp Require Import base gmap list strings.

Open Scope Z_scope.

(** No address between [lo] and [hi] is translated in the address space [root]. *)
Definition unmapped (s : kernel) (root lo hi : Z) : Prop :=
  forall v, lo <= v mod 2 ^ 48 < hi -> walk (ram (k_vm s)) 4 root v = None.

Section total.
Context (t : e820_table) (I : nat -> owners -> kernel -> Prop) `{!TableSource t False I}.
Context (root rp flags : Z) (Hflags : flags_ok flags).

(** The loop of [set_pages]. *)
Lemma set_loop_all virt phys m n : (PAGE_SIZE | virt) -> 0 <= virt < 2 ^ 64 -> (PAGE_SIZE | phys) -> 0 <= phys ->
  forall i own s failed,
  good (I (3 * n + m)) own s -> own !! root = Some (4%nat, 0) -> points (k_vm s) rp root ->
  0 <= i -> (PAGE_SIZE | i) -> virt mod 2 ^ 48 + i + Z.of_nat n * PAGE_SIZE <= 2 ^ 48 ->
  phys + i + Z.of_nat n * PAGE_SIZE <= 2 ^ 52 ->
  unmapped s root (virt mod 2 ^ 48 + i) (virt mod 2 ^ 48 + i + Z.of_nat n * PAGE_SIZE) ->
  wp (set_loop (fun v p => set_page t rp v p flags false) virt phys PAGE_SIZE i n failed) (fun r _ => r = failed) s.
Proof.
  intros Hv Hvr Hp Hpr. induction n as [|n IH]; intros i own s failed HG Hroot Hrp Hi Hid Ha Hph Hun; simpl; [by wp_step|].
  replace (3 * S n + m)%nat with (3 + (3 * n + m))%nat in HG by lia.
  destruct (low48_add virt i Hvr Hi ltac:(plia)) as [E1 E2]. rewrite E1, (u64_small (phys + i)) by plia.
  assert (PAGE_SIZE | virt + i) as Hdv by (by apply Z.divide_add_r).
  wp_step. eapply wp_mono; [apply (set_page_spec t I (3 * n + m)); [exact HG|done|done|..]|].
  { by apply (has_step_mask 12). } { apply (has_step_mask 12); [lia|]. by apply Z.divide_add_r. }
  intros b s1 (own1&Hb). assert (walk (ram (k_vm s)) 4 root (virt + i) = None) as Hnone.
  { apply Hun. rewrite E2. plia. }
  destruct b; [|by destruct Hb as [_ [[]|Hw]]]. destruct Hb as [[H1 H2 H3 H4 H5] _].
  apply (IH (i + PAGE_SIZE) own1 s1); try done; try plia.
  - by eapply lookup_weaken.
  - by eapply points_state; [apply H3|].
  - by apply Z.divide_add_r; [|apply Z.divide_refl].
  - intros v Hv'. rewrite H5; [apply Hun; plia|done|]. intros Hsp.
    apply (same_page_low 1) in Hsp. apply same_page_range in Hsp; [|rewrite E2|apply Z.mod_pos_bound; lia].
    + rewrite E2 in Hsp. change (2 ^ page_bits 1) with PAGE_SIZE in Hsp. lia.
    + apply Z.divide_add_r; [|done]. rewrite Z.mod_eq by lia. apply Z.divide_sub_r; [done|]. apply Z.divide_mul_l. by exists (2 ^ 36).
Qed.

Lemma set_pages_all n own s virt phys size :
  good (I (tables_for size + n)) own s -> own !! root = Some (4%nat, 0) -> points (k_vm s) rp root ->
  (PAGE_SIZE | virt) -> (PAGE_SIZE | phys) -> (PAGE_SIZE | size) -> 0 <= virt < 2 ^ 64 -> 0 <= phys -> 0 <= size ->
  virt mod 2 ^ 48 + size <= 2 ^ 48 -> phys + size <= 2 ^ 52 ->
  unmapped s root (virt mod 2 ^ 48) (virt mod 2 ^ 48 + size) ->
  wp (set_pages t rp virt phys size flags false) (fun r s' => r = 0 /\ exists own',
    region I false n own s own' s' root (virt mod 2 ^ 48) (virt mod 2 ^ 48 + size) (maps_to phys (virt mod 2 ^ 48) flags) True) s.
Proof.
  intros HG Hroot Hrp Hv Hp Hs Hvr Hpr Hsr Ha Hph Hun.
  assert (wp (set_pages t rp virt phys size flags false) (fun r _ => r = 0) s) as Hall.
  { unfold set_pages. change (PAGE_SIZE - 1) with (2 ^ 12 - 1). rewrite !(proj2 (has_step_mask 12 _ ltac:(lia))) by done.
    assert (Z.of_nat (Z.to_nat (size / PAGE_SIZE)) * PAGE_SIZE = size) as En.
    { destruct Hs as [q ->]. rewrite Z.div_mul by plia. unfold PAGE_SIZE in *. lia. }
    apply (set_loop_all virt phys n) with (own := own); rewrite ?En, ?Z.add_0_r; try done. apply Z.divide_0_r. }
  eapply wp_mono; [apply wp_and; [exact Hall|by apply (set_pages_spec t I false root rp flags Hflags n own s virt phys size)]|].
  intros r s' [-> (own'&_&R)]. split; [done|]. exists own'. by eapply region_weaken; [|exact R].
Qed.

(** One of the two small parts of a range. *)
Lemma part_all n own s virt phys size : 
  good (I (tables_for size + n)) own s -> own !! root = Some (4%nat, 0) -> points (k_vm s) rp root ->
  (size <> 0 -> (PAGE_SIZE | virt) /\ (PAGE_SIZE | phys) /\ (PAGE_SIZE | size) /\ 0 <= virt < 2 ^ 64 /\ 0 <= phys /\
     virt mod 2 ^ 48 + size <= 2 ^ 48 /\ phys + size <= 2 ^ 52 /\ unmapped s root (virt mod 2 ^ 48) (virt mod 2 ^ 48 + size)) -> 0 <= size ->
  wp (part (fun v p n => set_pages t rp v p n flags false) (virt, phys, size) 0) (fun r s' => r = 0 /\ exists own',
    good (I n) own' s' /\ own ⊆ own' /\ same_regs (k_vm s) (k_vm s') /\
    forall v, ~ (size <> 0 /\ virt mod 2 ^ 48 <= v mod 2 ^ 48 < virt mod 2 ^ 48 + size) ->
      walk (ram (k_vm s')) 4 root v = walk (ram (k_vm s)) 4 root v) s.
Proof.
  intros HG Hroot Hrp Hside Hs. unfold part. destruct (Z.eqb_spec size 0) as [->|Hne].
  { wp_step. split; [done|]. exists own. by split. }
  destruct (Hside Hne) as (Hd1&Hd2&Hd3&Hd4&Hd5&Hd6&Hd7&Hd8). wp_step.
  eapply wp_mono; [by apply (set_pages_all n own)|]. intros r s' (->&own'&[H1 H2 H3 _ H5 _ _]). wp_step. split; [done|].
  exists own'. split_and!; try done. intros v Hv. apply H5; [done|]. intros Hin. by apply Hv.
Qed.

(** The three parts of [set_range], of which the middle one is empty. *)
Lemma parts_all n own s virt phys size :
  good (I (tables_for size + n)) own s -> own !! root = Some (4%nat, 0) -> points (k_vm s) rp root ->
  range_ok virt phys size -> (PAGE_SIZE | virt) -> (PAGE_SIZE | size) -> (LARGE_PAGE_SIZE | virt - phys) ->
  0 < size < LARGE_PAGE_SIZE -> unmapped s root (virt mod 2 ^ 48) (virt mod 2 ^ 48 + size) ->
  wp (let '(pre, large, pos) := range_plan virt phys (virt + size) in
      failed ← part (fun v p n => set_pages t rp v p n flags false) pre 0;
      failed ← part (fun v p n => set_large_pages t rp v p n flags false) large failed;
      part (fun v p n => set_pages t rp v p n flags false) pos failed) (fun r _ => r = 0) s.
Proof.
  intros HG Hroot Hrp (Hv&Hs&Hve&Ha&Hp&Hpe) Hdv Hds Hvp Hsz Hun.
  assert (PAGE_SIZE | phys) as Hdp.
  { replace phys with (virt - (virt - phys)) by lia. apply Z.divide_sub_r; [done|]. etrans; [|exact Hvp]. by exists 512. }
  destruct (range_plan_spec virt phys (virt + size)) as (v2&p2&v3&p3&n1&n2&n3&->&Hn1&Hn2&Hn3&Hsum&Hd1&Hd2&Hd3&_&Hs3);
    try done; try (unfold LARGE_PAGE_SIZE in *; lia).
  { by apply Z.divide_add_r. }
  assert (n2 = 0) as -> by (destruct Hd2 as [q ->]; unfold LARGE_PAGE_SIZE in *; lia).
  rewrite Z.add_0_r in Hsum. assert (size = n1 + n3) as Hsize by lia.
  assert (forall d, 0 <= d < size -> (virt + d) mod 2 ^ 48 = virt mod 2 ^ 48 + d) as Hmod.
  { intros d Hd. apply low48_add; unfold LARGE_PAGE_SIZE in *; lia. }
  rewrite Hsize, tables_for_add, <- Nat.add_assoc in HG by (done || lia).
  wp_step. eapply wp_mono; [apply (part_all (tables_for n3 + n) own); [done|done|done| |done]|].
  { intros Hne. split_and!; try done; try (unfold LARGE_PAGE_SIZE in *; lia). intros v Hv'. apply Hun. lia. }
  intros r1 s1 (->&own1&HG1&Hsub&Hreg&Hout). wp_step. unfold part at 1. cbn [Z.eqb]. wp_step.
  eapply wp_mono; [apply (part_all n own1); [done| | | |done]|by intros r s' [-> _]].
  - by eapply lookup_weaken.
  - eapply points_state; [apply Hreg|done].
  - intros Hne. destruct (Hs3 Hne) as [-> ->]. rewrite !Z.add_0_r, Hmod by lia.
    split_and!; try (by apply Z.divide_add_r); try done; try (unfold LARGE_PAGE_SIZE in *; lia).
    intros v Hv'. rewrite Hout by lia. apply Hun. lia.
Qed.
End total.

(** Aligned bounds are not moved. *)
Lemma align_start_id virt phys : 0 <= virt -> virt + PAGE_SIZE <= 2 ^ 64 -> 0 <= phys -> phys + PAGE_SIZE <= 2 ^ 64 ->
  (PAGE_SIZE | virt) -> align_start virt phys 0 = (virt, phys, 0).
Proof.
  intros Hv Hv' Hp Hp' [a ->]. destruct (align_start_spec (a * PAGE_SIZE) phys Hv Hv' Hp Hp') as (o&Ho&->&[b Hb]).
  assert (o = 0) as -> by (unfold PAGE_SIZE in *; lia). by rewrite !Z.add_0_r.
Qed.

Lemma align_end_id virt_end : 0 <= virt_end < 2 ^ 64 -> (PAGE_SIZE | virt_end) -> align_end virt_end 0 = (virt_end, 0).
Proof.
  intros Hv [a ->]. destruct (align_end_spec (a * PAGE_SIZE) 0 Hv) as (o&Ho&Hle&->&[b Hb]); [lia|plia|].
  assert (o = 0) as -> by (unfold PAGE_SIZE in *; lia). by rewrite Z.sub_0_r.
Qed.

Section vmm_map.
Context `{KernelLayout} (t : e820_table) (I : nat -> owners -> kernel -> Prop) `{!TableSource t False I}.

Lemma vmm_map_all n own s root pml4 virt phys size flags :
  good (I (tables_for size + n)) own s -> own !! root = Some (4%nat, 0) -> points (k_vm s) (pml4_of pml4) root ->
  (0x1000 | pml4_of pml4) -> flags_ok flags -> range_ok virt phys size ->
  (PAGE_SIZE | virt) -> (PAGE_SIZE | phys) -> (PAGE_SIZE | size) -> 0 < size < LARGE_PAGE_SIZE ->
  unmapped s root (virt mod 2 ^ 48) (virt mod 2 ^ 48 + size) ->
  wp (vmm_map t pml4 virt phys size flags) (fun r _ => r = 0) s.
Proof.
  intros HG Hroot Hrp Hal Hfl Hr Hdv Hdp Hds Hsz Hun. pose proof Hr as (Hv&Hs&Hve&Ha&Hp&Hpe). unfold vmm_map. fold (pml4_of pml4).
  destruct (Z.eqb_spec (pml4_of pml4) 0); [by destruct Hrp|].
  rewrite (proj2 (Z.mod_divide (pml4_of pml4) 0x1000 ltac:(lia)) Hal). cbn [Z.eqb negb].
  assert (virt + size < 2 ^ 64) by (unfold LARGE_PAGE_SIZE in *; lia).
  assert (align_start virt phys 0 = (virt, phys, 0)) as Es by (apply align_start_id; try done; unfold LARGE_PAGE_SIZE, PAGE_SIZE in *; lia).
  assert (align_end (virt + size) 0 = (virt + size, 0)) as Ee by (apply align_end_id; [lia|by apply Z.divide_add_r]).
  change (LARGE_PAGE_SIZE - 1) with (Z.ones 21). change (PAGE_SIZE - 1) with (Z.ones 12). rewrite !Z.land_ones by lia.
  destruct (Z.eqb_spec (virt mod 2 ^ 21) (phys mod 2 ^ 21)) as [Em|_]; cbn [negb].
  - unfold set_range. change (LARGE_PAGE_SIZE - 1) with (Z.ones 21). rewrite !Z.land_ones by lia. rewrite Em, Z.eqb_refl. cbn [negb].
    rewrite (u64_small (virt + size)) by lia. rewrite Es, Ee, Z.geb_leb. destruct (Z.leb_spec (virt + size) virt); [lia|].
    eapply (parts_all t I root (pml4_of pml4) flags Hfl n own); try done. by apply divide_mod_eq.
  - rewrite !(proj2 (Z.mod_divide _ (2 ^ 12) ltac:(lia))) by done. cbn [Z.eqb negb].
    rewrite (u64_small (virt + size)) by lia. rewrite Es, Ee, Z.geb_leb. destruct (Z.leb_spec (virt + size) virt); [lia|].
    replace (virt + size - virt) with size by lia. rewrite (u64_small size) by lia.
    wp_step. eapply wp_mono; [apply (set_pages_all t I root (pml4_of pml4) flags Hfl n own); try done; lia|].
    intros r s' [-> _]. by wp_step.
Qed.
End vmm_map.

(** A source that never runs dry. *)
Lemma never_dry t (dry : Prop) I : TableSource t dry I -> ~ dry -> TableSource t False I.
Proof.
  intros HTS Hd. split.
  - intros n own s HI. eapply wp_mono; [by apply ts_alloc|]. intros p s' [Hk [(_&Hdry&_)|Hf]]; [done|]. split; [done|by right].
  - apply ts_pred.
  - apply ts_vm.
Qed.

(** C1: [vmm_map] over a well-formed set of page tables, with any source of
    frames that keeps its contract and can be asked for three frames per page.  It neither panics nor
    faults and returns a number [r] between 0 and [size].  If [r] is 0, every address of the
    range is translated to the corresponding physical address, with the
    requested flags.  [r] is 0 when the source does not run dry and the range is
    page-aligned, shorter than 2 MiB and without a translation.  No address outside of
    the range is translated differently than before, in this or in any other address
    space; no translation that existed before is replaced, in any address space; and
    the tables stay well-formed. *)
Theorem vmm_map_correct `{KernelLayout} t dry I (HTS : TableSource t dry I) n own s root pml4 virt phys size flags :
  good (I (tables_for size + n)%nat) own s -> own !! root = Some (4%nat, 0) -> points (k_vm s) (pml4_of pml4) root ->
  (0x1000 | pml4_of pml4) -> flags_ok flags -> has flags PT_PRESENT = true -> range_ok virt phys size ->
  exists r s' tr own', vmm_map t pml4 virt phys size flags s = Ok r s' tr /\
    good (I n) own' s' /\ own ⊆ own' /\ 0 <= r <= size /\
    (r = 0 -> forall d, 0 <= d < size -> exists e,
       translate (ram (k_vm s')) root (virt + d) = Some (phys + d, e) /\
       clear_bits (Z.land e FLAGS_MASK) PT_PSE = clear_bits flags PT_PSE) /\
    (~ dry -> (PAGE_SIZE | virt) -> (PAGE_SIZE | phys) -> (PAGE_SIZE | size) -> 0 < size < LARGE_PAGE_SIZE ->
       unmapped s root (virt mod 2 ^ 48) (virt mod 2 ^ 48 + size) -> r = 0) /\
    (forall root' v, own !! root' = Some (4%nat, 0) ->
       ~ (virt mod 2 ^ 48 <= v mod 2 ^ 48 < virt mod 2 ^ 48 + size) ->
       translate (ram (k_vm s')) root' v = translate (ram (k_vm s)) root' v) /\
    (forall root' v pe, own !! root' = Some (4%nat, 0) -> translate (ram (k_vm s)) root' v = Some pe ->
       translate (ram (k_vm s')) root' v = Some pe).
Proof.
  intros HG Hroot Hrp Hal Hfl Hpr Hr.
  destruct (wp_elim _ _ _ (vmm_map_spec t I n own s root pml4 virt phys size flags HG Hroot Hrp Hal Hfl Hr))
    as (r&s'&tr&E&own'&Hrs&R). pose proof R as [H1 H2 H3 _ H5 _ _].
  exists r, s', tr, own'. split_and!; [exact E|done|done|lia|lia|..].
  - intros -> d Hd. by apply (region_translate I false n own s own' s' root virt phys size flags).
  - intros Hd Hdv Hdp Hds Hsz Hun. pose proof (never_dry t dry I HTS Hd) as HTS'.
    pose proof (vmm_map_all t I n own s root pml4 virt phys size flags HG Hroot Hrp Hal Hfl Hr Hdv Hdp Hds Hsz Hun) as Hall.
    unfold wp in Hall. rewrite E in Hall. exact Hall.
  - intros root' v Hr' Hv. unfold translate. by rewrite H5.
  - intros root' v pe Hr'. destruct HG as [[HT _ _] _]. by apply (kept_translate own s s'); [|apply (rg_words _ _ _ _ _ _ _ _ _ _ _ _ R)|].
Qed.

(** ** An example: mapping a page with frames from the page allocator *)

Definition ex_paged : kernel := mk_kernel (mk_mm bootmem_reset ex_buddy) (mk_vmm VMM_READY 0x40000000 (fun _ => 0) 0x210000 0 0).

Lemma ex_paged_inv : vm_inv ex_own (k_vm ex_paged).
Proof.
  unfold ex_own. split; [split|..]; cbn [ex_paged k_vm ram vm_state].
  - intros f l pre [<- [= <- <-]]%lookup_singleton_Some. split_and!; [by exists 0x210|lia|lia|lia|lia].
  - done.
  - intros f x [<- <-]%lookup_singleton_Some. split_and!; [by exists 0x210|simpl; lia|done].
  - done.
Qed.

Lemma ex_paged_ready : ready ex_own ex_paged.
Proof.
  split; [done|exists ex_lists; exact ex_buddy_inv|vm_compute; by intros [=]|].
  intros y (x&k&_&Hx&Hy). unfold ex_own. apply lookup_singleton_None.
  change (hdr ex_buddy x = Some (PG_BUDDY, k)) in Hx. rewrite ex_buddy_hdr in Hx. unfold in_block in Hy.
  repeat case_decide; [|by injection Hx|done]. injection Hx as <-. subst x. change (2 ^ 2) with 4 in Hy.
  unfold PAGE_SIZE. lia.
Qed.

Lemma ex_paged_good : good (page_source 3) ex_own ex_paged.
Proof.
  split; [exact ex_paged_inv|]. split; [exact ex_paged_ready|]. exists [0; 1; 2]. split; [by repeat constructor; set_solver|].
  split; [done|]. repeat constructor; exists 0, 2; (split; [exact I|]); (split; [reflexivity|]); split; (discriminate || reflexivity).
Qed.

Lemma vmm_map_correct_witness :
  exists s' tr e, vmm_map (H := ex_layout) ex_sane KERN_PML4 0x400000 0x7000 0x1000 ex_flags ex_paged = Ok 0 s' tr /\
    translate (ram (k_vm s')) 0x210000 0x400123 = Some (0x7123, e).
Proof.
  destruct (vmm_map_correct (H := ex_layout) ex_sane False page_source (page_table_source ex_sane) 0 ex_own ex_paged
    0x210000 KERN_PML4 0x400000 0x7000 0x1000 ex_flags ex_paged_good) as (r&s'&tr&own'&E&_&_&_&Ht&Hz&_).
  - reflexivity.
  - apply (ex_points (k_vm ex_paged)).
  - by exists 0xFFFFFFFF80010.
  - reflexivity.
  - reflexivity.
  - unfold range_ok, LARGE_PAGE_SIZE. split_and!; vm_compute; by intros [=].
  - assert (r = 0) as ->.
    { apply Hz; [exact (fun f => f)|exists 0x400; reflexivity|exists 7; reflexivity|exists 1; reflexivity|split; reflexivity|intros v _; reflexivity]. }
    destruct (Ht eq_refl 0x123 ltac:(lia)) as (e&He&_). exists s', tr, e. split; [exact E|exact He].
Defined.
