(* ===== verification/MemInit.v ===== *)
(** * The array of page descriptors (mm/mem.c with bootmem_alloc_mapped)

    [mem_init] is where the memory manager's parts first work together: segments
    of the boot pool are mapped into the address space of the kernel, with page
    tables that come from the same pool.  The code gives up with [panic] when
    RAM or tables run out, so its specification is [safe]: no fault ever, and the
    result is right when there is one. *)

From Stdlib Require Import ZArith Lia Znumtheory Bool Sorted.
From stdpp Require Import base gmap list strings.
From S2P Require Import Prelude Kmath E820 E820Facts Bootmem BootmemFacts Mem Buddy BuddyFacts BuddyInit Vmm VmmFacts VmmMap VmmBoot VmmQuery VmmHhdm.

Open Scope Z_scope.

(** ** Correctness up to panic *)

Definition safe {S A} (m : M S A) (Q : A -> S -> Prop) (s : S) : Prop :=
  match m s with Ok a s' _ => Q a s' | Panic _ _ _ => True | Fault _ => False end.

Section safe_rules.
Context {S : Type}.

Lemma wp_safe {A} (m : M S A) Q s : wp m Q s -> safe m Q s.
Proof. unfold wp, safe. by destruct (m s). Qed.

Lemma safe_mono {A} (m : M S A) (Q Q' : A -> S -> Prop) s :
  safe m Q s -> (forall a s', Q a s' -> Q' a s') -> safe m Q' s.
Proof. unfold safe. destruct (m s); auto. Qed.

Lemma safe_bind {A B} (m : M S A) (f : A -> M S B) Q s :
  safe m (fun a s' => safe (f a) Q s') s -> safe (m ≫= f) Q s.
Proof.
  unfold safe, mbind, M_bind. destruct (m s) as [a s' tr| |]; [|done..]. by destruct (f a s').
Qed.

Lemma safe_panic {A} fmt args (Q : A -> S -> Prop) s : safe (panic fmt args) Q s.
Proof. done. Qed.

(** A total step in front. *)
Lemma safe_seq {A B} (m : M S A) (f : A -> M S B) Q s :
  wp m (fun a s' => safe (f a) Q s') s -> safe (m ≫= f) Q s.
Proof. intros H. by apply safe_bind, wp_safe. Qed.

(** A run that is known to end has the result. *)
Definition ended {A} (o : outcome S A) : bool := match o with Ok _ _ _ => true | _ => false end.
Lemma safe_run {A} (m : M S A) Q s : safe m Q s -> ended (m s) = true -> exists a s' tr, m s = Ok a s' tr /\ Q a s'.
Proof. unfold safe. destruct (m s) as [a s' tr| |]; [|done..]. intros H _. by exists a, s', tr. Qed.

(** What holds of every normal return can be added. *)
Lemma wp_partial {A} (m : M S A) (Q Q' : A -> S -> Prop) s :
  wp m Q s -> (forall a s' tr, m s = Ok a s' tr -> Q' a s') -> wp m (fun a s' => Q a s' /\ Q' a s') s.
Proof. unfold wp. intros H HQ. destruct (m s) as [a s' tr| |]; [|done..]. split; [done|]. by eapply HQ. Qed.
End safe_rules.

Lemma safe_zoom {S T A} (proj : S -> T) (inj : T -> S -> S) (m : M T A) Q s :
  safe m (fun a t => Q a (inj t s)) (proj s) -> safe (zoom proj inj m) Q s.
Proof. unfold safe, zoom. by destruct (m (proj s)). Qed.

(** ** What the operations on page tables leave alone

    Before the page allocator is in use, they change neither the descriptors nor the headers
    of the segments. *)

Definition booting (s : kernel) : Prop := vm_state (k_vm s) <> VMM_READY.
Definition kept (s s' : kernel) : Prop := k_mem s' = k_mem s /\ segs (k_boot s') = segs (k_boot s).
Definition frame {A} (m : M kernel A) : Prop :=
  forall s a s' tr, booting s -> m s = Ok a s' tr -> kept s s' /\ booting s'.

Create HintDb frame.

Lemma frame_ret {A} (a : A) : frame (mret a).
Proof. intros s b s' tr Hb [= -> <- _]. done. Qed.
Lemma frame_get : frame get.
Proof. intros s b s' tr Hb [= _ <- _]. done. Qed.
Lemma frame_emit e : frame (emit e).
Proof. intros s b s' tr Hb [= _ <- _]. done. Qed.
Lemma frame_deref {A} (o : option A) : frame (deref o).
Proof. destruct o; [apply frame_ret|]. intros s b s' tr Hb [=]. Qed.
Lemma frame_fault {A} : frame (@fault kernel A).
Proof. intros s b s' tr Hb [=]. Qed.
Lemma frame_bind {A B} (m : M kernel A) (f : A -> M kernel B) : frame m -> (forall a, frame (f a)) -> frame (m ≫= f).
Proof.
  intros Hm Hf s b s' tr Hb. unfold mbind, M_bind. destruct (m s) as [a s1 tr1| |] eqn:E1; [|done..].
  destruct (Hm _ _ _ _ Hb E1) as [[K1 K2] Hb1]. destruct (f a s1) as [b' s2 tr2| |] eqn:E2; simpl; [|done..].
  intros [= <- <- _]. destruct (Hf _ _ _ _ _ Hb1 E2) as [[K3 K4] Hb2]. split; [|done]. split; congruence.
Qed.
Lemma frame_vmod f : (forall v, vm_state v <> VMM_READY -> vm_state (f v) <> VMM_READY) -> frame (vmod f).
Proof. intros Hf s b s' tr Hb [= _ <- _]. split; [done|]. by apply Hf. Qed.
Lemma frame_when b m : frame m -> frame (when b m).
Proof. intros Hm. destruct b; [done|apply frame_ret]. Qed.

#[export] Hint Resolve frame_ret frame_get frame_emit frame_deref frame_fault : frame.

(** One level of a function body. *)
Ltac frame_tac := repeat first
  [ progress (intros)
  | solve [eauto with frame]
  | apply frame_bind
  | apply frame_when
  | apply frame_vmod
  | progress unfold printk
  | case_match ].

Lemma alloc_page_segs t s a s' tr : bootmem_alloc_page_phys t s = Ok a s' tr -> segs s' = segs s.
Proof.
  assert (forall n al i s, match alloc_page_loop t al i n s with Ok _ s' _ => segs s' = segs s | _ => True end) as Hl.
  { induction n as [|n IH]; intros al i s0; cbn [alloc_page_loop]; [done|].
    unfold mbind, M_bind. destruct (entries t !! i) as [e|]; cbn [deref]; [|done]. unfold mret, M_ret. cbn [after app].
    destruct (negb _).
    { specialize (IH al (Datatypes.S i) s0). destruct (alloc_page_loop _ _ _ _ _); simpl; [exact IH|exact Logic.I..]. }
    destruct (_ >? _).
    - match goal with |- context [alloc_page_loop t ?x ?y n s0] => specialize (IH x y s0) end. destruct (alloc_page_loop _ _ _ _ _); simpl; [exact IH|exact Logic.I..].
    - done. }
  unfold bootmem_alloc_page_phys, mbind, M_bind, get. cbn [after app].
  destruct (negb _).
  { unfold not_enabled. destruct (bm_st s); cbn; by intros [= _ <- _]. }
  destruct (_ <=? _)%nat; [done|]. destruct (entries t !! _) as [e|]; cbn [deref]; [|done]. unfold mret, M_ret. cbn [after app].
  destruct (_ >? _); [done|]. match goal with |- context [alloc_page_loop t ?x ?y ?z s] => specialize (Hl z x y s) end.
  destruct (alloc_page_loop _ _ _ _ _); cbn; intros [= _ <- _]. done.
Qed.

Lemma frame_alloc_boot t : frame (on_boot (bootmem_alloc_page_phys t)).
Proof.
  intros s a s' tr Hb. unfold on_boot, zoom. destruct (bootmem_alloc_page_phys t (k_boot s)) as [p b tr1| |] eqn:E; [|done..].
  intros [= _ <- _]. split; [|done]. split; [done|]. by apply alloc_page_segs in E.
Qed.
Lemma frame_alloc_boot_virt t : frame (on_boot (bootmem_alloc_page t)).
Proof.
  intros s a s' tr Hb. unfold on_boot, zoom, bootmem_alloc_page, mbind, M_bind.
  destruct (bootmem_alloc_page_phys t (k_boot s)) as [p b tr1| |] eqn:E; [|done..]. apply alloc_page_segs in E.
  destruct (p =? 0); cbn; intros [= _ <- _]; done.
Qed.
#[export] Hint Resolve frame_alloc_boot frame_alloc_boot_virt : frame.

Lemma frame_alloc_table t : frame (__alloc_table t).
Proof.
  intros s a s' tr Hb. unfold __alloc_table, mbind at 1, M_bind at 1, get. cbn [after app].
  assert (frame (if vm_state (k_vm s) =? VMM_IDENTITY then on_boot (bootmem_alloc_page_phys t)
    else if (vm_state (k_vm s) =? VMM_TRANSITION) || (vm_state (k_vm s) =? VMM_VIRTUAL_ONLY) then on_boot (bootmem_alloc_page t)
    else printk (KERN_ERR +:+ line "No present allocator for VMM, can't alloc") [];; mret 0)) as Hf by frame_tac.
  destruct (Z.eqb_spec (vm_state (k_vm s)) VMM_READY) as [E|_]; [done|].
  match goal with |- after [] ?o = _ -> _ => destruct o as [p b tr1| |] eqn:Eo end; [|done..].
  intros [= <- <- _]. by eapply Hf.
Qed.

Lemma frame_load p i : frame (load p i).
Proof. unfold load. frame_tac. Qed.
Lemma frame_store p i v : frame (store p i v).
Proof. unfold store. frame_tac. Qed.
Lemma frame_clear p : frame (clear_table p).
Proof. unfold clear_table. frame_tac. Qed.
#[export] Hint Resolve frame_alloc_table frame_load frame_store frame_clear : frame.

Lemma frame_get_or_create t p i : frame (get_or_create_table t p i).
Proof. unfold get_or_create_table. frame_tac. Qed.
#[export] Hint Resolve frame_get_or_create : frame.

Lemma frame_set_page t p v ph fl o : frame (set_page t p v ph fl o).
Proof. unfold set_page, get_or_create_pt. frame_tac. Qed.
Lemma frame_set_large_page t p v ph fl o : frame (set_large_page t p v ph fl o).
Proof. unfold set_large_page, get_or_create_pd. frame_tac. Qed.
#[export] Hint Resolve frame_set_page frame_set_large_page : frame.

Lemma frame_set_loop set v p step n : (forall x y, frame (set x y)) -> forall i failed, frame (set_loop set v p step i n failed).
Proof. intros Hs. induction n as [|n IH]; intros i failed; cbn [set_loop]; frame_tac. Qed.
#[export] Hint Resolve frame_set_loop : frame.

Lemma frame_set_pages t p v ph n fl o : frame (set_pages t p v ph n fl o).
Proof. unfold set_pages. frame_tac. Qed.
Lemma frame_set_large_pages t p v ph n fl o : frame (set_large_pages t p v ph n fl o).
Proof. unfold set_large_pages. frame_tac. Qed.
#[export] Hint Resolve frame_set_pages frame_set_large_pages : frame.

Lemma frame_part set p failed : (forall x y z, frame (set x y z)) -> frame (part set p failed).
Proof. intros Hs. unfold part. frame_tac. Qed.
Lemma frame_set_range t p v ph n fl o : frame (set_range t p v ph n fl o).
Proof. unfold set_range. frame_tac; apply frame_part; frame_tac. Qed.
#[export] Hint Resolve frame_set_range : frame.

Section mapping.
Context `{KernelLayout} (t : e820_table).

Lemma frame_vmm_map p v ph n fl : frame (vmm_map t p v ph n fl).
Proof. unfold vmm_map. frame_tac. Qed.

Lemma frame_map_hhdm : frame (vmm_map_hhdm t).
Proof.
  assert (forall n i f k, frame (map_hhdm_loop t i n f k)) as Hl.
  { induction n as [|n IH]; intros i f k; cbn [map_hhdm_loop]; frame_tac. }
  unfold vmm_map_hhdm. frame_tac.
Qed.

Lemma frame_unmap : frame vmm_unmap_low_identity.
Proof. unfold vmm_unmap_low_identity, set_cr3. frame_tac. Qed.
End mapping.

(** ** A source that spares some frames

    [J] marks frames that are in use for something else.  A source to which they look like tables
    never hands them out. *)
Definition shielded (J : owners) (I : nat -> owners -> kernel -> Prop) (n : nat) (own : owners) (s : kernel) : Prop :=
  I n (own ∪ J) s /\ own ##ₘ J.

#[export] Instance shielded_source t dry I J `{!TableSource t dry I} : TableSource t dry (shielded J I).
Proof.
  split.
  - intros n own s [HI Hd]. eapply wp_mono; [by apply ts_alloc|]. intros p s' [Ek [(->&Hdry&HI')|(f&->&Hr&Hn&HI')]]; (split; [done|]).
    { left. by split_and!. }
    right. apply lookup_union_None in Hn as [Hn HJ]. exists f. split_and!; try done. intros x. split.
    + rewrite <- insert_union_l. apply HI'.
    + by apply map_disjoint_insert_l_2.
  - intros n own s [HI Hd]. split; [by apply (ts_pred (dry := dry))|done].
  - intros n own s s' [HI Hd] Em Est. split; [by eapply (ts_vm (dry := dry))|done].
Qed.

(** The frames of a range of [n] pages. *)
Definition frames (phys n : Z) : owners := gset_to_gmap (0%nat, 0) (list_to_set ((fun i => phys + i * PAGE_SIZE) <$> seqZ 0 n)).

Lemma frames_lookup phys n f x : frames phys n !! f = Some x -> exists i, 0 <= i < n /\ f = phys + i * PAGE_SIZE.
Proof.
  unfold frames. rewrite lookup_gset_to_gmap_Some. intros [Hf _]. apply elem_of_list_to_set, list_elem_of_fmap in Hf as (i&->&Hi).
  apply elem_of_seqZ in Hi. exists i. split; [lia|done].
Qed.

Lemma frames_apart own phys n f : own ##ₘ frames phys n -> (PAGE_SIZE | phys) -> (PAGE_SIZE | f) -> is_Some (own !! f) ->
  ~ phys <= f < phys + n * PAGE_SIZE.
Proof.
  intros Hd [a ->] [b ->] [x Hf] Hin. eapply map_disjoint_Some_l in Hd; [|exact Hf]. unfold frames in Hd.
  apply lookup_gset_to_gmap_None in Hd. apply Hd, elem_of_list_to_set, list_elem_of_fmap. exists (b - a).
  split; [lia|]. apply elem_of_seqZ. unfold PAGE_SIZE in Hin. lia.
Qed.

(** ** Mapping a segment *)

Lemma seg_ptr_phys st : 0 <= st < 2 ^ 52 -> u64 (seg_ptr st - HHDM_BASE) = st.
Proof.
  intros Hs. unfold seg_ptr, wrap. rewrite Zminus_mod_idemp_l. replace (st + HHDM_BASE - HHDM_BASE) with st by lia.
  apply Z.mod_small. lia.
Qed.

Section segments.
Context `{LayoutOk} (t : e820_table) `{!E820Table t} (kernel_end : Z).
Abbreviation I := (boot_source t kernel_end).

(** In the map of the machine a single range of RAM reaches behind the image. *)
Definition one_range : Prop := forall e f, e ∈ used t -> f ∈ used t -> e_type e = E820_TYPE_RAM -> e_type f = E820_TYPE_RAM ->
  kernel_end < e_addr e + e_size e -> kernel_end < e_addr f + e_size f -> e = f.

(** Then an allocation is one segment. *)
Lemma one_segment P l st sz : one_range -> kernel_end <= P -> Forall (seg_ok t P) (l ++ [(st, sz)]) ->
  (exists e, e ∈ used t /\ e_type e = E820_TYPE_RAM /\ e_addr e <= st /\ st + sz <= e_addr e + e_size e /\
     forall seg, seg ∈ l -> seg.1 + seg.2 <= e_addr e) -> l = [].
Proof.
  intros Hone HP Hok (e&He&Hr&Hs&Hse&Hbef). destruct l as [|seg l]; [done|]. exfalso. rewrite Forall_forall in Hok.
  destruct (Hok (st, sz) ltac:(set_solver)) as (_&_&?&?&_). destruct (Hok seg ltac:(set_solver)) as (_&_&?&?&_&f&Hf&Hfr&?&?).
  cbn [fst snd] in *. assert (e = f) as <- by (apply Hone; done || lia). specialize (Hbef seg ltac:(set_solver)). lia.
Qed.

Lemma source_booting own s : good I own s -> booting s.
Proof. intros [_ (_&_&Hst&_)]. unfold booting, VMM_READY, VMM_VIRTUAL_ONLY in *. lia. Qed.

(** The range [phys, phys + size) is mapped at [virt], writable, and holds no table. *)
Definition backed (own : owners) (s : vmm) (virt phys size : Z) : Prop :=
  (forall d, 0 <= d < size -> exists e, translate (ram s) (fr kern_pml4) (virt + d) = Some (phys + d, e) /\ has e PT_WRITABLE = true) /\
  forall f x, own !! f = Some x -> ~ phys <= f < phys + size.

(** Tables were added, and [size] bytes at [virt] were mapped, to [phys] if all went well. *)
Record placed (own : owners) (s : kernel) (own' : owners) (s' : kernel) (virt phys size : Z) (ok : Prop) : Prop := {
  pl_good : good I own' s';
  pl_sub : own ⊆ own';
  pl_regs : same_regs (k_vm s) (k_vm s');
  pl_kept : kept s s';
  pl_out : forall root' v, own !! root' = Some (4%nat, 0) -> ~ virt mod 2 ^ 48 <= v mod 2 ^ 48 < virt mod 2 ^ 48 + size ->
    walk (ram (k_vm s')) 4 root' v = walk (ram (k_vm s)) 4 root' v;
  pl_in : ok -> backed own' (k_vm s') virt phys size;
}.

Lemma shield own s phys n : good I own s -> pool_end (k_boot s) = phys + n * PAGE_SIZE ->
  (forall f x, own !! f = Some x -> f < phys) -> kernel_end <= phys -> good (shielded (frames phys n) (fun _ => I) 0) own s.
Proof.
  intros [HV (Hb&[Hke Hlt]&Hst&Hram)] Hpe Hown Hk. split; [done|]. split.
  - split; [done|]. split; [|done]. split; [done|]. intros f x [Hf|[_ Hf]]%lookup_union_Some_raw; [by eapply Hlt|].
    apply frames_lookup in Hf as (i&Hi&->). unfold PAGE_SIZE in *. lia.
  - apply map_disjoint_spec. intros f x y Hf Hj. apply frames_lookup in Hj as (i&Hi&->). specialize (Hown _ _ Hf). unfold PAGE_SIZE in *. lia.
Qed.

Lemma unshield own s phys n m : good (shielded (frames phys n) (fun _ => I) m) own s -> good I own s /\ own ##ₘ frames phys n.
Proof.
  intros [HV [(Hb&[Hke Hlt]&Hst&Hram) Hd]]. split; [|done]. split; [done|]. split; [done|]. split; [|done]. split; [done|].
  intros f x Hf. apply (Hlt f x). by apply lookup_union_Some_l.
Qed.

(** [vmm_map] of a segment at the end of the pool. *)
Lemma vmm_map_placed own s virt phys size flags :
  good I own s -> own !! fr kern_pml4 = Some (4%nat, 0) -> flags_ok flags -> has flags PT_PRESENT = true -> has flags PT_WRITABLE = true ->
  range_ok virt phys size -> (PAGE_SIZE | phys) -> (PAGE_SIZE | size) ->
  pool_end (k_boot s) = phys + size -> (forall f x, own !! f = Some x -> f < phys) -> kernel_end <= phys ->
  wp (vmm_map t KERN_PML4 virt phys size flags) (fun r s' => exists own', placed own s own' s' virt phys size (r = 0)) s.
Proof.
  intros HG Hroot Hfl Hpr Hwr Hr Hdp [n Hn] Hpe Hown Hk. pose proof (layout_pointers (k_vm s) kern_pml4 ltac:(set_solver)) as [Hp _].
  assert (0x1000 | pml4_of KERN_PML4) as Hal.
  { unfold pml4_of. simpl. pose proof lo_window as Hw. rewrite Forall_forall in Hw. apply (Hw kern_pml4). set_solver. }
  eapply wp_mono.
  - apply wp_partial; [apply (vmm_map_spec t (shielded (frames phys n) (fun _ => I)) 0 own s (fr kern_pml4) KERN_PML4); try done|].
    + apply (shield own s phys n HG); try done. lia.
    + intros a s' tr E. exact (frame_vmm_map t _ _ _ _ _ _ _ _ _ (source_booting _ _ HG) E).
  - intros r s' [(own'&_&R) [K _]]. exists own'. pose proof R as [G S Rr _ O _]. apply unshield in G as [G Hd].
    split; try done. intros ->. split.
    + intros d Hd'. destruct (region_translate _ _ _ _ _ _ _ _ _ _ _ _ R Hr Hpr d Hd') as (e&Et&He). exists e. split; [done|].
      by eapply writable_leaf.
    + intros f x Hf. rewrite Hn. apply (frames_apart own' phys n); [done|done| |by eexists].
      destruct G as [[HT _ _] _]. destruct x. by eapply (tb_frame _ _ HT).
Qed.

(** The loop over a chain of one segment. *)
Lemma map_segment_wp virt flags fuel own s st sz nxt :
  good I own s -> own !! fr kern_pml4 = Some (4%nat, 0) -> flags_ok flags -> has flags PT_PRESENT = true -> has flags PT_WRITABLE = true ->
  chain (segs (k_boot s)) nxt [(st, sz)] -> (0 < fuel)%nat -> range_ok virt st sz -> 0 < sz -> (PAGE_SIZE | st) -> (PAGE_SIZE | sz) ->
  pool_end (k_boot s) = st + sz -> (forall f x, own !! f = Some x -> f < st) -> kernel_end <= st ->
  wp (map_segments t virt flags 0 0 nxt fuel) (fun r s' => exists own', placed own s own' s' virt st sz (r.1 = 0)) s.
Proof.
  intros HG Hroot Hfl Hpr Hwr (->&nxt'&Hm&->) Hfuel Hr Hsz Hds Hdz Hpe Hown Hk. destruct fuel as [|fuel]; [lia|]. cbn [map_segments].
  pose proof Hr as (Hv&Hs&Hve&Ha&Hp&Hpe'). rewrite seg_ptr_phys by lia. do 2 wp_step. wp_step. apply (wp_deref (mk_seg sz None)); [done|].
  cbn [seg_size seg_next]. rewrite Z.add_0_r, (u64_small virt) by (unfold LARGE_PAGE_SIZE in *; lia).
  wp_step. eapply wp_mono; [by apply (vmm_map_placed own s virt st sz flags)|]. intros r s' Hpl.
  assert (forall f o, map_segments t virt flags o r None f = mret (r, o)) as -> by (by intros []). wp_step. exact Hpl.
Qed.

(** The pool behind an allocation of segments. *)
Lemma good_pool own s b : good I own s -> bm_inv t kernel_end b -> pool_end (k_boot s) <= pool_end b -> good I own (set_boot b s).
Proof.
  intros [HV (Hb&[Hke Hlt]&Hst&Hram)] Hb' Hle. split; [exact HV|]. split; [exact Hb'|]. split; [|done]. split; [done|].
  intros f x Hf. specialize (Hlt f x Hf). change (KERNEL_PHYS <= f < pool_end b). lia.
Qed.

(** The outcome of a boot-time allocation: tables may have been added, only the
    range of [size] bytes at [virt] is translated differently, and it is backed if [ok]. *)
Definition allocated_at (own : owners) (s : kernel) (virt size : Z) (ok : Prop) (s' : kernel) : Prop :=
  exists own', good I own' s' /\ own ⊆ own' /\ same_regs (k_vm s) (k_vm s') /\ k_mem s' = k_mem s /\
    (forall root' v, own !! root' = Some (4%nat, 0) -> ~ virt mod 2 ^ 48 <= v mod 2 ^ 48 < virt mod 2 ^ 48 + size ->
      walk (ram (k_vm s')) 4 root' v = walk (ram (k_vm s)) 4 root' v) /\
    (ok -> exists phys, backed own' (k_vm s') virt phys size).

Lemma allocated_at_refl own s virt size (ok : Prop) : ~ ok -> good I own s -> allocated_at own s virt size ok s.
Proof. intros Hn HG. exists own. by split_and!. Qed.

Lemma alloc_mapped_safe own s virt bytes flags :
  one_range -> good I own s -> own !! fr kern_pml4 = Some (4%nat, 0) -> flags_ok flags -> has flags PT_PRESENT = true -> has flags PT_WRITABLE = true ->
  (PAGE_SIZE | virt) -> 0 < virt -> virt + 2 ^ 42 < 2 ^ 64 -> virt mod 2 ^ 48 + 2 ^ 41 <= 2 ^ 48 -> 0 <= bytes <= 2 ^ 40 ->
  safe (bootmem_alloc_mapped t virt bytes flags) (fun r s' => (r = 0 \/ r = virt) /\
    allocated_at own s virt (ROUND_UP bytes PAGE_SIZE) (r = virt) s') s.
Proof.
  intros Hone HG Hroot Hfl Hpr Hwr Hd Hv0 Hv Hv48 Hby. pose proof HG as [HV (Hb&[Hke Hlt]&Hst&Hram)].
  assert (forall s1 sz, good I own s1 -> k_vm s1 = k_vm s -> k_mem s1 = k_mem s ->
    (0 = 0 \/ 0 = virt) /\ allocated_at own s virt sz (0 = virt) s1) as Hnull.
  { intros s1 sz HG1 Ev Em. split; [by left|]. exists own. rewrite Ev, Em. split_and!; try done. lia. }
  unfold bootmem_alloc_mapped. apply safe_seq. wp_step. rewrite (bool_decide_eq_true_2 _ (bi_enabled _ _ _ Hb)). cbn [negb].
  destruct (Z.eqb_spec virt 0); [lia|].
  destruct (Z.eqb_spec bytes 0); [apply wp_safe; wp_step; by apply Hnull|].
  destruct (round_up_page bytes) as ((Hr1&Hr2)&Hrd&_); [lia|]. set (nb := ROUND_UP bytes PAGE_SIZE) in *. unfold PAGE_SIZE in Hr2.
  pose proof (layout_pointers (k_vm s) kern_pml4 ltac:(set_solver)) as [Hp _].
  assert (0x1000 | kern_pml4) as Hal.
  { pose proof lo_window as Hw. rewrite Forall_forall in Hw. apply (Hw kern_pml4). set_solver. }
  apply safe_seq. eapply wp_mono; [apply (has_mapping_wp own s (fr kern_pml4) KERN_PML4 virt nb HV Hroot); [done|done|done|lia|lia|lia]|].
  intros m s0 (->&_&_). destruct (m =? 0); cbn [negb]; [|apply wp_safe; wp_step; by apply Hnull].
  apply safe_seq. unfold on_boot. apply wp_zoom. eapply wp_mono; [apply (alloc_segments_wp t kernel_end _ nb Hb); [lia|done]|].
  intros seg b (Hb'&Hseg). pose proof (bi_kernel _ _ _ Hb). pose proof (bi_order _ _ _ Hb). destruct seg as [p|].
  - destruct Hseg as (_&l&st&sz&Hc&Htot&Hok&_&Hend&_&Hin). assert (l = []) as -> by (eapply one_segment; [done| |exact Hok|exact Hin]; lia).
    cbn [app] in *. assert (sz = nb) as -> by (unfold total in Htot; simpl in Htot; lia).
    apply Forall_singleton in Hok as (Hds&_&Hsz&Hge&Hle&_). cbn [fst snd] in Hds, Hsz, Hge, Hle.
    assert (good I own (set_boot b s)) as HG1 by (apply good_pool; [done|done|lia]).
    apply safe_seq. wp_step. apply safe_seq. change (segs (k_boot (set_boot b s))) with (segs b).
    eapply wp_mono; [apply (map_segment_wp virt flags _ own (set_boot b s) st nb (Some p) HG1 Hroot Hfl Hpr Hwr Hc)|].
    + destruct Hc as (_&nx&Hm&_). apply Nat.neq_0_lt_0, (map_size_ne_0_lookup_2 _ (seg_ptr st)). by eexists.
    + unfold range_ok, LARGE_PAGE_SIZE. lia.
    + done.
    + done.
    + done.
    + done.
    + intros f x Hf. specialize (Hlt f x Hf). lia.
    + lia.
    + intros [failed off] s' (own'&[G S R K O Hin']). cbn [fst] in Hin'. destruct (Z.eqb_spec failed 0) as [E0|]; cbn [negb]; [|apply safe_panic].
      destruct (negb (off =? nb)); [apply safe_panic|].
      apply wp_safe. wp_step. split; [by right|]. exists own'. split_and!; try done; [apply K|]. intros _. exists st. by apply Hin'.
  - apply wp_safe. wp_step. destruct Hseg as (_&Hpe&_). apply Hnull; [|done|done]. apply good_pool; [done|done|lia].
Qed.

(** The array is reached through its mapping. *)
Lemma write_range_wp s virt n : 0 <= n ->
  (forall d, 0 <= d < n -> writable (k_vm s) (virt + d) = true) -> wp (write_range virt n) (fun _ s' => s' = s) s.
Proof.
  intros Hn Hw. unfold write_range. set (k := Z.to_nat _).
  assert (forall j i, 0 <= i -> (i + Z.of_nat j - 1) * PAGE_SIZE < n ->
    wp (for_loop (i * PAGE_SIZE) PAGE_SIZE j (fun off => s ← get; if writable (k_vm s) (virt + off) then mret tt else fault)) (fun _ s' => s' = s) s) as Hl.
  { induction j as [|j IH]; intros i Hi Hj; cbn [for_loop]; [by wp_step|]. unfold PAGE_SIZE in *. do 3 wp_step.
    rewrite Hw by lia. wp_step. replace (i * 4096 + 4096) with ((i + 1) * 4096) by lia. apply IH; lia. }
  apply (Hl k 0); [done|]. unfold k. pose proof (Z.mul_div_le (n + PAGE_SIZE - 1) PAGE_SIZE ltac:(done)).
  assert (0 <= (n + PAGE_SIZE - 1) / PAGE_SIZE) by (apply Z.div_pos; unfold PAGE_SIZE; lia). unfold PAGE_SIZE in *. lia.
Qed.

(** [mem_init] either panics or installs the cleared array for the pages below the
    end of RAM, in memory that holds no page table; only the addresses of the array are translated
    differently than before. *)
Lemma mem_init_safe own s last :
  one_range -> good I own s -> own !! fr kern_pml4 = Some (4%nat, 0) -> cr3 (k_vm s) = fr kern_pml4 -> 0 <= last <= 2 ^ 47 ->
  safe (mem_init t last) (fun r s' => r = 0 /\ exists own', good I own' s' /\ own ⊆ own' /\ same_regs (k_vm s) (k_vm s') /\
    k_mem s' = mk_mem (cleared_map (last / PAGE_SIZE)) (last / PAGE_SIZE) (free_matrix (k_mem s)) (managed_mem (k_mem s)) /\
    (forall root' v, own !! root' = Some (4%nat, 0) -> ~ 0xEA0000000000 <= v mod 2 ^ 48 < 0xEA0000000000 + 2 ^ 40 + PAGE_SIZE ->
      walk (ram (k_vm s')) 4 root' v = walk (ram (k_vm s)) 4 root' v) /\
    exists phys, backed own' (k_vm s') MEM_MAP_ADDR phys (last / PAGE_SIZE * sizeof_page)) s.
Proof.
  intros Hone HG Hroot Hc3 Hl. unfold mem_init.
  assert (0 <= last / PAGE_SIZE <= 2 ^ 35) as Hnr by (unfold PAGE_SIZE; split; [apply Z.div_pos; lia|apply Z.div_le_upper_bound; lia]).
  set (nr := last / PAGE_SIZE) in *. rewrite u64_small by (unfold sizeof_page; lia).
  destruct (round_up_page (nr * sizeof_page)) as ((Hrl&Hru)&_); [unfold sizeof_page; lia|]. unfold sizeof_page in Hru.
  apply safe_bind. eapply safe_mono.
  { apply (alloc_mapped_safe own s MEM_MAP_ADDR); try done.
    - by exists 0xFFFFEA0000000.
    - unfold sizeof_page. lia. }
  intros r s1 (Hr&own1&G1&S1&R1&Em&O1&Hin). destruct (Z.eqb_spec r 0) as [|Hnz]; [apply safe_panic|].
  destruct Hr as [|Er]; [done|]. destruct (Hin Er) as (phys&Hmap&Hap). subst r.
  apply wp_safe. wp_step. eapply wp_mono; [apply (write_range_wp s1); [unfold sizeof_page; lia|]|].
  { intros d Hd. unfold writable. destruct R1 as (_&_&->&_). rewrite Hc3. destruct (Hmap d ltac:(lia)) as (e&->&He). exact He. }
  intros [] s2 ->. unfold printk. do 5 wp_step. split; [done|]. exists own1.
  split_and!; try done.
  - cbn. by rewrite Em.
  - intros root' v Hr' Hv. cbn. apply O1; [done|]. intros Hi. apply Hv. change (MEM_MAP_ADDR mod 2 ^ 48) with 0xEA0000000000 in Hi.
    unfold sizeof_page in Hi. lia.
  - exists phys. split; [intros d Hd; apply Hmap; lia|]. intros f x Hf Hi. apply (Hap f x Hf). lia.
Qed.
End segments.
