(* ===== verification/MemSetup.v ===== *)
(** * Bringing up memory (the memory part of entry, kernel/entry.c)

    From the firmware map to a running page allocator: e820, page tables, boot pool, direct
    map, descriptors and buddy allocator, in the order of [entry].  The theorem joins the
    specifications of all these components. *)

From Stdlib Require Import ZArith Lia Znumtheory Bool.
From stdpp Require Import base gmap list strings.
From S2P Require Import Prelude Kmath E820 E820Facts Bootmem BootmemFacts Mem Buddy BuddyFacts BuddyAlloc BuddyInit Vmm VmmFacts VmmMap VmmBoot VmmQuery VmmHhdm VmmUser MemInit.

Open Scope Z_scope.

(** ** The calls of entry *)

(** The statics of e820.c, and those of the rest of the memory manager. *)
Record memsys := mk_memsys { ms_e820 : e820_state; ms_kernel : kernel }.
Definition on_e820 {A} (m : M e820_state A) : M memsys A := zoom ms_e820 (fun e s => mk_memsys e (ms_kernel s)) m.
Definition on_kern {A} (m : M kernel A) : M memsys A := zoom ms_kernel (fun k s => mk_memsys (ms_e820 s) k) m.
Definition on_mm {A} (m : M mm_state A) : M kernel A := zoom k_mm (fun mm s => mk_kernel mm (k_vm s)) m.

Section setup.
(** [__kernel_vma_end] of the linker script. *)
Context `{KernelLayout} (kernel_vma_end : Z).

(** Up to the direct map. *)
Definition early_memory (firmware : e820_table) : M memsys unit :=
  on_kern vmm_init;;
  on_e820 (e820_init firmware);;
  s ← get;
  let table := e820_get_table (ms_e820 s) in
  low ← on_kern vmm_get_low_map_end;
  on_kern (on_boot (bootmem_init table kernel_vma_end low));;
  on_kern (vmm_map_hhdm table);;
  mret tt.

(** From the end of the identity map on. *)
Definition late_memory : M memsys unit :=
  s ← get;
  let table := e820_get_table (ms_e820 s) in
  on_kern vmm_unmap_low_identity;;
  on_kern (mem_init table (e820_get_last_ram_addr (ms_e820 s)));;
  on_kern (on_mm (buddy_init table));;
  on_kern vmm_use_alloc_pages;;
  mret tt.
End setup.

(** ** The sanitized table *)

Section table.
Context (fw t : e820_table) (Hs : E820Sane (used t)) (Ht : forall a, type_at (used t) a = type_at (entries fw) a).

Lemma used_covered e : e ∈ used t -> exists f, f ∈ entries fw /\ e_addr e + e_size e <= e_addr f + e_size f.
Proof.
  intros [i Hi]%list_elem_of_lookup. destruct (sane_lookup _ _ _ Hs Hi) as [(?&?&?&?) Hsz].
  assert (covers e (e_addr e + e_size e - 1) = true) as Hc
    by (unfold covers; apply andb_true_intro; split; [apply Z.leb_le|apply Z.ltb_lt]; lia).
  pose proof (sane_type_at _ _ _ _ Hs Hi Hc) as Hty. rewrite Ht in Hty.
  pose proof (proj1 (Forall_lookup _ _) (sane_type (es := used t)) i e Hi) as Hpos. simpl in Hpos.
  destruct (type_at_max (entries fw) (e_addr e + e_size e - 1)) as (_&_&[Hz|(j&f&Hj&Hcf&_)]); [lia|].
  exists f. split; [by eapply list_elem_of_lookup_2|]. unfold covers in Hcf. breflect. lia.
Qed.

Lemma used_bound B : Forall (fun e => e_addr e + e_size e <= B) (entries fw) -> Forall (fun e => e_addr e + e_size e <= B) (used t).
Proof.
  rewrite !Forall_forall. intros HB e He. destruct (used_covered e He) as (f&Hf&Hle). specialize (HB f Hf). simpl in HB. lia.
Qed.

(** A RAM page of the table is RAM of the firmware map. *)
Lemma ram_page_type p a : ram_page t p -> p <= a < p + PAGE_SIZE -> type_at (entries fw) a = E820_TYPE_RAM.
Proof.
  intros [_ (e&[i Hi]%list_elem_of_lookup&Hr&Hlo&Hhi)] Ha. rewrite <- Ht, <- Hr. eapply sane_type_at; [done|exact Hi|].
  unfold covers. apply andb_true_intro. split; [apply Z.leb_le|apply Z.ltb_lt]; lia.
Qed.

(** RAM behind the kernel gives a first range for the pool. *)
Lemma pool_exists ke a : type_at (entries fw) a = E820_TYPE_RAM -> ke <= a ->
  exists i e, first_pool_entry t ke i e /\ type_at (entries fw) (e_addr e) = E820_TYPE_RAM.
Proof.
  intros Ha Hle. rewrite <- Ht in Ha. destruct (type_at_max (used t) a) as (_&_&[Hz|(j&f&Hj&Hc&Hf)]); [by rewrite Ha in Hz|].
  unfold covers in Hc. breflect.
  destruct (list_find_elem_of (fun e => e_type e = E820_TYPE_RAM /\ ke < e_addr e + e_size e) (used t) f) as [[i e] Hfind].
  { by eapply list_elem_of_lookup_2. } { split; [congruence|lia]. }
  apply list_find_Some in Hfind as (Hi&[Hr Hk]&Hfirst). exists i, e. destruct (sane_lookup _ _ _ Hs Hi) as [(?&?&?&?) Hsz].
  split.
  - split_and!; try done. intros k g Hk' Hg Hgr. specialize (Hfirst k g Hg Hk'). apply Z.nlt_ge. intros Hlt. by apply Hfirst.
  - rewrite <- Ht, <- Hr. eapply sane_type_at; [done|exact Hi|]. unfold covers. apply andb_true_intro.
    split; [apply Z.leb_le|apply Z.ltb_lt]; lia.
Qed.
End table.

(** ** Up to the direct map *)

Section correct.
Context `{LayoutOk} (kernel_vma_end : Z) (fw : e820_table).
Abbreviation ke := (KERNEL_END kernel_vma_end).

(** What the linker and the firmware provide: an image of at most 2 MiB with the static tables in
    it, and a map of 2 to 128 ranges that fits the direct map, with RAM below 1 GiB only and some
    of it behind the image, in a single range of the sanitized map.  (With more than one,
    [bootmem_alloc_mapped] can lose the failure of all but the last [vmm_map].) *)
Record boot_ok : Prop := {
  bo_image : kernel_vma_start < kernel_vma_end <= kernel_vma_start + LARGE_PAGE_SIZE;
  bo_tables : Forall (fun p => p + PAGE_SIZE <= kernel_vma_end) [kern_pml4; pdpt_low; pd_low; pdpt_kern; pd_kern];
  bo_map : table_ok fw;
  bo_count : 2 <= entries_count fw <= 128;
  bo_fits : Forall (fun e => e_addr e + e_size e <= HHDM_SIZE - LARGE_PAGE_SIZE) (entries fw);
  bo_low : forall a, type_at (entries fw) a = E820_TYPE_RAM -> a < 2 ^ 30;
  bo_ram : exists a, ke <= a /\ type_at (entries fw) a = E820_TYPE_RAM;
  bo_one : forall u e tr, e820_init fw e820_reset = Ok u e tr -> one_range (e820_get_table e) ke;
}.

(** What the sanitized table [t] with the end of RAM [last] promises from then on. *)
Record table_ready (t : e820_table) (last : Z) : Prop := {
  tr_table : E820Table t;
  tr_fits : fits t;
  tr_types : forall a, type_at (used t) a = type_at (entries fw) a;
  tr_last : 0 <= last <= 2 ^ 30;
  tr_max : forall a, type_at (entries fw) a = E820_TYPE_RAM -> a < last;
  tr_one : one_range t ke;
}.

Lemma kernel_end_eq : boot_ok -> ke = kernel_vma_end - kernel_vma_start + KERNEL_PHYS /\ KERNEL_PHYS < ke <= 0x400000.
Proof.
  intros [Him _ _ _ _ _ _ _]. unfold KERNEL_END, KERNEL_SIZE, KERNEL_BASE, LARGE_PAGE_SIZE, kernel_vma_start, KERNEL_PHYS in *.
  rewrite (u64_small (_ - _)) by lia. rewrite ?u64_small by lia. lia.
Qed.

Lemma e820_ready s : boot_ok -> ms_e820 s = e820_reset ->
  wp (on_e820 (e820_init fw)) (fun _ s' => ms_kernel s' = ms_kernel s /\
    table_ready (e820_get_table (ms_e820 s')) (e820_get_last_ram_addr (ms_e820 s'))) s.
Proof.
  intros [_ _ Hmap Hcnt Hfit Hlow (a&_&Ha) Hone] Es. unfold on_e820. apply wp_zoom. rewrite Es.
  eapply wp_mono; [apply wp_partial; [by apply (e820_init_wp fw a)|exact Hone]|].
  intros [] e [(Hsane&Hc&Hlen&Hty&Hlast&Hmax) Hone']. split; [done|].
  cbn [ms_e820]. set (t := e820_get_table e) in *. set (last := e820_get_last_ram_addr e) in *.
  pose proof (used_bound fw t Hsane Hty _ Hfit) as Hb. split; try done.
  - split; [done|done|rewrite Hlen; lia|]. eapply Forall_impl; [exact Hb|]. intros x Hx. simpl in Hx.
    unfold HHDM_SIZE, LARGE_PAGE_SIZE, kernel_vma_start, HHDM_BASE in Hx. lia.
  - eapply Forall_impl; [exact Hb|]. intros x Hx. simpl in *. lia.
  - pose proof (Hlow _ Hlast). split; [|lia]. pose proof (Hmax a Ha) as Hal.
    destruct (type_at_max (entries fw) a) as (_&_&[Hz|(i&f&Hi&Hcv&_)]); [by rewrite Ha in Hz|].
    destruct Hmap as [_ Hok]. pose proof (proj1 (Forall_lookup _ _) Hok i f Hi) as [Hf _]. unfold covers in Hcv. breflect. lia.
Qed.

(** The boot pool becomes the source of page tables. *)
Lemma pool_source s t last : boot_ok -> table_ready t last ->
  vm_inv own_boot (k_vm s) -> vm_state (k_vm s) = VMM_IDENTITY -> low_map_end (k_vm s) = 0x40000000 -> bm_st (k_boot s) = DISABLED ->
  wp (on_boot (bootmem_init t kernel_vma_end (low_map_end (k_vm s)))) (fun _ s' =>
    good (boot_source t ke) own_boot s' /\ k_vm s' = k_vm s /\ k_mem s' = k_mem s) s.
Proof.
  intros Hbo [Htab Hfit Hty _ Hmax _] HV Est Elow Hdis. destruct (kernel_end_eq Hbo) as [Eke Hke].
  pose proof (bo_low Hbo) as Hlow. destruct (bo_ram Hbo) as (a&Hka&Ha). assert (E820Sane (used t)) as Hsane by apply et_sane.
  destruct (pool_exists fw t Hsane Hty ke a Ha Hka) as (i&e&Hfst&He). specialize (Hlow _ He) as Hel.
  apply wp_zoom. eapply wp_mono; [apply (bootmem_init_wp t kernel_vma_end _ i e); [done|unfold KERNEL_PHYS in *; lia|done|rewrite Elow; lia]|].
  intros r b (_&Hb&Hpe&_). split; [|done]. split; [exact HV|]. split; [exact Hb|]. split; [|split].
  - split; [lia|]. intros f x Hf. pose proof (bi_kernel _ _ _ Hb). change (pool_end (k_boot (set_boot b s))) with (pool_end b).
    pose proof (bo_tables Hbo) as Htb. rewrite Forall_forall in Htb.
    assert (exists p, p ∈ [kern_pml4; pdpt_low; pd_low; pdpt_kern; pd_kern] /\ f = fr p) as (p&Hp&->).
    { apply own_boot_cases in Hf as [[-> _]|[[-> _]|[[-> _]|[[-> _]|[-> _]]]]]; eexists; (split; [|reflexivity]); set_solver. }
    specialize (Htb p Hp). destruct (layout_page p Hp) as (q&Eq&Hq). simpl in Htb. split; [rewrite Eq; unfold KERNEL_PHYS, PAGE_SIZE; lia|].
    unfold fr. rewrite Eke in *. unfold PAGE_SIZE in Htb. lia.
  - change (k_vm (set_boot b s)) with (k_vm s). rewrite Est. done.
  - change (k_vm (set_boot b s)) with (k_vm s). rewrite Est. intros p Hp. simpl.
    pose proof (ram_page_type fw t Hsane Hty p (p + PAGE_SIZE - 1) Hp ltac:(unfold PAGE_SIZE; lia)) as Hr. apply (bo_low Hbo) in Hr. lia.
Qed.

(** The state between the two halves: the direct map is built, from the boot pool. *)
Record half_way (s0 s : memsys) (own : owners) : Prop := {
  hw_table : table_ready (e820_get_table (ms_e820 s)) (e820_get_last_ram_addr (ms_e820 s));
  hw_good : good (boot_source (e820_get_table (ms_e820 s)) ke) own (ms_kernel s);
  hw_root : own !! fr kern_pml4 = Some (4%nat, 0);
  hw_state : vm_state (k_vm (ms_kernel s)) = VMM_TRANSITION;
  hw_cr3 : cr3 (k_vm (ms_kernel s)) = fr kern_pml4;
  hw_mem : k_mem (ms_kernel s) = k_mem (ms_kernel s0);
  hw_kernel : forall d, 0 <= d < 2 ^ 21 -> walk (ram (k_vm (ms_kernel s))) 4 (fr kern_pml4) (kernel_vma_start + d) = Some (kernel_entry, 2%nat);
}.

Lemma kernel_window d : 0 <= d < 2 ^ 21 -> (kernel_vma_start + d) mod 2 ^ 48 = 0xFFFF80000000 + d.
Proof.
  intros Hd. destruct (low48_add kernel_vma_start d ltac:(done) ltac:(lia)) as [_ ->]; [|done].
  change (kernel_vma_start mod 2 ^ 48) with 0xFFFF80000000. lia.
Qed.

Lemma early_memory_wp s :
  boot_ok -> ms_e820 s = e820_reset -> zeroed (ram (k_vm (ms_kernel s))) -> bm_st (k_boot (ms_kernel s)) = DISABLED ->
  wp (early_memory kernel_vma_end fw) (fun _ s' => exists own, half_way s s' own) s.
Proof.
  intros Hbo Ee Hz Hdis. unfold early_memory. wp_step. apply wp_zoom.
  eapply wp_mono; [by apply vmm_init_wp|]. intros [] k1 (Emm&Est&Elow&Ec3&_&_&Hbt). wp_step.
  eapply wp_mono; [by apply e820_ready|]. intros [] s2 (Ek&Htr). cbn [ms_kernel] in Ek. do 2 wp_step.
  set (t := e820_get_table (ms_e820 s2)) in *. set (last := e820_get_last_ram_addr (ms_e820 s2)) in *.
  wp_step. apply wp_zoom. unfold vmm_get_low_map_end. wp_step. cbn [ms_kernel]. rewrite Ek. wp_step. apply wp_zoom. cbn [ms_kernel].
  assert (vm_inv own_boot (k_vm k1)) as HV1.
  { split; [by apply boot_tables_ok|by apply own_boot_reach|by rewrite Est]. }
  eapply wp_mono; [apply (pool_source k1 t last Hbo Htr HV1 Est Elow); unfold k_boot; by rewrite Emm|].
  intros r k3 (HG3&Ev3&Em3). wp_step. apply wp_zoom. cbn [ms_kernel]. pose proof (tr_table _ _ Htr) as Htab.
  eapply wp_mono.
  { apply wp_partial; [apply (vmm_map_hhdm_wp t ke (tr_fits _ _ Htr) own_boot k3 HG3)|].
    - apply own_boot_cases. by left.
    - by rewrite Ev3.
    - intros r' k4 tr E. exact (frame_map_hhdm t _ _ _ _ (source_booting t ke _ _ HG3) E). }
  intros r' k4 [(own'&k5&[G S R O _]&->&_&_) [[Kmem _] _]]. wp_step. exists own'. cbn [ms_e820 ms_kernel].
  assert (own_boot !! fr kern_pml4 = Some (4%nat, 0)) as Hroot by (apply own_boot_cases; by left).
  split; cbn [ms_e820 ms_kernel k_vm set_vm set_vm_state vm_state cr3 ram]; try done.
  - apply transition_good; [apply Htr|done|]. destruct R as [-> _]. by rewrite Ev3.
  - by eapply lookup_weaken.
  - destruct R as (_&_&->&_). by rewrite Ev3.
  - transitivity (k_mem k3); [exact Kmem|]. rewrite Em3. unfold k_mem. by rewrite Emm.
  - intros d Hd. rewrite O, Ev3, boot_walk by (done || rewrite kernel_window by done; unfold HHDM_SIZE, kernel_vma_start, HHDM_BASE; lia).
    cbv zeta. rewrite kernel_window by done. rewrite decide_False, decide_True by lia. done.
Qed.

(** ** The running memory manager *)

(** The direct map is complete: every RAM page, and the frame buffer, can be written through
    it.  [vmm_map_hhdm] ends like this when it reports no failure; the pointers that
    [resolve] accepts from then on rely on it. *)
Record direct_map (s : memsys) : Prop := {
  dm_ram : forall p, ram_page (e820_get_table (ms_e820 s)) p -> exists e,
    translate (ram (k_vm (ms_kernel s))) (fr kern_pml4) (HHDM_BASE + p) = Some (p, e) /\ has e PT_WRITABLE = true;
  dm_screen : forall p, (PAGE_SIZE | p) -> 0xA0000 <= p < 0xC0000 -> exists e,
    translate (ram (k_vm (ms_kernel s))) (fr kern_pml4) (HHDM_BASE + p) = Some (p, e) /\ has e PT_WRITABLE = true;
}.

(** The kernel owns its page tables, which are reached through the direct map; the free pages are
    the RAM pages outside of the image and the boot pool; the array of descriptors is mapped, in memory without
    page tables. *)
Record memory_up (s : memsys) (own : owners) : Prop := {
  mu_types : forall a, type_at (used (e820_get_table (ms_e820 s))) a = type_at (entries fw) a;
  mu_tables : vm_inv own (k_vm (ms_kernel s));
  mu_root : own !! fr kern_pml4 = Some (4%nat, 0);
  mu_cr3 : cr3 (k_vm (ms_kernel s)) = fr kern_pml4;
  mu_ready : ready own (ms_kernel s);
  mu_locked : bm_st (k_boot (ms_kernel s)) = LOCKED;
  mu_free : forall y, free_page (k_mem (ms_kernel s)) y <->
    ram_page (e820_get_table (ms_e820 s)) (y * PAGE_SIZE) /\ 0 <= y /\
    ~ KERNEL_PHYS <= y * PAGE_SIZE < pool_end (k_boot (ms_kernel s));
  mu_array : exists phys, backed own (k_vm (ms_kernel s)) MEM_MAP_ADDR phys (mem_nr_pages (k_mem (ms_kernel s)) * sizeof_page);
  mu_none : forall x k, ~ allocated (k_mem (ms_kernel s)) x k;
  mu_direct : direct_map s;
  mu_low : forall v, v mod 2 ^ 48 < 2 ^ 39 -> translate (ram (k_vm (ms_kernel s))) (fr kern_pml4) v = None;
  mu_kernel : forall d, 0 <= d < 2 ^ 21 -> exists e,
    translate (ram (k_vm (ms_kernel s))) (fr kern_pml4) (kernel_vma_start + d) = Some (KERNEL_PHYS + d, e);
}.

Lemma ram_page_below t last p : table_ready t last -> ram_page t p -> 0 <= p /\ p + PAGE_SIZE <= last.
Proof.
  intros [Htab _ Hty _ Hmax _] Hp. pose proof (ram_page_type fw t et_sane Hty p (p + PAGE_SIZE - 1) Hp ltac:(unfold PAGE_SIZE; lia)) as Ha.
  apply Hmax in Ha. destruct Hp as [_ (e&He&_&Hlo&_)]. pose proof (sane_ok (es := used t)) as Hok. rewrite Forall_forall in Hok.
  destruct (Hok e He) as [[? _] _]. lia.
Qed.

Lemma direct_map_same s last s' : table_ready (e820_get_table (ms_e820 s)) last -> ms_e820 s' = ms_e820 s ->
  (forall p, 0 <= p < 2 ^ 30 -> walk (ram (k_vm (ms_kernel s'))) 4 (fr kern_pml4) (HHDM_BASE + p) =
     walk (ram (k_vm (ms_kernel s))) 4 (fr kern_pml4) (HHDM_BASE + p)) -> direct_map s -> direct_map s'.
Proof.
  intros Htr Ee Hw [H1 H2]. split; unfold translate in *; rewrite ?Ee.
  - intros p Hp. destruct (ram_page_below _ _ p Htr Hp). pose proof (tr_last _ _ Htr). rewrite Hw by (unfold PAGE_SIZE in *; lia). by apply H1.
  - intros p Hd Hp. rewrite Hw by lia. by apply H2.
Qed.

Lemma kernel_translated r root d : 0 <= d < 2 ^ 21 -> walk r 4 root (kernel_vma_start + d) = Some (kernel_entry, 2%nat) ->
  exists e, translate r root (kernel_vma_start + d) = Some (KERNEL_PHYS + d, e).
Proof.
  intros Hd Hw. destruct (maps_to_translate KERNEL_PHYS 0xFFFF80000000 (Z.lor (Z.lor PT_PRESENT PT_WRITABLE) PT_GLOBAL)
    r root (kernel_vma_start + d)) as (e&Et&_); [|done|].
  - rewrite Hw, kernel_window by done. apply kernel_leaf. lia.
  - exists e. rewrite Et, kernel_window by done. repeat f_equal. lia.
Qed.

Lemma late_memory_safe s0 s own :
  half_way s0 s own -> direct_map s -> free_matrix (k_mem (ms_kernel s0)) = ∅ ->
  safe late_memory (fun _ s' => exists own', memory_up s' own') s.
Proof.
  intros [Htr HG Hroot Est Ec3 Emem Hker] Hdm Hfm. pose proof Htr as [Htab Hfit Hty Hlast Hmax Hone].
  unfold late_memory. apply safe_seq. wp_step. set (t := e820_get_table (ms_e820 s)) in *.
  set (last := e820_get_last_ram_addr (ms_e820 s)) in *.
  pose proof HG as [[HT _ _] _].
  apply safe_seq. unfold on_kern at 1. apply wp_zoom. eapply wp_mono.
  { apply wp_partial; [by apply (vmm_unmap_wp t ke own)|]. intros r k tr E. exact (frame_unmap _ _ _ _ (source_booting t ke _ _ HG) E). }
  intros r k1 [(_&HG1&Est1&Ec1&Er1) [[Km1 _] _]].
  apply safe_bind. unfold on_kern at 1. apply safe_zoom. cbn [ms_kernel].
  eapply safe_mono; [apply (mem_init_safe t ke own k1 last Hone HG1 Hroot); [congruence|lia]|].
  intros r2 k2 (_&own2&HG2&Hsub&R2&Em2&O2&Harr). destruct R2 as (Est2&_&Ec2&_&_). rewrite Km1, Emem, Hfm in Em2.
  pose proof HG2 as [HV2 (Hb2&[Hke Hlt2]&_&_)]. pose proof (bi_order _ _ _ Hb2). pose proof (bi_kernel _ _ _ Hb2).
  assert (0 <= last / PAGE_SIZE <= 2 ^ 40) as Hnr.
  { split; [apply Z.div_pos; unfold PAGE_SIZE; lia|]. apply Z.div_le_upper_bound; unfold PAGE_SIZE; lia. }
  apply safe_seq. unfold on_kern at 1. apply wp_zoom. cbn [ms_kernel]. unfold on_mm. apply wp_zoom.
  eapply wp_mono; [apply (buddy_init_wp t (k_mm k2) Htab)|].
  { change (mm_mem (k_mm k2)) with (k_mem k2). rewrite Em2. apply cleared_map_cleared. lia. }
  { change (mm_mem (k_mm k2)) with (k_mem k2). rewrite Em2. simpl. lia. }
  { change (mm_boot (k_mm k2)) with (k_boot k2). unfold PAGE_SIZE in *. lia. }
  change (mm_mem (k_mm k2)) with (k_mem k2). change (mm_boot (k_mm k2)) with (k_boot k2). rewrite Em2. cbn [mem_nr_pages].
  intros r3 mm (_&Hlk&HL&Hfr&Hal&_&Hnr3&Hpe3). apply safe_seq. unfold on_kern. apply wp_zoom. cbn [ms_kernel].
  unfold vmm_use_alloc_pages. do 2 wp_step. cbn [k_vm]. rewrite Est2, Est1. change (VMM_VIRTUAL_ONLY <? VMM_VIRTUAL_ONLY) with false.
  cbv iota. unfold vmod. do 3 wp_step. apply wp_safe. wp_step. exists own2. cbn [ms_e820 ms_kernel].
  assert (own2 !! fr kern_pml4 = Some (4%nat, 0)) as Hroot2 by (by eapply lookup_weaken).
  assert (forall v, ~ 0xEA0000000000 <= v mod 2 ^ 48 < 0xEA0000000000 + 2 ^ 40 + PAGE_SIZE ->
    walk (ram (k_vm k2)) 4 (fr kern_pml4) v = if decide (v mod 2 ^ 48 < 2 ^ 39) then None else walk (ram (k_vm (ms_kernel s))) 4 (fr kern_pml4) v) as Hwalk.
  { intros v Hv. rewrite O2, Er1 by done. by apply (unmap_walk own). }
  assert (forall v, 2 ^ 39 <= v mod 2 ^ 48 -> ~ 0xEA0000000000 <= v mod 2 ^ 48 < 0xEA0000000000 + 2 ^ 40 + PAGE_SIZE ->
    walk (ram (k_vm k2)) 4 (fr kern_pml4) v = walk (ram (k_vm (ms_kernel s))) 4 (fr kern_pml4) v) as Hw.
  { intros v Hv Hn. rewrite Hwalk, decide_False by (done || lia). done. }
  unfold k_boot, k_mem in *. split; unfold k_boot, k_mem; cbn [ms_e820 ms_kernel k_vm k_mm set_vm set_vm_state vm_state cr3 ram mm_mem mm_boot]; try done.
  - destruct HV2 as [T2 R2 V2]. split; [done| |done]. intros f x Hf. specialize (R2 f x Hf). rewrite Est2, Est1 in R2. exact R2.
  - by rewrite Ec2, Ec1.
  - split; [done|done| |]; unfold k_mem; cbn [ms_kernel k_mm set_vm mm_mem].
    + rewrite Hnr3. unfold HHDM_SIZE, kernel_vma_start, HHDM_BASE. pose proof (Z.mul_div_le last PAGE_SIZE ltac:(done)). lia.
    + intros y Hy. apply Hfr in Hy as (_&_&Hy). destruct (own2 !! (y * PAGE_SIZE)) as [x|] eqn:E; [|done]. by destruct Hy; eapply Hlt2.
  - intros y. rewrite Hfr, Hpe3. split; [intros (?&?&?); split_and!; done || lia|]. intros (Hp&Hy&Hn). split_and!; try done.
    pose proof (ram_page_below t last _ Htr Hp) as Ha. assert (y + 1 <= last / PAGE_SIZE) by (apply Z.div_le_lower_bound; unfold PAGE_SIZE in *; lia). lia.
  - rewrite Hnr3. exact Harr.
  - apply (direct_map_same s last); try done. intros p Hp.
    assert ((HHDM_BASE + p) mod 2 ^ 48 = 0x888000000000 + p) as El by (apply hhdm_low; unfold HHDM_SIZE, kernel_vma_start, HHDM_BASE; lia).
    apply Hw; rewrite El; unfold PAGE_SIZE; lia.
  - intros v Hv. pose proof (Z.mod_pos_bound v (2 ^ 48) ltac:(lia)). unfold translate. rewrite Hwalk, decide_True by (unfold PAGE_SIZE; lia). done.
  - intros d Hd. apply kernel_translated; [done|]. rewrite Hw by (rewrite kernel_window by done; unfold PAGE_SIZE; lia). by apply Hker.
Qed.

End correct.

(** ** An example machine: 12 MiB of RAM, and an image of 128 KiB *)

Definition ex_firmware : e820_table :=
  mk_table 3 [mk_entry 0 0x9F000 1; mk_entry 0x9F000 0x61000 2; mk_entry 0x100000 0xB00000 1].
Definition ex_vma_end : Z := 0xFFFFFFFF80020000.
Definition ex_memsys : memsys := mk_memsys e820_reset ex_power_on.

Lemma ex_sanitized :
  match e820_init ex_firmware e820_reset with Ok _ e _ => used (e820_get_table e) = entries ex_firmware | _ => True end.
Proof. vm_compute. reflexivity. Qed.

Lemma ex_boot_ok : boot_ok (H := ex_layout) ex_vma_end ex_firmware.
Proof.
  assert (forall a, type_at (entries ex_firmware) a = E820_TYPE_RAM -> a < 0xC00000) as Hb.
  { intros a Ha. destruct (type_at_max (entries ex_firmware) a) as (_&_&[Hz|(i&f&Hi&Hc&_)]); [by rewrite Ha in Hz|].
    unfold covers in Hc. breflect. do 3 (destruct i as [|i]; [injection Hi as <-; simpl in *; lia|]). done. }
  split.
  - unfold ex_vma_end, kernel_vma_start, LARGE_PAGE_SIZE. lia.
  - simpl. unfold ex_vma_end, kernel_vma_start, PAGE_SIZE. repeat constructor; simpl; lia.
  - split; [done|]. repeat constructor; simpl; lia.
  - simpl. lia.
  - unfold HHDM_SIZE, LARGE_PAGE_SIZE, kernel_vma_start, HHDM_BASE. repeat constructor; simpl; lia.
  - intros a Ha. apply Hb in Ha. lia.
  - exists 0x300000. split; [vm_compute; by intros [=]|reflexivity].
  - intros u e tr E. pose proof ex_sanitized as Hu. rewrite E in Hu. intros x y. rewrite Hu. clear E Hu.
    change (KERNEL_END ex_vma_end) with 0x220000. cbn [entries ex_firmware]. rewrite !elem_of_cons. intros Hx Hy Hxr Hyr Hxe Hye.
    destruct Hx as [->|[->|[->|[]%elem_of_nil]]], Hy as [->|[->|[->|[]%elem_of_nil]]]; cbn in *; done || lia.
Qed.

(** The run, computed: the direct map is complete, and the rest ends. *)
Definition direct_at (s : memsys) (i : Z) : bool :=
  match translate (ram (k_vm (ms_kernel s))) (fr (@kern_pml4 ex_layout)) (HHDM_BASE + i * PAGE_SIZE) with
  | Some (p, e) => (p =? i * PAGE_SIZE) && has e PT_WRITABLE
  | None => false
  end.

Lemma ex_early_run :
  match early_memory (H := ex_layout) ex_vma_end ex_firmware ex_memsys with
  | Ok _ s1 _ => used (e820_get_table (ms_e820 s1)) = entries ex_firmware /\
      forallb (direct_at s1) (seqZ 0 0x9F ++ seqZ 0xA0 0x20 ++ seqZ 0x100 0xB00) = true /\
      ended (late_memory (H := ex_layout) s1) = true
  | _ => False
  end.
Proof. vm_compute. repeat split. Qed.

Lemma direct_page s i L : forallb (direct_at s) L = true -> i ∈ L -> exists e,
  translate (ram (k_vm (ms_kernel s))) (fr (@kern_pml4 ex_layout)) (HHDM_BASE + i * PAGE_SIZE) = Some (i * PAGE_SIZE, e) /\
  has e PT_WRITABLE = true.
Proof.
  rewrite forallb_forall. intros HL Hi. specialize (HL i ltac:(by apply list_elem_of_In)). unfold direct_at in HL.
  destruct (translate _ _ _) as [[p e]|]; [|done]. apply andb_true_iff in HL as [->%Z.eqb_eq He]. by exists e.
Qed.

Lemma ex_direct_map s : used (e820_get_table (ms_e820 s)) = entries ex_firmware ->
  forallb (direct_at s) (seqZ 0 0x9F ++ seqZ 0xA0 0x20 ++ seqZ 0x100 0xB00) = true -> direct_map (H := ex_layout) s.
Proof.
  intros Hu HL. split.
  - intros p [[i ->] (e&He&Hr&Hlo&Hhi)]. apply (direct_page s i _ HL). rewrite Hu in He. unfold PAGE_SIZE in *.
    rewrite !elem_of_app, !elem_of_seqZ. cbn [entries ex_firmware] in He. rewrite !elem_of_cons in He.
    destruct He as [->|[->|[->|[]%elem_of_nil]]]; cbn in *; done || lia.
  - intros p [i ->] Hp. apply (direct_page s i _ HL). unfold PAGE_SIZE in *. rewrite !elem_of_app, !elem_of_seqZ. lia.
Qed.

