(* ===== verification/Pic.v ===== *)
(** * Port I/O, the interrupt controllers and the timer
    (arch/x86/io.h, arch/x86/pic.c, arch/x86/pit.c)

    The devices behind the I/O ports are a parameter: a state [D] with the effect
    of a write and the result of a read.  The instance [i8259] is the programming
    model of the pair of 8259A controllers, as their data sheet describes it;
    against it the driver is proved to set up the vectors and the masks. *)

From S2P Require Import Prelude.
From Stdlib Require Import ZArith Lia Bool.
From stdpp Require Import base list strings.

Open Scope Z_scope.

(** ** io.h *)

Class Ports (D : Type) := {
  port_out : Z -> Z -> D -> D;
  port_in : Z -> D -> Z;
}.

Section ports.
Context {D : Type} `{!Ports D}.

Definition outb (port value : Z) : M D unit :=
  modify (port_out port (u8 value));; emit (EvOut port (u8 value)).
Definition inb (port : Z) : M D Z := gets (fun d => u8 (port_in port d)).
Definition io_wait : M D unit := outb 0x80 0.

(** ** pic.c *)

Definition PIC1_COMMAND : Z := 0x20.
Definition PIC1_DATA : Z := 0x21.
Definition PIC2_COMMAND : Z := 0xA0.
Definition PIC2_DATA : Z := 0xA1.
Definition INIT : Z := 0x11.
Definition MODE_8086 : Z := 0x01.
Definition EOI : Z := 0x20.
Definition PIC2_IRQ : Z := 2.

(** The sequence of writes of [pic_remap], each followed by [io_wait]. *)
Definition outb_wait (port value : Z) : M D unit := outb port value;; io_wait.

Definition pic_remap (offset1 offset2 : Z) : M D unit :=
  if (offset1 <? 32) || (offset1 >=? 248) then panic (line "Attemoted to remap PIC1 to IRQ %#X!") [offset1] else
  if (offset2 <? 32) || (offset2 >=? 248) then panic (line "Attemoted to remap PIC2 to IRQ %#X!") [offset2] else
  let diff := if offset1 >? offset2 then offset1 - offset2 else offset2 - offset1 in
  if diff <? 8 then panic (line "Requested remap would cause PIC2 to overlap PIC1!") [offset1; offset2] else
  outb_wait PIC1_COMMAND INIT;;
  outb_wait PIC2_COMMAND INIT;;
  outb_wait PIC1_DATA offset1;;
  outb_wait PIC2_DATA offset2;;
  outb_wait PIC1_DATA (Z.shiftl 1 PIC2_IRQ);;
  outb_wait PIC2_DATA PIC2_IRQ;;
  outb_wait PIC1_DATA MODE_8086;;
  outb_wait PIC2_DATA MODE_8086;;
  outb_wait PIC1_DATA (0xFF - Z.shiftl 1 PIC2_IRQ);;
  outb_wait PIC2_DATA 0xFF;;
  printk (line "[OK] PIC remapped") [].

Definition pic_send_EOI (irq : Z) : M D unit :=
  outb_wait PIC1_COMMAND EOI;;
  when (irq >=? 8) (outb_wait PIC2_COMMAND EOI).

(** The arguments are 8-bit values; the shift count is taken as given. *)
Definition pic_mask (irq : Z) : M D unit :=
  if irq >=? 8 then
    mask ← inb PIC2_DATA;
    outb_wait PIC2_DATA (u8 (Z.lor mask (Z.shiftl 1 (irq - 8))))
  else
    mask ← inb PIC1_DATA;
    outb_wait PIC1_DATA (u8 (Z.lor mask (Z.shiftl 1 irq))).

Definition pic_unmask (irq : Z) : M D unit :=
  if irq >=? 8 then
    mask ← inb PIC2_DATA;
    outb_wait PIC2_DATA (u8 (Z.land mask (Z.lnot (Z.shiftl 1 (irq - 8)))))
  else
    mask ← inb PIC1_DATA;
    outb_wait PIC1_DATA (u8 (Z.land mask (Z.lnot (Z.shiftl 1 irq)))).

(** ** pit.c *)

Definition PIT_CHANNEL0 : Z := 0x40.
Definition PIT_COMMAND : Z := 0x43.

(** A division by 0 is a processor exception. *)
Definition pit_set_freq (hz : Z) : M D unit :=
  if hz =? 0 then fault else
  let divisor := u16 (1193182 / hz) in
  outb PIT_COMMAND 0x34;;
  io_wait;;
  outb PIT_CHANNEL0 (Z.land divisor 0xFF);;
  outb PIT_CHANNEL0 (Z.shiftr divisor 8);;
  io_wait.
End ports.

(** ** The 8259A pair

    A controller accepts a write of its command port with bit 4 set as ICW1,
    which starts the initialisation: the next three writes of its data port are
    ICW2 (vector offset), ICW3 (cascade) and ICW4; afterwards a write of the data
    port sets the interrupt mask, and a command [0x20] ends the interrupt in
    service.  ICW1 clears the mask. *)

Inductive icw := Icw2 | Icw3 | Icw4 | Ready.
Record chip := mk_chip { next_icw : icw; vector_base : Z; cascade : Z; mode_8086 : bool; imr : Z; eois : nat }.
Record pics := mk_pics { master : chip; slave : chip }.

Definition chip_cmd (v : Z) (c : chip) : chip :=
  if Z.testbit v 4 then mk_chip Icw2 (vector_base c) (cascade c) (mode_8086 c) 0 (eois c)
  else if v =? 0x20 then mk_chip (next_icw c) (vector_base c) (cascade c) (mode_8086 c) (imr c) (S (eois c))
  else c.
Definition chip_data (v : Z) (c : chip) : chip :=
  match next_icw c with
  | Icw2 => mk_chip Icw3 (Z.land v 0xF8) (cascade c) (mode_8086 c) (imr c) (eois c)
  | Icw3 => mk_chip Icw4 (vector_base c) v (mode_8086 c) (imr c) (eois c)
  | Icw4 => mk_chip Ready (vector_base c) (cascade c) (Z.testbit v 0) (imr c) (eois c)
  | Ready => mk_chip Ready (vector_base c) (cascade c) (mode_8086 c) v (eois c)
  end.

#[export] Instance i8259 : Ports pics := {|
  port_out := fun port v d =>
    if port =? 0x20 then mk_pics (chip_cmd v (master d)) (slave d)
    else if port =? 0x21 then mk_pics (chip_data v (master d)) (slave d)
    else if port =? 0xA0 then mk_pics (master d) (chip_cmd v (slave d))
    else if port =? 0xA1 then mk_pics (master d) (chip_data v (slave d))
    else d;
  port_in := fun port d =>
    if port =? 0x21 then imr (master d) else if port =? 0xA1 then imr (slave d) else 0;
|}.

(** ** The driver against the controllers *)

Lemma wp_outb_wait port v (Q : unit -> pics -> Prop) d :
  Q tt (port_out port (u8 v) d) -> wp (outb_wait port v) Q d.
Proof. done. Qed.

Lemma pic_remap_run offset1 offset2 d :
  32 <= offset1 < 248 -> 32 <= offset2 < 248 -> 8 <= Z.abs (offset1 - offset2) ->
  exists tr, pic_remap offset1 offset2 d =
    Ok tt (mk_pics (mk_chip Ready (Z.land offset1 0xF8) 4 true 0xFB (eois (master d)))
                   (mk_chip Ready (Z.land offset2 0xF8) 2 true 0xFF (eois (slave d)))) tr.
Proof.
  intros H1 H2 Hd.
  assert (wp (pic_remap offset1 offset2) (fun _ d' => d' =
    mk_pics (mk_chip Ready (Z.land offset1 0xF8) 4 true 0xFB (eois (master d)))
            (mk_chip Ready (Z.land offset2 0xF8) 2 true 0xFF (eois (slave d)))) d) as Hw.
  { unfold pic_remap. rewrite !Z.geb_leb, Z.gtb_ltb.
    destruct (Z.ltb_spec offset1 32), (Z.leb_spec 248 offset1); try lia.
    destruct (Z.ltb_spec offset2 32), (Z.leb_spec 248 offset2); try lia.
    assert ((if offset2 <? offset1 then offset1 - offset2 else offset2 - offset1) <? 8 = false) as Hdiff.
    { destruct (Z.ltb_spec offset2 offset1); apply Z.ltb_ge; lia. }
    cbn [orb]. rewrite Hdiff. repeat (wp_step || apply wp_outb_wait).
    destruct d as [m c]. rewrite (u8_small offset1), (u8_small offset2) by lia. reflexivity. }
  apply wp_elim in Hw as ([]&d'&tr&E&->). by exists tr.
Qed.

(** for offsets in range that do not overlap, [pic_remap] leaves both
    controllers initialised: the master raises vectors from [offset1], the slave
    from [offset2] and is attached to line 2, and every line but the cascade line
    is masked, whatever state the controllers were in. *)
Theorem pic_remap_correct offset1 offset2 d :
  32 <= offset1 < 248 -> 32 <= offset2 < 248 -> 8 <= Z.abs (offset1 - offset2) ->
  exists tr, pic_remap offset1 offset2 d =
    Ok tt (mk_pics (mk_chip Ready (Z.land offset1 0xF8) 4 true 0xFB (eois (master d)))
                   (mk_chip Ready (Z.land offset2 0xF8) 2 true 0xFF (eois (slave d)))) tr.
Proof. apply pic_remap_run. Qed.

Definition chip0 : chip := mk_chip Ready 0 0 false 0 0.
Lemma pic_remap_correct_witness :
  exists tr, pic_remap 32 40 (mk_pics chip0 chip0) =
    Ok tt (mk_pics (mk_chip Ready 32 4 true 0xFB 0) (mk_chip Ready 40 2 true 0xFF 0)) tr.
Proof. apply (pic_remap_correct 32 40 (mk_pics chip0 chip0)); lia. Defined.

(** [pic_remap] panics, without touching the controllers, exactly on offsets
    outside of 32..247 or less than 8 apart. *)
Theorem pic_remap_panics offset1 offset2 d :
  (exists f args, pic_remap offset1 offset2 d = Panic f args []) <->
  ~ (32 <= offset1 < 248 /\ 32 <= offset2 < 248 /\ 8 <= Z.abs (offset1 - offset2)).
Proof.
  split.
  - intros (f&args&E) (H1&H2&Hd). revert E. unfold pic_remap. rewrite !Z.geb_leb, Z.gtb_ltb.
    destruct (Z.ltb_spec offset1 32), (Z.leb_spec 248 offset1); try lia.
    destruct (Z.ltb_spec offset2 32), (Z.leb_spec 248 offset2); try lia. cbn [orb].
    assert ((if offset2 <? offset1 then offset1 - offset2 else offset2 - offset1) <? 8 = false) as ->.
    { destruct (Z.ltb_spec offset2 offset1); apply Z.ltb_ge; lia. }
    intros [=].
  - intros Hn. unfold pic_remap. rewrite !Z.geb_leb, Z.gtb_ltb.
    destruct (Z.ltb_spec offset1 32), (Z.leb_spec 248 offset1); cbn [orb]; eauto; try (do 2 eexists; reflexivity).
    destruct (Z.ltb_spec offset2 32), (Z.leb_spec 248 offset2); cbn [orb]; try (do 2 eexists; reflexivity).
    assert ((if offset2 <? offset1 then offset1 - offset2 else offset2 - offset1) <? 8 = true) as ->.
    { destruct (Z.ltb_spec offset2 offset1); apply Z.ltb_lt; lia. }
    do 2 eexists; reflexivity.
Qed.

(** The 16 lines of the pair: the mask bit of line [irq]. *)
Definition masked (irq : Z) (d : pics) : bool :=
  if irq >=? 8 then Z.testbit (imr (slave d)) (irq - 8) else Z.testbit (imr (master d)) irq.
Definition pics_ready (d : pics) : Prop :=
  next_icw (master d) = Ready /\ next_icw (slave d) = Ready /\
  0 <= imr (master d) < 256 /\ 0 <= imr (slave d) < 256.

Lemma u8_testbit x n : 0 <= n < 8 -> Z.testbit (u8 x) n = Z.testbit x n.
Proof. intros Hn. unfold wrap. by rewrite Z.mod_pow2_bits_low by lia. Qed.

Lemma testbit_shiftl1 k n : 0 <= k -> 0 <= n -> Z.testbit (Z.shiftl 1 k) n = (n =? k).
Proof.
  intros Hk Hn. rewrite Z.shiftl_spec by done. change 1 with (2 ^ 0). rewrite Z.pow2_bits_eqb by done.
  destruct (Z.eqb_spec n k), (Z.eqb_spec 0 (n - k)); lia || done.
Qed.

(** One mask update of a controller, seen bit by bit. *)
Lemma mask_bits (clr : bool) m k n : 0 <= k < 8 -> 0 <= n < 8 -> 0 <= m < 256 ->
  Z.testbit (u8 (u8 (if clr then Z.land (u8 m) (Z.lnot (Z.shiftl 1 k)) else Z.lor (u8 m) (Z.shiftl 1 k)))) n =
  if decide (n = k) then negb clr else Z.testbit m n.
Proof.
  intros Hk Hn Hm. rewrite !u8_testbit by done. rewrite (u8_small m) by done.
  destruct clr; [rewrite Z.land_spec, Z.lnot_spec by lia|rewrite Z.lor_spec]; rewrite testbit_shiftl1 by lia;
    destruct (Z.eqb_spec n k); case_decide; try done; simpl.
  - apply andb_false_r.
  - apply andb_true_r.
  - apply orb_true_r.
  - apply orb_false_r.
Qed.

Lemma mask_update (clr : bool) irq d : 0 <= irq < 16 -> pics_ready d ->
  wp (if clr then pic_unmask irq else pic_mask irq) (fun _ d' => pics_ready d' /\
    forall j, 0 <= j < 16 -> masked j d' = if decide (j = irq) then negb clr else masked j d) d.
Proof.
  intros Hi (Hm&Hs&Hmr&Hsr). unfold pic_unmask, pic_mask. rewrite Z.geb_leb.
  destruct clr, (Z.leb_spec 8 irq) as [Hge|Hlt]; unfold inb; do 2 wp_step; apply wp_outb_wait;
    unfold PIC1_DATA, PIC2_DATA; simpl; unfold chip_data; rewrite ?Hm, ?Hs.
  all: split; [split_and!; simpl; try done; (lia || apply (wrap_range 8); lia)|].
  all: intros j Hj; unfold masked; rewrite Z.geb_leb; destruct (Z.leb_spec 8 j); simpl;
    try (rewrite decide_False by lia; done).
  all: repeat match goal with |- context [u8 (u8 (?f ?x ?y))] => first
    [rewrite (mask_bits true (imr (slave d)) (irq - 8) (j - 8)) by lia
    |rewrite (mask_bits false (imr (slave d)) (irq - 8) (j - 8)) by lia
    |rewrite (mask_bits true (imr (master d)) irq j) by lia
    |rewrite (mask_bits false (imr (master d)) irq j) by lia] end; repeat case_decide; (done || lia).
Qed.

(** on initialised controllers, [pic_unmask] enables exactly the requested
    line and [pic_mask] disables exactly the requested line, on either
    controller. *)
Theorem pic_mask_unmask_correct irq d :
  0 <= irq < 16 -> pics_ready d ->
  (exists d' tr, pic_unmask irq d = Ok tt d' tr /\ pics_ready d' /\
     forall j, 0 <= j < 16 -> masked j d' = if decide (j = irq) then false else masked j d) /\
  (exists d' tr, pic_mask irq d = Ok tt d' tr /\ pics_ready d' /\
     forall j, 0 <= j < 16 -> masked j d' = if decide (j = irq) then true else masked j d).
Proof.
  intros Hi Hr. split.
  - destruct (wp_elim _ _ _ (mask_update true irq d Hi Hr)) as ([]&d'&tr&E&H1&H2). by exists d', tr.
  - destruct (wp_elim _ _ _ (mask_update false irq d Hi Hr)) as ([]&d'&tr&E&H1&H2). by exists d', tr.
Qed.

Lemma pic_mask_unmask_correct_witness :
  (exists d' tr, pic_unmask 9 (mk_pics chip0 chip0) = Ok tt d' tr /\ pics_ready d' /\
     forall j, 0 <= j < 16 -> masked j d' = if decide (j = 9) then false else masked j (mk_pics chip0 chip0)) /\
  (exists d' tr, pic_mask 9 (mk_pics chip0 chip0) = Ok tt d' tr /\ pics_ready d' /\
     forall j, 0 <= j < 16 -> masked j d' = if decide (j = 9) then true else masked j (mk_pics chip0 chip0)).
Proof.
  apply (pic_mask_unmask_correct 9 (mk_pics chip0 chip0)); [lia|].
  unfold pics_ready, chip0; simpl. split_and!; try reflexivity; lia.
Defined.

(** ** The timer *)

(** The bytes written to a port, in order. *)
Fixpoint written (port : Z) (tr : list event) : list Z :=
  match tr with
  | [] => []
  | EvOut p v :: tr' => if p =? port then v :: written port tr' else written port tr'
  | _ :: tr' => written port tr'
  end.

(** [pit_set_freq] loads the 16-bit divisor into channel 0 in mode 2, low
    byte first.  From 19 Hz up to the input clock the divisor is the quotient of
    the input clock of 1193182 Hz, so that the resulting frequency is within one
    divisor step of the request. *)
Theorem pit_set_freq_correct {D} `{!Ports D} hz (d : D) :
  19 <= hz <= 1193182 ->
  exists d' tr div, pit_set_freq hz d = Ok tt d' tr /\
    written PIT_COMMAND tr = [0x34] /\ written PIT_CHANNEL0 tr = [div mod 256; div / 256] /\
    1 <= div < 65536 /\ div * hz <= 1193182 < (div + 1) * hz.
Proof.
  intros Hh. unfold pit_set_freq. destruct (Z.eqb_spec hz 0); [lia|].
  pose proof (Z.div_mod 1193182 hz ltac:(lia)) as Hd. pose proof (Z.mod_pos_bound 1193182 hz ltac:(lia)).
  assert (1193182 / hz < 65536) by (apply Z.div_lt_upper_bound; lia).
  assert (1 <= 1193182 / hz) by (apply Z.div_le_lower_bound; lia).
  set (q := 1193182 / hz) in *. clearbody q.
  assert (u16 q = q) as -> by (apply wrap_small; simpl; lia).
  change 0xFF with (Z.ones 8). rewrite Z.land_ones, Z.shiftr_div_pow2 by lia. change (2 ^ 8) with 256.
  assert (0 <= q mod 256 < 256) by (apply Z.mod_pos_bound; lia).
  assert (0 <= q / 256 < 256) by (split; [apply Z.div_pos|apply Z.div_lt_upper_bound]; lia).
  do 2 eexists. exists q. split; [reflexivity|].
  cbv [after M_ret app]. simpl. rewrite !u8_small by lia. split_and!; try done; lia.
Qed.

Lemma pit_set_freq_correct_witness :
  exists d' tr div, pit_set_freq 1024 (mk_pics chip0 chip0) = Ok tt d' tr /\
    written PIT_COMMAND tr = [0x34] /\ written PIT_CHANNEL0 tr = [div mod 256; div / 256] /\
    1 <= div < 65536 /\ div * 1024 <= 1193182 < (div + 1) * 1024.
Proof. apply (pit_set_freq_correct 1024 (mk_pics chip0 chip0)). lia. Defined.

(** The timer is not behind the ports of the interrupt controllers. *)
Lemma pit_keeps_pics hz (d : pics) : hz <> 0 -> exists tr, pit_set_freq hz d = Ok tt d tr.
Proof. intros Hh. unfold pit_set_freq. destruct (Z.eqb_spec hz 0); [done|]. eexists. reflexivity. Qed.

(** Below 19 Hz the divisor is cut to 16 bits: a request of 18 Hz programs
    the divisor 751, which is 1588 Hz. *)
Theorem pit_set_freq_truncates (d : pics) :
  exists d' tr, pit_set_freq 18 d = Ok tt d' tr /\
    written PIT_CHANNEL0 tr = [751 mod 256; 751 / 256] /\ 1193182 / 751 = 1588.
Proof. do 2 eexists. split; [vm_compute; reflexivity|]. split; vm_compute; reflexivity. Qed.
