(* ===== verification/Desc.v ===== *)
(** * Descriptor tables (arch/x86/gdt.c, tss.c, idt.c, GDT_MACROS.h)

    The tables are lists of records with the fields of the packed C structures.
    The specification is the decoding that the processor applies to them. *)

From S2P Require Import Prelude.
From Stdlib Require Import ZArith Lia Bool.
From stdpp Require Import base list strings.

Open Scope Z_scope.

(** ** GDT_MACROS.h *)

Definition A (v : Z) : Z := Z.land v 1.
Definition RW (v : Z) : Z := Z.shiftl (Z.land v 1) 1.
Definition DC (v : Z) : Z := Z.shiftl (Z.land v 1) 2.
Definition E (v : Z) : Z := Z.shiftl (Z.land v 1) 3.
Definition S_ (v : Z) : Z := Z.shiftl (Z.land v 1) 4.
Definition DPL (v : Z) : Z := Z.shiftl (Z.land v 3) 5.
Definition P (v : Z) : Z := Z.shiftl (Z.land v 1) 7.
Definition LIMIT_HIGH (v : Z) : Z := Z.land v 0xF.
Definition L (v : Z) : Z := Z.shiftl (Z.land v 1) 5.
Definition DB (v : Z) : Z := Z.shiftl (Z.land v 1) 6.
Definition G (v : Z) : Z := Z.shiftl (Z.land v 1) 7.

(** ** gdt.h and gdt.c *)

Definition GDT_NULL_SEGMENT : Z := 0x00.
Definition GDT_KERNEL_CODE_SEGMENT : Z := 0x08.
Definition GDT_KERNEL_DATA_SEGMENT : Z := 0x10.
Definition GDT_TSS_SEGMENT : Z := 0x18.
Definition GDT_USER_CODE_SEGMENT : Z := 0x28.
Definition GDT_USER_DATA_SEGMENT : Z := 0x30.

Record gdt_entry := mk_gdt {
  limit_low : Z; base_low : Z; base_mid : Z; access : Z; limit_flags : Z; base_high : Z }.
Definition gdt_zero : gdt_entry := mk_gdt 0 0 0 0 0 0.

(** The union of flags by [|]. *)
Definition ors (l : list Z) : Z := foldr Z.lor 0 l.

Definition code_entry (dpl : Z) : gdt_entry :=
  mk_gdt 0xFFFF 0 0 (ors [A 0; RW 1; DC 0; E 1; S_ 1; DPL dpl; P 1]) (ors [LIMIT_HIGH 0xF; L 1; DB 0; G 1]) 0.
Definition data_entry (dpl : Z) : gdt_entry :=
  mk_gdt 0xFFFF 0 0 (ors [A 0; RW 1; DC 0; E 0; S_ 1; DPL dpl; P 1]) (ors [LIMIT_HIGH 0xF; L 0; DB 1; G 1]) 0.

(** The initial value of the static table. *)
Definition gdt_static : list gdt_entry :=
  [gdt_zero; code_entry 0; data_entry 0; gdt_zero; gdt_zero; code_entry 3; data_entry 3].

(** ** tss.c *)

Definition NO_IST : Z := 0.
Definition EMERG_IST : Z := 1.

Record tss_t := mk_tss { tss_rsp : list Z; tss_ist : list Z; tss_iopb : Z }.
Definition tss_zero : tss_t := mk_tss [0; 0; 0] [0; 0; 0; 0; 0; 0; 0] 0.
Definition sizeof_tss : Z := 104.
Definition sizeof_stack : Z := 4096.

Record desc_state := mk_desc { gdt : list gdt_entry; tss : tss_t }.

(** [tss_set(gdt + i)]: the 16-byte descriptor takes the entries [i] and [i + 1],
    the second of which is written as two 32-bit words. *)
Definition tss_set (kern_stack emergency_stack tss_addr : Z) (i : nat) (s : desc_state) : desc_state :=
  let high := u32 (Z.shiftr tss_addr 32) in
  let t := mk_tss (<[0%nat := u64 (kern_stack + sizeof_stack)]> (tss_rsp (tss s)))
             (<[Z.to_nat (EMERG_IST - 1) := u64 (emergency_stack + sizeof_stack)]> (tss_ist (tss s)))
             sizeof_tss in
  let lo := mk_gdt (sizeof_tss - 1) (u16 tss_addr) (u8 (Z.shiftr tss_addr 16))
              (ors [P 1; DPL 0; S_ 0; E 1; DC 0; RW 0; A 1]) 0 (u8 (Z.shiftr tss_addr 24)) in
  let hi := mk_gdt (u16 high) (Z.shiftr high 16) 0 0 0 0 in
  mk_desc (<[S i := hi]> (<[i := lo]> (gdt s))) t.

Definition gdt_init (kern_stack emergency_stack tss_addr gdt_addr : Z) : M desc_state unit :=
  modify (tss_set kern_stack emergency_stack tss_addr (Z.to_nat (GDT_TSS_SEGMENT / 8)));;
  emit (EvLgdt (8 * 7 - 1) gdt_addr);;
  emit (EvSegments GDT_KERNEL_CODE_SEGMENT GDT_KERNEL_DATA_SEGMENT GDT_TSS_SEGMENT);;
  printk (line "[OK] GDT and TSS initialized") [].

(** ** idt.c *)

Definition IDT_INTERRUPT_GATE : Z := 0x0E.
Definition IDT_TRAP_GATE : Z := 0x0F.

Record idt_gate := mk_gate {
  offset_low : Z; segment : Z; ist : Z; attributes : Z; offset_mid : Z; offset_high : Z; reserved : Z }.
Definition gate_zero : idt_gate := mk_gate 0 0 0 0 0 0 0.
Definition idt_reset : list idt_gate := replicate 256 gate_zero.

Definition idt_init (gates_addr : Z) : M (list idt_gate) unit :=
  emit (EvLidt (16 * 256 - 1) gates_addr);;
  printk (line "[OK] IDT initialized") [].

Definition idt_set_gate (interrupt offset seg ist type dpl : Z) (p : bool) : M (list idt_gate) unit :=
  if (offset =? 0) && p then panic (line "Attempted to set IDT %#X to NULL while enabled!") [interrupt] else
  if (seg =? 0) || negb (seg mod 8 =? 0) then panic (line "Attempted to set IDT %#X segment to %#X!") [interrupt; seg] else
  modify (insert (Z.to_nat interrupt)
    (mk_gate (u16 offset) seg (Z.land ist 0x7)
       (Z.lor (Z.lor (Z.land type 0x1F) (Z.shiftl (Z.land dpl 0x3) 5)) (Z.shiftl (Z.land (Z.b2z p) 0x1) 7))
       (u16 (Z.shiftr offset 16)) (u32 (Z.shiftr offset 32)) 0)).

(** ** What the processor reads *)

Definition seg_present (e : gdt_entry) : bool := Z.testbit (access e) 7.
Definition seg_dpl (e : gdt_entry) : Z := Z.land (Z.shiftr (access e) 5) 3.
Definition seg_code (e : gdt_entry) : bool := Z.testbit (access e) 4 && Z.testbit (access e) 3.
Definition seg_data (e : gdt_entry) : bool := Z.testbit (access e) 4 && negb (Z.testbit (access e) 3).
Definition seg_long (e : gdt_entry) : bool := Z.testbit (limit_flags e) 5.
(** The base of a 16-byte system descriptor. *)
Definition sys_base (lo hi : gdt_entry) : Z :=
  base_low lo + base_mid lo * 2 ^ 16 + base_high lo * 2 ^ 24 + limit_low hi * 2 ^ 32 + base_low hi * 2 ^ 48.
Definition sys_type (e : gdt_entry) : Z := Z.land (access e) 0x1F.

Definition gate_offset (g : idt_gate) : Z := offset_low g + offset_mid g * 2 ^ 16 + offset_high g * 2 ^ 32.
Definition gate_type (g : idt_gate) : Z := Z.land (attributes g) 0x1F.
Definition gate_dpl (g : idt_gate) : Z := Z.land (Z.shiftr (attributes g) 5) 3.
Definition gate_present (g : idt_gate) : bool := Z.testbit (attributes g) 7.

(** ** Splitting and joining an address *)

Lemma split_fields x : 0 <= x < 2 ^ 64 ->
  u16 x + u16 (Z.shiftr x 16) * 2 ^ 16 + u32 (Z.shiftr x 32) * 2 ^ 32 = x /\
  u16 x + u8 (Z.shiftr x 16) * 2 ^ 16 + u8 (Z.shiftr x 24) * 2 ^ 24 +
    u16 (u32 (Z.shiftr x 32)) * 2 ^ 32 + Z.shiftr (u32 (Z.shiftr x 32)) 16 * 2 ^ 48 = x.
Proof.
  intros Hx. unfold wrap. rewrite !Z.shiftr_div_pow2 by lia.
  change (2 ^ 8) with 256. change (2 ^ 16) with 65536. change (2 ^ 24) with 16777216.
  change (2 ^ 32) with 4294967296. change (2 ^ 48) with 281474976710656.
  assert (0 <= x / 4294967296 < 4294967296) as Hh by (split; [apply Z.div_pos|apply Z.div_lt_upper_bound]; lia).
  rewrite (Z.mod_small (x / 4294967296)) by lia. split; Z.to_euclidean_division_equations; lia.
Qed.

(** C39: On the boot-time table [gdt_init] installs a present available 64-bit TSS
    descriptor whose base, as the processor assembles it from the two entries, is
    the address of the task state segment and whose limit covers it; the segment
    holds the kernel stack top for privilege changes and the emergency stack top;
    the kernel and user code segments are 64-bit code of privilege 0 and 3, the
    data segments data of privilege 0 and 3. *)
Theorem gdt_init_correct ks es ta ga :
  0 <= ks < 2 ^ 64 - 4096 -> 0 <= es < 2 ^ 64 - 4096 -> 0 <= ta < 2 ^ 64 ->
  exists s' tr lo hi kc kd uc ud, gdt_init ks es ta ga (mk_desc gdt_static tss_zero) = Ok tt s' tr /\
    gdt s' = [gdt_zero; kc; kd; lo; hi; uc; ud] /\
    sys_base lo hi = ta /\ sys_type lo = 9 /\ seg_present lo = true /\ limit_low lo = sizeof_tss - 1 /\
    tss_rsp (tss s') !! 0%nat = Some (ks + 4096) /\ tss_ist (tss s') !! 0%nat = Some (es + 4096) /\
    seg_code kc = true /\ seg_long kc = true /\ seg_dpl kc = 0 /\ seg_present kc = true /\
    seg_data kd = true /\ seg_dpl kd = 0 /\ seg_present kd = true /\
    seg_code uc = true /\ seg_long uc = true /\ seg_dpl uc = 3 /\ seg_present uc = true /\
    seg_data ud = true /\ seg_dpl ud = 3 /\ seg_present ud = true.
Proof.
  intros Hks Hes Hta. do 8 eexists. split; [reflexivity|]. simpl. split; [reflexivity|].
  split; [apply (proj2 (split_fields ta Hta))|].
  rewrite (u64_small (ks + sizeof_stack)), (u64_small (es + sizeof_stack)) by (unfold sizeof_stack; lia).
  split_and!; reflexivity.
Qed.

Lemma gdt_init_correct_witness :
  exists s' tr, gdt_init 0xFFFFFFFF80008000 0xFFFFFFFF80009000 0xFFFFFFFF80007123 0xFFFFFFFF80006000
    (mk_desc gdt_static tss_zero) = Ok tt s' tr /\ length (gdt s') = 7%nat.
Proof.
  destruct (gdt_init_correct 0xFFFFFFFF80008000 0xFFFFFFFF80009000 0xFFFFFFFF80007123 0xFFFFFFFF80006000)
    as (s'&tr&lo&hi&kc&kd&uc&ud&H&Hg&_); [lia..|].
  exists s', tr. split; [exact H|by rewrite Hg].
Defined.

(** Bits of the attribute byte. *)
Lemma attributes_decode type dpl (p : bool) : 0 <= type < 32 -> 0 <= dpl < 4 ->
  let at_ := Z.lor (Z.lor (Z.land type 0x1F) (Z.shiftl (Z.land dpl 0x3) 5)) (Z.shiftl (Z.land (Z.b2z p) 0x1) 7) in
  Z.land at_ 0x1F = type /\ Z.land (Z.shiftr at_ 5) 3 = dpl /\ Z.testbit at_ 7 = p.
Proof.
  intros Ht Hd.
  assert (forall k : nat, (k < 32)%nat -> forall j : nat, (j < 4)%nat ->
    let at_ := Z.lor (Z.lor (Z.land (Z.of_nat k) 0x1F) (Z.shiftl (Z.land (Z.of_nat j) 0x3) 5)) (Z.shiftl (Z.land (Z.b2z p) 0x1) 7) in
    Z.land at_ 0x1F = Z.of_nat k /\ Z.land (Z.shiftr at_ 5) 3 = Z.of_nat j /\ Z.testbit at_ 7 = p) as Hall.
  { intros k Hk j Hj. destruct p; do 32 (destruct k as [|k]; [do 4 (destruct j as [|j]; [vm_compute; auto|]); lia|]); lia. }
  specialize (Hall (Z.to_nat type) ltac:(lia) (Z.to_nat dpl) ltac:(lia)). rewrite !Z2Nat.id in Hall by lia. exact Hall.
Qed.

Lemma idt_set_gate_wp gates interrupt offset seg ist_ type dpl p :
  length gates = 256%nat -> 0 <= interrupt < 256 -> 0 <= offset < 2 ^ 64 -> 0 <= ist_ < 8 -> 0 <= type < 32 -> 0 <= dpl < 4 ->
  (p = true -> offset <> 0) -> seg <> 0 -> seg mod 8 = 0 ->
  wp (idt_set_gate interrupt offset seg ist_ type dpl p) (fun _ gates' => exists g,
    gates' = <[Z.to_nat interrupt := g]> gates /\ gate_offset g = offset /\ segment g = seg /\ ist g = ist_ /\
    gate_type g = type /\ gate_dpl g = dpl /\ gate_present g = p) gates.
Proof.
  intros Hlen Hi Ho Hist Ht Hd Hp Hs Hs8. unfold idt_set_gate.
  assert ((offset =? 0) && p = false) as ->.
  { destruct p; [|apply andb_false_r]. destruct (Z.eqb_spec offset 0); [by destruct Hp|done]. }
  destruct (Z.eqb_spec seg 0); [done|]. rewrite Hs8. simpl. wp_step. eexists. split; [reflexivity|].
  destruct (attributes_decode type dpl p Ht Hd) as (H1&H2&H3).
  split_and!; [apply (proj1 (split_fields offset Ho))|done| |exact H1|exact H2|exact H3].
  simpl. change 7 with (Z.ones 3). rewrite Z.land_ones by lia. apply Z.mod_small. lia.
Qed.

(** C37: [idt_set_gate] with a valid selector, and a handler if the gate is
    present, writes exactly one gate, from which the processor reads back the
    handler address, the selector, the stack index, the gate type, the privilege
    level and the present bit. *)
Theorem idt_set_gate_correct gates interrupt offset seg ist_ type dpl p :
  length gates = 256%nat -> 0 <= interrupt < 256 -> 0 <= offset < 2 ^ 64 -> 0 <= ist_ < 8 -> 0 <= type < 32 -> 0 <= dpl < 4 ->
  (p = true -> offset <> 0) -> seg <> 0 -> seg mod 8 = 0 ->
  exists g gates', idt_set_gate interrupt offset seg ist_ type dpl p gates = Ok tt gates' [] /\
    gates' !! Z.to_nat interrupt = Some g /\
    (forall j, j <> Z.to_nat interrupt -> gates' !! j = gates !! j) /\
    gate_offset g = offset /\ segment g = seg /\ ist g = ist_ /\ gate_type g = type /\
    gate_dpl g = dpl /\ gate_present g = p.
Proof.
  intros Hlen Hi Ho Hist Ht Hd Hp Hs Hs8.
  pose proof (idt_set_gate_wp gates interrupt offset seg ist_ type dpl p Hlen Hi Ho Hist Ht Hd Hp Hs Hs8) as Hw.
  destruct (wp_elim _ _ _ Hw) as ([]&gates'&tr&E&g&->&Hg). exists g, (<[Z.to_nat interrupt := g]> gates).
  assert (tr = []) as ->.
  { revert E. unfold idt_set_gate. destruct (_ && _); [done|]. destruct (_ || _); [done|]. by intros [= _ <-]. }
  split; [exact E|]. split; [apply list_lookup_insert_eq; lia|]. split; [|exact Hg].
  intros j Hj. by rewrite list_lookup_insert_ne.
Qed.

Lemma idt_set_gate_correct_witness :
  exists g gates', idt_set_gate 14 0xFFFFFFFF80001234 8 0 IDT_INTERRUPT_GATE 0 true idt_reset = Ok tt gates' [] /\
    gates' !! 14%nat = Some g /\ gate_offset g = 0xFFFFFFFF80001234.
Proof.
  destruct (idt_set_gate_correct idt_reset 14 0xFFFFFFFF80001234 8 0 IDT_INTERRUPT_GATE 0 true)
    as (g&gates'&H&Hg&_&Ho&_); try (unfold IDT_INTERRUPT_GATE; lia); try reflexivity; try lia.
  exists g, gates'. split; [exact H|]. split; [exact Hg|exact Ho].
Defined.
