(* ===== verification/Sched.v ===== *)
(** * Tasks and the scheduler (sched/sched.c, sched/task.h, arch/x86/interrupt.h)

    A [struct task*] is the index of its slot, [NULL] is [None]; the register
    frame that the interrupt stub passes by pointer is an argument and the result
    of [schedule]. *)

From S2P Require Import Prelude Kmath E820 Bootmem Mem Buddy Vmm Desc.
From Stdlib Require Import ZArith Lia.
From stdpp Require Import base gmap list strings.

Open Scope Z_scope.

(** ** interrupt.h *)

Record regs := mk_regs {
  rax : Z; rbx : Z; rcx : Z; rdx : Z; rsi : Z; rdi : Z; rbp : Z;
  r8 : Z; r9 : Z; r10 : Z; r11 : Z; r12 : Z; r13 : Z; r4 : Z; r15 : Z;
  vector_id : Z; error_code : Z; rip : Z; cs : Z; rflags : Z; rsp : Z; ss : Z }.

(** Writing the part of a frame that [iretq] pops. *)
Definition set_frame (rip' cs' rflags' rsp' ss' : Z) (r : regs) : regs :=
  mk_regs (rax r) (rbx r) (rcx r) (rdx r) (rsi r) (rdi r) (rbp r)
    (r8 r) (r9 r) (r10 r) (r11 r) (r12 r) (r13 r) (r4 r) (r15 r)
    (vector_id r) (error_code r) rip' cs' rflags' rsp' ss'.
Definition regs_zero : regs := mk_regs 0 0 0 0 0 0 0 0 0 0 0 0 0 0 0 0 0 0 0 0 0 0.

(** ** task.h *)

Inductive task_state := TASK_FREE | TASK_INIT | TASK_RUNNING | TASK_DEAD.
#[export] Instance task_state_eq_dec : EqDecision task_state.
Proof. solve_decision. Defined.

Record task := mk_task {
  pid : Z; t_state : task_state; ctx : regs; vmem : Z; pages : option Z; vtime : Z; priority : Z }.
Definition task_zero : task := mk_task 0 TASK_FREE regs_zero 0 None 0 0.

Definition with_ctx (c : regs) (t : task) := mk_task (pid t) (t_state t) c (vmem t) (pages t) (vtime t) (priority t).
Definition with_vtime (v : Z) (t : task) := mk_task (pid t) (t_state t) (ctx t) (vmem t) (pages t) v (priority t).
Definition with_vmem (v : Z) (t : task) := mk_task (pid t) (t_state t) (ctx t) v (pages t) (vtime t) (priority t).
Definition with_pages (p : option Z) (t : task) := mk_task (pid t) (t_state t) (ctx t) (vmem t) p (vtime t) (priority t).
Definition with_state (st : task_state) (t : task) := mk_task (pid t) st (ctx t) (vmem t) (pages t) (vtime t) (priority t).

Definition running (t : task) : bool := bool_decide (t_state t = TASK_RUNNING).

(** ** sched.c *)

Definition TASK_SLOTS : nat := 16.

Record sched := mk_sched { tasks : list task; next_pid : Z; current : option nat; clock : Z }.
Definition sched_reset : sched := mk_sched (replicate TASK_SLOTS task_zero) 0 None 0.

Record system := mk_system { sy_kernel : kernel; sy_sched : sched }.
Definition on_kernel {A} (m : M kernel A) : M system A :=
  zoom sy_kernel (fun k s => mk_system k (sy_sched s)) m.
Definition set_tasks (l : list task) (s : system) : system :=
  mk_system (sy_kernel s) (mk_sched l (next_pid (sy_sched s)) (current (sy_sched s)) (clock (sy_sched s))).
Definition set_current (c : option nat) (s : system) : system :=
  mk_system (sy_kernel s) (mk_sched (tasks (sy_sched s)) (next_pid (sy_sched s)) c (clock (sy_sched s))).
Definition set_clock (v : Z) (s : system) : system :=
  mk_system (sy_kernel s) (mk_sched (tasks (sy_sched s)) (next_pid (sy_sched s)) (current (sy_sched s)) v).
Definition set_next_pid (v : Z) (s : system) : system :=
  mk_system (sy_kernel s) (mk_sched (tasks (sy_sched s)) v (current (sy_sched s)) (clock (sy_sched s))).

(** [*task], and an assignment to some of its fields. *)
Definition get_task (i : nat) : M system task := s ← get; deref (tasks (sy_sched s) !! i).
Definition upd_task (i : nat) (f : task -> task) : M system unit :=
  s ← get;
  t ← deref (tasks (sy_sched s) !! i);
  modify (set_tasks (<[i := f t]> (tasks (sy_sched s)))).

Fixpoint find_free (l : list task) (i : nat) : option nat :=
  match l with
  | [] => None
  | t :: l' => if bool_decide (t_state t = TASK_FREE) then Some i else find_free l' (S i)
  end.
Definition get_free_slot (s : system) : option nat := find_free (tasks (sy_sched s)) 0.

Section sched.
(** The e820 table, from which page tables are taken before the page allocator
    is in use. *)
Context `{KernelLayout} (table : e820_table).

Definition create_task (prio : Z) : M system (option nat) :=
  s ← get;
  match get_free_slot s with
  | None => mret None
  | Some i =>
      v ← on_kernel (vmm_create_user_pml4 table);
      upd_task i (with_vmem v);;
      if v =? 0 then mret None else
      upd_task i (fun t => with_ctx (set_frame (rip (ctx t)) (Z.lor GDT_USER_CODE_SEGMENT 3) 0x202
                                       (rsp (ctx t)) (Z.lor GDT_USER_DATA_SEGMENT 3) (ctx t)) t);;
      s ← get;
      let p := next_pid (sy_sched s) in
      modify (set_next_pid (u64 (p + 1)));;
      upd_task i (fun t => mk_task p TASK_INIT (ctx t) (vmem t) (pages t) (vtime t) prio);;
      mret (Some i)
  end.

Definition run_task (i : nat) (entry stack_top : Z) : M system unit :=
  upd_task i (fun t => with_ctx (set_frame entry (cs (ctx t)) (rflags (ctx t)) stack_top (ss (ctx t)) (ctx t)) t);;
  upd_task i (with_state TASK_RUNNING).

Definition task_alloc_pages (i : nat) (order : Z) : M system (option Z) :=
  page ← on_kernel (on_mem (alloc_pages order));
  match page with
  | None => mret None
  | Some p =>
      t ← get_task i;
      on_kernel (on_mem (upd_page p (set_next (pages t))));;
      on_kernel (on_mem (upd_page p (set_prev None)));;
      match pages t with
      | Some q => on_kernel (on_mem (upd_page q (set_prev (Some p))))
      | None => mret tt
      end;;
      upd_task i (with_pages (Some p));;
      mret (Some p)
  end.

(** The selection loop over the slots from [i] on. *)
Fixpoint pick (l : list task) (i : nat) (min_vtime : Z) (cur : option nat) : Z * option nat :=
  match l with
  | [] => (min_vtime, cur)
  | t :: l' =>
      if negb (running t) || (vtime t >=? min_vtime) then pick l' (S i) min_vtime cur
      else pick l' (S i) (vtime t) (Some i)
  end.

Definition UINT64_MAX : Z := 0xFFFFFFFFFFFFFFFF.

(** The loop that subtracts the minimum from the running tasks. *)
Definition rebase (m : Z) (l : list task) : list task :=
  (fun t => if running t then with_vtime (u64 (vtime t - m)) t else t) <$> l.

Definition clock_tick : M system unit :=
  s ← get;
  modify (set_clock (u64 (clock (sy_sched s) + 1)));;
  s ← get;
  when (clock (sy_sched s) >=? 1024)
    (modify (set_clock 0);;
     a ← get_task 0;
     b ← get_task 1;
     c ← get_task 2;
     d ← get_task 3;
     printk (line "A: rax=%lld    B: rax=%lld    C: rax=%lld    D: rax=%lld")
       [rax (ctx a); rax (ctx b); rax (ctx c); rax (ctx d)]).

Definition schedule (r : regs) : M system regs :=
  s ← get;
  match current (sy_sched s) with
  | Some i =>
      upd_task i (with_ctx r);;
      upd_task i (fun t => with_vtime (u64 (vtime t + priority t)) t)
  | None => mret tt
  end;;
  s ← get;
  let '(min_vtime, cur) := pick (tasks (sy_sched s)) 0 UINT64_MAX (current (sy_sched s)) in
  modify (set_current cur);;
  match cur with
  | None => mret r
  | Some i =>
      s ← get;
      modify (set_tasks (rebase min_vtime (tasks (sy_sched s))));;
      clock_tick;;
      t ← get_task i;
      on_kernel (vmm_set_table (vmem t));;
      mret (ctx t)
  end.
End sched.
