(* ===== verification/SchedFacts.v ===== *)
(** * Correctness of the scheduler

    [schedule] saves the interrupted context in its task, picks the running task
    with the least virtual time and resumes exactly its saved context.  Virtual
    times stay bounded, and over any run the processor time of the tasks is
    proportional to the inverse of their [priority] field. *)

From S2P Require Import Prelude Kmath E820 Bootmem Mem Buddy Vmm Desc Sched.
From Stdlib Require Import ZArith Lia Bool.
From stdpp Require Import base gmap list strings.

Open Scope Z_scope.

(** ** Invariant *)

(** [Pmax] bounds the charge of one tick, and with it all virtual times. *)
Record sched_inv (Pmax : Z) (s : sched) : Prop := {
  si_slots : length (tasks s) = TASK_SLOTS;
  si_times : forall i t, tasks s !! i = Some t -> 0 <= vtime t <= Pmax /\ 0 <= priority t <= Pmax;
  si_current : forall i, current s = Some i -> exists t, tasks s !! i = Some t /\ running t = true /\ vtime t = 0;
}.

(** The tasks after the interrupted one has been saved and charged. *)
Definition charge (r : regs) (t : task) : task :=
  with_vtime (u64 (vtime t + priority t)) (with_ctx r t).
Definition charged (r : regs) (s : sched) : list task :=
  match current s with Some i => alter (charge r) i (tasks s) | None => tasks s end.

(** ** The selection loop *)

(** [is_min l m i]: slot [i] holds the first running task of least virtual time. *)
Definition is_min (l : list task) (i : nat) (t : task) : Prop :=
  l !! i = Some t /\ running t = true /\
  (forall j u, l !! j = Some u -> running u = true -> vtime t <= vtime u) /\
  (forall j u, l !! j = Some u -> running u = true -> (j < i)%nat -> vtime t < vtime u).

Lemma pick_app l1 l2 i m c :
  pick (l1 ++ l2) i m c = let '(m', c') := pick l1 i m c in pick l2 (i + length l1)%nat m' c'.
Proof.
  revert i m c. induction l1 as [|t l1 IH]; intros i m c; simpl; [by rewrite Nat.add_0_r|].
  replace (i + S (length l1))%nat with (S i + length l1)%nat by lia. destruct (_ || _); apply IH.
Qed.

Lemma pick_spec l : forall m c,
  (forall j u, l !! j = Some u -> running u = true -> vtime u < m) ->
  (pick l 0 m c = (m, c) /\ forall j u, l !! j = Some u -> running u = false) \/
  (exists i t, pick l 0 m c = (vtime t, Some i) /\ is_min l i t).
Proof.
  induction l as [|t l IH] using rev_ind; intros m c Hm; [left; done|].
  rewrite pick_app. destruct (IH m c) as [[-> Hnone]|(i&t0&->&Hi&Hr&Hmin&Hfst)].
  { intros j u Hj. apply (Hm j). by apply lookup_app_l_Some. }
  - simpl. destruct (running t) eqn:Er; simpl.
    + rewrite Z.geb_leb. destruct (Z.leb_spec m (vtime t)).
      { specialize (Hm (length l) t). rewrite lookup_app_r, Nat.sub_diag in Hm by lia. specialize (Hm eq_refl Er). lia. }
      right. exists (length l), t. split; [done|]. split_and!.
      * by rewrite lookup_app_r, Nat.sub_diag by lia.
      * done.
      * intros j u [Hj|[_ Hj]]%lookup_app_Some Hu; [by rewrite (Hnone j u Hj) in Hu|].
        apply list_lookup_singleton_Some in Hj as [_ ->]. lia.
      * intros j u [Hj|[Hge _]]%lookup_app_Some Hu Hlt; [by rewrite (Hnone j u Hj) in Hu|lia].
    + left. split; [done|]. intros j u [Hj|[_ Hj]]%lookup_app_Some; [by apply Hnone in Hj|].
      by apply list_lookup_singleton_Some in Hj as [_ <-].
  - right. simpl. rewrite Z.geb_leb. apply lookup_lt_Some in Hi as Hlen.
    assert (forall j u, (l ++ [t]) !! j = Some u -> l !! j = Some u \/ (j = length l /\ u = t)) as Hcase.
    { intros j u [Hj|[Hge Hj]]%lookup_app_Some; [by left|right].
      apply list_lookup_singleton_Some in Hj as [? <-]. split; [lia|done]. }
    destruct (running t) eqn:Er; simpl; [destruct (Z.leb_spec (vtime t0) (vtime t))|].
    + exists i, t0. split; [done|]. split_and!; [by apply lookup_app_l_Some|done|..].
      * intros j u [Hj|[-> ->]]%Hcase Hu; [by eapply Hmin|lia].
      * intros j u [Hj|[-> ->]]%Hcase Hu Hlt; [by eapply Hfst|lia].
    + exists (length l), t. split; [done|]. split_and!; [by rewrite lookup_app_r, Nat.sub_diag by lia|done|..].
      * intros j u [Hj|[-> ->]]%Hcase Hu; [specialize (Hmin j u Hj Hu); lia|lia].
      * intros j u [Hj|[-> ->]]%Hcase Hu Hlt; [specialize (Hmin j u Hj Hu); lia|lia].
    + exists i, t0. split; [done|]. split_and!; [by apply lookup_app_l_Some|done|..].
      * intros j u [Hj|[-> ->]]%Hcase Hu; [by eapply Hmin|congruence].
      * intros j u [Hj|[-> ->]]%Hcase Hu Hlt; [by eapply Hfst|congruence].
Qed.

(** ** One tick *)

Lemma wp_upd_task i t f (Q : unit -> system -> Prop) s :
  tasks (sy_sched s) !! i = Some t -> Q tt (set_tasks (<[i := f t]> (tasks (sy_sched s))) s) ->
  wp (upd_task i f) Q s.
Proof. intros Ht HQ. unfold upd_task. do 3 wp_step. eapply wp_deref; [done|]. by wp_step. Qed.

Lemma wp_get_task i t (Q : task -> system -> Prop) s :
  tasks (sy_sched s) !! i = Some t -> Q t s -> wp (get_task i) Q s.
Proof. intros Ht HQ. unfold get_task. do 2 wp_step. by eapply wp_deref. Qed.

(** [clock_tick] touches nothing but the clock. *)
Lemma clock_tick_wp s (Q : unit -> system -> Prop) :
  length (tasks (sy_sched s)) = TASK_SLOTS -> (forall v, Q tt (set_clock v s)) -> wp clock_tick Q s.
Proof.
  intros Hlen HQ. unfold clock_tick, TASK_SLOTS in *. do 5 wp_step. apply wp_when; [intros _|intros _; apply HQ].
  destruct (tasks (sy_sched s)) as [|a [|b [|c [|d l]]]] eqn:El; try discriminate Hlen.
  do 2 wp_step. wp_step. apply (wp_get_task 0 a); [simpl; by rewrite El|].
  wp_step. apply (wp_get_task 1 b); [simpl; by rewrite El|]. wp_step. apply (wp_get_task 2 c); [simpl; by rewrite El|].
  wp_step. apply (wp_get_task 3 d); [simpl; by rewrite El|]. unfold printk. wp_step. apply HQ.
Qed.

Lemma charged_lookup r s i t : charged r s !! i = Some t ->
  exists t0, tasks s !! i = Some t0 /\ t = if decide (current s = Some i) then charge r t0 else t0.
Proof.
  unfold charged. destruct (current s) as [c|]; [|intros Ht; exists t; by rewrite decide_False].
  destruct (decide (c = i)) as [->|Hne].
  - rewrite list_lookup_alter_eq, fmap_Some. intros (t0&?&->). exists t0. by rewrite decide_True.
  - rewrite list_lookup_alter_ne by done. intros Ht. exists t. split; [done|]. rewrite decide_False; congruence.
Qed.

Lemma charged_lookup_2 r s i t : tasks s !! i = Some t ->
  charged r s !! i = Some (if decide (current s = Some i) then charge r t else t).
Proof.
  intros Ht. unfold charged. destruct (current s) as [c|]; [|by rewrite decide_False].
  destruct (decide (c = i)) as [->|Hne].
  - by rewrite list_lookup_alter_eq, Ht, decide_True.
  - rewrite list_lookup_alter_ne, decide_False by congruence. done.
Qed.

Lemma charge_running r t : running (charge r t) = running t.
Proof. done. Qed.

(** The virtual time of a task after the charge, without the wrap-around. *)
Lemma charged_vtime Pmax r s i t :
  sched_inv Pmax s -> Pmax < 2 ^ 62 -> tasks s !! i = Some t ->
  vtime (if decide (current s = Some i) then charge r t else t) =
  vtime t + (if decide (current s = Some i) then priority t else 0).
Proof.
  intros HI HP Ht. destruct (si_times _ _ HI i t Ht). case_decide; [|lia]. simpl. apply u64_small. lia.
Qed.

Lemma rebase_lookup m l i : rebase m l !! i = (fun t => if running t then with_vtime (u64 (vtime t - m)) t else t) <$> l !! i.
Proof. unfold rebase. apply list_lookup_fmap. Qed.

(** The effect of a tick on the scheduler state. *)
Record ticked (Pmax : Z) (r : regs) (s : sched) (i : nat) (t : task) (s' : sched) : Prop := {
  tk_min : is_min (charged r s) i t;
  tk_current : current s' = Some i;
  tk_tasks : tasks s' = rebase (vtime t) (charged r s);
  tk_pid : next_pid s' = next_pid s;
}.

Section tick.
Context (Pmax : Z) (HP : 0 <= Pmax < 2 ^ 62).

Lemma charged_bound r s i t :
  sched_inv Pmax s -> charged r s !! i = Some t -> 0 <= vtime t <= 2 * Pmax /\ 0 <= priority t <= Pmax.
Proof.
  intros HI (t0&Ht0&->)%charged_lookup. destruct (si_times _ _ HI i t0 Ht0).
  rewrite (charged_vtime Pmax) by (done || lia). repeat case_decide; simpl; lia.
Qed.

(** The task that was running starts from virtual time 0, so that its charge
    keeps it within [Pmax]. *)
Lemma rebased_bound r s i t j u :
  sched_inv Pmax s -> is_min (charged r s) i t -> charged r s !! j = Some u -> running u = true ->
  0 <= vtime u - vtime t <= Pmax.
Proof.
  intros HI (Hi&Hr&Hmin&_) Hj Hu. specialize (Hmin j u Hj Hu). split; [lia|].
  apply charged_lookup in Hj as (u0&Hu0&->). apply charged_lookup in Hi as (t0&Ht0&->).
  destruct (si_times _ _ HI j u0 Hu0) as [Hv Hp]. destruct (si_times _ _ HI i t0 Ht0) as [Hv' Hp'].
  rewrite !(charged_vtime Pmax) in * by (done || lia).
  destruct (decide (current s = Some j)) as [Hc|]; [|repeat case_decide; lia].
  destruct (si_current _ _ HI j Hc) as (u1&Hu1&_&E0). assert (u1 = u0) as -> by congruence.
  rewrite E0. case_decide; lia.
Qed.

Lemma rebased_task r s i t j u :
  sched_inv Pmax s -> is_min (charged r s) i t -> rebase (vtime t) (charged r s) !! j = Some u ->
  exists u0, charged r s !! j = Some u0 /\ running u = running u0 /\ ctx u = ctx u0 /\ vmem u = vmem u0 /\
    priority u = priority u0 /\ pid u = pid u0 /\ t_state u = t_state u0 /\
    vtime u = vtime u0 - (if running u0 then vtime t else 0).
Proof.
  intros HI Hmin. rewrite rebase_lookup, fmap_Some. intros (u0&Hu0&->). exists u0.
  destruct (running u0) eqn:Er; [|split_and!; (done || lia)].
  pose proof (rebased_bound r s i t j u0 HI Hmin Hu0 Er). split_and!; try done. simpl. apply u64_small. lia.
Qed.

Lemma ticked_inv r s i t s' : sched_inv Pmax s -> ticked Pmax r s i t s' -> sched_inv Pmax s'.
Proof.
  intros HI [Hmin Hc Ht _]. split; rewrite ?Ht, ?Hc.
  - unfold rebase. rewrite length_fmap. unfold charged. destruct (current s); rewrite ?length_alter; apply HI.
  - intros j u Hu. destruct (rebased_task r s i t j u HI Hmin Hu) as (u0&Hu0&_&_&_&->&_&_&->).
    destruct (running u0) eqn:Er; [|].
    + pose proof (rebased_bound r s i t j u0 HI Hmin Hu0 Er). destruct (charged_bound r s j u0 HI Hu0). lia.
    + apply charged_lookup in Hu0 as (u1&Hu1&->). destruct (si_times _ _ HI j u1 Hu1) as [Hv Hp].
      case_decide as Hcj; [|lia]. destruct (si_current _ _ HI j Hcj) as (u2&Hu2&Hr2&_).
      assert (u2 = u1) as -> by congruence. rewrite charge_running in Er. congruence.
  - intros j [= <-]. destruct Hmin as (Hi&Hr&Hall&Hf). exists (with_vtime 0 t).
    rewrite rebase_lookup, Hi. simpl. rewrite Hr. rewrite Z.sub_diag. done.
Qed.

Lemma schedule_wp r s :
  sched_inv Pmax (sy_sched s) -> (exists i t, tasks (sy_sched s) !! i = Some t /\ running t = true) ->
  wp (schedule r) (fun r' s' => exists i t,
    ticked Pmax r (sy_sched s) i t (sy_sched s') /\ sched_inv Pmax (sy_sched s') /\ r' = ctx t /\
    k_mm (sy_kernel s') = k_mm (sy_kernel s) /\ cr3 (k_vm (sy_kernel s')) = virt_to_phys (vmem t) /\
    ram (k_vm (sy_kernel s')) = ram (k_vm (sy_kernel s))) s.
Proof.
  intros HI (i0&t0&Hi0&Hr0). unfold schedule. do 3 wp_step.
  assert (wp (match current (sy_sched s) with
              | Some i => upd_task i (with_ctx r);; upd_task i (fun t => with_vtime (u64 (vtime t + priority t)) t)
              | None => mret tt end) (fun _ s1 => s1 = set_tasks (charged r (sy_sched s)) s) s) as Hsave.
  { unfold charged. destruct (current (sy_sched s)) as [c|] eqn:Ec; [|wp_step; by destruct s as [k []]].
    destruct (si_current _ _ HI c Ec) as (t&Ht&_&_). wp_step. eapply wp_upd_task; [exact Ht|].
    eapply wp_upd_task; [simpl; apply list_lookup_insert_eq; by eapply lookup_lt_Some|]. simpl.
    rewrite list_insert_insert_eq. unfold set_tasks. simpl. do 2 f_equal.
    apply list_eq. intros j. destruct (decide (j = c)) as [->|].
    - rewrite list_lookup_insert_eq, list_lookup_alter_eq, Ht by (by eapply lookup_lt_Some). done.
    - by rewrite list_lookup_insert_ne, list_lookup_alter_ne by done. }
  eapply wp_mono; [exact Hsave|]. clear Hsave. intros _ s1 ->. do 2 wp_step. simpl.
  destruct (pick_spec (charged r (sy_sched s)) UINT64_MAX (current (sy_sched s))) as [[_ Hnone]|(i&t&->&Hmin)].
  { intros j u Hj _. destruct (charged_bound r _ j u HI Hj). unfold UINT64_MAX. lia. }
  { specialize (Hnone i0 _ (charged_lookup_2 r _ _ _ Hi0)). case_decide; rewrite ?charge_running in Hnone; congruence. }
  do 5 wp_step. wp_step. wp_step. apply clock_tick_wp.
  { simpl. unfold rebase. rewrite length_fmap. unfold charged. destruct (current _); rewrite ?length_alter; apply HI. }
  intros v. pose proof Hmin as (Hi&Hr&_).
  wp_step. apply (wp_get_task i (with_vtime 0 t)).
  { simpl. rewrite rebase_lookup, Hi. simpl. rewrite Hr, Z.sub_diag. done. }
  wp_step. apply wp_zoom. unfold vmm_set_table, set_cr3, vmod. do 3 wp_step. wp_step.
  assert (ticked Pmax r (sy_sched s) i t
    (mk_sched (rebase (vtime t) (charged r (sy_sched s))) (next_pid (sy_sched s)) (Some i) v)) as Htk by (by split).
  exists i, t. split_and!; [exact Htk|by eapply ticked_inv|done..].
Qed.
End tick.

(** ** Properties of one tick *)

(** C19: With a running task, [schedule] neither faults nor wraps a virtual time.
    The interrupted context is stored in the task that was running and in no other
    one; the task resumed is the first of least virtual time among the running
    ones, after the interrupted one has been charged its [priority]; the frame
    returned is that task's saved context and CR3 holds its page table; all
    differences between virtual times of running tasks are as after the charge;
    and the invariant holds again. *)
Theorem schedule_correct Pmax r s :
  0 <= Pmax < 2 ^ 62 -> sched_inv Pmax (sy_sched s) ->
  (exists i t, tasks (sy_sched s) !! i = Some t /\ running t = true) ->
  exists r' s' tr i t, schedule r s = Ok r' s' tr /\
    is_min (charged r (sy_sched s)) i t /\ current (sy_sched s') = Some i /\
    r' = ctx t /\ cr3 (k_vm (sy_kernel s')) = virt_to_phys (vmem t) /\
    sched_inv Pmax (sy_sched s') /\
    (forall j u, tasks (sy_sched s') !! j = Some u -> exists u0, tasks (sy_sched s) !! j = Some u0 /\
       ctx u = (if decide (current (sy_sched s) = Some j) then r else ctx u0) /\
       t_state u = t_state u0 /\ vmem u = vmem u0 /\ pid u = pid u0 /\ priority u = priority u0 /\
       vtime u = vtime u0 + (if decide (current (sy_sched s) = Some j) then priority u0 else 0)
                 - (if running u0 then vtime t else 0)).
Proof.
  intros HP HI Hrun. destruct (wp_elim _ _ _ (schedule_wp Pmax HP r s HI Hrun))
    as (r'&s'&tr&E&i&t&Htk&HI'&->&Hmm&Hc3&_). exists (ctx t), s', tr, i, t.
  split_and!; [exact E|apply Htk|apply Htk|done|done|done|].
  intros j u Hu. rewrite (tk_tasks _ _ _ _ _ _ Htk) in Hu.
  destruct (rebased_task Pmax HP r _ i t j u HI (tk_min _ _ _ _ _ _ Htk) Hu) as (u1&Hu1&Hr&Hx&Hv&Hpr&Hpid&Hst&Ht).
  apply charged_lookup in Hu1 as (u0&Hu0&->). exists u0. rewrite Hx, Hst, Hv, Hpid, Hpr, Ht.
  rewrite (charged_vtime Pmax) by (done || lia). split_and!; try done; by repeat case_decide.
Qed.

(** Two tasks ready to run. *)
Definition ex_task (p : Z) : task := mk_task 0 TASK_RUNNING regs_zero 0x300000 None 0 p.
Definition ex_system : system :=
  mk_system (mk_kernel (mk_mm bootmem_reset (mk_mem ∅ 0 ∅ 0)) (mk_vmm VMM_READY 0 (fun _ => 0) 0 0 0))
    (mk_sched (ex_task 100 :: ex_task 1024 :: replicate 14 task_zero) 2 (Some 0%nat) 0).

Lemma ex_system_inv : sched_inv 1024 (sy_sched ex_system).
Proof.
  split; [reflexivity|..].
  - intros i t Hi. apply list_elem_of_lookup_2 in Hi. revert t Hi. apply Forall_forall.
    simpl. repeat constructor; simpl; lia.
  - intros i [= <-]. by exists (ex_task 100).
Qed.

Lemma schedule_correct_witness :
  exists r' s' tr i t, schedule regs_zero ex_system = Ok r' s' tr /\ is_min (charged regs_zero (sy_sched ex_system)) i t /\ i = 1%nat.
Proof.
  destruct (schedule_correct 1024 regs_zero ex_system) as (r'&s'&tr&i&t&E&Hm&Hc&_).
  - lia.
  - apply ex_system_inv.
  - exists 0%nat, (ex_task 100). split; reflexivity.
  - exists r', s', tr, i, t. split; [exact E|]. split; [exact Hm|].
    vm_compute in E. injection E as _ <- _. vm_compute in Hc. by injection Hc.
Defined.

(** while no task is current, [schedule] does not save the interrupted
    context anywhere: the tasks keep their contexts and the outcome does not depend
    on the frame, apart from returning it when there is nothing to run.  This is
    the state in which the first tick of a task entered by [enter_task] finds the
    scheduler. *)
Theorem schedule_first_tick_drops_context r1 r2 s :
  current (sy_sched s) = None -> (exists i t, tasks (sy_sched s) !! i = Some t /\ running t = true /\ vtime t < UINT64_MAX) ->
  schedule r1 s = schedule r2 s.
Proof.
  intros Hc (i&t&Hi&Hr&Hv). unfold schedule, mbind, M_bind, get. rewrite Hc. simpl.
  destruct (pick (tasks (sy_sched s)) 0 UINT64_MAX (current (sy_sched s))) as [m [c|]] eqn:Ep; [done|]. exfalso.
  assert (forall l k m' c', (exists j u, l !! j = Some u /\ running u = true /\ vtime u < m') \/ c' <> None ->
    (pick l k m' c').2 <> None) as Hp.
  { clear. induction l as [|u l IH]; intros k m' c' H; simpl.
    { destruct H as [(j&u&Hj&_)|]; [by rewrite lookup_nil in Hj|done]. }
    destruct (running u) eqn:Er; simpl; [rewrite Z.geb_leb; destruct (Z.leb_spec m' (vtime u))|].
    - apply IH. destruct H as [([|j]&w&Hj&Hw&Hlt)|]; [simpl in Hj; simplify_eq; lia|left; by exists j, w|by right].
    - apply IH. by right.
    - apply IH. destruct H as [([|j]&w&Hj&Hw&Hlt)|]; [simpl in Hj; simplify_eq; congruence|left; by exists j, w|by right]. }
  apply (Hp (tasks (sy_sched s)) 0%nat UINT64_MAX (current (sy_sched s))); [left; by exists i, t|by rewrite Ep].
Qed.

Definition ex_first_tick : system :=
  mk_system (sy_kernel ex_system) (mk_sched (tasks (sy_sched ex_system)) 2 None 0).
Lemma schedule_first_tick_drops_context_witness :
  schedule (mk_regs 7 0 0 0 0 0 0 0 0 0 0 0 0 0 0 32 0 0x101010 0x2b 0x202 0x101000 0x33) ex_first_tick =
  schedule regs_zero ex_first_tick.
Proof.
  apply schedule_first_tick_drops_context; [reflexivity|]. exists 0%nat, (ex_task 100).
  split; [reflexivity|]. split; reflexivity.
Defined.

(** ** Runs *)

(** [ticks s cs s']: a sequence of timer ticks, with arbitrary interrupted
    contexts; [cs] lists the task that was running at each tick. *)
Inductive ticks : system -> list (option nat) -> system -> Prop :=
| ticks_nil s : ticks s [] s
| ticks_cons s r r' s1 tr cs s' :
    schedule r s = Ok r' s1 tr -> ticks s1 cs s' -> ticks s (current (sy_sched s) :: cs) s'.

(** Ticks received by task [i]. *)
Definition count (i : nat) (cs : list (option nat)) : Z := Z.of_nat (length (filter (fun c => c = Some i) cs)).

Lemma count_cons i c cs : count i (c :: cs) = (if decide (c = Some i) then 1 else 0) + count i cs.
Proof. unfold count. rewrite filter_cons. case_decide; [rewrite length_cons|]; lia. Qed.

Lemma count_nonneg i cs : 0 <= count i cs.
Proof. unfold count. lia. Qed.

Section runs.
Context (Pmax : Z) (HP : 0 <= Pmax < 2 ^ 62).

Definition runnable (s : system) : Prop := exists i t, tasks (sy_sched s) !! i = Some t /\ running t = true.

(** Every running task has been charged for its ticks, and all have been
    rebased by the same amount. *)
Lemma ticks_account s cs s' :
  ticks s cs s' -> sched_inv Pmax (sy_sched s) -> runnable s ->
  sched_inv Pmax (sy_sched s') /\ exists m, forall i t, tasks (sy_sched s) !! i = Some t -> running t = true ->
    exists t', tasks (sy_sched s') !! i = Some t' /\ running t' = true /\ priority t' = priority t /\
      vtime t' = vtime t + priority t * count i cs - m.
Proof.
  induction 1 as [s|s r r' s1 tr cs s' E _ IH]; intros HI Hrun.
  { split; [done|]. exists 0. intros i t Ht Hr. exists t. split_and!; try done. unfold count. simpl. lia. }
  pose proof (wp_run _ _ _ _ _ _ (schedule_wp Pmax HP r s HI Hrun) E) as (k&tk&Htk&HI1&_).
  assert (forall i t, tasks (sy_sched s) !! i = Some t -> running t = true -> exists t1,
    tasks (sy_sched s1) !! i = Some t1 /\ running t1 = true /\ priority t1 = priority t /\
    vtime t1 = vtime t + (if decide (current (sy_sched s) = Some i) then priority t else 0) - vtime tk) as Hstep.
  { intros i t Ht Hr. pose proof (charged_lookup_2 r _ _ _ Ht) as Hc.
    assert (is_Some (tasks (sy_sched s1) !! i)) as [t1 Ht1].
    { rewrite (tk_tasks _ _ _ _ _ _ Htk), rebase_lookup, Hc. done. }
    exists t1. split; [done|]. rewrite (tk_tasks _ _ _ _ _ _ Htk) in Ht1.
    destruct (rebased_task Pmax HP r _ k tk i t1 HI (tk_min _ _ _ _ _ _ Htk) Ht1) as (u&Hu&->&_&_&->&_&_&->).
    rewrite Hc in Hu. injection Hu as <-.
    assert (running (if decide (current (sy_sched s) = Some i) then charge r t else t) = true) as Hru by (by case_decide).
    rewrite Hru, (charged_vtime Pmax) by (done || lia). split_and!; [done|by case_decide|lia]. }
  destruct IH as [HI' [m Hm]]; [done| |].
  { destruct Hrun as (i&t&Ht&Hr). destruct (Hstep i t Ht Hr) as (t1&?&?&_). by exists i, t1. }
  split; [done|]. exists (m + vtime tk). intros i t Ht Hr. destruct (Hstep i t Ht Hr) as (t1&Ht1&Hr1&Hp1&Hv1).
  destruct (Hm i t1 Ht1 Hr1) as (t'&Ht'&Hr'&Hp'&Hv'). exists t'. split_and!; [done|done|congruence|].
  rewrite Hv', Hv1, Hp1, count_cons. case_decide; lia.
Qed.

(** The charges of two running tasks over a run differ by a bounded amount. *)
Lemma ticks_fair s cs s' i j ti tj :
  ticks s cs s' -> sched_inv Pmax (sy_sched s) ->
  tasks (sy_sched s) !! i = Some ti -> running ti = true ->
  tasks (sy_sched s) !! j = Some tj -> running tj = true ->
  Z.abs ((vtime ti + priority ti * count i cs) - (vtime tj + priority tj * count j cs)) <= Pmax.
Proof.
  intros Hs HI Hi Hri Hj Hrj. destruct (ticks_account s cs s' Hs HI) as [HI' [m Hm]]; [by exists i, ti|].
  destruct (Hm i ti Hi Hri) as (ti'&Hi'&_&_&Ei). destruct (Hm j tj Hj Hrj) as (tj'&Hj'&_&_&Ej).
  destruct (si_times _ _ HI' i ti' Hi') as [? _]. destruct (si_times _ _ HI' j tj' Hj') as [? _]. lia.
Qed.

(** From the second tick on, some task is current. *)
Lemma ticks_labels s cs s' : ticks s cs s' -> sched_inv Pmax (sy_sched s) -> runnable s ->
  forall k c, cs !! k = Some c -> (0 < k)%nat \/ current (sy_sched s) <> None ->
  exists i t, c = Some i /\ (i < TASK_SLOTS)%nat /\ tasks (sy_sched s) !! i = Some t /\ running t = true.
Proof.
  induction 1 as [s|s r r' s1 tr cs s' E Hts IH]; intros HI Hrun k c; [done|].
  pose proof (wp_run _ _ _ _ _ _ (schedule_wp Pmax HP r s HI Hrun) E) as (n&tn&Htk&HI1&_).
  destruct k as [|k]; simpl.
  - intros [= <-] [?|Hc]; [lia|]. destruct (current (sy_sched s)) as [i|] eqn:Ec; [|done].
    destruct (si_current _ _ HI i Ec) as (t&Ht&Hr&_). exists i, t. split_and!; try done.
    rewrite <- (si_slots _ _ HI). by eapply lookup_lt_Some.
  - intros Hk _. destruct (IH HI1) with (k := k) (c := c) as (i&t&->&Hlt&Ht&Hr).
    + destruct (si_current _ _ HI1 n (tk_current _ _ _ _ _ _ Htk)) as (t&Ht&Hr&_). by exists n, t.
    + done.
    + right. by rewrite (tk_current _ _ _ _ _ _ Htk).
    + rewrite (tk_tasks _ _ _ _ _ _ Htk) in Ht.
      destruct (rebased_task Pmax HP r _ n tn i t HI (tk_min _ _ _ _ _ _ Htk) Ht) as (u&Hu&Hru&_).
      apply charged_lookup in Hu as (u0&Hu0&->). exists i, u0. split_and!; [done|done|done|].
      rewrite Hr in Hru. by case_decide.
Qed.
End runs.

(** C20: Proportional fairness.  Over any run of ticks from a state in which two
    running tasks have the same virtual time, the numbers of ticks they received,
    weighted by their [priority], differ by at most the largest [priority]: a task
    runs in inverse proportion to its [priority]. *)
Theorem schedule_fair Pmax s cs s' i j ti tj :
  0 <= Pmax < 2 ^ 62 -> sched_inv Pmax (sy_sched s) -> ticks s cs s' ->
  tasks (sy_sched s) !! i = Some ti -> running ti = true ->
  tasks (sy_sched s) !! j = Some tj -> running tj = true -> vtime ti = vtime tj ->
  Z.abs (priority ti * count i cs - priority tj * count j cs) <= Pmax.
Proof.
  intros HP HI Hs Hi Hri Hj Hrj Hv.
  pose proof (ticks_fair Pmax HP s cs s' i j ti tj Hs HI Hi Hri Hj Hrj). lia.
Qed.

Lemma schedule_fair_witness :
  exists s', ticks ex_system [Some 0%nat; Some 1%nat] s' /\
    Z.abs (100 * count 0 [Some 0%nat; Some 1%nat] - 1024 * count 1 [Some 0%nat; Some 1%nat]) <= 1024.
Proof.
  destruct (schedule regs_zero ex_system) as [r1 s1 tr1| |] eqn:E1; [|discriminate E1..].
  destruct (schedule regs_zero s1) as [r2 s2 tr2|f a tr|tr] eqn:E2; [|exfalso; vm_compute in E1; injection E1 as _ <- _; vm_compute in E2; discriminate E2..].
  exists s2. assert (ticks ex_system [Some 0%nat; Some 1%nat] s2) as Hs.
  { apply (ticks_cons ex_system regs_zero r1 s1 tr1 [Some 1%nat] s2 E1).
    assert (Some 1%nat = current (sy_sched s1)) as -> by (vm_compute in E1; injection E1 as _ <- _; reflexivity).
    by eapply (ticks_cons s1 regs_zero r2 s2 tr2), ticks_nil. }
  split; [exact Hs|].
  apply (schedule_fair 1024 ex_system [Some 0%nat; Some 1%nat] s2 0 1 (ex_task 100) (ex_task 1024));
    [lia|apply ex_system_inv|exact Hs|reflexivity..].
Defined.

(** ** Starvation *)

Definition total (cs : list (option nat)) : Z := foldr (fun i a => count i cs + a) 0 (seq 0 16).

Lemma total_length cs :
  (forall c, c ∈ cs -> exists i, c = Some i /\ (i < 16)%nat) -> Z.of_nat (length cs) = total cs.
Proof.
  induction cs as [|c cs IH]; intros Hc; [done|].
  destruct (Hc c) as (i&->&Hi); [set_solver|]. specialize (IH ltac:(set_solver)).
  rewrite length_cons, Nat2Z.inj_succ, IH. unfold total, seq, foldr. rewrite !count_cons.
  do 16 (destruct i as [|i]; [repeat first [rewrite decide_True by done|rewrite decide_False by done]; lia|]). lia.
Qed.

Lemma total_bound cs b : (forall i, (i < 16)%nat -> count i cs <= b) -> total cs <= 16 * b.
Proof.
  intros Hb. unfold total, seq, foldr.
  pose proof (Hb 0%nat ltac:(lia)). pose proof (Hb 1%nat ltac:(lia)). pose proof (Hb 2%nat ltac:(lia)).
  pose proof (Hb 3%nat ltac:(lia)). pose proof (Hb 4%nat ltac:(lia)). pose proof (Hb 5%nat ltac:(lia)).
  pose proof (Hb 6%nat ltac:(lia)). pose proof (Hb 7%nat ltac:(lia)). pose proof (Hb 8%nat ltac:(lia)).
  pose proof (Hb 9%nat ltac:(lia)). pose proof (Hb 10%nat ltac:(lia)). pose proof (Hb 11%nat ltac:(lia)).
  pose proof (Hb 12%nat ltac:(lia)). pose proof (Hb 13%nat ltac:(lia)). pose proof (Hb 14%nat ltac:(lia)).
  pose proof (Hb 15%nat ltac:(lia)). lia.
Qed.

Lemma count_pos i cs : 0 < count i cs -> exists k, cs !! k = Some (Some i).
Proof.
  intros Hc. destruct (filter (fun c => c = Some i) cs) as [|c l] eqn:E; [unfold count in Hc; rewrite E in Hc; simpl in Hc; lia|].
  assert (c ∈ filter (fun c => c = Some i) cs) as [-> Hin]%list_elem_of_filter by (rewrite E; set_solver).
  by apply list_elem_of_lookup in Hin.
Qed.

(** C21: No starvation.  If every running task has a positive [priority], a
    running task receives a tick in every run of more than [32 * Pmax + 1] ticks,
    where [Pmax] is the largest [priority]. *)
Theorem schedule_no_starvation Pmax s cs s' i ti :
  0 <= Pmax < 2 ^ 62 -> sched_inv Pmax (sy_sched s) -> ticks s cs s' ->
  (forall j t, tasks (sy_sched s) !! j = Some t -> running t = true -> 1 <= priority t) ->
  tasks (sy_sched s) !! i = Some ti -> running ti = true ->
  32 * Pmax + 1 < Z.of_nat (length cs) -> 0 < count i cs.
Proof.
  intros HP HI Hs Hpr Hi Hri Hlen. destruct (decide (0 < count i cs)); [done|exfalso].
  pose proof (count_nonneg i cs). assert (count i cs = 0) as Hz by lia.
  assert (runnable s) as Hrun by (by exists i, ti).
  pose proof (ticks_labels Pmax HP s cs s' Hs HI Hrun) as Hlab.
  assert (forall j, count j cs <= 2 * Pmax) as Hcnt.
  { intros j. destruct (decide (0 < count j cs)) as [Hp|]; [|lia].
    destruct (count_pos j cs Hp) as [k Hk].
    destruct (Hlab k (Some j) Hk) as (j'&tj&[= <-]&_&Hj&Hrj).
    { destruct k as [|k]; [right|left; lia]. destruct Hs; [done|]. simpl in Hk. congruence. }
    pose proof (ticks_fair Pmax HP s cs s' i j ti tj Hs HI Hi Hri Hj Hrj) as Hf.
    destruct (si_times _ _ HI i ti Hi) as [? _]. destruct (si_times _ _ HI j tj Hj) as [? _].
    specialize (Hpr j tj Hj Hrj). rewrite Hz in Hf. pose proof (count_nonneg j cs). nia. }
  destruct cs as [|c0 cs]; [simpl in Hlen; lia|].
  assert (Z.of_nat (length cs) = total cs) as Ht.
  { apply total_length. intros c [k Hk]%list_elem_of_lookup.
    destruct (Hlab (S k) c Hk) as (j&_&->&Hj&_); [left; lia|]. exists j. split; [done|exact Hj]. }
  assert (total cs <= 16 * (2 * Pmax)).
  { apply total_bound. intros j _. specialize (Hcnt j). rewrite count_cons in Hcnt. case_decide; lia. }
  rewrite length_cons in Hlen. lia.
Qed.

(** Executing [n] ticks. *)
Fixpoint run_ticks (n : nat) (s : system) : option (list (option nat) * system) :=
  match n with
  | O => Some ([], s)
  | S n' =>
      match schedule regs_zero s with
      | Ok _ s1 _ => (fun p => (current (sy_sched s) :: p.1, p.2)) <$> run_ticks n' s1
      | _ => None
      end
  end.

Lemma run_ticks_sound n : forall s cs s', run_ticks n s = Some (cs, s') -> ticks s cs s'.
Proof.
  induction n as [|n IH]; intros s cs s'; simpl; [intros [= <- <-]; constructor|].
  destruct (schedule regs_zero s) as [r1 s1 tr1| |] eqn:E; [|done..].
  rewrite fmap_Some. intros ([cs1 s2]&H1&[= -> ->]). by eapply ticks_cons, IH.
Qed.

(** Two tasks of priority 1. *)
Definition ex_even : system :=
  mk_system (sy_kernel ex_system) (mk_sched (ex_task 1 :: ex_task 1 :: replicate 14 task_zero) 2 (Some 0%nat) 0).
Definition ex_even_result : list (option nat) * system := from_option id ([], ex_even) (run_ticks 34 ex_even).
Definition ex_even_run : list (option nat) := ex_even_result.1.

Lemma run_ticks_result n s d : bool_decide (is_Some (run_ticks n s)) = true ->
  ticks s (from_option id d (run_ticks n s)).1 (from_option id d (run_ticks n s)).2.
Proof.
  intros [[cs s'] H]%bool_decide_eq_true. rewrite H. by apply (run_ticks_sound n).
Qed.

Lemma ex_even_ticks : ticks ex_even ex_even_run ex_even_result.2.
Proof. apply run_ticks_result. vm_compute. reflexivity. Qed.

Lemma ex_even_tasks P : P (ex_task 1) -> P task_zero ->
  forall j t, tasks (sy_sched ex_even) !! j = Some t -> P t.
Proof.
  intros H1 H0 [|[|j]] t; [intros [= <-]; exact H1|intros [= <-]; exact H1|].
  intros Hj%lookup_replicate. destruct Hj as [-> _]. exact H0.
Qed.

Lemma ex_even_inv : sched_inv 1 (sy_sched ex_even).
Proof.
  split; [reflexivity| |].
  - apply (ex_even_tasks (fun t => _)); simpl; lia.
  - intros i [= <-]. by exists (ex_task 1).
Qed.

Lemma schedule_no_starvation_witness : 0 < count 1 ex_even_run.
Proof.
  apply (schedule_no_starvation 1 ex_even ex_even_run ex_even_result.2 1 (ex_task 1)).
  - lia.
  - exact ex_even_inv.
  - exact ex_even_ticks.
  - apply (ex_even_tasks (fun t => running t = true -> 1 <= priority t)); simpl; [lia|discriminate].
  - reflexivity.
  - reflexivity.
  - vm_compute. reflexivity.
Defined.
