(* ===== verification/SchedTask.v ===== *)
(** * Creating tasks

    [create_task] claims the lowest free slot, gives the task an address space of
    its own and an identifier that no other task has. *)

From S2P Require Import Prelude Kmath E820 E820Facts Bootmem BootmemFacts Mem Buddy BuddyFacts BuddyAlloc Vmm VmmFacts VmmMap VmmBoot VmmHhdm VmmUser VmmTotal Desc Sched SchedFacts.
From Stdlib Require Import ZArith Lia Bool.
From stdpp Require Import base gmap list strings.

Open Scope Z_scope.

(** ** The search for a slot *)

Lemma find_free_spec l : forall k,
  match find_free l k with
  | Some i => exists j t, i = (k + j)%nat /\ l !! j = Some t /\ t_state t = TASK_FREE /\
                forall j' t', (j' < j)%nat -> l !! j' = Some t' -> t_state t' <> TASK_FREE
  | None => forall j t, l !! j = Some t -> t_state t <> TASK_FREE
  end.
Proof.
  induction l as [|t l IH]; intros k; simpl; [by intros j t|].
  case_bool_decide as Hf.
  - exists 0%nat, t. split_and!; [lia|done|done|]. lia.
  - specialize (IH (S k)). destruct (find_free l (S k)) as [i|].
    + destruct IH as (j&t'&->&Hj&Hs&Hlt). exists (S j), t'. split_and!; [lia|done|done|].
      intros [|j'] u Hlt' Hu; [by injection Hu as <-|]. apply (Hlt j'); [lia|done].
    + intros [|j] u Hu; [by injection Hu as <-|]. by apply (IH j).
Qed.

(** ** Identifiers *)

(** Tasks in use have different identifiers, all of them already given out. *)
Definition pids_ok (s : sched) : Prop :=
  forall i t, tasks s !! i = Some t -> t_state t <> TASK_FREE ->
    pid t < next_pid s /\ forall j u, tasks s !! j = Some u -> t_state u <> TASK_FREE -> pid u = pid t -> j = i.

(** Filling a free slot with a task that has the next identifier. *)
Lemma pids_ok_insert s i t :
  pids_ok s -> pid t = next_pid s -> t_state t <> TASK_FREE ->
  pids_ok (mk_sched (<[i := t]> (tasks s)) (next_pid s + 1) (current s) (clock s)).
Proof.
  intros HP Ht Hst j u Hu Hsu. cbn [tasks next_pid] in *.
  apply list_lookup_insert_Some in Hu as [(->&->&Hlen)|[Hne Hu]].
  - split; [lia|]. intros k w [(->&_&_)|[Hne Hw]]%list_lookup_insert_Some Hsw E; [done|].
    destruct (HP k w Hw Hsw). lia.
  - destruct (HP j u Hu Hsu) as [Hlt Huniq]. split; [lia|].
    intros k w [(->&->&_)|[Hne' Hw]]%list_lookup_insert_Some Hsw E; [lia|by eapply Huniq].
Qed.

(** ** create_task *)

(** The task that [create_task] leaves in its slot. *)
Definition created (told : task) (p v prio : Z) : task :=
  mk_task p TASK_INIT (set_frame (rip (ctx told)) 0x2B 0x202 (rsp (ctx told)) 0x33 (ctx told))
    v (pages told) (vtime told) prio.

Lemma create_task_wp `{LayoutOk} t own s prio i :
  vm_inv own (k_vm (sy_kernel s)) -> ready own (sy_kernel s) -> own !! fr kern_pml4 = Some (4%nat, 0) ->
  (exists y, free_page (k_mem (sy_kernel s)) y) -> get_free_slot s = Some i -> 0 <= next_pid (sy_sched s) < 2 ^ 64 - 1 ->
  wp (create_task t prio) (fun r s' => exists told y, r = Some i /\ tasks (sy_sched s) !! i = Some told /\
    let f := y * PAGE_SIZE in
    let v := phys_to_virt (k_vm (sy_kernel s)) f in
    sy_sched s' = mk_sched (<[i := created told (next_pid (sy_sched s)) v prio]> (tasks (sy_sched s)))
      (next_pid (sy_sched s) + 1) (current (sy_sched s)) (clock (sy_sched s)) /\
    allocated (k_mem (sy_kernel s')) y 0 /\
    (forall z, free_page (k_mem (sy_kernel s')) z <-> free_page (k_mem (sy_kernel s)) z /\ z <> y) /\
    ready (<[f := (4%nat, 0)]> own) (sy_kernel s') /\
    new_space own (k_vm (sy_kernel s)) (fr kern_pml4) f (k_vm (sy_kernel s'))) s.
Proof.
  intros HV HR Hk Hfree Hslot Hpid. unfold create_task. do 2 wp_step. rewrite Hslot.
  pose proof (find_free_spec (tasks (sy_sched s)) 0) as Hff. unfold get_free_slot in Hslot. rewrite Hslot in Hff.
  destruct Hff as (j&told&->&Hj&_&_). simpl in *. pose proof (lookup_lt_Some _ _ _ Hj) as Hlen.
  destruct (layout_pointers (k_vm (sy_kernel s)) kern_pml4) as [Hkp _]; [set_solver|].
  wp_step. apply wp_zoom. eapply wp_mono.
  { apply (create_user_wp t own (sy_kernel s) (fr kern_pml4) (fun p s1 => exists y,
      p = phys_to_virt (k_vm (sy_kernel s)) (y * PAGE_SIZE) /\ p <> 0 /\ reach (vm_state (k_vm (sy_kernel s))) (y * PAGE_SIZE) /\
      vm_state (k_vm s1) = vm_state (k_vm (sy_kernel s)) /\
      (forall x, ready (<[y * PAGE_SIZE := x]> own) s1) /\ allocated (k_mem s1) y 0 /\
      (forall z, free_page (k_mem s1) z <-> free_page (k_mem (sy_kernel s)) z /\ z <> y))); [|done|done|done].
    eapply wp_mono; [by apply ready_alloc|]. intros p s1 (Evm&y&_&Hp&Hnz&Hr&Hn&HR1&Hal&Hfr&_).
    split; [done|]. split; [|right; by exists (y * PAGE_SIZE)].
    exists y. split_and!; try done; by rewrite Evm. }
  intros p k (s1&(y&Hp&Hnz&Hr&Est1&HR1&Hal&Hfr)&Hmm&[(->&_)|(f&Hpf&_&Hns)]); [done|].
  assert (f = y * PAGE_SIZE) as ->.
  { pose proof (vi_reach _ _ (ns_inv _ _ _ _ _ Hns) f (4%nat, 0)) as Hr'. rewrite lookup_insert_eq in Hr'.
    destruct (ns_regs _ _ _ _ _ Hns) as [Est _]. rewrite Est in Hr'. specialize (Hr' eq_refl).
    by rewrite <- (virt_to_phys_reach _ _ Hr), <- (virt_to_phys_reach _ _ Hr'), <- Hp, <- Hpf. }
  wp_step. apply (wp_upd_task _ told); [done|]. destruct (Z.eqb_spec p 0); [done|].
  wp_step. eapply wp_upd_task; [simpl; by apply list_lookup_insert_eq|].
  do 4 wp_step. wp_step. eapply wp_upd_task; [simpl; rewrite list_insert_insert_eq; by apply list_lookup_insert_eq|].
  wp_step. exists told, y. simpl. rewrite !list_insert_insert_eq, u64_small by lia. rewrite <- Hp.
  split_and!; try done.
  - unfold k_mem in *. by rewrite Hmm.
  - unfold k_mem in *. by rewrite Hmm.
  - eapply ready_vm; [apply HR1|done|]. destruct (ns_regs _ _ _ _ _ Hns) as [-> _]. by rewrite Est1.
Qed.

(** C18: In the running kernel, with a page left, [create_task] fails exactly
    when all 16 slots are in use, and then changes nothing.  Otherwise it takes the
    lowest free slot and initialises it for user mode with interrupts enabled, the
    requested priority, an unused identifier and a fresh address space, whose user
    half is empty and whose kernel half is the kernel's; all other tasks and
    address spaces are left alone, the page of the new table is no longer free and
    identifiers stay unique. *)
Theorem create_task_correct `{LayoutOk} t own s prio :
  vm_inv own (k_vm (sy_kernel s)) -> ready own (sy_kernel s) -> own !! fr kern_pml4 = Some (4%nat, 0) ->
  (exists y, free_page (k_mem (sy_kernel s)) y) -> 0 <= next_pid (sy_sched s) < 2 ^ 64 - 1 -> pids_ok (sy_sched s) ->
  (exists s' tr i told f, create_task t prio s = Ok (Some i) s' tr /\
     tasks (sy_sched s) !! i = Some told /\ t_state told = TASK_FREE /\
     (forall j u, (j < i)%nat -> tasks (sy_sched s) !! j = Some u -> t_state u <> TASK_FREE) /\
     tasks (sy_sched s') = <[i := created told (next_pid (sy_sched s)) (phys_to_virt (k_vm (sy_kernel s)) f) prio]>
                             (tasks (sy_sched s)) /\
     current (sy_sched s') = current (sy_sched s) /\ pids_ok (sy_sched s') /\
     new_space own (k_vm (sy_kernel s)) (fr kern_pml4) f (k_vm (sy_kernel s')) /\
     ready (<[f := (4%nat, 0)]> own) (sy_kernel s')) \/
  (create_task t prio s = Ok None s [] /\ forall j u, tasks (sy_sched s) !! j = Some u -> t_state u <> TASK_FREE).
Proof.
  intros HV HR Hk Hfree Hpid Hok. pose proof (find_free_spec (tasks (sy_sched s)) 0) as Hff.
  destruct (get_free_slot s) as [i|] eqn:Hslot; unfold get_free_slot in Hslot; rewrite Hslot in Hff; [left|right].
  - destruct (wp_elim _ _ _ (create_task_wp t own s prio i HV HR Hk Hfree Hslot Hpid))
      as (r&s'&tr&E&told&y&->&Hi&Hs&_&_&Hrd&Hns).
    destruct Hff as (j&u&->&Hj&Hfr&Hlt). simpl in *. assert (u = told) as -> by congruence.
    exists s', tr, j, told, (y * PAGE_SIZE). rewrite Hs. simpl.
    split_and!; try done. by apply pids_ok_insert.
  - split; [|exact Hff]. unfold create_task, mbind, M_bind, get, get_free_slot. by rewrite Hslot.
Qed.

(** A running kernel with four free pages and no task. *)
Definition ex_running : system :=
  mk_system ex_paged sched_reset.

Lemma create_task_correct_witness :
  exists s' tr, create_task (H := ex_layout) ex_sane 1024 ex_running = Ok (Some 0%nat) s' tr /\ pids_ok (sy_sched s').
Proof.
  destruct (create_task_correct (H := ex_layout) ex_sane ex_own ex_running 1024) as [Hc|[_ Hc]].
  - exact ex_paged_inv.
  - exact ex_paged_ready.
  - reflexivity.
  - exists 0, 0, 2. split; [exact I|]. split; [reflexivity|]. split; [discriminate|reflexivity].
  - simpl. lia.
  - intros i t Ht Hs. apply lookup_replicate in Ht as [-> _]. by destruct Hs.
  - destruct Hc as (s'&tr&i&told&f&E&_&_&_&_&_&Hp&_). exists s', tr. split; [|exact Hp].
    assert (i = 0%nat) as <-; [|exact E].
    assert (returned None (create_task (H := ex_layout) ex_sane 1024 ex_running) = Some 0%nat) as Er by (vm_compute; reflexivity).
    rewrite E in Er. by injection Er.
  - exfalso. by apply (Hc 0%nat task_zero).
Defined.
