(* ===== verification/MakeTask.v ===== *)
(** * Making a task (make_task and enter_task of kernel/entry.c)

    [make_task] gives a new task two pages, maps them into its address space and copies the
    code of [user_test] into the second one, through the page tables of the task. *)

From S2P Require Import Prelude Kmath E820 E820Facts Bootmem BootmemFacts Mem Buddy BuddyFacts BuddyAlloc BuddyInit Vmm VmmFacts VmmMap VmmBoot VmmHhdm VmmUser VmmTotal Desc Sched SchedFacts SchedTask.
From Stdlib Require Import ZArith Lia Znumtheory Bool.
From stdpp Require Import base gmap list strings.

Open Scope Z_scope.

(** ** The code *)

Section tasks.
Context `{KernelLayout}.
(** The e820 table, and the address of the function [user_test], which is aligned to 16 bytes. *)
Context (table : e820_table) (user_test : Z).

(** [*(uint64_t* )v = w] through the page tables in CR3, as the processor performs it in kernel mode. *)
Definition user_store (v w : Z) : M kernel unit :=
  s ← get;
  pe ← deref (translate (ram (k_vm s)) (cr3 (k_vm s)) v);
  if has pe.2 PT_WRITABLE then vmod (set_ram (upd_word pe.1 w (ram (k_vm s)))) else fault.

(** [memcpy(dst, src, 8 * n)] out of the kernel image into the current address space, by words. *)
Definition copy_code (dst src : Z) (n : nat) : M kernel unit :=
  for_loop 0 1 n (fun i => w ← load src i; user_store (dst + 8 * i) w).

Definition user_virt : Z := 0x100000.

Definition make_task (prio : Z) : M system (option nat) :=
  task ← create_task table prio;
  match task with
  | None => mret None
  | Some i =>
      t ← get_task i;
      on_kernel (vmm_set_table (vmem t));;
      task_pages ← task_alloc_pages i 1;
      match task_pages with
      | None => mret None
      | Some p =>
          on_kernel (vmm_map table (vmem t) user_virt (hhdm_to_phys (page_to_hhdm p)) (2 * PAGE_SIZE)
            (Z.lor (Z.lor PT_PRESENT PT_WRITABLE) PT_USER));;
          on_kernel (copy_code (user_virt + 0x1000) user_test 512);;
          run_task i (user_virt + 0x1000) (user_virt + 0x1000);;
          mret (Some i)
      end
  end.

(** What [iretq] finds on the stack. *)
Record iret_frame := mk_iret { if_rip : Z; if_cs : Z; if_rflags : Z; if_rsp : Z; if_ss : Z }.

(** [enter_task]: the frame is built from the context of the task; [NULL] is not checked. *)
Definition enter_task (task : option nat) : M system iret_frame :=
  i ← deref task;
  t ← get_task i;
  let c := ctx t in
  mret (mk_iret (rip c) (cs c) (rflags c) (rsp c) (ss c)).
End tasks.

(** ** The pages of a task *)

(** The links of an allocated page are free for its owner to use. *)
Lemma buddy_inv_relink L s s' p k :
  buddy_inv everywhere L s -> allocated s p k -> mem_nr_pages s' = mem_nr_pages s -> free_matrix s' = free_matrix s ->
  (forall x, hdr s' x = hdr s x) -> (forall x, x <> p -> links s' x = links s x) -> buddy_inv everywhere L s'.
Proof.
  intros HI Hp Hnr Hfm Hh Hl. destruct HI as [H1 H2 H3 H4 H5 H6]. split.
  - intros x. by rewrite Hh, Hnr.
  - intros x st j _. rewrite Hh. intros Hx Hst. destruct (H2 x st j ltac:(done) Hx Hst) as (A1&A2&A3&A4&A5).
    split; [done|]. split; [done|]. split; [done|]. split; [by rewrite Hnr|]. intros y Hy. rewrite Hh. by apply A5.
  - intros j Hj. by rewrite Hfm, H3.
  - intros j Hj. eapply dllseg_frame; [|by apply H4]. intros x Hx. apply Hl. intros ->.
    apply H6 in Hx as [_ Hx]; [|done]. unfold allocated in Hp. by rewrite Hp in Hx.
  - done.
  - intros x j Hj. rewrite Hh. by apply H6.
Qed.

(** [task_alloc_pages] for a task without pages. *)
Lemma task_alloc_pages_wp own i t0 s :
  ready own (sy_kernel s) -> tasks (sy_sched s) !! i = Some t0 -> pages t0 = None ->
  wp (task_alloc_pages i 1) (fun r s' => match r with
    | None => s' = s /\ forall x k, 1 <= k <= PAGE_MAX_ORDER -> hdr (k_mem (sy_kernel s)) x <> Some (PG_BUDDY, k)
    | Some p => sy_sched s' = mk_sched (<[i := with_pages (Some p) t0]> (tasks (sy_sched s))) (next_pid (sy_sched s)) (current (sy_sched s)) (clock (sy_sched s)) /\
        k_vm (sy_kernel s') = k_vm (sy_kernel s) /\ ready own (sy_kernel s') /\ allocated (k_mem (sy_kernel s')) p 1 /\
        0 <= p /\ p + 2 <= mem_nr_pages (k_mem (sy_kernel s)) /\
        free_page (k_mem (sy_kernel s)) p /\ free_page (k_mem (sy_kernel s)) (p + 1) /\
        forall z, free_page (k_mem (sy_kernel s')) z <-> free_page (k_mem (sy_kernel s)) z /\ z <> p /\ z <> p + 1
    end) s.
Proof.
  intros [Est [L HI] Hsz Hfree] Hi Hpg. unfold task_alloc_pages. wp_step. unfold on_kernel at 1. apply wp_zoom. unfold on_mem at 1. apply wp_zoom.
  eapply wp_mono; [apply (alloc_pages_wp L _ 1 HI); unfold PAGE_MAX_ORDER; lia|].
  intros [p|] m; [|intros [-> HL]; wp_step; split; [by destruct s as [[[]] ?]|by apply (no_block L)]].
  intros ([Hnr Hman]&[L' HI']&(_&_&Hp0&Hpn&_)&Hal&Hfr&Hwas&_). change (2 ^ 1) with 2 in Hpn.
  assert (forall z, in_block p 1 z <-> z = p \/ z = p + 1) as Hin by (intros z; unfold in_block; change (2 ^ 1) with 2; lia).
  pose proof Hal as (pg&Hpgl&Hst&Hord)%hdr_Some.
  wp_step. eapply wp_get_task; [exact Hi|]. wp_step. unfold on_kernel at 1. apply wp_zoom. unfold on_mem at 1. apply wp_zoom.
  eapply wp_upd_page; [exact Hpgl|]. wp_step. unfold on_kernel at 1. apply wp_zoom. unfold on_mem at 1. apply wp_zoom.
  eapply wp_upd_page; [apply lookup_insert_eq|]. rewrite Hpg. do 2 wp_step. wp_step. eapply wp_upd_task; [exact Hi|]. wp_step.
  set (m' := set_mem_map _ _).
  assert (forall x, hdr m' x = hdr m x) as Hh.
  { intros x. unfold m', hdr. cbn. rewrite insert_insert_eq, lookup_insert. case_decide as Hx; [|done]. subst x. by rewrite Hpgl. }
  assert (forall z, free_page m' z <-> free_page m z) as Hfp.
  { intros z. unfold free_page, free_in. by setoid_rewrite Hh. }
  assert (allocated m' p 1) as Hal' by (unfold allocated; by rewrite Hh).
  split_and!; try done.
  - split; [done| |by rewrite <- Hnr in Hsz|].
    + exists L'. eapply (buddy_inv_relink L' m m' p 1); try done. intros x Hx. unfold m', links. cbn.
      by rewrite insert_insert_eq, lookup_insert_ne.
    + intros y Hy. change (free_page m' y) in Hy. apply Hfree. by apply Hfp, Hfr in Hy as [Hy _].
  - by rewrite <- Hnr.
  - apply Hwas, Hin. by left.
  - apply Hwas, Hin. by right.
  - intros z. change (free_page m' z <-> free_page (k_mem (sy_kernel s)) z /\ z <> p /\ z <> p + 1).
    rewrite Hfp, Hfr, Hin. tauto.
Qed.

(** ** Writing a page that holds no table *)

Section data_page.
Context (own : owners) (r r' : Z -> Z) (q : Z).
Context (HT : tables own r) (Hq : (PAGE_SIZE | q)) (Hnone : own !! q = None).
Context (Hout : forall x, ~ q <= x < q + PAGE_SIZE -> r' x = r x).

Lemma table_word g x j : own !! g = Some x -> 0 <= j < 512 -> r' (g + 8 * j) = r (g + 8 * j).
Proof.
  intros Hg Hj. destruct x as [l pre]. destruct (tb_frame _ _ HT _ _ _ Hg) as ([a Ea]&_&_). destruct Hq as [b Eb].
  apply Hout. assert (g <> q) by congruence. unfold PAGE_SIZE in *. lia.
Qed.

Lemma data_walk root v : own !! root = Some (4%nat, 0) -> walk r' 4 root v = walk r 4 root v.
Proof.
  intros Hr. eapply walk_ext; [exact HT|by rewrite vpre_root|]. intros k g Hg. eapply table_word; [done|apply tidx_range].
Qed.

Lemma data_tables : tables own r'.
Proof.
  split; [apply HT|]. intros f l pre i Hf Hl Hi. rewrite (table_word f _ i Hf Hi). by apply (tb_child _ _ HT f l pre i).
Qed.
End data_page.

Section copy.
Context (own : owners) (s0 : kernel) (root q dst src : Z).
Context (HV : vm_inv own (k_vm s0)) (Hroot : own !! root = Some (4%nat, 0)) (Hcr3 : cr3 (k_vm s0) = root).
Context (Hq : (PAGE_SIZE | q)) (Hnone : own !! q = None).
Context (Hdst : forall j, 0 <= j < 512 -> exists e,
  translate (ram (k_vm s0)) root (dst + 8 * j) = Some (q + 8 * j, e) /\ has e PT_WRITABLE = true).
Context (Hsrc : kernel_vma_start <= src /\ src + PAGE_SIZE <= kernel_vma_start + LARGE_PAGE_SIZE).
Abbreviation srcp := (src - kernel_vma_start + KERNEL_PHYS).
Context (Hdisj : srcp + PAGE_SIZE <= q \/ q + PAGE_SIZE <= srcp).

(** The words up to [i] have been copied. *)
Definition copied (i : Z) (s : kernel) : Prop :=
  k_mm s = k_mm s0 /\ exists r, k_vm s = set_ram r (k_vm s0) /\
    (forall x, ~ q <= x < q + PAGE_SIZE -> r x = ram (k_vm s0) x) /\
    forall j, 0 <= j < i -> r (q + 8 * j) = ram (k_vm s0) (srcp + 8 * j).

Lemma copy_step i s : copied i s -> 0 <= i < 512 ->
  wp (w ← load src i; user_store (dst + 8 * i) w) (fun _ s' => copied (i + 1) s') s.
Proof.
  intros (Emm&r&Evm&Hout&Hcp) Hi. unfold load, user_store. do 3 wp_step. rewrite Evm.
  wp_step. eapply (wp_deref (srcp + 8 * i)).
  { unfold resolve. assert ((kernel_vma_start <=? src + 8 * i) && (src + 8 * i <? kernel_vma_start + LARGE_PAGE_SIZE) = true) as ->.
    { unfold PAGE_SIZE in Hsrc. apply andb_true_intro. split; [apply Z.leb_le|apply Z.ltb_lt]; lia. }
    f_equal. lia. }
  do 3 wp_step. rewrite Evm. cbn [ram set_ram cr3]. rewrite Hcr3. destruct HV as [HT _ _].
  destruct (Hdst i Hi) as (e&Et&Hw). wp_step. eapply (wp_deref (q + 8 * i, e)).
  { unfold translate in *. by rewrite (data_walk own (ram (k_vm s0)) r q HT Hq Hnone Hout) by done. }
  cbn [fst snd]. rewrite Hw. unfold vmod. wp_step. split; [done|].
  exists (upd_word (q + 8 * i) (r (srcp + 8 * i)) r). cbn [k_vm set_vm]. split; [by rewrite Evm|]. split.
  - intros x Hx. unfold upd_word. destruct (Z.eqb_spec x (q + 8 * i)); [unfold PAGE_SIZE in *; lia|by apply Hout].
  - intros j Hj. unfold upd_word. destruct (Z.eqb_spec (q + 8 * j) (q + 8 * i)) as [E|Hne]; [|apply Hcp; lia].
    assert (j = i) as -> by lia. apply Hout. unfold PAGE_SIZE in *. lia.
Qed.

Lemma copy_loop_wp n : forall i s, copied i s -> 0 <= i -> i + Z.of_nat n <= 512 ->
  wp (for_loop i 1 n (fun i => w ← load src i; user_store (dst + 8 * i) w)) (fun _ s' => copied (i + Z.of_nat n) s') s.
Proof.
  induction n as [|n IH]; intros i s Hc Hi Hn; cbn [for_loop]; [wp_step; by rewrite Z.add_0_r|].
  wp_step. eapply wp_mono; [apply copy_step; [done|lia]|]. intros [] s1 Hc1.
  replace (i + Z.of_nat (S n)) with (i + 1 + Z.of_nat n) by lia. apply IH; [done|lia|lia].
Qed.

Lemma copy_code_wp : wp (copy_code dst src 512) (fun _ s' => copied 512 s') s0.
Proof.
  apply (copy_loop_wp 512 0); [|lia|lia]. split; [done|]. exists (ram (k_vm s0)). split; [by destruct (k_vm s0)|].
  split; [done|]. intros j Hj. lia.
Qed.
End copy.

(** ** A source of tables that spares the pages of a task *)

(** [p] and the page behind it belong to a task: they are not free, and the second is no table. *)
Definition sparing (p : Z) (n : nat) (own : owners) (s : kernel) : Prop :=
  page_source n own s /\ allocated (k_mem s) p 1 /\ ~ free_page (k_mem s) (p + 1) /\ own !! ((p + 1) * PAGE_SIZE) = None.

#[export] Instance sparing_source t p : TableSource t False (sparing p).
Proof.
  split.
  - intros n own s [[HR Hl] (Hal&Hnf&Hn)]. pose proof Hl as ([|y l]&_&Hlen&Hf); [done|]. inversion_clear Hf as [|? ? Hy _].
    eapply wp_mono; [by apply ready_alloc; [|exists y]|].
    intros r s' (Evm&z&Hz&Hp&_&Hr&Hnone&HR'&_&Hfr&Ha&_). split; [done|]. right. exists (z * PAGE_SIZE). split_and!; try done.
    intros x. split_and!.
    + split; [done|]. apply (at_least_le n n (fun w => free_page (k_mem s) w /\ w <> z)); [done| |by apply at_least_remove].
      intros w Hw. by apply Hfr.
    + apply Ha. by left.
    + intros [Hw _]%Hfr. done.
    + rewrite lookup_insert_ne; [done|]. intros E. assert (z = p + 1) as -> by (unfold PAGE_SIZE in *; lia). done.
  - intros n own s [[HR Hl] Hrest]. split; [|done]. split; [done|]. eapply at_least_le; [|done|exact Hl]. lia.
  - intros n own s s' [[HR Hl] Hrest] Emm Est. assert (k_mem s' = k_mem s) as Em by (unfold k_mem; by rewrite Emm).
    split; [|by rewrite Em]. split; [by eapply ready_vm|by rewrite Em].
Qed.

Lemma page_phys p : 0 <= p -> (p + 2) * PAGE_SIZE <= HHDM_SIZE -> hhdm_to_phys (page_to_hhdm p) = p * PAGE_SIZE.
Proof.
  intros Hp Hs. unfold hhdm_to_phys, page_to_hhdm, HHDM_SIZE, kernel_vma_start, HHDM_BASE, PAGE_SIZE in *.
  rewrite (u64_small (p * 4096)) by lia. rewrite (u64_small (p * 4096 + _)) by lia. rewrite u64_small by lia. lia.
Qed.

(** The flags of the mapping. *)
Definition USER_PAGE : Z := Z.lor (Z.lor PT_PRESENT PT_WRITABLE) PT_USER.

(** ** make_task *)

(** The address space of a task that [make_task] has filled: two pages of user memory, the second
    with a copy of the code, nothing else in the user half, the kernel half of the kernel. *)
Record loaded (s s' : vmm) (kroot f p srcp : Z) : Prop := {
  ld_here : forall d, 0 <= d < 2 * PAGE_SIZE -> exists e,
    translate (ram s') f (user_virt + d) = Some (p * PAGE_SIZE + d, e) /\
    clear_bits (Z.land e FLAGS_MASK) PT_PSE = clear_bits USER_PAGE PT_PSE;
  ld_user : forall v, v mod 2 ^ 48 < 2 ^ 47 -> ~ user_virt <= v mod 2 ^ 48 < user_virt + 2 * PAGE_SIZE -> translate (ram s') f v = None;
  ld_kernel : forall v, 2 ^ 47 <= v mod 2 ^ 48 -> translate (ram s') f v = translate (ram s) kroot v;
  ld_code : forall j, 0 <= j < 512 -> ram s' ((p + 1) * PAGE_SIZE + 8 * j) = ram s' (srcp + 8 * j);
}.

Section make_task.
Context `{LayoutOk} (table : e820_table) (user_test : Z).
Context (Hsrc : kernel_vma_start <= user_test /\ user_test + PAGE_SIZE <= kernel_vma_start + LARGE_PAGE_SIZE).
Abbreviation srcp := (user_test - kernel_vma_start + KERNEL_PHYS).

(** Mapping and copying, for the new root [f] that CR3 holds. *)
Lemma load_code_wp own f p n s0 k :
  own !! f = None -> (forall v, v mod 2 ^ 48 < 2 ^ 47 -> walk (ram (k_vm k)) 4 f v = None) ->
  (forall v, 2 ^ 47 <= v mod 2 ^ 48 -> walk (ram (k_vm k)) 4 f v = walk (ram s0) 4 (fr kern_pml4) v) ->
  (forall root v, own !! root = Some (4%nat, 0) -> walk (ram (k_vm k)) 4 root v = walk (ram s0) 4 root v) -> cr3 (k_vm k) = f -> own !! fr kern_pml4 = Some (4%nat, 0) ->
  vm_inv (<[f := (4%nat, 0)]> own) (k_vm k) -> sparing p (6 + n) (<[f := (4%nat, 0)]> own) k ->
  0 <= p -> (p + 2) * PAGE_SIZE <= HHDM_SIZE -> srcp + PAGE_SIZE <= (p + 1) * PAGE_SIZE \/ (p + 2) * PAGE_SIZE <= srcp ->
  wp (vmm_map table (phys_to_virt (k_vm k) f) user_virt (hhdm_to_phys (page_to_hhdm p)) (2 * PAGE_SIZE) USER_PAGE;;
      copy_code (user_virt + 0x1000) user_test 512)
    (fun _ k' => exists own', vm_inv own' (k_vm k') /\ <[f := (4%nat, 0)]> own ⊆ own' /\ page_source n own' k' /\
       allocated (k_mem k') p 1 /\ cr3 (k_vm k') = f /\ loaded s0 (k_vm k') (fr kern_pml4) f p srcp /\
       forall root v pe, own !! root = Some (4%nat, 0) -> translate (ram s0) root v = Some pe -> translate (ram (k_vm k')) root v = Some pe) k.
Proof.
  intros Hnew Hu Hk Hold Hc3 Hkr HV HS Hp Hsz Hdj. set (own1 := <[f := (4%nat, 0)]> own) in *.
  assert (own1 !! f = Some (4%nat, 0)) as Hf by apply lookup_insert_eq.
  pose proof (vi_reach _ _ HV f _ Hf) as Hr. pose proof HS as [[HR _] _].
  destruct (phys_to_virt_eq _ _ Hr) as [Eptr _]. pose proof (rd_state _ _ HR) as Est. rewrite Est in Eptr. cbn in Eptr.
  assert (pml4_of (phys_to_virt (k_vm k) f) = phys_to_virt (k_vm k) f) as Epm.
  { unfold pml4_of. destruct (Z.eqb_spec (phys_to_virt (k_vm k) f) KERN_PML4) as [E|]; [|done]. exfalso.
    destruct Hr as [[a Ea] _]. rewrite Eptr, Ea in E. unfold KERN_PML4, HHDM_BASE, PAGE_SIZE in *. lia. }
  rewrite (page_phys p Hp Hsz).
  assert (range_ok user_virt (p * PAGE_SIZE) (2 * PAGE_SIZE)) as Hrange.
  { unfold range_ok, user_virt, PAGE_SIZE, LARGE_PAGE_SIZE, HHDM_SIZE, kernel_vma_start, HHDM_BASE in *. change (0x100000 mod 2 ^ 48) with 0x100000. lia. }
  assert (points (k_vm k) (pml4_of (phys_to_virt (k_vm k) f)) f) as Hpt by (rewrite Epm; by apply reach_points).
  assert (0x1000 | pml4_of (phys_to_virt (k_vm k) f)) as Hal.
  { rewrite Epm, Eptr. apply Z.divide_add_r; [apply Hr|by exists 0xFFFF888000000]. }
  assert (good (sparing p (tables_for (2 * PAGE_SIZE) + n)) own1 k) as HG by (split; [done|exact HS]).
  wp_step. eapply wp_mono; [apply wp_and; [apply (vmm_map_all table (sparing p) n own1 k f); try done|
    apply (vmm_map_spec table (sparing p) n own1 k f); try done]|].
  { by exists 256. } { by exists p. } { by exists 2. }
  { intros v Hv. apply Hu. unfold user_virt, PAGE_SIZE in *. change (0x100000 mod 2 ^ 48) with 0x100000 in Hv. lia. }
  intros r k1 [-> (own2&_&R)]. pose proof (region_translate _ _ _ _ _ _ _ _ _ _ _ _ R Hrange eq_refl) as Htr.
  destruct (rg_good _ _ _ _ _ _ _ _ _ _ _ _ R) as [HV2 HS2]. pose proof HS2 as [_ (_&_&Hq)].
  pose proof (rg_regs _ _ _ _ _ _ _ _ _ _ _ _ R) as (Est1&_&Ec1&_). pose proof (rg_sub _ _ _ _ _ _ _ _ _ _ _ _ R) as Hsub.
  assert (own2 !! f = Some (4%nat, 0)) as Hf2 by (by eapply lookup_weaken).
  eapply wp_mono; [apply (copy_code_wp own2 k1 f ((p + 1) * PAGE_SIZE) (user_virt + 0x1000) user_test HV2 Hf2)|].
  { by rewrite Ec1. } { by exists (p + 1). } { exact Hq. }
  { intros j Hj. destruct (Htr (0x1000 + 8 * j) ltac:(plia)) as (e&Et&He). exists e. split; [|by apply (writable_leaf e USER_PAGE)].
    rewrite <- Z.add_assoc, Et. do 2 f_equal. unfold PAGE_SIZE. lia. }
  { exact Hsrc. } { unfold PAGE_SIZE in *. lia. }
  intros [] k2 (Emm&r&Evm&Hout&Hcp). pose proof (vi_tables _ _ HV2) as HT2.
  assert (forall root v, own2 !! root = Some (4%nat, 0) -> walk r 4 root v = walk (ram (k_vm k1)) 4 root v) as Hw.
  { intros root v Hr'. apply (data_walk own2 _ r ((p + 1) * PAGE_SIZE) HT2); [by exists (p + 1)|done|done|done]. }
  assert (vm_state (k_vm k2) = vm_state (k_vm k1)) as Est2 by (by rewrite Evm).
  exists own2. rewrite Evm. cbn [cr3 set_ram ram]. change (user_virt mod 2 ^ 48) with user_virt in R.
  destruct (ts_vm (t := table) n own2 k1 k2 HS2 Emm Est2) as (HP&Hal2&_). split_and!; try done.
  - split; cbn [ram set_ram vm_state]; [|apply HV2|apply HV2]. by apply (data_tables own2 _ r ((p + 1) * PAGE_SIZE) HT2); [exists (p + 1)|..].
  - by rewrite Ec1.
  - split; cbn [ram set_ram]; unfold translate.
    + intros d Hd. rewrite Hw by done. by apply Htr.
    + intros v Hv Hn. rewrite Hw, (rg_out _ _ _ _ _ _ _ _ _ _ _ _ R), Hu by done. done.
    + intros v Hv. rewrite Hw, (rg_out _ _ _ _ _ _ _ _ _ _ _ _ R), Hk by (done || unfold user_virt, PAGE_SIZE; lia). done.
    + intros j Hj. rewrite Hcp by done. symmetry. apply Hout. unfold PAGE_SIZE in *. lia.
  - intros root v pe Hr'. assert (own1 !! root = Some (4%nat, 0)) as Hr1 by (unfold own1; by rewrite lookup_insert_ne by congruence).
    unfold translate. rewrite Hw, <- (Hold root v Hr') by (by eapply lookup_weaken).
    apply (kept_translate own1 k k1 root v pe); [apply HV|by apply (rg_words _ _ _ _ _ _ _ _ _ _ _ _ R)|done].
Qed.

(** The task in its slot. *)
Definition ready_task (told : task) (pid v p prio : Z) : task :=
  mk_task pid TASK_RUNNING (set_frame (user_virt + 0x1000) 0x2B 0x202 (user_virt + 0x1000) 0x33 (ctx told)) v (Some p) (vtime told) prio.

Lemma make_task_wp own s prio i n :
  vm_inv own (k_vm (sy_kernel s)) -> ready own (sy_kernel s) -> own !! fr kern_pml4 = Some (4%nat, 0) ->
  free_pages_left (9 + n) (k_mem (sy_kernel s)) -> get_free_slot s = Some i -> 0 <= next_pid (sy_sched s) < 2 ^ 64 - 1 ->
  (forall t, tasks (sy_sched s) !! i = Some t -> pages t = None) ->
  (forall y, free_page (k_mem (sy_kernel s)) y -> srcp + PAGE_SIZE <= y * PAGE_SIZE \/ (y + 1) * PAGE_SIZE <= srcp) ->
  wp (make_task table user_test prio) (fun r s' => exists own' f, own !! f = None /\ <[f := (4%nat, 0)]> own ⊆ own' /\
    vm_inv own' (k_vm (sy_kernel s')) /\ ready own' (sy_kernel s') /\
    ((r = None /\ forall x k, 1 <= k <= PAGE_MAX_ORDER -> hdr (k_mem (sy_kernel s')) x <> Some (PG_BUDDY, k)) \/ exists told p, r = Some i /\ tasks (sy_sched s) !! i = Some told /\
       sy_sched s' = mk_sched (<[i := ready_task told (next_pid (sy_sched s)) (phys_to_virt (k_vm (sy_kernel s)) f) p prio]> (tasks (sy_sched s)))
         (next_pid (sy_sched s) + 1) (current (sy_sched s)) (clock (sy_sched s)) /\
       free_pages_left n (k_mem (sy_kernel s')) /\ allocated (k_mem (sy_kernel s')) p 1 /\ cr3 (k_vm (sy_kernel s')) = f /\
       loaded (k_vm (sy_kernel s)) (k_vm (sy_kernel s')) (fr kern_pml4) f p srcp) /\
    forall root v pe, own !! root = Some (4%nat, 0) -> translate (ram (k_vm (sy_kernel s))) root v = Some pe ->
      translate (ram (k_vm (sy_kernel s'))) root v = Some pe) s.
Proof.
  intros HV HR Hk Hfree Hslot Hpid Hpages Htext. unfold make_task. wp_step.
  assert (exists y, free_page (k_mem (sy_kernel s)) y) as Hone.
  { destruct Hfree as ([|y l]&_&Hl&Hf); [done|]. exists y. by inversion Hf. }
  eapply wp_mono; [by apply (create_task_wp table own s prio i)|].
  intros r s1 (told&y&->&Hi&Es1&_&Hfr1&HR1&Hns). set (f := y * PAGE_SIZE) in *. set (own1 := <[f := (4%nat, 0)]> own) in *.
  pose proof Hns as [Hnew HV1 (Est1&_) Hu Hkn Hold]. pose proof (lookup_lt_Some _ _ _ Hi) as Hlen.
  set (v := phys_to_virt (k_vm (sy_kernel s)) f) in *.
  assert (reach (vm_state (k_vm (sy_kernel s))) f) as Hreach.
  { rewrite <- Est1. apply (vi_reach _ _ HV1 f (4%nat, 0)). apply lookup_insert_eq. }
  wp_step. eapply wp_get_task; [rewrite Es1; cbn [tasks]; by apply list_lookup_insert_eq|].
  cbn [vmem created]. wp_step. unfold on_kernel at 1. apply wp_zoom. unfold vmm_set_table, set_cr3, vmod. do 3 wp_step.
  assert (virt_to_phys v = f) as Ev by (by apply virt_to_phys_reach). rewrite Ev. wp_step.
  set (s2 := mk_system _ _). eapply wp_mono; [apply (task_alloc_pages_wp own1 i (created told (next_pid (sy_sched s)) v prio) s2)|].
  { by eapply ready_vm. } { cbn. rewrite Es1. by apply list_lookup_insert_eq. } { exact (Hpages told Hi). }
  assert (vm_inv own1 (k_vm (sy_kernel s2))) as HV2 by (destruct HV1; by split).
  assert (ready own1 (sy_kernel s2)) as HR2 by (by eapply ready_vm).
  intros [p|] s3.
  2:{ intros [-> Hnb]. wp_step. exists own1, f. split_and!; try done; [by left|]. intros root w pe Hr. unfold translate.
      change (ram (k_vm (sy_kernel s2))) with (ram (k_vm (sy_kernel s1))). by rewrite (Hold root w Hr). }
  intros (Es3&Evm3&HR3&Hal&Hp0&Hpn&Hf1&Hf2&Hfr3). change (sy_sched s2) with (sy_sched s1) in Es3.
  assert (forall z, free_page (k_mem (sy_kernel s3)) z <-> (free_page (k_mem (sy_kernel s)) z /\ z <> y) /\ z <> p /\ z <> p + 1) as Hfr.
  { intros z. rewrite Hfr3. by rewrite <- Hfr1. }
  assert (sparing p (6 + n) own1 (sy_kernel s3)) as HS.
  { split; [split; [done|]|split_and!; [done|rewrite Hfr; lia|]].
    - apply (at_least_le (6 + n) (6 + n) (fun z => ((free_page (k_mem (sy_kernel s)) z /\ z <> y) /\ z <> p) /\ z <> p + 1)); [done| |].
      + intros z Hz. apply Hfr. tauto.
      + do 3 apply at_least_remove. exact Hfree.
    - by apply (rd_free _ _ HR2). }
  assert (phys_to_virt (k_vm (sy_kernel s3)) f = v) as Ev3.
  { unfold v, phys_to_virt. rewrite Evm3. cbn. by rewrite Est1. }
  assert (vm_inv own1 (k_vm (sy_kernel s3))) as HV3 by (by rewrite Evm3).
  assert ((p + 2) * PAGE_SIZE <= HHDM_SIZE) as Hsz.
  { pose proof (rd_size _ _ HR2). unfold PAGE_SIZE in *. lia. }
  assert (ram (k_vm (sy_kernel s3)) = ram (k_vm (sy_kernel s1))) as Er by (by rewrite Evm3). rewrite <- Er in Hu, Hkn, Hold.
  assert (cr3 (k_vm (sy_kernel s3)) = f) as Ec3 by (by rewrite Evm3).
  assert (srcp + PAGE_SIZE <= (p + 1) * PAGE_SIZE \/ (p + 2) * PAGE_SIZE <= srcp) as Hdj.
  { replace (p + 2) with (p + 1 + 1) by lia. apply Htext. by apply Hfr1. }
  pose proof (load_code_wp own f p n (k_vm (sy_kernel s)) (sy_kernel s3) Hnew Hu Hkn Hold Ec3 Hk HV3 HS Hp0 Hsz Hdj) as Hw.
  rewrite Ev3 in Hw. apply wp_bind_inv in Hw. wp_step. unfold on_kernel at 1. apply wp_zoom. eapply wp_mono; [exact Hw|].
  clear Hw. intros r k4 Hw. wp_step. unfold on_kernel at 1. apply wp_zoom. cbn [sy_kernel]. eapply wp_mono; [exact Hw|].
  clear Hw. intros [] k5 (own'&HV5&Hsub&[HR5 Hl5]&Hal5&Hc5&Hld&Hoth). wp_step. unfold run_task. wp_step.
  assert (tasks (sy_sched s3) !! i = Some (with_pages (Some p) (created told (next_pid (sy_sched s)) v prio))) as Hi3.
  { rewrite Es3. cbn [tasks]. rewrite Es1. cbn [tasks]. apply list_lookup_insert_eq. by rewrite length_insert. }
  eapply wp_upd_task; [exact Hi3|]. eapply wp_upd_task; [apply list_lookup_insert_eq; by eapply lookup_lt_Some|]. wp_step.
  exists own', f. split_and!; try done. right. exists told, p. split_and!; try done. cbn [sy_sched set_tasks tasks next_pid current clock].
  rewrite Es3. cbn [tasks next_pid current clock]. rewrite Es1. cbn [tasks next_pid current clock]. by rewrite !list_insert_insert_eq.
Qed.
End make_task.

(** C30: In the running kernel, with a free slot and nine free pages that are not those of [user_test],
    [make_task] neither panics nor faults.  It returns NULL only when no free block has two
    pages or more (it has claimed the slot and a page table by then); otherwise it returns
    the task in the lowest free slot: running, in user mode, with its entry point and stack at
    0x101000; in an address space of its own, which is loaded into CR3 and in which
    exactly the two pages at 0x100000 are mapped, for user mode and writable, to pages that
    are allocated for the task, the second with a copy of [user_test]; the kernel half is the
    kernel's.  In every case the page tables stay well-formed and what other
    address spaces translate stays as it is. *)
Theorem make_task_correct `{LayoutOk} table user_test own s prio i n :
  kernel_vma_start <= user_test /\ user_test + PAGE_SIZE <= kernel_vma_start + LARGE_PAGE_SIZE ->
  vm_inv own (k_vm (sy_kernel s)) -> ready own (sy_kernel s) -> own !! fr kern_pml4 = Some (4%nat, 0) ->
  free_pages_left (9 + n)%nat (k_mem (sy_kernel s)) -> get_free_slot s = Some i -> 0 <= next_pid (sy_sched s) < 2 ^ 64 - 1 ->
  (forall t, tasks (sy_sched s) !! i = Some t -> pages t = None) ->
  let srcp := user_test - kernel_vma_start + KERNEL_PHYS in
  (forall y, free_page (k_mem (sy_kernel s)) y -> srcp + PAGE_SIZE <= y * PAGE_SIZE \/ (y + 1) * PAGE_SIZE <= srcp) ->
  exists r s' tr own' f, make_task table user_test prio s = Ok r s' tr /\ own !! f = None /\ <[f := (4%nat, 0)]> own ⊆ own' /\
    vm_inv own' (k_vm (sy_kernel s')) /\ ready own' (sy_kernel s') /\
    ((r = None /\ forall x k, 1 <= k <= PAGE_MAX_ORDER -> hdr (k_mem (sy_kernel s')) x <> Some (PG_BUDDY, k)) \/ exists told p, r = Some i /\ tasks (sy_sched s) !! i = Some told /\
       sy_sched s' = mk_sched (<[i := ready_task told (next_pid (sy_sched s)) (phys_to_virt (k_vm (sy_kernel s)) f) p prio]> (tasks (sy_sched s)))
         (next_pid (sy_sched s) + 1) (current (sy_sched s)) (clock (sy_sched s)) /\
       free_pages_left n (k_mem (sy_kernel s')) /\ allocated (k_mem (sy_kernel s')) p 1 /\ cr3 (k_vm (sy_kernel s')) = f /\
       loaded (k_vm (sy_kernel s)) (k_vm (sy_kernel s')) (fr kern_pml4) f p srcp) /\
    forall root v pe, own !! root = Some (4%nat, 0) -> translate (ram (k_vm (sy_kernel s))) root v = Some pe ->
      translate (ram (k_vm (sy_kernel s'))) root v = Some pe.
Proof.
  intros Hsrc HV HR Hk Hfree Hslot Hpid Hpages srcp Htext.
  destruct (wp_elim _ _ _ (make_task_wp table user_test Hsrc own s prio i n HV HR Hk Hfree Hslot Hpid Hpages Htext))
    as (r&s'&tr&E&own'&f&Hpost). by exists r, s', tr, own', f.
Qed.

(** ** An example: 16 MiB of RAM behind [buddy_init] *)

Definition ex_running_mm : mm_state := match buddy_init ex_sane ex_mm with Ok _ s _ => s | _ => ex_mm end.
Definition ex_machine_up : system :=
  mk_system (mk_kernel ex_running_mm (mk_vmm VMM_READY 0x40000000 (fun _ => 0) 0x210000 0 0)) sched_reset.

Lemma ex_running_mm_spec : (exists L, buddy_inv everywhere L (mm_mem ex_running_mm)) /\
  (forall y, free_page (mm_mem ex_running_mm) y <-> 0 <= y < 4096 /\ ram_page ex_sane (y * PAGE_SIZE) /\ ~ KERNEL_PHYS <= y * PAGE_SIZE < 0x324000) /\
  mem_nr_pages (mm_mem ex_running_mm) = 4096.
Proof.
  assert (wp (buddy_init ex_sane) (fun r s' => (exists L, buddy_inv everywhere L (mm_mem s')) /\
    (forall y, free_page (mm_mem s') y <-> 0 <= y < 4096 /\ ram_page ex_sane (y * PAGE_SIZE) /\ ~ KERNEL_PHYS <= y * PAGE_SIZE < 0x324000) /\
    mem_nr_pages (mm_mem s') = 4096) ex_mm) as Hw.
  { eapply wp_mono; [apply (buddy_init_wp ex_sane ex_mm ex_sane_table)|].
    - apply (cleared_map_cleared 4096). lia.
    - simpl. lia.
    - unfold ex_mm, KERNEL_PHYS. simpl. lia.
    - intros r s' (_&_&HL&Hf&_&_&Hn&_). split; [exact HL|]. split; [exact Hf|exact Hn]. }
  unfold ex_running_mm. destruct (wp_elim _ _ _ Hw) as (r&s'&tr&E&Hs). by rewrite E.
Qed.

Lemma ex_machine_up_ready : ready ex_own (sy_kernel ex_machine_up).
Proof.
  destruct ex_running_mm_spec as (HL&Hf&Hn). split; [done|exact HL| |].
  - change (mem_nr_pages (mm_mem ex_running_mm) * PAGE_SIZE <= HHDM_SIZE). rewrite Hn. vm_compute. by intros [=].
  - intros y Hy. change (free_page (mm_mem ex_running_mm) y) in Hy. apply Hf in Hy as (_&_&Hy). unfold ex_own.
    apply lookup_singleton_None. unfold KERNEL_PHYS, PAGE_SIZE in *. lia.
Qed.

Lemma ex_nine_pages : free_pages_left 9 (k_mem (sy_kernel ex_machine_up)).
Proof.
  exists (seqZ 0 9). split; [apply NoDup_seqZ|]. split; [done|]. apply Forall_forall. intros y Hy%elem_of_seqZ.
  destruct ex_running_mm_spec as (_&Hf&_). apply Hf. split; [lia|]. split; [|unfold KERNEL_PHYS, PAGE_SIZE; lia].
  split; [by exists y|]. exists (mk_entry 0 0x9F000 1). split; [apply list_elem_of_here|]. split; [done|]. unfold PAGE_SIZE. simpl. lia.
Qed.

Lemma ex_make_task_returns : returned None (make_task (H := ex_layout) ex_sane 0xFFFFFFFF80002340 1024 ex_machine_up) = Some 0%nat.
Proof. vm_compute. reflexivity. Qed.

Lemma make_task_correct_witness :
  exists s' tr t, make_task (H := ex_layout) ex_sane 0xFFFFFFFF80002340 1024 ex_machine_up = Ok (Some 0%nat) s' tr /\
    tasks (sy_sched s') !! 0%nat = Some t /\ t_state t = TASK_RUNNING.
Proof.
  destruct (make_task_correct (H := ex_layout) ex_sane 0xFFFFFFFF80002340 ex_own ex_machine_up 1024 0%nat 0)
    as (r&s'&tr&own'&f&E&_&_&_&_&Hr&_).
  - unfold kernel_vma_start, PAGE_SIZE, LARGE_PAGE_SIZE. lia.
  - exact ex_paged_inv.
  - exact ex_machine_up_ready.
  - reflexivity.
  - exact ex_nine_pages.
  - reflexivity.
  - simpl. lia.
  - intros t Ht. injection Ht as <-. reflexivity.
  - intros y Hy. apply (proj1 (proj2 ex_running_mm_spec)) in Hy as (_&_&Hy). unfold KERNEL_PHYS, kernel_vma_start, PAGE_SIZE in *. lia.
  - pose proof ex_make_task_returns as Er. rewrite E in Er. cbn in Er. subst r. exists s', tr.
    destruct Hr as [[Hr _]|(told&p&_&Ht&Hs&_)]; [discriminate Hr|]. eexists. split; [exact E|]. rewrite Hs. split; [reflexivity|reflexivity].
Defined.
