(* ===== verification/Isr.v ===== *)
(** * Interrupt vectors and their dispatch
    (arch/x86/isr.c, arch/x86/irq.c, and the handlers' part of isr.asm as a table)

    The machine joins the gates of the interrupt descriptor table, the interrupt
    controllers behind the I/O ports and the kernel with its scheduler.  The
    addresses of the assembly entry points, [isr_table], are a parameter. *)

From S2P Require Import Prelude E820 Bootmem Mem Buddy Vmm Pic Desc Sched SchedFacts.
From Stdlib Require Import ZArith Lia Bool.
From stdpp Require Import base gmap list strings.

Open Scope Z_scope.

Record machine (D : Type) := mk_machine { m_gates : list idt_gate; m_dev : D; m_sys : system }.
Arguments mk_machine {D} _ _ _.
Arguments m_gates {D} _.
Arguments m_dev {D} _.
Arguments m_sys {D} _.

Section isr.
Context {D : Type} `{!Ports D}.
Context (isr_table : Z -> Z).

Definition on_gates {A} (m : M (list idt_gate) A) : M (machine D) A :=
  zoom m_gates (fun g s => mk_machine g (m_dev s) (m_sys s)) m.
Definition on_dev {A} (m : M D A) : M (machine D) A :=
  zoom m_dev (fun d s => mk_machine (m_gates s) d (m_sys s)) m.
Definition on_system {A} (m : M system A) : M (machine D) A :=
  zoom m_sys (fun y s => mk_machine (m_gates s) (m_dev s) y) m.

(** ** isr.c *)

(** The first parameter is a [uint8_t]; the test on it is in the code. *)
Definition isr_set_gate (interrupt segment ist type dpl : Z) (p : bool) : M (machine D) unit :=
  let interrupt := u8 interrupt in
  if interrupt >=? 256 then panic (line "Invalid vector ID") [] else
  on_gates (idt_set_gate interrupt (isr_table interrupt) segment ist type dpl p).

Definition isr_init : M (machine D) unit :=
  isr_set_gate 0 GDT_KERNEL_CODE_SEGMENT NO_IST IDT_TRAP_GATE 0 true;;
  isr_set_gate 1 GDT_KERNEL_CODE_SEGMENT NO_IST IDT_TRAP_GATE 0 true;;
  isr_set_gate 2 GDT_KERNEL_CODE_SEGMENT EMERG_IST IDT_INTERRUPT_GATE 0 true;;
  isr_set_gate 3 GDT_KERNEL_CODE_SEGMENT NO_IST IDT_TRAP_GATE 0 true;;
  isr_set_gate 4 GDT_KERNEL_CODE_SEGMENT NO_IST IDT_TRAP_GATE 0 true;;
  isr_set_gate 5 GDT_KERNEL_CODE_SEGMENT NO_IST IDT_TRAP_GATE 0 true;;
  isr_set_gate 6 GDT_KERNEL_CODE_SEGMENT NO_IST IDT_TRAP_GATE 0 true;;
  isr_set_gate 7 GDT_KERNEL_CODE_SEGMENT NO_IST IDT_TRAP_GATE 0 true;;
  isr_set_gate 8 GDT_KERNEL_CODE_SEGMENT EMERG_IST IDT_INTERRUPT_GATE 0 true;;
  isr_set_gate 9 GDT_KERNEL_CODE_SEGMENT NO_IST IDT_TRAP_GATE 0 true;;
  isr_set_gate 10 GDT_KERNEL_CODE_SEGMENT NO_IST IDT_TRAP_GATE 0 true;;
  isr_set_gate 11 GDT_KERNEL_CODE_SEGMENT NO_IST IDT_TRAP_GATE 0 true;;
  isr_set_gate 12 GDT_KERNEL_CODE_SEGMENT NO_IST IDT_TRAP_GATE 0 true;;
  isr_set_gate 13 GDT_KERNEL_CODE_SEGMENT NO_IST IDT_TRAP_GATE 0 true;;
  isr_set_gate 14 GDT_KERNEL_CODE_SEGMENT NO_IST IDT_INTERRUPT_GATE 0 true;;
  isr_set_gate 15 GDT_KERNEL_CODE_SEGMENT NO_IST IDT_TRAP_GATE 0 true;;
  isr_set_gate 16 GDT_KERNEL_CODE_SEGMENT NO_IST IDT_TRAP_GATE 0 true;;
  isr_set_gate 17 GDT_KERNEL_CODE_SEGMENT NO_IST IDT_TRAP_GATE 0 true;;
  isr_set_gate 18 GDT_KERNEL_CODE_SEGMENT EMERG_IST IDT_INTERRUPT_GATE 0 true;;
  isr_set_gate 19 GDT_KERNEL_CODE_SEGMENT NO_IST IDT_TRAP_GATE 0 true;;
  isr_set_gate 20 GDT_KERNEL_CODE_SEGMENT NO_IST IDT_TRAP_GATE 0 true;;
  isr_set_gate 21 GDT_KERNEL_CODE_SEGMENT NO_IST IDT_TRAP_GATE 0 true;;
  for_loop 22 1 6 (fun i => isr_set_gate i GDT_KERNEL_CODE_SEGMENT NO_IST IDT_TRAP_GATE 0 true);;
  isr_set_gate 28 GDT_KERNEL_CODE_SEGMENT NO_IST IDT_TRAP_GATE 0 true;;
  isr_set_gate 29 GDT_KERNEL_CODE_SEGMENT NO_IST IDT_TRAP_GATE 0 true;;
  isr_set_gate 30 GDT_KERNEL_CODE_SEGMENT NO_IST IDT_TRAP_GATE 0 true;;
  isr_set_gate 31 GDT_KERNEL_CODE_SEGMENT NO_IST IDT_TRAP_GATE 0 true;;
  for_loop 32 1 224 (fun i => isr_set_gate i GDT_KERNEL_CODE_SEGMENT NO_IST IDT_INTERRUPT_GATE 0 true);;
  printk (line "[OK] ISR initialized") [].

(** ** irq.c *)

Definition IRQ_TO_INTERRUPT_OFFSET : Z := 32.

Definition irq_set_gate (irq segment ist type dpl : Z) (p : bool) : M (machine D) unit :=
  (if p then on_dev (pic_unmask irq) else on_dev (pic_mask irq));;
  isr_set_gate (irq + IRQ_TO_INTERRUPT_OFFSET) segment ist type dpl p.

Definition irq_init : M (machine D) unit :=
  on_dev (pic_remap IRQ_TO_INTERRUPT_OFFSET (IRQ_TO_INTERRUPT_OFFSET + 8));;
  irq_set_gate 0 GDT_KERNEL_CODE_SEGMENT NO_IST IDT_INTERRUPT_GATE 0 true;;
  irq_set_gate 1 GDT_KERNEL_CODE_SEGMENT NO_IST IDT_INTERRUPT_GATE 0 true;;
  printk (line "[OK] IRQ initialized") [].

(** The frame [*r] is overwritten by [schedule]; the vector that is acknowledged
    is read from it afterwards. *)
Definition irq_dispatch (r : regs) : M (machine D) regs :=
  r' ← on_system (schedule r);
  on_dev (pic_send_EOI (u8 (vector_id r' - IRQ_TO_INTERRUPT_OFFSET)));;
  mret r'.

(** [cr2] is the value of that register. *)
Definition __isr_dispatch (cr2 : Z) (r : regs) : M (machine D) regs :=
  if vector_id r <? 32 then
    printk (line (KERN_EMERG +:+ "EXCEPTION %d")) [vector_id r];;
    printk (line (KERN_EMERG +:+ "Error Code: %p")) [error_code r];;
    printk (line (KERN_EMERG +:+ "CR2: %p")) [cr2];;
    printk (line (KERN_EMERG +:+ "RIP: %p | CS: %#llx")) [rip r; cs r];;
    printk (line (KERN_EMERG +:+ "RSP: %p | SS: %#llx")) [rsp r; ss r];;
    panic (line "Unhandled exception with vector ID %d") [vector_id r]
  else if vector_id r <? 256 then irq_dispatch r
  else panic (line "IST dispatch received invalid vector ID %d") [vector_id r].
End isr.

(** ** The gates *)

(** The documented properties of the entry points: every one has an address. *)
Definition handlers_ok (isr_table : Z -> Z) : Prop :=
  forall i, 0 <= i < 256 -> 0 < isr_table i < 2 ^ 64.

(** Vectors that switch to the emergency stack: NMI, double fault, machine check. *)
Definition emergency (i : Z) : bool := (i =? 2) || (i =? 8) || (i =? 18).
(** Vectors entered with interrupts disabled: these, page faults, and all
    vectors that are not exceptions. *)
Definition interrupts_off (i : Z) : bool := emergency i || (i =? 14) || (32 <=? i).

Record gate_ok (isr_table : Z -> Z) (i : Z) (g : idt_gate) : Prop := {
  gk_offset : gate_offset g = isr_table i;
  gk_segment : segment g = GDT_KERNEL_CODE_SEGMENT;
  gk_ist : ist g = if emergency i then EMERG_IST else NO_IST;
  gk_type : gate_type g = if interrupts_off i then IDT_INTERRUPT_GATE else IDT_TRAP_GATE;
  gk_dpl : gate_dpl g = 0;
  gk_present : gate_present g = true;
}.

Section gates.
Context {D : Type} `{!Ports D} (isr_table : Z -> Z) (Htab : handlers_ok isr_table).

(** The gates below [n] are set. *)
Record gates_upto (d : D) (y : system) (n : Z) (s : machine D) : Prop := {
  gu_len : length (m_gates s) = 256%nat;
  gu_dev : m_dev s = d;
  gu_sys : m_sys s = y;
  gu_gates : forall i, 0 <= i < n -> exists g, m_gates s !! Z.to_nat i = Some g /\ gate_ok isr_table i g;
}.

Lemma isr_set_gate_wp i ist_ type s (Q : unit -> machine D -> Prop) :
  0 <= i < 256 -> length (m_gates s) = 256%nat -> ist_ = NO_IST \/ ist_ = EMERG_IST ->
  type = IDT_INTERRUPT_GATE \/ type = IDT_TRAP_GATE ->
  (forall g, gate_offset g = isr_table i -> segment g = GDT_KERNEL_CODE_SEGMENT -> ist g = ist_ ->
     gate_type g = type -> gate_dpl g = 0 -> gate_present g = true ->
     Q tt (mk_machine (<[Z.to_nat i := g]> (m_gates s)) (m_dev s) (m_sys s))) ->
  wp (isr_set_gate isr_table i GDT_KERNEL_CODE_SEGMENT ist_ type 0 true) Q s.
Proof.
  intros Hi Hlen Hist Ht HQ. unfold isr_set_gate. rewrite (u8_small i) by lia.
  destruct (Z.geb_spec i 256); [lia|]. apply wp_zoom. pose proof (Htab i Hi).
  eapply wp_mono; [apply idt_set_gate_wp; try done|].
  - lia.
  - destruct Hist as [-> | ->]; unfold NO_IST, EMERG_IST; lia.
  - destruct Ht as [-> | ->]; unfold IDT_INTERRUPT_GATE, IDT_TRAP_GATE; lia.
  - intros _. lia.
  - intros [] gs (g&->&H1&H2&H3&H4&H5&H6). by apply HQ.
Qed.

Lemma gates_upto_step d y n ist_ type s (Q : unit -> machine D -> Prop) :
  gates_upto d y n s -> 0 <= n < 256 -> ist_ = (if emergency n then EMERG_IST else NO_IST) ->
  type = (if interrupts_off n then IDT_INTERRUPT_GATE else IDT_TRAP_GATE) ->
  (forall s', gates_upto d y (n + 1) s' -> Q tt s') ->
  wp (isr_set_gate isr_table n GDT_KERNEL_CODE_SEGMENT ist_ type 0 true) Q s.
Proof.
  intros [Hlen Hd Hy Hg] Hn Hist Ht HQ. apply isr_set_gate_wp; [done|done|..].
  - rewrite Hist. destruct (emergency n); auto.
  - rewrite Ht. destruct (interrupts_off n); auto.
  - intros g H1 H2 H3 H4 H5 H6. apply HQ. split; simpl; [by rewrite length_insert|done|done|].
    intros i Hi. destruct (decide (i = n)) as [->|].
    + exists g. rewrite list_lookup_insert_eq by lia. split; [done|]. split; congruence.
    + rewrite list_lookup_insert_ne by lia. apply Hg. lia.
Qed.

Lemma gates_upto_loop d y type n : forall lo s (Q : unit -> machine D -> Prop),
  gates_upto d y lo s -> 0 <= lo -> lo + Z.of_nat n <= 256 ->
  (forall i, lo <= i < lo + Z.of_nat n -> emergency i = false /\ type = if interrupts_off i then IDT_INTERRUPT_GATE else IDT_TRAP_GATE) ->
  (forall s', gates_upto d y (lo + Z.of_nat n) s' -> Q tt s') ->
  wp (for_loop lo 1 n (fun i => isr_set_gate isr_table i GDT_KERNEL_CODE_SEGMENT NO_IST type 0 true)) Q s.
Proof.
  induction n as [|n IH]; intros lo s Q Hg Hlo Hhi Hty HQ.
  - apply wp_ret, HQ. by rewrite Z.add_0_r.
  - cbn [for_loop]. apply wp_bind. destruct (Hty lo ltac:(lia)) as [He Ht].
    eapply gates_upto_step; [exact Hg|lia|by rewrite He|done|]. intros s' Hs'.
    apply IH; [exact Hs'|lia|lia| |].
    + intros i Hi. apply Hty. lia.
    + intros s2 H2. apply HQ. replace (lo + Z.of_nat (S n)) with (lo + 1 + Z.of_nat n) by lia. exact H2.
Qed.

Lemma isr_init_wp s (Q : unit -> machine D -> Prop) :
  length (m_gates s) = 256%nat -> (forall s', gates_upto (m_dev s) (m_sys s) 256 s' -> Q tt s') ->
  wp (isr_init isr_table) Q s.
Proof.
  intros Hlen HQ. assert (gates_upto (m_dev s) (m_sys s) 0 s) as H0 by (split; [done..|intros; lia]).
  revert H0 HQ. generalize (m_dev s) (m_sys s). intros d y H0 HQ. clear Hlen. unfold isr_init.
  repeat (apply wp_bind; lazymatch goal with
    | H : gates_upto _ _ _ ?s |- wp (isr_set_gate _ _ _ _ _ _ _) _ ?s =>
        eapply gates_upto_step; [exact H|lia|reflexivity|reflexivity|clear H0 s; intros s H0; simpl in H0]
    | H : gates_upto _ _ _ ?s |- wp (for_loop _ _ _ _) _ ?s =>
        eapply gates_upto_loop; [exact H|lia|lia
          |intros i Hi; unfold interrupts_off, emergency;
           destruct (Z.eqb_spec i 2), (Z.eqb_spec i 8), (Z.eqb_spec i 18), (Z.eqb_spec i 14), (Z.leb_spec 32 i); simpl in *; (lia || done)
          |clear H0 s; intros s H0; simpl in H0]
    end).
  apply wp_emit. by apply HQ.
Qed.
End gates.

(** C34: With an entry point for every vector, [isr_init] fills the whole table:
    each of the 256 gates is present, leads to its own entry point in the kernel
    code segment and cannot be raised by software in user mode; NMI, double fault
    and machine check run on the emergency stack; and interrupts stay disabled on
    entry of these, of page faults and of every vector that is not an exception.
    Devices and kernel state are left alone. *)
Theorem isr_init_correct {D} `{!Ports D} isr_table (s : machine D) :
  handlers_ok isr_table -> length (m_gates s) = 256%nat ->
  exists s' tr, isr_init isr_table s = Ok tt s' tr /\
    length (m_gates s') = 256%nat /\ m_dev s' = m_dev s /\ m_sys s' = m_sys s /\
    forall i, 0 <= i < 256 -> exists g, m_gates s' !! Z.to_nat i = Some g /\ gate_ok isr_table i g.
Proof.
  intros Ht Hlen.
  destruct (wp_elim _ _ _ (isr_init_wp isr_table Ht s (fun _ s' => gates_upto isr_table (m_dev s) (m_sys s) 256 s') Hlen
    (fun s' H => H))) as ([]&s'&tr&E&[]). by exists s', tr.
Qed.

(** Entry points 16 bytes apart, as the assembler lays them out. *)
Definition ex_handlers (i : Z) : Z := 0xFFFFFFFF80001000 + 16 * i.
Lemma ex_handlers_ok : handlers_ok ex_handlers.
Proof. intros i Hi. unfold ex_handlers. lia. Qed.
Definition ex_machine : machine pics := mk_machine idt_reset (mk_pics chip0 chip0) ex_system.

Lemma isr_init_correct_witness :
  exists s' tr g, isr_init ex_handlers ex_machine = Ok tt s' tr /\ m_gates s' !! 8%nat = Some g /\
    gate_ok ex_handlers 8 g.
Proof.
  destruct (isr_init_correct ex_handlers ex_machine ex_handlers_ok eq_refl) as (s'&tr&E&_&_&_&Hg).
  destruct (Hg 8 ltac:(lia)) as (g&H1&H2). exists s', tr, g. split; [exact E|]. split; [exact H1|exact H2].
Defined.

(** ** Device interrupts *)

Lemma wp_pic_remap o1 o2 d (Q : unit -> pics -> Prop) :
  32 <= o1 < 248 -> 32 <= o2 < 248 -> 8 <= Z.abs (o1 - o2) ->
  Q tt (mk_pics (mk_chip Ready (Z.land o1 0xF8) 4 true 0xFB (eois (master d)))
                (mk_chip Ready (Z.land o2 0xF8) 2 true 0xFF (eois (slave d)))) ->
  wp (pic_remap o1 o2) Q d.
Proof.
  intros H1 H2 H3 HQ. destruct (pic_remap_run o1 o2 d H1 H2 H3) as [tr E]. by eapply wp_Ok.
Qed.

Lemma wp_pic_unmask_master irq d (Q : unit -> pics -> Prop) :
  irq < 8 -> Q tt (port_out PIC1_DATA (u8 (u8 (Z.land (u8 (imr (master d))) (Z.lnot (Z.shiftl 1 irq))))) d) ->
  wp (pic_unmask irq) Q d.
Proof. intros Hi HQ. unfold pic_unmask. destruct (Z.geb_spec irq 8); [lia|]. exact HQ. Qed.

Section irq.
Context (isr_table : Z -> Z) (Htab : handlers_ok isr_table).

Lemma initial_mask d irq : imr (master d) = 0xF8 -> imr (slave d) = 0xFF -> 0 <= irq < 16 -> masked irq d = negb (irq <=? 2).
Proof.
  intros H1 H2 Hi. unfold masked. rewrite H1, H2. assert (irq ∈ seqZ 0 16) as Hin by (apply elem_of_seqZ; lia).
  clear Hi. revert irq Hin. apply Forall_forall. vm_compute. repeat constructor.
Qed.

Lemma irq_init_wp (s : machine pics) :
  length (m_gates s) = 256%nat ->
  wp (irq_init isr_table) (fun _ s' =>
    m_dev s' = mk_pics (mk_chip Ready 32 4 true 0xF8 (eois (master (m_dev s))))
                       (mk_chip Ready 40 2 true 0xFF (eois (slave (m_dev s)))) /\
    m_sys s' = m_sys s /\ length (m_gates s') = 256%nat /\
    (forall i, i = 32 \/ i = 33 -> exists g, m_gates s' !! Z.to_nat i = Some g /\ gate_ok isr_table i g) /\
    (forall i, i <> 32%nat -> i <> 33%nat -> m_gates s' !! i = m_gates s !! i)) s.
Proof.
  intros Hlen. unfold irq_init, IRQ_TO_INTERRUPT_OFFSET. wp_step. apply wp_zoom, wp_pic_remap; [lia..|].
  wp_step. unfold irq_set_gate. wp_step. apply wp_zoom, wp_pic_unmask_master; [lia|].
  apply isr_set_gate_wp; [done|unfold IRQ_TO_INTERRUPT_OFFSET; lia|done|by left|by left|].
  intros g1 A1 A2 A3 A4 A5 A6. unfold IRQ_TO_INTERRUPT_OFFSET in *. simpl.
  wp_step. wp_step. apply wp_zoom, wp_pic_unmask_master; [lia|].
  apply isr_set_gate_wp; [done|unfold IRQ_TO_INTERRUPT_OFFSET; lia|simpl; by rewrite length_insert|by left|by left|].
  intros g2 B1 B2 B3 B4 B5 B6. unfold IRQ_TO_INTERRUPT_OFFSET in *. simpl in *. apply wp_emit. simpl.
  split_and!; [reflexivity|done|by rewrite !length_insert|..].
  - intros i [-> | ->].
    + exists g1. rewrite list_lookup_insert_ne, list_lookup_insert_eq by (lia || done). by split.
    + exists g2. rewrite list_lookup_insert_eq by (rewrite length_insert; lia). by split.
  - intros i H1 H2. rewrite !list_lookup_insert_ne by done. done.
Qed.
End irq.

(** C36: After [irq_init] the controllers raise the lines 0..15 as the vectors
    32..47, which are vectors of interrupt gates; exactly the timer (0), the
    keyboard (1) and the cascade (2) can be raised; the gates 32 and 33 lead to
    their entry points and no other gate has changed. *)
Theorem irq_init_correct isr_table (s : machine pics) :
  handlers_ok isr_table -> length (m_gates s) = 256%nat ->
  exists s' tr, irq_init isr_table s = Ok tt s' tr /\ m_sys s' = m_sys s /\
    vector_base (master (m_dev s')) = 32 /\ vector_base (slave (m_dev s')) = 40 /\ pics_ready (m_dev s') /\
    (forall irq, 0 <= irq < 16 -> masked irq (m_dev s') = negb (irq <=? 2)) /\
    (forall i, i = 32 \/ i = 33 -> exists g, m_gates s' !! Z.to_nat i = Some g /\ gate_ok isr_table i g) /\
    (forall i, i <> 32%nat -> i <> 33%nat -> m_gates s' !! i = m_gates s !! i).
Proof.
  intros Ht Hlen. destruct (wp_elim _ _ _ (irq_init_wp isr_table Ht s Hlen)) as ([]&s'&tr&E&Hd&Hy&_&H1&H2).
  exists s', tr. rewrite Hd. split_and!; try done.
  intros irq Hi. by apply initial_mask.
Qed.

Lemma irq_init_correct_witness :
  exists s' tr, irq_init ex_handlers ex_machine = Ok tt s' tr /\ masked 1 (m_dev s') = false /\ masked 9 (m_dev s') = true.
Proof.
  destruct (irq_init_correct ex_handlers ex_machine ex_handlers_ok eq_refl) as (s'&tr&E&_&_&_&_&Hm&_).
  exists s', tr. split; [exact E|]. rewrite !Hm by lia. split; reflexivity.
Defined.

(** ** Dispatch *)

(** An exception never returns to the code that raised it: [__isr_dispatch]
    panics for every vector below 32, after having reported the frame, and for
    every number that is no vector; neither devices nor scheduler are touched, and
    nothing is acknowledged. *)
Theorem isr_dispatch_exception {D} `{!Ports D} cr2 r (s : machine D) :
  0 <= vector_id r < 32 \/ 256 <= vector_id r ->
  exists f tr, __isr_dispatch cr2 r s = Panic f [vector_id r] tr /\ (forall p, written p tr = []) /\
    (vector_id r < 32 -> length tr = 5%nat /\ EvPrintk (line (KERN_EMERG +:+ "CR2: %p")) [cr2] ∈ tr).
Proof.
  intros H. unfold __isr_dispatch. destruct (Z.ltb_spec (vector_id r) 32) as [Hlt|Hge].
  - do 2 eexists. split; [reflexivity|]. split; [done|]. intros _. split; [done|]. set_solver.
  - destruct (Z.ltb_spec (vector_id r) 256); [lia|]. do 2 eexists. split; [reflexivity|]. split; [done|lia].
Qed.

(** A page fault in the kernel. *)
Definition ex_fault : regs := mk_regs 0 0 0 0 0 0 0 0 0 0 0 0 0 0 0 14 2 0xFFFFFFFF80001234 8 0x202 0xFFFFFFFF80009000 0x10.
Lemma isr_dispatch_exception_witness :
  exists f tr, __isr_dispatch 0xDEAD ex_fault ex_machine = Panic f [14] tr /\ (forall p, written p tr = []) /\
    (14 < 32 -> length tr = 5%nat /\ EvPrintk (line (KERN_EMERG +:+ "CR2: %p")) [0xDEAD] ∈ tr).
Proof. apply (isr_dispatch_exception 0xDEAD ex_fault ex_machine). left. split; [discriminate|reflexivity]. Defined.

Lemma wp_pic_send_EOI irq d : next_icw (master d) = Ready -> next_icw (slave d) = Ready ->
  wp (pic_send_EOI irq) (fun _ d' =>
    eois (master d') = S (eois (master d)) /\
    eois (slave d') = ((if (8 <=? irq)%Z then 1 else 0) + eois (slave d))%nat /\
    imr (master d') = imr (master d) /\ imr (slave d') = imr (slave d)) d.
Proof.
  intros H1 H2. unfold pic_send_EOI. wp_step. apply wp_outb_wait. rewrite Z.geb_leb.
  destruct (8 <=? irq); (split_and!; reflexivity).
Qed.

(** C35: A device interrupt taken while a task can run.  [__isr_dispatch]
    returns the saved context of the task that [schedule] selects, with the
    invariant of the scheduler preserved and the masks unchanged, and acknowledges
    one interrupt at the master.  The slave is acknowledged exactly if the vector
    stored in the context that is resumed is outside of 32..39. *)
Theorem irq_dispatch_correct Pmax cr2 r (s : machine pics) :
  0 <= Pmax < 2 ^ 62 -> sched_inv Pmax (sy_sched (m_sys s)) -> pics_ready (m_dev s) -> 32 <= vector_id r < 256 ->
  (exists i t, tasks (sy_sched (m_sys s)) !! i = Some t /\ running t = true) ->
  exists s' tr i t, __isr_dispatch cr2 r s = Ok (ctx t) s' tr /\
    is_min (charged r (sy_sched (m_sys s))) i t /\ current (sy_sched (m_sys s')) = Some i /\
    sched_inv Pmax (sy_sched (m_sys s')) /\ m_gates s' = m_gates s /\
    (forall irq, masked irq (m_dev s') = masked irq (m_dev s)) /\
    eois (master (m_dev s')) = S (eois (master (m_dev s))) /\
    eois (slave (m_dev s')) = ((if (8 <=? u8 (vector_id (ctx t) - 32))%Z then 1 else 0) + eois (slave (m_dev s)))%nat.
Proof.
  intros HP HI (Hm&Hs&_) Hv Hrun.
  assert (wp (__isr_dispatch cr2 r) (fun r' s' => exists i t, r' = ctx t /\
    is_min (charged r (sy_sched (m_sys s))) i t /\ current (sy_sched (m_sys s')) = Some i /\
    sched_inv Pmax (sy_sched (m_sys s')) /\ m_gates s' = m_gates s /\
    (forall irq, masked irq (m_dev s') = masked irq (m_dev s)) /\
    eois (master (m_dev s')) = S (eois (master (m_dev s))) /\
    eois (slave (m_dev s')) = ((if (8 <=? u8 (vector_id (ctx t) - 32))%Z then 1 else 0) + eois (slave (m_dev s)))%nat) s) as Hw.
  { unfold __isr_dispatch. destruct (Z.ltb_spec (vector_id r) 32); [lia|]. destruct (Z.ltb_spec (vector_id r) 256); [|lia].
    unfold irq_dispatch. wp_step. apply wp_zoom. eapply wp_mono; [by apply (schedule_wp Pmax)|].
    intros r' y (i&t&Htk&HI'&->&_). wp_step. apply wp_zoom. eapply wp_mono; [by apply wp_pic_send_EOI|].
    intros [] d (E1&E2&E3&E4). wp_step. exists i, t. simpl in *.
    split_and!; [done|apply Htk|apply Htk|done|done| |done|done].
    intros irq. unfold masked. by rewrite E3, E4. }
  destruct (wp_elim _ _ _ Hw) as (r'&s'&tr&E&i&t&->&H). by exists s', tr, i, t.
Qed.

Definition ex_timer : regs := mk_regs 1 0 0 0 0 0 0 0 0 0 0 0 0 0 0 32 0 0x100000 0x2b 0x202 0x101000 0x33.
Lemma irq_dispatch_correct_witness :
  exists s' tr i t, __isr_dispatch 0 ex_timer ex_machine = Ok (ctx t) s' tr /\
    is_min (charged ex_timer (sy_sched ex_system)) i t /\ eois (master (m_dev s')) = 1%nat.
Proof.
  destruct (irq_dispatch_correct 1024 0 ex_timer ex_machine) as (s'&tr&i&t&E&Hm&_&_&_&_&He&_).
  - lia.
  - apply ex_system_inv.
  - unfold pics_ready. simpl. split_and!; try reflexivity; lia.
  - simpl. lia.
  - exists 0%nat, (ex_task 100). split; reflexivity.
  - exists s', tr, i, t. split; [exact E|]. split; [exact Hm|exact He].
Defined.

(** The acknowledged line is taken from the resumed context, not from the
    interrupt: a timer interrupt (vector 32, line 0 of the master) that resumes a
    task which has never been interrupted, whose saved vector is 0, also ends an
    interrupt at the slave, although none of its lines was raised. *)
Example irq_dispatch_spurious_slave_eoi :
  vector_id ex_timer = 32 /\
  exists s' tr, __isr_dispatch 0 ex_timer ex_machine = Ok regs_zero s' tr /\
    current (sy_sched (m_sys s')) = Some 1%nat /\
    written PIC1_COMMAND tr = [EOI] /\ written PIC2_COMMAND tr = [EOI] /\
    eois (slave (m_dev ex_machine)) = 0%nat /\ eois (slave (m_dev s')) = 1%nat.
Proof.
  split; [reflexivity|]. do 2 eexists. split; [vm_compute; reflexivity|]. split_and!; reflexivity.
Qed.
