(* ===== verification/Printk.v ===== *)
(** * Formatted output (lib/printk.c, include/printk.h)

    Strings are lists of characters without their terminating zero.  The variable
    arguments are a list of slots, consumed in order; the state joins the sinks,
    the calls of their [write] functions so far and the local
    [printk_context_t]. *)

From S2P Require Import Prelude.
From Stdlib Require Import ZArith Lia Ascii.
From stdpp Require Import base list strings.

Open Scope Z_scope.

(** ** Data *)

Definition PRINTK_BUFFER_SIZE : nat := 64.
Definition DEFAULT_LEVEL : Z := 6.
Definition MAX_SINKS : nat := 8.
Definition NTOA_BUFFER_SIZE : nat := 24.

Definition FL_LEFT_JUSTIFY : Z := 0x1.
Definition FL_ALWAYS_SIGN : Z := 0x2.
Definition FL_SIGN_PAD : Z := 0x4.
Definition FL_PREFIX : Z := 0x8.
Definition FL_ZERO_PAD : Z := 0x10.
Definition FL_UPPER : Z := 0x20.
Definition FL_NEG : Z := 0x40.

Inductive length_t := LEN_NONE | LEN_HH | LEN_H | LEN_L | LEN_LL | LEN_J | LEN_Z | LEN_T.

(** A slot of the variable arguments: an integer or address, a string, a wide
    string, or the address of a variable for the conversion [n]. *)
Inductive varg :=
  | VInt (x : Z)
  | VStr (s : option (list ascii))
  | VWstr (s : option (list Z))
  | VOut (null : bool).

(** [name[0]] of a sink decides whether its slot is in use. *)
Record sink := mk_sink { name0 : ascii; sink_id : Z }.
Definition no_sink : sink := mk_sink zero 0.
Definition present (k : sink) : bool := negb (Ascii.eqb (name0 k) zero).

Record pk := mk_pk {
  sinks : list sink;
  (** Calls of [sinks[i].write(level, str, n)]: slot, level and characters. *)
  writes : list (nat * Z * list ascii);
  (** Values stored by the conversion [n]. *)
  stored : list (length_t * Z);
  (** The context: [buffer] up to [buf_len], [level] and [len]. *)
  buffer : list ascii;
  level : Z;
  len : Z;
  va : list varg;
}.

Definition set_buffer (b : list ascii) (s : pk) := mk_pk (sinks s) (writes s) (stored s) b (level s) (len s) (va s).
Definition set_writes (w : list (nat * Z * list ascii)) (s : pk) := mk_pk (sinks s) w (stored s) (buffer s) (level s) (len s) (va s).
Definition set_len (n : Z) (s : pk) := mk_pk (sinks s) (writes s) (stored s) (buffer s) (level s) n (va s).
Definition set_va (l : list varg) (s : pk) := mk_pk (sinks s) (writes s) (stored s) (buffer s) (level s) (len s) l.
Definition add_stored (x : length_t * Z) (s : pk) :=
  mk_pk (sinks s) (writes s) (stored s ++ [x]) (buffer s) (level s) (len s) (va s).
Definition set_sinks (l : list sink) (s : pk) := mk_pk l (writes s) (stored s) (buffer s) (level s) (len s) (va s).

Definition flag (flags m : Z) : bool := negb (Z.land flags m =? 0).
(** Conversion of an integer to [char]. *)
Definition chr (x : Z) : ascii := ascii_of_N (Z.to_N (u8 x)).

(** ** Output *)

(** The calls of one [_flush], from slot [i] on. *)
Fixpoint flush_to (i : nat) (l : list sink) (lev : Z) (b : list ascii) : list (nat * Z * list ascii) :=
  match l with
  | [] => []
  | k :: l' => if present k then (i, lev, b) :: flush_to (S i) l' lev b else flush_to (S i) l' lev b
  end.

Definition _flush : M pk unit :=
  s ← get;
  if (length (buffer s) =? 0)%nat then mret tt else
  let b := if (PRINTK_BUFFER_SIZE <? length (buffer s))%nat then take PRINTK_BUFFER_SIZE (buffer s) else buffer s in
  modify (set_writes (writes s ++ flush_to 0 (sinks s) (level s) b));;
  modify (set_buffer []).

Definition _putc (c : ascii) : M pk unit :=
  s ← get;
  when (PRINTK_BUFFER_SIZE <=? length (buffer s))%nat _flush;;
  s ← get;
  modify (set_buffer (buffer s ++ [c]));;
  n ← cint (len s + 1);
  modify (set_len n).

Definition _putwc (wc : Z) : M pk unit :=
  if wc <=? 0x7F then _putc (chr wc)
  else if wc <=? 0x7FF then
    _putc (chr (Z.lor 0xC0 (Z.shiftr wc 6)));;
    _putc (chr (Z.lor 0x80 (Z.land wc 0x3F)))
  else if wc <=? 0xFFFF then
    _putc (chr (Z.lor 0xE0 (Z.shiftr wc 12)));;
    _putc (chr (Z.lor 0x80 (Z.land (Z.shiftr wc 6) 0x3F)));;
    _putc (chr (Z.lor 0x80 (Z.land wc 0x3F)))
  else if wc <=? 0x10FFFF then
    _putc (chr (Z.lor 0xF0 (Z.shiftr wc 18)));;
    _putc (chr (Z.lor 0x80 (Z.land (Z.shiftr wc 12) 0x3F)));;
    _putc (chr (Z.lor 0x80 (Z.land (Z.shiftr wc 6) 0x3F)));;
    _putc (chr (Z.lor 0x80 (Z.land wc 0x3F)))
  else mret tt.

Fixpoint put_all {A} (put : A -> M pk unit) (l : list A) : M pk unit :=
  match l with
  | [] => mret tt
  | c :: l' => put c;; put_all put l'
  end.

Definition _pad (c : ascii) (n : Z) : M pk unit := put_all _putc (replicate (Z.to_nat n) c).
Definition _str (s : list ascii) (n : Z) : M pk unit := put_all _putc (take (Z.to_nat n) s).
Definition _wstr (s : list Z) (n : Z) : M pk unit := put_all _putwc (take (Z.to_nat n) s).

(** ** Numbers *)

Definition digits (upper : bool) : list ascii :=
  String.list_ascii_of_string (if upper then "0123456789ABCDEF" else "0123456789abcdef").
Definition digit (upper : bool) (d : Z) : ascii := nth (Z.to_nat d) (digits upper) zero.

(** [while (val && p > ctx->ntoa)], filling the buffer from its end, with [n]
    characters of room left: the characters and the rest of [val]. *)
Fixpoint ntoa_loop (upper : bool) (base val : Z) (n : nat) (p : list ascii) : list ascii * Z :=
  match n with
  | O => (p, val)
  | S n' => if val =? 0 then (p, val)
            else ntoa_loop upper base (val / base) n' (digit upper (val mod base) :: p)
  end.

Definition _ntoa (val base : Z) (upper : bool) : list ascii :=
  if val =? 0 then ["0"%char] else
  let '(p, rest) := ntoa_loop upper base val NTOA_BUFFER_SIZE [] in
  if negb (rest =? 0) then match p with [] => [] | _ :: p' => "?"%char :: p' end else p.

(** [va_arg] of an integer type: the slot holds its 64 bits. *)
Definition va_arg : M pk Z :=
  s ← get;
  match va s with
  | VInt x :: l => modify (set_va l);; mret x
  | _ => fault
  end.

(** The converted value of an integer argument. *)
Definition signed_arg (ln : length_t) (x : Z) : Z :=
  match ln with
  | LEN_HH => sint 8 x
  | LEN_H => sint 16 x
  | LEN_L | LEN_LL | LEN_J | LEN_Z | LEN_T => sint 64 x
  | LEN_NONE => sint 32 x
  end.
Definition unsigned_arg (ln : length_t) (x : Z) : Z :=
  match ln with
  | LEN_HH => u8 x
  | LEN_H => u16 x
  | LEN_L | LEN_LL | LEN_J | LEN_Z | LEN_T => u64 x
  | LEN_NONE => u32 x
  end.

(** The layout of a number with magnitude [uval]. *)
Definition put_integer (is_signed : bool) (base flags width precision uval : Z) : M pk unit :=
  let nstr := _ntoa uval base (flag flags FL_UPPER) in
  let nlen := Z.of_nat (length nstr) in
  let nlen := if (precision =? 0) && (uval =? 0) then 0 else nlen in
  let prec_zeros := if precision >? nlen then precision - nlen else 0 in
  let sign :=
    if flag flags FL_NEG then Some "-"%char
    else if flag flags FL_ALWAYS_SIGN && is_signed then Some "+"%char
    else if flag flags FL_SIGN_PAD then Some " "%char else None in
  let prefix_type :=
    if flag flags FL_PREFIX then
      if (base =? 8) && (prec_zeros =? 0) && (negb (uval =? 0) || (precision =? 0)) then 1
      else if (base =? 16) && negb (uval =? 0) then 2 else 0
    else 0 in
  field ← cint ((if sign then 1 else 0) + prefix_type + prec_zeros + nlen);
  let pad_n := if width >? field then width - field else 0 in
  let zero := flag flags FL_ZERO_PAD && negb (flag flags FL_LEFT_JUSTIFY) && (precision <? 0) in
  let zero_n := if zero then pad_n else 0 in
  let pad_n := if zero then 0 else pad_n in
  when (negb (flag flags FL_LEFT_JUSTIFY)) (_pad " "%char pad_n);;
  match sign with Some c => _putc c | None => mret tt end;;
  when (negb (prefix_type =? 0))
    (_putc "0"%char;;
     when (prefix_type =? 2) (_putc (if flag flags FL_UPPER then "X"%char else "x"%char)));;
  _pad "0"%char (zero_n + prec_zeros);;
  _str nstr nlen;;
  when (flag flags FL_LEFT_JUSTIFY) (_pad " "%char pad_n).

Definition _integer (is_signed : bool) (base flags width precision : Z) (ln : length_t) : M pk unit :=
  a ← va_arg;
  if is_signed then
    let x := signed_arg ln a in
    if x <? 0 then
      if x =? - 2 ^ 63 then fault else put_integer true base (Z.lor flags FL_NEG) width precision (- x)
    else put_integer true base flags width precision x
  else put_integer false base flags width precision (unsigned_arg ln a).

(** ** The format string *)

Fixpoint parse_flags (fmt : list ascii) (flags : Z) : Z * list ascii :=
  match fmt with
  | c :: fmt' =>
      if Ascii.eqb c "-" then parse_flags fmt' (Z.lor flags FL_LEFT_JUSTIFY)
      else if Ascii.eqb c "+" then parse_flags fmt' (Z.lor flags FL_ALWAYS_SIGN)
      else if Ascii.eqb c " " then parse_flags fmt' (Z.lor flags FL_SIGN_PAD)
      else if Ascii.eqb c "#" then parse_flags fmt' (Z.lor flags FL_PREFIX)
      else if Ascii.eqb c "0" then parse_flags fmt' (Z.lor flags FL_ZERO_PAD)
      else (flags, fmt)
  | [] => (flags, [])
  end.

Definition code (c : ascii) : Z := Z.of_N (N_of_ascii c).
Definition is_digit (c : ascii) : bool := (48 <=? code c) && (code c <=? 57).

(** The loop that reads a decimal number at [fmt]. *)
Fixpoint parse_number (fmt : list ascii) (n : Z) : M pk (Z * list ascii) :=
  match fmt with
  | c :: fmt' => if is_digit c then m ← cint (n * 10 + (code c - 48)); parse_number fmt' m else mret (n, fmt)
  | [] => mret (n, [])
  end.

Definition parse_width (fmt : list ascii) (flags : Z) : M pk (Z * Z * list ascii) :=
  match fmt with
  | "*"%char :: fmt' =>
      a ← va_arg;
      let width := sint 32 a in
      if width <? 0 then w ← cint (- width); mret (w, Z.lor flags FL_LEFT_JUSTIFY, fmt')
      else mret (width, flags, fmt')
  | _ => '(w, fmt') ← parse_number fmt 0; mret (w, flags, fmt')
  end.

Definition parse_precision (fmt : list ascii) : M pk (Z * list ascii) :=
  match fmt with
  | "."%char :: fmt1 =>
      match fmt1 with
      | "*"%char :: fmt' =>
          a ← va_arg;
          let precision := sint 32 a in
          mret (if precision <? 0 then -1 else precision, fmt')
      | _ => parse_number fmt1 0
      end
  | _ => mret (-1, fmt)
  end.

Definition parse_length (fmt : list ascii) : length_t * list ascii :=
  match fmt with
  | "h"%char :: "h"%char :: f => (LEN_HH, f)
  | "h"%char :: f => (LEN_H, f)
  | "l"%char :: "l"%char :: f => (LEN_LL, f)
  | "l"%char :: f => (LEN_L, f)
  | "j"%char :: f => (LEN_J, f)
  | "z"%char :: f => (LEN_Z, f)
  | "t"%char :: f => (LEN_T, f)
  | _ => (LEN_NONE, fmt)
  end.

(** ** The conversions *)

Definition padded (flags pad : Z) (m : M pk unit) : M pk unit :=
  when (negb (flag flags FL_LEFT_JUSTIFY) && (pad >? 0)) (_pad " "%char pad);;
  m;;
  when (flag flags FL_LEFT_JUSTIFY && (pad >? 0)) (_pad " "%char pad).

Definition is_long (ln : length_t) : bool := match ln with LEN_L => true | _ => false end.

Definition null_text : list ascii := String.list_ascii_of_string "(null)".

Definition conv_c (flags width : Z) (ln : length_t) : M pk unit :=
  a ← va_arg;
  let ch := sint 32 a in
  padded flags (width - 1) (if is_long ln then _putwc ch else _putc (chr ch)).

Definition clip (precision n : Z) : Z := if (precision >=? 0) && (n >? precision) then precision else n.

Definition conv_s (flags width precision : Z) (ln : length_t) : M pk unit :=
  s ← get;
  match is_long ln, va s with
  | true, VWstr o :: l =>
      modify (set_va l);;
      let str := default ((fun c => code c) <$> null_text) o in
      let n := clip precision (sint 32 (Z.of_nat (length str))) in
      padded flags (width - n) (_wstr str n)
  | false, VStr o :: l =>
      modify (set_va l);;
      let str := default null_text o in
      let n := clip precision (sint 32 (Z.of_nat (length str))) in
      padded flags (width - n) (_str str n)
  | _, _ => fault
  end.

Definition conv_p (flags width : Z) : M pk unit :=
  ptr ← va_arg;
  let nstr := _ntoa (u64 ptr) 16 false in
  let nlen := Z.of_nat (length nstr) in
  let ptr_digs := 16 in
  let zero_n := if nlen <? ptr_digs then ptr_digs - nlen else 0 in
  let field := 2 + zero_n + nlen in
  padded flags (width - field)
    (_str ["0"%char; "x"%char] 2;; _pad "0"%char zero_n;; _str nstr nlen).

Definition conv_n (ln : length_t) : M pk unit :=
  s ← get;
  match va s with
  | VOut null :: l =>
      modify (set_va l);;
      if null : bool then mret tt else
      modify (add_stored (ln, match ln with
        | LEN_HH => sint 8 (len s) | LEN_H => sint 16 (len s) | _ => len s end))
  | _ => fault
  end.

(** One conversion; [raw] is its text in the format string. *)
Definition convert (spec : ascii) (flags width precision : Z) (ln : length_t) (raw : list ascii) : M pk unit :=
  if Ascii.eqb spec "d" || Ascii.eqb spec "i" then _integer true 10 flags width precision ln
  else if Ascii.eqb spec "u" then _integer false 10 flags width precision ln
  else if Ascii.eqb spec "o" then _integer false 8 flags width precision ln
  else if Ascii.eqb spec "x" then _integer false 16 flags width precision ln
  else if Ascii.eqb spec "X" then _integer false 16 (Z.lor flags FL_UPPER) width precision ln
  else if Ascii.eqb spec "c" then conv_c flags width ln
  else if Ascii.eqb spec "s" then conv_s flags width precision ln
  else if Ascii.eqb spec "p" then conv_p flags width
  else if Ascii.eqb spec "n" then conv_n ln
  else _str raw (Z.of_nat (length raw)).

(** The loop up to the end of [fmt]; every iteration consumes a character. *)
Fixpoint format_loop (fmt : list ascii) (fuel : nat) : M pk unit :=
  match fuel with
  | O => fault
  | S fuel' =>
      match fmt with
      | [] => mret tt
      | c :: f0 =>
          if negb (Ascii.eqb c "%") then _putc c;; format_loop f0 fuel' else
          match f0 with
          | "%"%char :: f1 => _putc "%"%char;; format_loop f1 fuel'
          | _ =>
              let '(flags, f1) := parse_flags f0 0 in
              '(width, flags, f2) ← parse_width f1 flags;
              '(precision, f3) ← parse_precision f2;
              let '(ln, f4) := parse_length f3 in
              match f4 with
              | [] => mret tt
              | spec :: f5 =>
                  convert spec flags width precision ln (take (length fmt - length f5) fmt);;
                  format_loop f5 fuel'
              end
          end
      end
  end.

Definition _vprintkl (lev : Z) (fmt : list ascii) (args : list varg) : M pk Z :=
  modify (fun s => mk_pk (sinks s) (writes s) (stored s) [] lev 0 args);;
  format_loop fmt (S (length fmt));;
  _flush;;
  gets len.

(** [None] is a [NULL] format. *)
Definition vprintkl (lev : Z) (fmt : option (list ascii)) (args : list varg) : M pk Z :=
  match fmt with None => mret 0 | Some f => _vprintkl lev f args end.

Definition vprintk (fmt : option (list ascii)) (args : list varg) : M pk Z :=
  match fmt with
  | None => mret 0
  | Some f =>
      match f with
      | c :: d :: f' =>
          if Ascii.eqb c "001" && is_digit d then vprintkl (code d - 48) (Some f') args
          else vprintkl DEFAULT_LEVEL fmt args
      | _ => vprintkl DEFAULT_LEVEL fmt args
      end
  end.

(** ** Sinks *)

Fixpoint first_free (l : list sink) (i : nat) : option nat :=
  match l with
  | [] => None
  | k :: l' => if present k then first_free l' (S i) else Some i
  end.

(** The slot of the new sink, [None] for [NULL]. *)
Definition printk_sink_register (k : sink) : M pk (option nat) :=
  if negb (present k) then mret None else
  s ← get;
  match first_free (sinks s) 0 with
  | Some i => modify (set_sinks (<[i := k]> (sinks s)));; mret (Some i)
  | None => mret None
  end.

(** A pointer to no slot is [None]. *)
Definition printk_sink_unregister (i : option nat) : M pk Z :=
  s ← get;
  match i with
  | Some i =>
      match sinks s !! i with
      | Some k => modify (set_sinks (<[i := mk_sink zero (sink_id k)]> (sinks s)));; mret 0
      | None => mret (-1)
      end
  | None => mret (-1)
  end.
