(* ===== verification/PrintkFacts.v ===== *)
(** * Correctness of formatted output

    Numbers are written in full and can be read back.  The formatter, with its
    64-character buffer, delivers to every sink exactly the text of a reference
    renderer, in which an integer is laid out by padding its digits, sign and
    prefix as the C standard describes. *)

From S2P Require Import Prelude Printk.
From Stdlib Require Import ZArith Lia Ascii.
From stdpp Require Import base list strings.

Open Scope Z_scope.

(** ** Numbers *)

(** The value of a digit, and of a digit string. *)
Definition digit_value (c : ascii) : option Z :=
  let x := code c in
  if (48 <=? x) && (x <=? 57) then Some (x - 48)
  else if (97 <=? x) && (x <=? 102) then Some (x - 87)
  else if (65 <=? x) && (x <=? 70) then Some (x - 55) else None.
Fixpoint read_number (base acc : Z) (l : list ascii) : option Z :=
  match l with
  | [] => Some acc
  | c :: l' => match digit_value c with
               | Some d => if d <? base then read_number base (acc * base + d) l' else None
               | None => None
               end
  end.

Lemma digit_value_digit upper d : 0 <= d < 16 -> digit_value (digit upper d) = Some d.
Proof.
  intros Hd. assert (forall n : nat, (n < 16)%nat -> digit_value (digit upper (Z.of_nat n)) = Some (Z.of_nat n)) as H.
  { intros n Hn. do 16 (destruct n as [|n]; [by destruct upper|]). lia. }
  specialize (H (Z.to_nat d) ltac:(lia)). by rewrite Z2Nat.id in H by lia.
Qed.

Lemma read_number_app base l1 l2 : forall acc v,
  read_number base acc l1 = Some v -> read_number base acc (l1 ++ l2) = read_number base v l2.
Proof.
  induction l1 as [|c l1 IH]; intros acc v; simpl; [by intros [= ->]|].
  destruct (digit_value c) as [d|]; [|done]. destruct (d <? base); [|done]. apply IH.
Qed.

Lemma ntoa_loop_spec upper base n : forall val p,
  2 <= base <= 16 -> 0 <= val < base ^ Z.of_nat n ->
  exists ds, ntoa_loop upper base val n p = (ds ++ p, 0) /\ read_number base 0 ds = Some val /\
    (val = 0 <-> ds = []) /\ (forall d, head ds = Some d -> d <> "0"%char) /\ (length ds <= n)%nat.
Proof.
  induction n as [|n IH]; intros val p Hb Hv; cbn [ntoa_loop].
  { change (base ^ Z.of_nat 0) with 1 in Hv. exists []. assert (val = 0) as -> by lia. by split_and!. }
  destruct (Z.eqb_spec val 0) as [->|Hnz]; [exists []; split_and!; (done || simpl; lia)|].
  assert (0 <= val / base < base ^ Z.of_nat n) as Hq.
  { split; [apply Z.div_pos; lia|]. apply Z.div_lt_upper_bound; [lia|]. rewrite <- Z.pow_succ_r by lia.
    replace (Z.succ (Z.of_nat n)) with (Z.of_nat (S n)) by lia. lia. }
  pose proof (Z.mod_pos_bound val base ltac:(lia)) as Hm. pose proof (Z.div_mod val base ltac:(lia)) as Hd.
  destruct (IH (val / base) (digit upper (val mod base) :: p) Hb Hq) as (ds&E&Hr&Hz&Hh&Hl).
  exists (ds ++ [digit upper (val mod base)]). rewrite E, <- app_assoc. simpl. split_and!.
  - done.
  - rewrite (read_number_app _ _ _ _ _ Hr). simpl. rewrite digit_value_digit by lia.
    destruct (Z.ltb_spec (val mod base) base); [|lia]. f_equal. lia.
  - split; [by intros|]. by destruct ds.
  - intros d. destruct ds as [|d' ds]; [|apply Hh]. simpl. intros [= <-] E0.
    assert (val / base = 0) as Hq0 by (by apply Hz). rewrite Hq0 in Hd.
    pose proof (digit_value_digit upper (val mod base) ltac:(lia)) as Hdv. rewrite E0 in Hdv.
    change (digit_value "0") with (Some 0) in Hdv. injection Hdv as Hdv. lia.
  - rewrite length_app. simpl. lia.
Qed.

Lemma ntoa_correct upper base val :
  8 <= base <= 16 -> 0 <= val < 2 ^ 64 ->
  read_number base 0 (_ntoa val base upper) = Some val /\ (1 <= length (_ntoa val base upper) <= 24)%nat /\
  (val <> 0 -> head (_ntoa val base upper) <> Some "0"%char) /\ (val = 0 -> _ntoa val base upper = ["0"%char]).
Proof.
  intros Hb Hv. unfold _ntoa. destruct (Z.eqb_spec val 0) as [->|Hnz].
  { split_and!; try done; simpl; try lia. change (code "0" - 48) with 0. by destruct (Z.ltb_spec 0 base); [|lia]. }
  destruct (ntoa_loop_spec upper base NTOA_BUFFER_SIZE val []) as (ds&->&Hr&Hz&Hh&Hl); [lia| |].
  { split; [lia|]. eapply Z.lt_le_trans; [apply Hv|]. transitivity (8 ^ 24); [done|].
    apply Z.pow_le_mono_l. lia. }
  simpl. rewrite app_nil_r. split_and!; [done| |done| |done].
  - destruct ds; [by destruct Hz as [_ Hz]; specialize (Hz eq_refl)|simpl; lia].
  - intros _ E. by apply (Hh _ E).
Qed.

(** C14: The number conversion writes any 64-bit value in octal, decimal and
    hexadecimal: reading the digits back gives the value, there are no leading
    zeros, and the 24 characters of the buffer are always enough. *)
Theorem ntoa_roundtrip upper base val :
  base ∈ [8; 10; 16] -> 0 <= val < 2 ^ 64 ->
  read_number base 0 (_ntoa val base upper) = Some val /\ (1 <= length (_ntoa val base upper) <= 24)%nat /\
  (val <> 0 -> head (_ntoa val base upper) <> Some "0"%char).
Proof.
  intros Hb Hv. assert (8 <= base <= 16) as Hb' by (rewrite !elem_of_cons, elem_of_nil in Hb; lia).
  destruct (ntoa_correct upper base val Hb' Hv) as (?&?&?&_). done.
Qed.

Lemma ntoa_roundtrip_witness :
  _ntoa 0xDEADBEEF 16 false = String.list_ascii_of_string "deadbeef" /\
  read_number 16 0 (_ntoa 0xDEADBEEF 16 false) = Some 0xDEADBEEF.
Proof.
  split; [reflexivity|]. apply (ntoa_roundtrip false 16 0xDEADBEEF); [|lia].
  rewrite !elem_of_cons. auto.
Defined.

(** ** The reference renderer *)

Definition pad_left (c : ascii) (n : Z) (l : list ascii) : list ascii := replicate (Z.to_nat n - length l) c ++ l.
Definition pad_right (c : ascii) (n : Z) (l : list ascii) : list ascii := l ++ replicate (Z.to_nat n - length l) c.

(** An integer of magnitude [uval]: at least [precision] digits (none for a zero
    with precision 0); the alternative form makes the first octal digit a zero
    and marks a non-zero hexadecimal number; the field is filled with spaces on the
    right, with zeros behind sign and prefix, or with spaces on the left. *)
Definition int_text (neg is_signed : bool) (base flags width precision uval : Z) : list ascii :=
  let ds := if (precision =? 0) && (uval =? 0) then [] else _ntoa uval base (flag flags FL_UPPER) in
  let ds := pad_left "0" precision ds in
  let sign :=
    if neg then ["-"%char] else if flag flags FL_ALWAYS_SIGN && is_signed then ["+"%char]
    else if flag flags FL_SIGN_PAD then [" "%char] else [] in
  let prefix :=
    if negb (flag flags FL_PREFIX) then []
    else if base =? 8 then if bool_decide (head ds = Some "0"%char) then [] else ["0"%char]
    else if (base =? 16) && negb (uval =? 0) then ["0"%char; if flag flags FL_UPPER then "X"%char else "x"%char]
    else [] in
  if flag flags FL_LEFT_JUSTIFY then pad_right " " width (sign ++ prefix ++ ds)
  else if flag flags FL_ZERO_PAD && (precision <? 0)
  then sign ++ prefix ++ pad_left "0" (width - Z.of_nat (length (sign ++ prefix))) ds
  else pad_left " " width (sign ++ prefix ++ ds).

Definition fill (flags width : Z) (l : list ascii) : list ascii :=
  if flag flags FL_LEFT_JUSTIFY then pad_right " " width l else pad_left " " width l.

(** UTF-8. *)
Definition utf8 (wc : Z) : list ascii :=
  if wc <=? 0x7F then [chr wc]
  else if wc <=? 0x7FF then [chr (0xC0 + wc / 64); chr (0x80 + wc mod 64)]
  else if wc <=? 0xFFFF then [chr (0xE0 + wc / 4096); chr (0x80 + wc / 64 mod 64); chr (0x80 + wc mod 64)]
  else if wc <=? 0x10FFFF then
    [chr (0xF0 + wc / 262144); chr (0x80 + wc / 4096 mod 64); chr (0x80 + wc / 64 mod 64); chr (0x80 + wc mod 64)]
  else [].

(** The arguments, consumed in order; [None] is an argument of the wrong kind
    or a number that does not fit an [int]. *)
Definition r_arg (a : list varg) : option (Z * list varg) :=
  match a with VInt x :: l => Some (x, l) | _ => None end.
Definition fits_int (x : Z) : bool := (-2147483648 <=? x) && (x <=? 2147483647).

Fixpoint r_number (fmt : list ascii) (n : Z) : option (Z * list ascii) :=
  match fmt with
  | c :: fmt' =>
      if is_digit c then
        let m := n * 10 + (code c - 48) in if fits_int m then r_number fmt' m else None
      else Some (n, fmt)
  | [] => Some (n, [])
  end.

Definition r_width (fmt : list ascii) (flags : Z) (a : list varg) : option (Z * Z * list ascii * list varg) :=
  match fmt with
  | "*"%char :: fmt' =>
      '(x, l) ← r_arg a;
      let w := sint 32 x in
      if w <? 0 then if fits_int (- w) then Some (- w, Z.lor flags FL_LEFT_JUSTIFY, fmt', l) else None
      else Some (w, flags, fmt', l)
  | _ => '(w, fmt') ← r_number fmt 0; Some (w, flags, fmt', a)
  end.

Definition r_precision (fmt : list ascii) (a : list varg) : option (Z * list ascii * list varg) :=
  match fmt with
  | "."%char :: "*"%char :: fmt' =>
      '(x, l) ← r_arg a;
      Some (if sint 32 x <? 0 then -1 else sint 32 x, fmt', l)
  | "."%char :: fmt1 => '(p, fmt') ← r_number fmt1 0; Some (p, fmt', a)
  | _ => Some (-1, fmt, a)
  end.

Definition r_integer (is_signed : bool) (base flags width precision : Z) (ln : length_t) (a : list varg)
    : option (list ascii * list varg) :=
  '(x, l) ← r_arg a;
  if is_signed then
    let v := signed_arg ln x in
    if v =? - 2 ^ 63 then None else Some (int_text (v <? 0) true base flags width precision (Z.abs v), l)
  else Some (int_text false false base flags width precision (unsigned_arg ln x), l).

Definition r_string (flags width precision : Z) (ln : length_t) (a : list varg) : option (list ascii * list varg) :=
  match is_long ln, a with
  | true, VWstr o :: l =>
      let str := default ((fun c => code c) <$> null_text) o in
      let n := clip precision (Z.of_nat (length str)) in
      let body := concat (utf8 <$> take (Z.to_nat n) str) in
      if fits_int (Z.of_nat (length str)) then
        Some ((if flag flags FL_LEFT_JUSTIFY then [] else replicate (Z.to_nat (width - n)) " "%char) ++ body ++
              (if flag flags FL_LEFT_JUSTIFY then replicate (Z.to_nat (width - n)) " "%char else []), l)
      else None
  | false, VStr o :: l =>
      let str := default null_text o in
      if fits_int (Z.of_nat (length str)) then
        Some (fill flags width (take (Z.to_nat (clip precision (Z.of_nat (length str)))) str), l)
      else None
  | _, _ => None
  end.

Definition r_char (flags width : Z) (ln : length_t) (a : list varg) : option (list ascii * list varg) :=
  '(x, l) ← r_arg a;
  let body := if is_long ln then utf8 (sint 32 x) else [chr (sint 32 x)] in
  Some ((if flag flags FL_LEFT_JUSTIFY then [] else replicate (Z.to_nat (width - 1)) " "%char) ++ body ++
        (if flag flags FL_LEFT_JUSTIFY then replicate (Z.to_nat (width - 1)) " "%char else []), l).

Definition r_pointer (flags width : Z) (a : list varg) : option (list ascii * list varg) :=
  '(x, l) ← r_arg a;
  Some (fill flags width (["0"%char; "x"%char] ++ pad_left "0" 16 (_ntoa (u64 x) 16 false)), l).

Definition r_out (a : list varg) : option (list ascii * list varg) :=
  match a with VOut _ :: l => Some ([], l) | _ => None end.

Definition r_convert (spec : ascii) (flags width precision : Z) (ln : length_t) (raw : list ascii) (a : list varg)
    : option (list ascii * list varg) :=
  if Ascii.eqb spec "d" || Ascii.eqb spec "i" then r_integer true 10 flags width precision ln a
  else if Ascii.eqb spec "u" then r_integer false 10 flags width precision ln a
  else if Ascii.eqb spec "o" then r_integer false 8 flags width precision ln a
  else if Ascii.eqb spec "x" then r_integer false 16 flags width precision ln a
  else if Ascii.eqb spec "X" then r_integer false 16 (Z.lor flags FL_UPPER) width precision ln a
  else if Ascii.eqb spec "c" then r_char flags width ln a
  else if Ascii.eqb spec "s" then r_string flags width precision ln a
  else if Ascii.eqb spec "p" then r_pointer flags width a
  else if Ascii.eqb spec "n" then r_out a
  else Some (raw, a).

(** The text of a format and its arguments. *)
Fixpoint render (fmt : list ascii) (a : list varg) (fuel : nat) : option (list ascii) :=
  match fuel with
  | O => None
  | S fuel' =>
      match fmt with
      | [] => Some []
      | c :: f0 =>
          if negb (Ascii.eqb c "%") then (cons c) <$> render f0 a fuel' else
          match f0 with
          | "%"%char :: f1 => (cons "%"%char) <$> render f1 a fuel'
          | _ =>
              let '(flags, f1) := parse_flags f0 0 in
              '(width, flags, f2, a) ← r_width f1 flags a;
              '(precision, f3, a) ← r_precision f2 a;
              let '(ln, f4) := parse_length f3 in
              match f4 with
              | [] => Some []
              | spec :: f5 =>
                  '(t, a) ← r_convert spec flags width precision ln (take (length fmt - length f5) fmt) a;
                  (app t) <$> render f5 a fuel'
              end
          end
      end
  end.

(** ** The buffered output *)

(** [printing s0 lev T a s]: since [s0], the text [T] has been put; the full
    buffers of it have been written, in chunks of 1 to 64 characters, to every
    sink, the rest is in the buffer; the arguments [a] are left. *)
Record printing (s0 : pk) (lev : Z) (T : list ascii) (a : list varg) (s : pk) : Prop := {
  pr_sinks : sinks s = sinks s0;
  pr_level : level s = lev;
  pr_len : len s = Z.of_nat (length T);
  pr_buffer : (length (buffer s) <= 64)%nat;
  pr_va : va s = a;
  pr_chunks : exists cs, writes s = writes s0 ++ concat (flush_to 0 (sinks s0) lev <$> cs) /\
    Forall (fun c => (1 <= length c <= 64)%nat) cs /\ concat cs ++ buffer s = T;
}.

Definition INT_MAX : Z := 2147483647.

Section output.
Context (s0 : pk) (lev : Z).

Lemma flush_printing T a s : printing s0 lev T a s ->
  wp _flush (fun _ s' => printing s0 lev T a s' /\ buffer s' = []) s.
Proof.
  intros [H1 H2 H3 H4 H5 (cs&Hw&Hc&HT)]. unfold _flush. do 2 wp_step.
  destruct (Nat.eqb_spec (length (buffer s)) 0) as [Hz|Hz].
  { wp_step. apply nil_length_inv in Hz. split; [|done]. split; try done. by exists cs. }
  destruct (Nat.ltb_spec PRINTK_BUFFER_SIZE (length (buffer s))); [unfold PRINTK_BUFFER_SIZE in *; lia|].
  do 3 wp_step. split; [|done]. split; cbn; try done; [lia|].
  exists (cs ++ [buffer s]). rewrite fmap_app, !concat_app, Hw, H1, H2. simpl. rewrite !app_nil_r, <- app_assoc.
  split_and!; [done| |done]. apply Forall_app. split; [done|]. apply Forall_singleton; lia.
Qed.

Lemma putc_printing T a c s : printing s0 lev T a s -> Z.of_nat (length T) < INT_MAX ->
  wp (_putc c) (fun _ s' => printing s0 lev (T ++ [c]) a s') s.
Proof.
  intros HP HT. unfold _putc. do 2 wp_step.
  assert (wp (when (PRINTK_BUFFER_SIZE <=? length (buffer s))%nat _flush)
    (fun _ s' => printing s0 lev T a s' /\ (length (buffer s') < 64)%nat) s) as Hf.
  { destruct (Nat.leb_spec PRINTK_BUFFER_SIZE (length (buffer s))) as [Hge|Hlt].
    - eapply wp_mono; [by apply flush_printing|]. intros _ s' [HP' Hb]. split; [done|]. rewrite Hb. simpl. lia.
    - simpl. wp_step. split; [done|]. unfold PRINTK_BUFFER_SIZE in Hlt. lia. }
  wp_step. eapply wp_mono; [exact Hf|]. intros _ s1 [[H1 H2 H3 H4 H5 (cs&Hw&Hc&HT')] Hb].
  do 2 wp_step. wp_step. wp_step. unfold cint. rewrite H3. unfold INT_MAX in HT.
  destruct (Z.leb_spec (-2147483648) (Z.of_nat (length T) + 1)); [|lia].
  destruct (Z.leb_spec (Z.of_nat (length T) + 1) 2147483647); [|lia]. simpl. do 2 wp_step. wp_step.
  split; cbn; try done.
  - rewrite length_app. simpl. lia.
  - rewrite length_app. simpl. lia.
  - exists cs. split_and!; [done|done|]. by rewrite app_assoc, HT'.
Qed.

Lemma put_all_printing {A} (put : A -> M pk unit) (txt : A -> list ascii) l : forall T a s,
  (forall T a x s, printing s0 lev T a s -> Z.of_nat (length T + length (txt x)) <= INT_MAX ->
     wp (put x) (fun _ s' => printing s0 lev (T ++ txt x) a s') s) ->
  printing s0 lev T a s -> Z.of_nat (length T + length (concat (txt <$> l))) <= INT_MAX ->
  wp (put_all put l) (fun _ s' => printing s0 lev (T ++ concat (txt <$> l)) a s') s.
Proof.
  induction l as [|x l IH]; intros T a s Hput HP HT; cbn [put_all fmap list_fmap concat] in *.
  { wp_step. by rewrite app_nil_r. }
  rewrite length_app in HT. wp_step. eapply wp_mono; [apply Hput; [done|lia]|].
  intros [] s' HP'. rewrite app_assoc. apply IH; [done|done|]. rewrite length_app. lia.
Qed.

Lemma putc_text T a c s : printing s0 lev T a s -> Z.of_nat (length T + length [c]) <= INT_MAX ->
  wp (_putc c) (fun _ s' => printing s0 lev (T ++ [c]) a s') s.
Proof. intros HP HT. apply putc_printing; [done|]. simpl in HT. lia. Qed.

Lemma concat_singletons {A} (l : list A) : concat ((fun c => [c]) <$> l) = l.
Proof. induction l as [|x l IH]; [done|]. cbn. f_equal. exact IH. Qed.

Lemma str_printing T a l s : printing s0 lev T a s -> Z.of_nat (length T + length l) <= INT_MAX ->
  wp (put_all _putc l) (fun _ s' => printing s0 lev (T ++ l) a s') s.
Proof.
  intros HP HT. pose proof (put_all_printing _putc (fun c => [c]) l T a s) as Hw.
  rewrite concat_singletons in Hw. apply Hw; [intros; by apply putc_text|done|done].
Qed.

Lemma pad_printing T a c n s : printing s0 lev T a s -> Z.of_nat (length T) + Z.max 0 n <= INT_MAX ->
  wp (_pad c n) (fun _ s' => printing s0 lev (T ++ replicate (Z.to_nat n) c) a s') s.
Proof. intros HP HT. apply str_printing; [done|]. rewrite length_replicate. lia. Qed.

Lemma when_printing (b : bool) m T a t s :
  printing s0 lev T a s -> (b = true -> wp m (fun _ s' => printing s0 lev (T ++ t) a s') s) ->
  wp (when b m) (fun _ s' => printing s0 lev (T ++ if b then t else []) a s') s.
Proof. intros HP Hm. destruct b; simpl; [by apply Hm|]. apply wp_ret. by rewrite app_nil_r. Qed.
End output.

(** ** Integers *)

Lemma flag_lor a b m : flag (Z.lor a b) m = flag a m || flag b m.
Proof.
  unfold flag. rewrite Z.land_lor_distr_l.
  destruct (Z.eqb_spec (Z.land a m) 0) as [->|Ha]; simpl; [by rewrite Z.lor_0_l|].
  destruct (Z.eqb_spec (Z.lor (Z.land a m) (Z.land b m)) 0) as [E|]; [|done]. apply Z.lor_eq_0_iff in E. tauto.
Qed.

(** The layout does not depend on the internal sign flag. *)
Lemma int_text_neg neg is_signed base flags width precision uval :
  int_text neg is_signed base (Z.lor flags FL_NEG) width precision uval =
  int_text neg is_signed base flags width precision uval.
Proof.
  unfold int_text. rewrite !flag_lor.
  change (flag FL_NEG FL_UPPER) with false. change (flag FL_NEG FL_ALWAYS_SIGN) with false.
  change (flag FL_NEG FL_SIGN_PAD) with false. change (flag FL_NEG FL_PREFIX) with false.
  change (flag FL_NEG FL_LEFT_JUSTIFY) with false. change (flag FL_NEG FL_ZERO_PAD) with false.
  by rewrite !orb_false_r.
Qed.

Section layout.
Context (is_signed : bool) (base flags width precision uval : Z).
Context (Hbase : 8 <= base <= 16) (Huval : 0 <= uval < 2 ^ 64).

(** The quantities that [put_integer] computes. *)
Definition i_nstr := _ntoa uval base (flag flags FL_UPPER).
Definition i_ds := if (precision =? 0) && (uval =? 0) then [] else i_nstr.
Definition i_nlen := if (precision =? 0) && (uval =? 0) then 0 else Z.of_nat (length i_nstr).
Definition i_prec_zeros := if precision >? i_nlen then precision - i_nlen else 0.
Definition i_sign : option ascii :=
  if flag flags FL_NEG then Some "-"%char
  else if flag flags FL_ALWAYS_SIGN && is_signed then Some "+"%char
  else if flag flags FL_SIGN_PAD then Some " "%char else None.
Definition i_prefix_type :=
  if flag flags FL_PREFIX then
    if (base =? 8) && (i_prec_zeros =? 0) && (negb (uval =? 0) || (precision =? 0)) then 1
    else if (base =? 16) && negb (uval =? 0) then 2 else 0
  else 0.
Definition i_signs := match i_sign with Some c => [c] | None => [] end.
Definition i_prefix : list ascii :=
  if i_prefix_type =? 0 then [] else
  "0"%char :: if i_prefix_type =? 2 then [if flag flags FL_UPPER then "X"%char else "x"%char] else [].
Definition i_field := (if i_sign then 1 else 0) + i_prefix_type + i_prec_zeros + i_nlen.
Definition i_left := flag flags FL_LEFT_JUSTIFY.
Definition i_zero := flag flags FL_ZERO_PAD && negb i_left && (precision <? 0).
Definition i_pad := if width >? i_field then width - i_field else 0.
Definition i_zero_n := if i_zero then i_pad else 0.
Definition i_pad_n := if i_zero then 0 else i_pad.

Lemma nlen_ds : i_nlen = Z.of_nat (length i_ds) /\ take (Z.to_nat i_nlen) i_nstr = i_ds.
Proof.
  unfold i_nlen, i_ds. destruct (_ && _); [done|]. split; [done|]. by rewrite Nat2Z.id, take_ge.
Qed.

Lemma ds_prec : pad_left "0" precision i_ds = replicate (Z.to_nat i_prec_zeros) "0"%char ++ i_ds.
Proof.
  unfold pad_left, i_prec_zeros. rewrite (proj1 nlen_ds). do 2 f_equal.
  rewrite Z.gtb_ltb. destruct (Z.ltb_spec (Z.of_nat (length i_ds)) precision); lia.
Qed.

Lemma prefix_text :
  i_prefix = if negb (flag flags FL_PREFIX) then []
    else if base =? 8 then if bool_decide (head (pad_left "0" precision i_ds) = Some "0"%char) then [] else ["0"%char]
    else if (base =? 16) && negb (uval =? 0) then ["0"%char; if flag flags FL_UPPER then "X"%char else "x"%char]
    else [].
Proof.
  unfold i_prefix, i_prefix_type. destruct (flag flags FL_PREFIX); [|done]. cbn [negb].
  destruct (Z.eqb_spec base 8) as [E8|N8]; cbn [andb].
  2:{ by destruct ((base =? 16) && negb (uval =? 0)). }
  rewrite ds_prec. destruct (Z.eqb_spec base 16); [lia|]. cbn [andb].
  destruct (Z.eqb_spec i_prec_zeros 0) as [->|Hz]; cbn [andb].
  - simpl. unfold i_ds. destruct (ntoa_correct (flag flags FL_UPPER) base uval Hbase Huval) as (_&Hlen&Hh&H0). fold i_nstr in Hlen, Hh, H0.
    destruct (Z.eqb_spec uval 0) as [Hu|Hu]; cbn [negb orb].
    + destruct (Z.eqb_spec precision 0); [done|]. simpl. by rewrite (H0 Hu).
    + rewrite andb_false_r. rewrite bool_decide_eq_false_2 by auto. done.
  - assert (exists m, Z.to_nat i_prec_zeros = S m) as [m ->].
    { unfold i_prec_zeros in *. rewrite Z.gtb_ltb in *. destruct (Z.ltb_spec i_nlen precision); [|lia].
      exists (pred (Z.to_nat (precision - i_nlen))). lia. }
    done.
Qed.

Lemma field_length : i_field = Z.of_nat (length (i_signs ++ i_prefix ++ pad_left "0" precision i_ds)) /\ 0 <= i_prec_zeros.
Proof.
  assert (0 <= i_prec_zeros) as Hp by (unfold i_prec_zeros; rewrite Z.gtb_ltb; destruct (Z.ltb_spec i_nlen precision); lia).
  rewrite ds_prec, !length_app, length_replicate. unfold i_field. rewrite (proj1 nlen_ds).
  assert (i_prefix_type = Z.of_nat (length i_prefix)) as Hpt.
  { unfold i_prefix. assert (i_prefix_type = 0 \/ i_prefix_type = 1 \/ i_prefix_type = 2) as [->|[->| ->]]; [|done..].
    unfold i_prefix_type. repeat case_match; auto. }
  rewrite Hpt. unfold i_signs. destruct i_sign; simpl; lia.
Qed.

(** The pieces in the order in which they are put. *)
Lemma layout_text :
  (if i_left then [] else replicate (Z.to_nat i_pad_n) " "%char) ++ i_signs ++ i_prefix ++
  replicate (Z.to_nat (i_zero_n + i_prec_zeros)) "0"%char ++ i_ds ++
  (if i_left then replicate (Z.to_nat i_pad_n) " "%char else []) =
  int_text (flag flags FL_NEG) is_signed base flags width precision uval.
Proof.
  destruct field_length as [Hf Hpz]. pose proof ds_prec as Hds.
  assert (0 <= i_pad) as Hpad by (unfold i_pad; rewrite Z.gtb_ltb; destruct (Z.ltb_spec i_field width); lia).
  assert (Z.to_nat i_pad = (Z.to_nat width - length (i_signs ++ i_prefix ++ pad_left "0" precision i_ds))%nat) as Hpn.
  { unfold i_pad. rewrite Hf, Z.gtb_ltb. destruct (Z.ltb_spec (Z.of_nat (length (i_signs ++ i_prefix ++ pad_left "0" precision i_ds))) width); lia. }
  unfold int_text. fold i_nstr i_ds. rewrite <- prefix_text. unfold i_zero_n, i_pad_n, i_zero.
  assert ((if flag flags FL_NEG then ["-"%char] else if flag flags FL_ALWAYS_SIGN && is_signed then ["+"%char]
    else if flag flags FL_SIGN_PAD then [" "%char] else []) = i_signs) as ->.
  { unfold i_signs, i_sign. by repeat case_match. }
  fold i_left. destruct i_left; cbn [negb andb].
  - rewrite andb_false_r. cbn [andb]. unfold pad_right. rewrite <- Hpn, Hds, <- !app_assoc. simpl. by rewrite Z.add_0_l.
  - rewrite andb_true_r, app_nil_r. destruct (flag flags FL_ZERO_PAD && (precision <? 0)) eqn:Ez; simpl.
    + apply andb_prop in Ez as [_ Hprec%Z.ltb_lt].
      assert (i_prec_zeros = 0) as Hp0 by (unfold i_prec_zeros; rewrite Z.gtb_ltb; rewrite (proj1 nlen_ds); destruct (Z.ltb_spec (Z.of_nat (length i_ds)) precision); lia).
      rewrite Hp0 in Hds. simpl in Hds. rewrite Hds. unfold pad_left. do 4 f_equal.
      rewrite Hds in Hpn. rewrite !length_app in *. lia.
    + unfold pad_left at 1. rewrite <- Hpn, Hds. by rewrite Z.add_0_l.
Qed.
End layout.

Lemma signed_arg_range ln x : - 2 ^ 63 <= signed_arg ln x < 2 ^ 63.
Proof.
  assert (forall w, 0 < w <= 64 -> - 2 ^ 63 <= sint w x < 2 ^ 63) as H; [|destruct ln; apply H; lia].
  intros w Hw. unfold sint, wrap. pose proof (Z.mod_pos_bound x (2 ^ w) ltac:(lia)).
  assert (2 ^ w = 2 * 2 ^ (w - 1)) by (rewrite <- Z.pow_succ_r by lia; f_equal; lia).
  assert (2 ^ (w - 1) <= 2 ^ 63) by (apply Z.pow_le_mono_r; lia).
  destruct (Z.leb_spec (2 ^ (w - 1)) (x mod 2 ^ w)); lia.
Qed.

Lemma unsigned_arg_range ln x : 0 <= unsigned_arg ln x < 2 ^ 64.
Proof.
  assert (forall w, 0 < w <= 64 -> 0 <= wrap w x < 2 ^ 64) as H; [|destruct ln; apply H; lia].
  intros w Hw. pose proof (wrap_range w x). assert (2 ^ w <= 2 ^ 64) by (apply Z.pow_le_mono_r; lia). lia.
Qed.

(** ** The format string *)

(** Tests of the next character. *)
Ltac by_char f := by destruct f as [|[[] [] [] [] [] [] [] []] ?].

Lemma r_width_eq fmt flags a :
  r_width fmt flags a = if decide (head fmt = Some "*"%char) then
      '(x, l) ← r_arg a;
      let w := sint 32 x in
      if w <? 0 then if fits_int (- w) then Some (- w, Z.lor flags FL_LEFT_JUSTIFY, tail fmt, l) else None
      else Some (w, flags, tail fmt, l)
    else '(w, fmt') ← r_number fmt 0; Some (w, flags, fmt', a).
Proof. by_char fmt. Qed.

Lemma parse_width_eq fmt flags :
  parse_width fmt flags = if decide (head fmt = Some "*"%char) then
      a ← va_arg;
      let width := sint 32 a in
      if width <? 0 then w ← cint (- width); mret (w, Z.lor flags FL_LEFT_JUSTIFY, tail fmt)
      else mret (width, flags, tail fmt)
    else '(w, fmt') ← parse_number fmt 0; mret (w, flags, fmt').
Proof. by_char fmt. Qed.

Lemma star_cases {A} (f : list ascii) (x : list ascii -> A) (y : A) :
  match f with "*"%char :: f' => x f' | _ => y end = if decide (head f = Some "*"%char) then x (tail f) else y.
Proof. by_char f. Qed.

Lemma r_precision_eq fmt a :
  r_precision fmt a = if decide (head fmt = Some "."%char) then
      if decide (head (tail fmt) = Some "*"%char) then
        '(x, l) ← r_arg a; Some (if sint 32 x <? 0 then -1 else sint 32 x, tail (tail fmt), l)
      else '(p, fmt') ← r_number (tail fmt) 0; Some (p, fmt', a)
    else Some (-1, fmt, a).
Proof.
  transitivity (if decide (head fmt = Some "."%char) then
    match tail fmt with "*"%char :: f' =>
      '(x, l) ← r_arg a; Some (if sint 32 x <? 0 then -1 else sint 32 x, f', l)
    | _ => '(p, fmt') ← r_number (tail fmt) 0; Some (p, fmt', a) end else Some (-1, fmt, a)); [by_char fmt|].
  case_decide; [|done]. by rewrite star_cases.
Qed.

Lemma parse_precision_eq fmt :
  parse_precision fmt = if decide (head fmt = Some "."%char) then
      if decide (head (tail fmt) = Some "*"%char) then
        a ← va_arg; mret (if sint 32 a <? 0 then -1 else sint 32 a, tail (tail fmt))
      else parse_number (tail fmt) 0
    else mret (-1, fmt).
Proof.
  transitivity (if decide (head fmt = Some "."%char) then
    match tail fmt with "*"%char :: f' =>
      a ← va_arg; mret (if sint 32 a <? 0 then -1 else sint 32 a, f')
    | _ => parse_number (tail fmt) 0 end else mret (-1, fmt)); [by_char fmt|].
  case_decide; [|done]. by rewrite star_cases.
Qed.

Lemma render_eq c f0 a fuel :
  render (c :: f0) a (S fuel) =
    if negb (Ascii.eqb c "%") then (cons c) <$> render f0 a fuel else
    if decide (head f0 = Some "%"%char) then (cons "%"%char) <$> render (tail f0) a fuel else
    let '(flags, f1) := parse_flags f0 0 in
    '(width, flags, f2, a) ← r_width f1 flags a;
    '(precision, f3, a) ← r_precision f2 a;
    let '(ln, f4) := parse_length f3 in
    match f4 with
    | [] => Some []
    | spec :: f5 =>
        '(t, a) ← r_convert spec flags width precision ln (take (length (c :: f0) - length f5) (c :: f0)) a;
        (app t) <$> render f5 a fuel
    end.
Proof. by_char f0. Qed.

Lemma format_eq c f0 fuel :
  format_loop (c :: f0) (S fuel) =
    if negb (Ascii.eqb c "%") then _putc c;; format_loop f0 fuel else
    if decide (head f0 = Some "%"%char) then _putc "%"%char;; format_loop (tail f0) fuel else
    let '(flags, f1) := parse_flags f0 0 in
    '(width, flags, f2) ← parse_width f1 flags;
    '(precision, f3) ← parse_precision f2;
    let '(ln, f4) := parse_length f3 in
    match f4 with
    | [] => mret tt
    | spec :: f5 =>
        convert spec flags width precision ln (take (length (c :: f0) - length f5) (c :: f0));;
        format_loop f5 fuel
    end.
Proof. by_char f0. Qed.

(** The flags of a format string never include the internal sign flag. *)
Lemma parse_flags_neg fmt : forall flags, flag flags FL_NEG = false -> flag (parse_flags fmt flags).1 FL_NEG = false.
Proof.
  induction fmt as [|c fmt IH]; intros flags Hf; cbn; [done|].
  repeat (case_match; [apply IH; by rewrite flag_lor, Hf|]). done.
Qed.

Lemma r_width_neg fmt flags a w flags' f a' :
  flag flags FL_NEG = false -> r_width fmt flags a = Some (w, flags', f, a') -> flag flags' FL_NEG = false.
Proof.
  intros Hf. rewrite r_width_eq. case_decide.
  - destruct (r_arg a) as [[x l]|]; [|done]. cbn. repeat case_match; intros; simplify_eq; [|done].
    by rewrite flag_lor, Hf.
  - destruct (r_number fmt 0) as [[w' f']|]; [|done]. by intros [= <- <- <- <-].
Qed.

(** ** The conversions against the renderer *)

Section conversions.
Context (s0 : pk) (lev : Z).

(** [puts a m t a']: with the arguments [a] left, [m] puts the text [t] and leaves
    the arguments [a'], whatever has been put before, as long as the count of
    characters fits an [int]. *)
Definition puts (a : list varg) (m : M pk unit) (t : list ascii) (a' : list varg) : Prop :=
  forall T s, printing s0 lev T a s -> Z.of_nat (length T + length t) <= INT_MAX ->
  wp m (fun _ s' => printing s0 lev (T ++ t) a' s') s.

Lemma puts_seq a m t a1 k u a2 : puts a m t a1 -> puts a1 k u a2 -> puts a (m;; k) (t ++ u) a2.
Proof.
  intros Hm Hk T s HP HT. rewrite length_app in HT. apply wp_bind.
  eapply wp_mono; [apply Hm; [done|lia]|]. intros [] s' HP'. rewrite app_assoc.
  apply Hk; [done|]. rewrite length_app. lia.
Qed.

Lemma puts_nil a : puts a (mret tt) [] a.
Proof. intros T s HP _. wp_step. by rewrite app_nil_r. Qed.

Lemma puts_putc a c : puts a (_putc c) [c] a.
Proof. intros T s. apply putc_text. Qed.

Lemma puts_pad a c n : puts a (_pad c n) (replicate (Z.to_nat n) c) a.
Proof. intros T s HP HT. by apply str_printing. Qed.

Lemma puts_str a l n : puts a (_str l n) (take (Z.to_nat n) l) a.
Proof. intros T s HP HT. by apply str_printing. Qed.

Lemma puts_when a (b : bool) m t : puts a m t a -> puts a (when b m) (if b then t else []) a.
Proof. intros Hm. destruct b; [exact Hm|apply puts_nil]. Qed.

Lemma puts_all {A} (put : A -> M pk unit) (txt : A -> list ascii) a l :
  (forall x, puts a (put x) (txt x) a) -> puts a (put_all put l) (concat (txt <$> l)) a.
Proof. intros Hp. induction l as [|x l IH]; cbn; [apply puts_nil|]. eapply puts_seq; [apply Hp|exact IH]. Qed.

Lemma puts_eq a m t u a' : t = u -> puts a m t a' -> puts a m u a'.
Proof. by intros ->. Qed.

(** The next argument is an integer. *)
Lemma puts_va_arg a x l k t a' :
  r_arg a = Some (x, l) -> puts l (k x) t a' -> puts a (va_arg ≫= k) t a'.
Proof.
  intros Ha Hk T s HP HT. destruct a as [|[y| | |] a]; simplify_eq/=. apply wp_bind.
  destruct HP as [H1 H2 H3 H4 H5 H6]. unfold va_arg. do 2 wp_step. rewrite H5. do 3 wp_step.
  apply Hk; [|done]. by split.
Qed.

(** The bits of a UTF-8 lead or continuation byte. *)
Lemma cont_byte x : Z.lor 0x80 (Z.land x 0x3F) = 0x80 + x mod 64.
Proof.
  change 0x3F with (Z.ones 6). rewrite Z.land_ones by lia. change (2 ^ 6) with 64.
  apply (lor_high 2 6); [lia|]. change (2 ^ 6) with 64. apply Z.mod_pos_bound. lia.
Qed.

Ltac lead_byte :=
  lazymatch goal with
  | |- 0 <= _ / _ < _ => split; [apply Z.div_pos; lia|apply Z.div_lt_upper_bound; [lia|]; simpl; lia]
  | |- _ => lia
  end.

Lemma puts_putwc a wc : puts a (_putwc wc) (utf8 wc) a.
Proof.
  unfold _putwc, utf8. rewrite !Z.shiftr_div_pow2, !cont_byte by lia.
  change (2 ^ 6) with 64. change (2 ^ 12) with 4096. change (2 ^ 18) with 262144.
  destruct (Z.leb_spec wc 0x7F); [apply puts_putc|].
  destruct (Z.leb_spec wc 0x7FF).
  { rewrite (lor_high 6 5) by lead_byte.
    apply (puts_seq _ _ [_] a); apply puts_putc. }
  destruct (Z.leb_spec wc 0xFFFF).
  { rewrite (lor_high 14 4) by lead_byte.
    repeat (apply (puts_seq _ _ [_] a); [apply puts_putc|]). apply puts_putc. }
  destruct (Z.leb_spec wc 0x10FFFF); [|apply puts_nil].
  rewrite (lor_high 30 3) by lead_byte.
  repeat (apply (puts_seq _ _ [_] a); [apply puts_putc|]). apply puts_putc.
Qed.

(** The pieces of [put_integer] and [padded]. *)
Lemma puts_integer is_signed base flags width precision uval a :
  8 <= base <= 16 -> 0 <= uval < 2 ^ 64 ->
  puts a (put_integer is_signed base flags width precision uval)
    (int_text (flag flags FL_NEG) is_signed base flags width precision uval) a.
Proof.
  intros Hb Hu T s HP. rewrite <- (layout_text is_signed base flags width precision uval Hb Hu). intros Hlen.
  destruct (field_length is_signed base flags precision uval) as [Hf Hpz]. rewrite ds_prec in Hf.
  unfold put_integer.
  fold (i_nstr base flags uval). fold (i_nlen base flags precision uval).
  fold (i_prec_zeros base flags precision uval). fold (i_sign is_signed flags).
  fold (i_prefix_type base flags precision uval). fold (i_field is_signed base flags precision uval).
  apply wp_bind. unfold cint.
  assert (0 <= i_field is_signed base flags precision uval <= INT_MAX) as [Hx Hy].
  { rewrite !length_app in Hlen. rewrite !length_app in Hf. rewrite !length_replicate in *.
    assert (0 <= i_zero_n is_signed base flags width precision uval).
    { unfold i_zero_n, i_pad. rewrite Z.gtb_ltb. destruct (i_zero _ _); [|lia].
      destruct (Z.ltb_spec (i_field is_signed base flags precision uval) width); lia. }
    lia. }
  unfold INT_MAX in Hy. rewrite (proj2 (Z.leb_le _ _)), (proj2 (Z.leb_le _ _)) by lia. cbn [andb]. wp_step.
  fold (i_left flags). fold (i_zero flags precision). fold (i_pad is_signed base flags width precision uval).
  fold (i_zero_n is_signed base flags width precision uval). fold (i_pad_n is_signed base flags width precision uval).
  revert T s HP Hlen. rewrite <- (proj2 (nlen_ds base flags precision uval)).
  match goal with |- forall T s, _ -> Z.of_nat (length T + length ?t) <= _ -> wp ?m _ s => change (puts a m t a) end.
  apply (puts_seq _ _ _ a).
  { eapply puts_eq; [|apply puts_when, puts_pad]. by destruct (i_left flags). }
  apply (puts_seq _ _ _ a).
  { unfold i_signs. destruct (i_sign is_signed flags); [apply puts_putc|apply puts_nil]. }
  apply (puts_seq _ _ _ a).
  { unfold i_prefix. destruct (i_prefix_type base flags precision uval =? 0); [apply puts_nil|].
    apply (puts_seq _ _ [_] a); [apply puts_putc|]. apply puts_when, puts_putc. }
  apply (puts_seq _ _ _ a); [apply puts_pad|].
  apply (puts_seq _ _ _ a); [apply puts_str|]. apply puts_when, puts_pad.
Qed.
Lemma puts_conv_integer is_signed base flags width precision ln a t a' :
  8 <= base <= 16 -> flag flags FL_NEG = false ->
  r_integer is_signed base flags width precision ln a = Some (t, a') ->
  puts a (_integer is_signed base flags width precision ln) t a'.
Proof.
  unfold r_integer, _integer. intros Hb Hn Hr. destruct (r_arg a) as [[x l]|] eqn:Ha; [|done]. cbn in Hr.
  eapply puts_va_arg; [exact Ha|]. destruct is_signed.
  - pose proof (signed_arg_range ln x). destruct (Z.eqb_spec (signed_arg ln x) (- 2 ^ 63)) as [|Hmin]; [done|]. simplify_eq.
    destruct (Z.ltb_spec (signed_arg ln x) 0).
    + eapply puts_eq; [|apply puts_integer; lia]. rewrite int_text_neg, flag_lor, orb_true_r.
      by rewrite Z.abs_neq by lia.
    + rewrite Z.abs_eq by lia. eapply puts_eq; [|apply puts_integer; lia]. by rewrite Hn.
  - simplify_eq. eapply puts_eq; [|apply puts_integer; [done|apply unsigned_arg_range]]. by rewrite Hn.
Qed.

Lemma puts_padded a flags pad m t : puts a m t a ->
  puts a (padded flags pad m)
    ((if flag flags FL_LEFT_JUSTIFY then [] else replicate (Z.to_nat pad) " "%char) ++ t ++
     (if flag flags FL_LEFT_JUSTIFY then replicate (Z.to_nat pad) " "%char else [])) a.
Proof.
  intros Hm. unfold padded. rewrite !Z.gtb_ltb.
  assert (forall b : bool, (if b && (0 <? pad) then replicate (Z.to_nat pad) " "%char else []) =
    if b then replicate (Z.to_nat pad) " "%char else []) as Hb.
  { intros []; simpl; [|done]. destruct (Z.ltb_spec 0 pad); [done|]. by replace (Z.to_nat pad) with O by lia. }
  apply (puts_seq _ _ _ a).
  { eapply puts_eq; [|apply puts_when, puts_pad]. rewrite Hb. by destruct (flag flags FL_LEFT_JUSTIFY). }
  apply (puts_seq _ _ _ a); [exact Hm|]. eapply puts_eq; [|apply puts_when, puts_pad]. apply Hb.
Qed.

Lemma puts_fill a flags width pad m t : puts a m t a -> pad = width - Z.of_nat (length t) ->
  puts a (padded flags pad m) (fill flags width t) a.
Proof.
  intros Hm ->. eapply puts_eq; [|by apply puts_padded]. unfold fill, pad_left, pad_right.
  assert (Z.to_nat (width - Z.of_nat (length t)) = (Z.to_nat width - length t)%nat) as -> by lia.
  destruct (flag flags FL_LEFT_JUSTIFY); simpl; [done|]. by rewrite app_nil_r.
Qed.

(** The next argument is a string or the address of a variable. *)
Lemma puts_va_any a v l k t a' :
  a = v :: l -> puts l k t a' -> puts a (modify (set_va l);; k) t a'.
Proof. intros -> Hk T s HP HT. do 2 wp_step. apply Hk; [|done]. by destruct HP; split. Qed.

Lemma clip_range precision n : 0 <= n -> 0 <= clip precision n <= n.
Proof. unfold clip. rewrite Z.geb_leb, Z.gtb_ltb. destruct (Z.leb_spec 0 precision), (Z.ltb_spec precision n); simpl; lia. Qed.

Lemma sint_int n : fits_int (Z.of_nat n) = true -> sint 32 (Z.of_nat n) = Z.of_nat n.
Proof.
  unfold fits_int, sint, wrap. intros [_ H%Z.leb_le]%andb_true_iff. rewrite Z.mod_small by lia.
  change (2 ^ (32 - 1)) with 2147483648. destruct (Z.leb_spec 2147483648 (Z.of_nat n)); lia.
Qed.

Lemma puts_conv_s flags width precision ln a t a' :
  r_string flags width precision ln a = Some (t, a') ->
  puts a (conv_s flags width precision ln) t a'.
Proof.
  intros Hr T s HP. unfold conv_s. intros HT. apply wp_bind, wp_get. rewrite (pr_va _ _ _ _ _ HP). revert T s HP HT.
  unfold r_string in Hr.
  destruct (is_long ln), a as [|[|o|o|] l]; try discriminate Hr; cbv zeta in Hr |- *.
  all: destruct (fits_int _) eqn:Hf in Hr; [|discriminate Hr]; injection Hr as <- <-; rewrite (sint_int _ Hf).
  - eapply puts_va_any; [done|]. apply puts_padded, puts_all. intros; apply puts_putwc.
  - eapply puts_va_any; [done|]. apply puts_fill; [apply puts_str|].
    pose proof (clip_range precision (Z.of_nat (length (default null_text o)))). rewrite length_take. lia.
Qed.

Lemma puts_conv_c flags width ln a t a' :
  r_char flags width ln a = Some (t, a') -> puts a (conv_c flags width ln) t a'.
Proof.
  unfold r_char, conv_c. intros Hr. destruct (r_arg a) as [[x l]|] eqn:Ha; simplify_eq/=.
  eapply puts_va_arg; [exact Ha|]. apply puts_padded. destruct (is_long ln); [apply puts_putwc|apply puts_putc].
Qed.

Lemma puts_conv_p flags width a t a' :
  r_pointer flags width a = Some (t, a') -> puts a (conv_p flags width) t a'.
Proof.
  unfold r_pointer, conv_p. intros Hr. destruct (r_arg a) as [[x l]|] eqn:Ha; simplify_eq/=.
  eapply puts_va_arg; [exact Ha|].
  set (ds := _ntoa (u64 x) 16 false).
  assert ((if Z.of_nat (length ds) <? 16 then 16 - Z.of_nat (length ds) else 0) = Z.of_nat (16 - length ds)) as ->.
  { destruct (Z.ltb_spec (Z.of_nat (length ds)) 16); lia. }
  apply puts_fill.
  - apply (puts_seq _ _ ["0"%char; "x"%char] a'); [apply puts_str|].
    apply (puts_seq _ _ _ a'); [eapply puts_eq; [|apply puts_pad]|eapply puts_eq; [|apply puts_str]].
    + by rewrite Nat2Z.id.
    + by rewrite Nat2Z.id, take_ge.
  - simpl. unfold pad_left. rewrite length_app, length_replicate. lia.
Qed.

Lemma puts_conv_n ln a t a' :
  r_out a = Some (t, a') -> puts a (conv_n ln) t a'.
Proof.
  intros Hr T s HP HT. unfold conv_n. apply wp_bind, wp_get. rewrite (pr_va _ _ _ _ _ HP).
  destruct a as [|[| | |[]] l]; simplify_eq/=; rewrite app_nil_r.
  - do 3 wp_step. by destruct HP; split.
  - do 3 wp_step. by destruct HP; split.
Qed.

Lemma puts_convert spec flags width precision ln raw a t a' :
  flag flags FL_NEG = false ->
  r_convert spec flags width precision ln raw a = Some (t, a') ->
  puts a (convert spec flags width precision ln raw) t a'.
Proof.
  intros Hn. unfold r_convert, convert.
  repeat (case_match; [intros Hr;
    first [by eapply puts_conv_integer | by eapply puts_conv_c | by eapply puts_conv_s | by eapply puts_conv_p
          | by apply puts_conv_n | eapply puts_conv_integer; [done| |done]; by rewrite flag_lor, Hn]|]).
  intros [= <- <-]. eapply puts_eq; [|apply puts_str]. by rewrite Nat2Z.id, take_ge.
Qed.
(** [parses a m r a']: [m] puts nothing and returns [r]. *)
Definition parses {A} (a : list varg) (m : M pk A) (r : A) (a' : list varg) : Prop :=
  forall T s, printing s0 lev T a s -> wp m (fun r' s' => r' = r /\ printing s0 lev T a' s') s.

Lemma puts_parses {A} a (m : M pk A) r a1 k t a' :
  parses a m r a1 -> puts a1 (k r) t a' -> puts a (m ≫= k) t a'.
Proof.
  intros Hm Hk T s HP HT. apply wp_bind. eapply wp_mono; [by apply Hm|]. intros r' s' [-> HP']. by apply Hk.
Qed.

Lemma parses_ret {A} a (r : A) : parses a (mret r) r a.
Proof. intros T s HP. by wp_step. Qed.

Lemma parses_bind {A B} a (m : M pk A) r a1 (k : A -> M pk B) r' a' :
  parses a m r a1 -> parses a1 (k r) r' a' -> parses a (m ≫= k) r' a'.
Proof. intros Hm Hk T s HP. apply wp_bind. eapply wp_mono; [by apply Hm|]. intros ? s' [-> HP']. by apply Hk. Qed.

Lemma parses_va_arg a x l : r_arg a = Some (x, l) -> parses a va_arg x l.
Proof.
  intros Ha T s HP. unfold va_arg. do 2 wp_step. rewrite (pr_va _ _ _ _ _ HP).
  destruct a as [|[y| | |] a]; simplify_eq/=. do 3 wp_step. split; [done|]. by destruct HP; split.
Qed.

Lemma parses_cint a x : fits_int x = true -> parses a (cint x) x a.
Proof. intros Hf T s HP. unfold cint, fits_int in *. by rewrite Hf. Qed.

Lemma parses_number a fmt : forall n r, r_number fmt n = Some r -> parses a (parse_number fmt n) r a.
Proof.
  induction fmt as [|c fmt IH]; intros n r Hr; cbn in *; [simplify_eq; apply parses_ret|].
  destruct (is_digit c); [|simplify_eq; apply parses_ret]. destruct (fits_int _) eqn:Hf; [|done].
  eapply parses_bind; [by apply parses_cint|]. by apply IH.
Qed.

Lemma parses_width a fmt flags w flags' f a' :
  r_width fmt flags a = Some (w, flags', f, a') -> parses a (parse_width fmt flags) (w, flags', f) a'.
Proof.
  rewrite r_width_eq, parse_width_eq. case_decide.
  - destruct (r_arg a) as [[x l]|] eqn:Ha; [|done]. intros Hr. eapply parses_bind; [by apply parses_va_arg|].
    cbn in Hr. cbv beta zeta. destruct (sint 32 x <? 0); [|simplify_eq; apply parses_ret].
    destruct (fits_int _) eqn:Hf; [|done]. simplify_eq. eapply parses_bind; [by apply parses_cint|apply parses_ret].
  - destruct (r_number fmt 0) as [[w' f']|] eqn:Hn; [|done]. intros [= <- <- <- <-].
    eapply parses_bind; [by apply parses_number|apply parses_ret].
Qed.

Lemma parses_precision a fmt p f a' :
  r_precision fmt a = Some (p, f, a') -> parses a (parse_precision fmt) (p, f) a'.
Proof.
  rewrite r_precision_eq, parse_precision_eq. case_decide; [case_decide|].
  - destruct (r_arg a) as [[x l]|] eqn:Ha; [|done]. intros [= <- <- <-].
    eapply parses_bind; [by apply parses_va_arg|apply parses_ret].
  - destruct (r_number (tail fmt) 0) as [[w' f']|] eqn:Hn; [|done]. intros [= <- <- <-]. by apply parses_number.
  - intros [= <- <- <-]. apply parses_ret.
Qed.

Lemma puts_format fuel : forall fmt a t, render fmt a fuel = Some t -> exists a', puts a (format_loop fmt fuel) t a'.
Proof.
  induction fuel as [|fuel IH]; intros fmt a t Hr; [done|].
  destruct fmt as [|c f0]; [cbn in *; simplify_eq; eexists; apply puts_nil|].
  rewrite render_eq in Hr. rewrite format_eq. destruct (negb (Ascii.eqb c "%")); [|case_decide].
  1,2: apply fmap_Some in Hr as (t'&Hr&->); apply IH in Hr as [a' Hr]; exists a';
       by eapply (puts_seq _ _ [_]); [apply puts_putc|].
  pose proof (parse_flags_neg f0 0 eq_refl) as Hn. destruct (parse_flags f0 0) as [flags f1]. cbn [fst] in Hn.
  destruct (r_width f1 flags a) as [[[[w flags'] f2] a1]|] eqn:Hw; [|done]. cbn in Hr.
  destruct (r_precision f2 a1) as [[[p f3] a2]|] eqn:Hp; [|done]. cbn in Hr.
  pose proof (r_width_neg _ _ _ _ _ _ _ Hn Hw) as Hn'.
  assert (exists a', puts a2 (let '(ln, f4) := parse_length f3 in
    match f4 with [] => mret tt | spec :: f5 =>
      convert spec flags' w p ln (take (length (c :: f0) - length f5) (c :: f0));; format_loop f5 fuel end) t a') as [a' Ha'].
  { destruct (parse_length f3) as [ln [|spec f5]]; [simplify_eq; eexists; apply puts_nil|].
    destruct (r_convert _ _ _ _ _ _ _) as [[t1 a3]|] eqn:Hc; [|done]. cbn in Hr.
    apply fmap_Some in Hr as (t2&Hr&->). apply IH in Hr as [a' Hr]. exists a'.
    eapply puts_seq; [by apply puts_convert|done]. }
  exists a'. eapply puts_parses; [by apply parses_width|]. eapply puts_parses; [by apply parses_precision|]. exact Ha'.
Qed.
End conversions.

(** ** What the sinks receive *)

(** The characters that a list of write calls passes to the sink of slot [i]. *)
Definition received (i : nat) (ws : list (nat * Z * list ascii)) : list ascii :=
  concat (snd <$> filter (fun w => w.1.1 = i) ws).

Lemma received_app i ws ws' : received i (ws ++ ws') = received i ws ++ received i ws'.
Proof. unfold received. by rewrite filter_app, fmap_app, concat_app. Qed.

Lemma received_flush l lev b i : forall j,
  received i (flush_to j l lev b) =
  if decide (j <= i)%nat then match l !! (i - j)%nat with Some k => if present k then b else [] | None => [] end else [].
Proof.
  induction l as [|k l IH]; intros j; cbn [flush_to]; [by case_decide|].
  assert (received i (if present k then (j, lev, b) :: flush_to (S j) l lev b else flush_to (S j) l lev b) =
    (if present k then if decide (j = i) then b else [] else []) ++ received i (flush_to (S j) l lev b)) as ->.
  { destruct (present k); [|done]. unfold received. rewrite filter_cons. cbn. by destruct (decide (j = i)). }
  rewrite IH. destruct (decide (j = i)) as [->|Hne].
  - rewrite Nat.sub_diag. rewrite !decide_False by lia. rewrite decide_True by lia. cbn.
    destruct (present k); [|done]. by rewrite app_nil_r.
  - assert ((if present k then [] else []) = @nil ascii) as -> by (by destruct (present k)). cbn.
    destruct (decide (S j <= i)%nat); [|by rewrite decide_False by lia].
    rewrite decide_True by lia. by replace (i - j)%nat with (S (i - S j)) by lia.
Qed.

Lemma received_chunks l lev cs i k : l !! i = Some k ->
  received i (concat (flush_to 0 l lev <$> cs)) = if present k then concat cs else [].
Proof.
  intros Hk. induction cs as [|c cs IH]; [by destruct (present k)|].
  rewrite fmap_cons. cbn [concat]. rewrite received_app, IH, received_flush, decide_True, Nat.sub_0_r, Hk by lia.
  by destruct (present k).
Qed.

Lemma flush_calls l lev b P : P lev b -> forall j, Forall (fun w => P w.1.2 w.2 /\
  (j <= w.1.1)%nat /\ exists k, l !! (w.1.1 - j)%nat = Some k /\ present k = true) (flush_to j l lev b).
Proof.
  intros HP. induction l as [|k l IH]; intros j; cbn; [done|].
  assert (Forall (fun w => P w.1.2 w.2 /\ (j <= w.1.1)%nat /\
    exists k', (k :: l) !! (w.1.1 - j)%nat = Some k' /\ present k' = true) (flush_to (S j) l lev b)) as Hr.
  { eapply Forall_impl; [apply IH|]. intros w (H1&H2&k'&H3&H4). split_and!; [done|lia|]. exists k'.
    by replace (w.1.1 - j)%nat with (S (w.1.1 - S j)) by lia. }
  destruct (present k) eqn:Hp; [|done]. constructor; [|done]. cbn. split_and!; [done|lia|]. exists k. by rewrite Nat.sub_diag.
Qed.

(** What a call prints with level [lev] when its text is [text]. *)
Definition printed (s : pk) (lev : Z) (text : list ascii) (n : Z) (s' : pk) : Prop :=
  n = Z.of_nat (length text) /\ sinks s' = sinks s /\
  exists ws, writes s' = writes s ++ ws /\
    (forall i k, sinks s !! i = Some k -> received i ws = if present k then text else []) /\
    Forall (fun w => (w.1.2 = lev /\ (1 <= length w.2 <= 64)%nat) /\
      exists k, sinks s !! w.1.1 = Some k /\ present k = true) ws.

Lemma vprintkl_wp lev fmt args text s :
  render fmt args (S (length fmt)) = Some text -> Z.of_nat (length text) <= INT_MAX ->
  wp (_vprintkl lev fmt args) (printed s lev text) s.
Proof.
  intros Hr Hl. unfold _vprintkl. do 2 wp_step. set (s1 := mk_pk _ _ _ _ _ _ _).
  destruct (puts_format s lev _ _ _ _ Hr) as [a' Hp]. wp_step.
  eapply wp_mono; [apply (Hp []); [|done]|].
  { split; cbn; try done; [lia|]. exists []. cbn. by rewrite app_nil_r. }
  intros [] s2 HP2. cbn [app] in HP2. wp_step. eapply wp_mono; [by eapply flush_printing|].
  intros [] s3 [[H1 H2 H3 H4 H5 (cs&Hw&Hc&HT)] Hb]. wp_step. unfold printed. rewrite Hb, app_nil_r in HT.
  split_and!; [done|done|]. exists (concat (flush_to 0 (sinks s) lev <$> cs)). split_and!; [done| |].
  - intros i k Hk. by rewrite (received_chunks _ _ _ _ _ Hk), HT.
  - apply Forall_concat, Forall_fmap. eapply Forall_impl; [exact Hc|]. intros c Hlen.
    eapply Forall_impl; [by apply (flush_calls _ lev c (fun l b => l = lev /\ (1 <= length b <= 64)%nat))|].
    intros w (H6&_&k&H7&H8). rewrite Nat.sub_0_r in H7. eauto.
Qed.

Lemma vprintk_wp pre lev fmt args text s :
  (pre = [] /\ lev = 6 /\ head fmt <> Some "001"%char) \/ (exists d, 0 <= d <= 9 /\ pre = ["001"%char; digit false d] /\ lev = d) ->
  render fmt args (S (length fmt)) = Some text -> Z.of_nat (length text) <= INT_MAX ->
  wp (vprintk (Some (pre ++ fmt)) args) (printed s lev text) s.
Proof.
  intros Hpre Hr Hl. destruct Hpre as [(->&->&Hh)|(d&Hd&->&->)].
  - cbn [app]. assert (vprintk (Some fmt) args = _vprintkl 6 fmt args) as -> by
      (destruct fmt as [|c [|e f]]; [done..|]; cbn; destruct (Ascii.eqb_spec c "001"); [by subst|done]).
    by apply vprintkl_wp.
  - assert (vprintk (Some (["001"%char; digit false d] ++ fmt)) args = _vprintkl d fmt args) as ->.
    { assert (exists n, (n < 10)%nat /\ d = Z.of_nat n) as (n&Hn&->) by (exists (Z.to_nat d); lia).
      by do 10 (destruct n as [|n]; [done|]); lia. }
    by apply vprintkl_wp.
Qed.

(** C13: [printk] prints what the reference renderer computes.  For a format and
    arguments that have a rendering of at most [INT_MAX] characters, with or
    without a log level in front, every registered sink receives
    exactly the rendered text, in calls of 1 to 64 characters with the message's level
    (6 when the format names none); free slots are never called, and the result
    is the number of characters. *)
Theorem vprintk_correct pre lev fmt args text s :
  (pre = [] /\ lev = 6 /\ head fmt <> Some "001"%char) \/ (exists d, 0 <= d <= 9 /\ pre = ["001"%char; digit false d] /\ lev = d) ->
  render fmt args (S (length fmt)) = Some text -> Z.of_nat (length text) <= INT_MAX ->
  wp (vprintk (Some (pre ++ fmt)) args) (printed s lev text) s.
Proof. exact (vprintk_wp pre lev fmt args text s). Qed.

(** A sink, a free slot, a sink, five free slots. *)
Definition ex_sinks : list sink := [mk_sink "v" 1; no_sink; mk_sink "u" 2; no_sink; no_sink; no_sink; no_sink; no_sink].
Definition ex_pk : pk := mk_pk ex_sinks [] [] [] 0 0 [].
Definition ex_format : list ascii := String.list_ascii_of_string "%s: %-6d|%#06x %c%%".
Definition ex_args : list varg := [VStr (Some (String.list_ascii_of_string "pid")); VInt (-42); VInt 255; VInt 33].

Lemma vprintk_correct_witness :
  render ex_format ex_args (S (length ex_format)) = Some (String.list_ascii_of_string "pid: -42   |0x00ff !%") /\
  wp (vprintk (Some (["001"%char; "4"%char] ++ ex_format)) ex_args)
    (printed ex_pk 4 (String.list_ascii_of_string "pid: -42   |0x00ff !%")) ex_pk.
Proof.
  split; [vm_compute; reflexivity|].
  apply (vprintk_correct ["001"%char; "4"%char] 4 ex_format ex_args (String.list_ascii_of_string "pid: -42   |0x00ff !%") ex_pk).
  - right. exists 4. split; [lia|]. split; reflexivity.
  - vm_compute; reflexivity.
  - vm_compute. discriminate.
Defined.

(** ** Sinks *)

Lemma first_free_spec l : forall i,
  match first_free l i with
  | Some j => (i <= j)%nat /\ (exists k, l !! (j - i)%nat = Some k /\ present k = false) /\
      (forall j' k, (i <= j' < j)%nat -> l !! (j' - i)%nat = Some k -> present k = true)
  | None => Forall (fun k => present k = true) l
  end.
Proof.
  induction l as [|k l IH]; intros i; cbn; [done|]. destruct (present k) eqn:Hk.
  - specialize (IH (S i)). destruct (first_free l (S i)) as [j|]; [|by constructor].
    destruct IH as (Hi&(k'&Hk'&Hp)&Hall). split_and!; [lia| |].
    + exists k'. by replace (j - i)%nat with (S (j - S i)) by lia.
    + intros j' k1 Hj Hl. destruct (decide (j' = i)) as [->|].
      * rewrite Nat.sub_diag in Hl. by simplify_eq/=.
      * replace (j' - i)%nat with (S (j' - S i)) in Hl by lia. apply (Hall j' k1); [lia|done].
  - split_and!; [lia| |intros; lia]. exists k. by rewrite Nat.sub_diag.
Qed.

(** Registering a sink takes the first free slot and leaves the other slots as
    they are, or returns [NULL] and changes nothing when all are in use;
    unregistering the returned slot frees exactly that slot again. *)
Theorem sink_register_unregister k s :
  present k = true ->
  match printk_sink_register k s with
  | Ok (Some i) s' _ =>
      (exists k0, sinks s !! i = Some k0 /\ present k0 = false) /\
      (forall j k1, (j < i)%nat -> sinks s !! j = Some k1 -> present k1 = true) /\
      sinks s' = <[i := k]> (sinks s) /\
      wp (printk_sink_unregister (Some i))
        (fun r s'' => r = 0 /\ (fun k1 => present k1) <$> sinks s'' = (fun k1 => present k1) <$> sinks s) s'
  | Ok None s' _ => s' = s /\ Forall (fun k1 => present k1 = true) (sinks s)
  | _ => False
  end.
Proof.
  intros Hk. unfold printk_sink_register. rewrite Hk. cbn [negb].
  unfold mbind, M_bind, get, after. cbv beta iota.
  pose proof (first_free_spec (sinks s) 0) as Hf. destruct (first_free (sinks s) 0) as [i|]; cbn; [|by split].
  rewrite Nat.sub_0_r in Hf. destruct Hf as (_&(k0&Hk0&Hp)&Hall). split_and!; [eauto| |done|].
  - intros j k1 Hj Hl. apply (Hall j k1); [lia|]. by rewrite Nat.sub_0_r.
  - unfold printk_sink_unregister. do 2 wp_step. cbn. assert (i < length (sinks s))%nat by (by eapply lookup_lt_Some).
    rewrite list_lookup_insert_eq by done. do 3 wp_step. split; [done|]. cbn [sinks set_sinks].
    rewrite list_insert_insert_eq, list_fmap_insert. apply list_insert_id. rewrite list_lookup_fmap, Hk0. cbn. f_equal. exact Hp.
Qed.

Lemma sink_register_unregister_witness :
  exists s', printk_sink_register (mk_sink "l" 3) ex_pk = Ok (Some 1%nat) s' [] /\
  wp (printk_sink_unregister (Some 1%nat))
    (fun r s'' => r = 0 /\ (fun k1 => present k1) <$> sinks s'' = (fun k1 => present k1) <$> sinks ex_pk) s'.
Proof.
  eexists. split; [reflexivity|]. exact (proj2 (proj2 (proj2 (sink_register_unregister (mk_sink "l" 3) ex_pk eq_refl)))).
Defined.
