(* ===== verification/BootString.v ===== *)
(** * String functions of the boot loader (boot/string.c)

    [memset] fills by 32-bit words and then by bytes; it is proved equal to the
    plain fill.  [memcmp], [toupper] and [strchr] are what the FAT reader uses to
    compare and split names. *)

From S2P Require Import Prelude.
From Stdlib Require Import ZArith Lia.
From stdpp Require Import base list strings.

Open Scope Z_scope.

Module Boot.

(** [while (size >= 4)]: the offset and the size that remain. *)
Fixpoint memset_words (fuel : nat) (o : list Z) (p : nat) (v32 size : Z) : option (list Z * nat * Z) :=
  if size >=? 4 then
    match fuel with
    | O => None
    | S fuel' =>
        o' ← store_bytes o p (le_bytes 4 v32);
        memset_words fuel' o' (p + 4) v32 (u32 (size - 4))
    end
  else Some (o, p, size).

(** The second loop is [while (size--)]. *)
Definition memset (o : list Z) (ptr : nat) (value size : Z) : option (list Z) :=
  let v32 := u32 (u8 value * 0x01010101) in
  '(o', p, rest) ← memset_words (Z.to_nat size) o ptr v32 size;
  fill_bytes o' p (u8 value) (Z.to_nat rest).

(** The bytes at and behind [s1] and [s2]. *)
Fixpoint memcmp (s1 s2 : list Z) (n : nat) : option Z :=
  match n with
  | O => Some 0
  | S n' =>
      match s1, s2 with
      | a :: s1', b :: s2' =>
          let ret := u8 a - u8 b in
          if negb (ret =? 0) then Some ret else memcmp s1' s2' n'
      | _, _ => None
      end
  end.

(** Characters are bytes; [char] is signed. *)
Definition toupper (ch : Z) : Z :=
  let c := sint 8 ch in if (97 <=? c) && (c <=? 122) then c - 32 else c.

(** A string is the list of its bytes without the zero; the result is the rest of
    the string from the character on. *)
Fixpoint strchr (str : list Z) (ch : Z) : option (list Z) :=
  match str with
  | [] => None
  | c :: str' => if c =? ch then Some str else strchr str' ch
  end.

End Boot.

(** ** [memset] *)

Lemma fill_word v : le_bytes 4 (u32 (u8 v * 0x01010101)) = replicate 4 (u8 v).
Proof.
  pose proof (wrap_range 8 v). set (b := u8 v) in *. rewrite u32_small by lia. cbn [le_bytes replicate].
  repeat f_equal; Z.to_euclidean_division_equations; lia.
Qed.

Lemma memset_words_spec v : forall fuel size o p,
  0 <= size < 2 ^ 32 -> size <= Z.of_nat fuel -> (p + Z.to_nat size <= length o)%nat ->
  exists o', Boot.memset_words fuel o p (u32 (u8 v * 0x01010101)) size =
      Some (o', (p + 4 * Z.to_nat (size / 4))%nat, size mod 4) /\
    store_bytes o p (replicate (4 * Z.to_nat (size / 4)) (u8 v)) = Some o'.
Proof.
  induction fuel as [|fuel IH]; intros size o p Hs Hf Ho; cbn [Boot.memset_words]; rewrite Z.geb_leb;
    destruct (Z.leb_spec 4 size) as [Hge|Hlt]; [lia| | |].
  1,3: exists o; rewrite Z.div_small, Z.mod_small by lia; simpl; rewrite Nat.add_0_r; split; [done|];
    rewrite store_bytes_ok by (simpl; lia); simpl; by rewrite Nat.add_0_r, take_drop.
  rewrite fill_word. rewrite (store_bytes_ok o p (replicate 4 (u8 v))) by (simpl; lia). cbn [mbind option_bind].
  set (o1 := take p o ++ _). assert (store_bytes o p (replicate 4 (u8 v)) = Some o1) as H1 by (by rewrite store_bytes_ok by (simpl; lia)).
  rewrite (u32_small (size - 4)) by lia.
  destruct (IH (size - 4) o1 (p + 4)%nat) as (o'&Hw&Hst); [lia|lia|rewrite (store_bytes_length _ _ _ _ H1); lia|].
  exists o'. assert (size / 4 = (size - 4) / 4 + 1) as Hq by (rewrite <- Z.div_add by lia; f_equal; lia).
  assert (0 <= (size - 4) / 4) by (apply Z.div_pos; lia).
  split.
  - rewrite Hw. rewrite <- (Z_mod_plus_full size (-1) 4). replace (size + -1 * 4) with (size - 4) by lia.
    do 3 f_equal. lia.
  - replace (4 * Z.to_nat (size / 4))%nat with (4 + 4 * Z.to_nat ((size - 4) / 4))%nat by lia.
    rewrite replicate_add, <- (store_bytes_app _ _ _ _ _ H1). exact Hst.
Qed.

Lemma memset_fills o ptr value size :
  0 <= size < 2 ^ 32 -> (ptr + Z.to_nat size <= length o)%nat ->
  Boot.memset o ptr value size =
    Some (take ptr o ++ replicate (Z.to_nat size) (u8 value) ++ drop (ptr + Z.to_nat size) o).
Proof.
  intros Hs Ho. unfold Boot.memset.
  destruct (memset_words_spec value (Z.to_nat size) size o ptr) as (o'&Hw&Hst); [lia..|]. rewrite Hw. cbn [mbind option_bind].
  pose proof (Z.mod_pos_bound size 4 ltac:(lia)). pose proof (Z.div_mod size 4 ltac:(lia)). assert (0 <= size / 4) by (apply Z.div_pos; lia).
  rewrite fill_bytes_spec by (rewrite (store_bytes_length _ _ _ _ Hst); lia).
  replace (ptr + 4 * Z.to_nat (size / 4))%nat with (ptr + length (replicate (4 * Z.to_nat (size / 4)) (u8 value)))%nat
    by (by rewrite length_replicate).
  rewrite (store_bytes_app _ _ _ _ _ Hst), <- replicate_add.
  replace (4 * Z.to_nat (size / 4) + Z.to_nat (size mod 4))%nat with (Z.to_nat size) by lia.
  rewrite store_bytes_ok, length_replicate by (rewrite length_replicate; lia). done.
Qed.

(** C31: The word-wise [memset] of the boot loader fills exactly the requested
    bytes, whatever the size modulo four, and leaves the others alone. *)
Theorem boot_memset_correct o ptr value size :
  0 <= size < 2 ^ 32 -> (ptr + Z.to_nat size <= length o)%nat ->
  Boot.memset o ptr value size =
    Some (take ptr o ++ replicate (Z.to_nat size) (u8 value) ++ drop (ptr + Z.to_nat size) o).
Proof. apply memset_fills. Qed.

Lemma boot_memset_correct_witness :
  Boot.memset [1; 2; 3; 4; 5; 6; 7; 8; 9] 1 0x120 7 = Some [1; 32; 32; 32; 32; 32; 32; 32; 9].
Proof. apply (boot_memset_correct [1; 2; 3; 4; 5; 6; 7; 8; 9] 1 0x120 7); [lia|simpl; lia]. Defined.

(** Writing behind a prefix. *)
Lemma store_tail pre junk l : (length l <= length junk)%nat ->
  store_bytes (pre ++ junk) (length pre) l = Some (pre ++ l ++ drop (length l) junk).
Proof.
  intros H. rewrite store_bytes_ok by (rewrite length_app; lia).
  by rewrite take_app_length, drop_app_add.
Qed.

Lemma memset_tail pre junk v n : 0 <= n < 2 ^ 32 -> (Z.to_nat n <= length junk)%nat ->
  Boot.memset (pre ++ junk) (length pre) v n = Some (pre ++ replicate (Z.to_nat n) (u8 v) ++ drop (Z.to_nat n) junk).
Proof.
  intros Hn H. rewrite memset_fills by (rewrite ?length_app; lia). by rewrite take_app_length, drop_app_add.
Qed.

(** ** Comparison and search *)

Definition is_byte (x : Z) : Prop := 0 <= x < 256.

(** [memcmp] of byte strings is zero exactly on equal prefixes. *)
Lemma memcmp_zero n : forall s1 s2, Forall is_byte s1 -> Forall is_byte s2 -> (n <= length s1)%nat -> (n <= length s2)%nat ->
  exists r, Boot.memcmp s1 s2 n = Some r /\ (r = 0 <-> take n s1 = take n s2).
Proof.
  induction n as [|n IH]; intros [|a s1] [|b s2] H1 H2 L1 L2; cbn in *; try lia; try by eexists.
  inversion_clear H1 as [|? ? Ha H1']. inversion_clear H2 as [|? ? Hb H2']. unfold is_byte in *. rewrite !u8_small by lia.
  destruct (Z.eqb_spec (a - b) 0) as [E|E]; cbn [negb].
  - destruct (IH s1 s2) as (r&Hr&Hz); [done|done|lia|lia|]. exists r. split; [done|].
    assert (a = b) as <- by lia. rewrite Hz. split; [by intros ->|by intros [= ->]].
  - eexists. split; [done|]. split; [done|]. intros [= -> _]. lia.
Qed.

Lemma strchr_spec str ch :
  match Boot.strchr str ch with
  | Some rest => exists pre, str = pre ++ rest /\ ch ∉ pre /\ head rest = Some ch
  | None => ch ∉ str
  end.
Proof.
  induction str as [|c str IH]; cbn; [by apply not_elem_of_nil|].
  destruct (Z.eqb_spec c ch) as [->|Hne]; [exists []; split_and!; [done|apply not_elem_of_nil|done]|].
  destruct (Boot.strchr str ch) as [rest|].
  - destruct IH as (pre&->&Hn&Hh). exists (c :: pre). split_and!; [done| |done]. rewrite not_elem_of_cons. auto.
  - rewrite not_elem_of_cons. auto.
Qed.

Lemma strchr_app pre str ch : ch ∉ pre -> Boot.strchr (pre ++ str) ch = Boot.strchr str ch.
Proof.
  induction pre as [|c pre IH]; [done|]. rewrite not_elem_of_cons. intros [Hne Hin]. cbn.
  destruct (Z.eqb_spec c ch) as [->|]; [done|]. by apply IH.
Qed.
