(* ===== verification/Fat.v ===== *)
(** * The FAT32 reader of the boot loader (boot/fat.c, boot/fat.h)

    The disk is a parameter, the [disk_read] function of the boot services: a state
    of the device, an error code and the bytes that it writes to the buffer.
    Error codes are the left side of a sum.  A chain of clusters on a damaged
    volume need not end, so the two loops over chains have a fuel, and a run that
    needs more of it has no result ([fault]). *)

From S2P Require Import Prelude BootString.
From Stdlib Require Import ZArith Lia.
From stdpp Require Import base list strings.

Open Scope Z_scope.

(** ** Data *)

(** [disk_read(abar, port, lba, count, buffer)] of bl/types.h. *)
Class Disk (W : Type) := disk_read : Z -> Z -> Z -> Z -> W -> Z * list Z * W.

(** The fields of [BL_Disk] that are used. *)
Record BL_Disk := mk_BL_Disk { bd_abar : Z; bd_port : Z; bd_partition_lba : Z; bd_partition_sectors : Z }.

Record fat_dev_t := mk_fat_dev {
  abar : Z;
  port : Z;
  lba : Z;
  sectors : Z;
  fat : Z;
  fat_sectors : Z;
  root_dir_cluster : Z;
  data : Z;
  sectors_per_cluster : Z;
}.

(** [fat_cache]; [c_entry] are the 512 bytes of [entry]. *)
Record fat_cache_t := mk_cache {
  c_valid : bool;
  c_abar : Z;
  c_port : Z;
  c_lba : Z;
  c_fat : Z;
  c_fat_sectors : Z;
  c_sector_no : Z;
  c_entry : list Z;
}.

Record fat_dir_entry_t := mk_entry {
  e_name : list Z;
  e_ext : list Z;
  e_attributes : Z;
  e_reserved : Z;
  e_creation_time_tenths : Z;
  e_creation_time : Z;
  e_creation_date : Z;
  e_last_access_date : Z;
  e_cluster_high : Z;
  e_write_time : Z;
  e_write_date : Z;
  e_cluster_low : Z;
  e_file_size : Z;
}.

Definition FAT_ATTR_DIRECTORY : Z := 0x10.
Definition FAT_DIR_ENTRIES_PER_SECTOR : nat := 16.

(** The little-endian field of [n] bytes at offset [off]. *)
Definition field (l : list Z) (off n : nat) : Z := le_num (take n (drop off l)).

(** The packed structure of 32 bytes. *)
Definition parse_entry (b : list Z) : fat_dir_entry_t :=
  mk_entry (take 8 b) (take 3 (drop 8 b)) (field b 11 1) (field b 12 1) (field b 13 1) (field b 14 2) (field b 16 2)
    (field b 18 2) (field b 20 2) (field b 22 2) (field b 24 2) (field b 26 2) (field b 28 4).

(** The BIOS parameter block in the boot sector, a packed structure at offset 11. *)
Record fat_bpb_t := mk_bpb {
  bytes_per_sector : Z;
  b_sectors_per_cluster : Z;
  reserved_sectors : Z;
  fat_count : Z;
  root_dir_entries_count : Z;
  total_sectors : Z;
  media_descriptor : Z;
  sectors_per_fat_16 : Z;
  sector_per_track : Z;
  heads_count : Z;
  hidden_sector_count : Z;
  large_sector_count : Z;
  sectors_per_fat : Z;
  b_flags : Z;
  fat_version_num : Z;
  b_root_dir_cluster : Z;
  fsi_sector : Z;
  backup_boot_sector_sector : Z;
  b_reserved : list Z;
  drive_number : Z;
  reserved_flags : Z;
  signature : Z;
  volume_id : Z;
  volume_label : list Z;
  sys_id : list Z;
}.

(** The block of a boot sector of which 90 bytes have been read. *)
Definition parse_bpb (b : list Z) : option fat_bpb_t :=
  if (90 <=? length b)%nat then
    Some (mk_bpb (field b 11 2) (field b 13 1) (field b 14 2) (field b 16 1) (field b 17 2) (field b 19 2) (field b 21 1)
      (field b 22 2) (field b 24 2) (field b 26 2) (field b 28 4) (field b 32 4) (field b 36 4) (field b 40 2) (field b 42 2)
      (field b 44 4) (field b 48 2) (field b 50 2) (take 12 (drop 52 b)) (field b 64 1) (field b 65 1) (field b 66 1)
      (field b 67 4) (take 11 (drop 71 b)) (take 8 (drop 82 b)))
  else None.

(** Static data, the device and the memory outside of the boot loader. *)
Record fat_state (W : Type) := mk_fat_state {
  world : W;
  fat_cache : fat_cache_t;
  buffer : list Z;
  memory : Z -> Z;
}.
Arguments mk_fat_state {W}.
Arguments world {W}.
Arguments fat_cache {W}.
Arguments buffer {W}.
Arguments memory {W}.

Definition write_memory (a : Z) (bs : list Z) (m : Z -> Z) : Z -> Z :=
  fun x => if (a <=? x) && (x <? a + Z.of_nat (length bs)) then bs !!! Z.to_nat (x - a) else m x.

Section fat.
Context {W : Type} `{!Disk W}.
Abbreviation F := (M (fat_state W)).

Definition set_world (w : W) (s : fat_state W) := mk_fat_state w (fat_cache s) (buffer s) (memory s).
Definition set_cache (c : fat_cache_t) (s : fat_state W) := mk_fat_state (world s) c (buffer s) (memory s).
Definition set_fbuffer (b : list Z) (s : fat_state W) := mk_fat_state (world s) (fat_cache s) b (memory s).
Definition set_memory (m : Z -> Z) (s : fat_state W) := mk_fat_state (world s) (fat_cache s) (buffer s) m.

(** [RET_ERR]: the first function returns an error code or a value. *)
Definition ret_err {A B} (m : F (Z + A)) (k : A -> F (Z + B)) : F (Z + B) :=
  r ← m; match r with inl e => mret (inl e) | inr a => k a end.

(** ** Sectors *)

(** The error code and the bytes that have been written to the buffer. *)
Definition fat_read_sectors (dev : fat_dev_t) (l count : Z) : F (Z * list Z) :=
  if u32 (l + count) >? sectors dev then mret (-1, []) else
  s ← get;
  let '(err, bytes, w) := disk_read (abar dev) (port dev) (u32 (lba dev + l)) count (world s) in
  modify (set_world w);;
  mret (err, bytes).

Definition fat_dev_init (disk : BL_Disk) : F (Z + fat_dev_t) :=
  let dev0 := mk_fat_dev (bd_abar disk) (u8 (bd_port disk)) (u32 (bd_partition_lba disk)) (u32 (bd_partition_sectors disk)) 0 0 0 0 0 in
  '(err, boot_sector) ← fat_read_sectors dev0 0 1;
  if (512 <? length boot_sector)%nat then fault else
  if negb (err =? 0) then mret (inl (-1)) else
  bpb ← deref (parse_bpb boot_sector);
  let fs := u32 (fat_count bpb * sectors_per_fat bpb) in
  mret (inr (mk_fat_dev (abar dev0) (port dev0) (lba dev0) (sectors dev0) (reserved_sectors bpb) fs (b_root_dir_cluster bpb)
    (u32 (reserved_sectors bpb + fs)) (b_sectors_per_cluster bpb))).

(** ** The cache of one sector of the FAT *)

Definition fat_cache_is_stale (dev : fat_dev_t) (sector_no : Z) (c : fat_cache_t) : bool :=
  if negb (c_valid c) then true else
  if negb (c_abar c =? abar dev) || negb (c_port c =? port dev) || negb (c_lba c =? lba dev) ||
     negb (c_fat c =? fat dev) || negb (c_fat_sectors c =? fat_sectors dev) then true else
  if negb (c_sector_no c =? sector_no) then true else false.

Definition with_entry (e : list Z) (c : fat_cache_t) : fat_cache_t :=
  mk_cache (c_valid c) (c_abar c) (c_port c) (c_lba c) (c_fat c) (c_fat_sectors c) (c_sector_no c) e.

Definition fat_cache_fetch (dev : fat_dev_t) (sector_no : Z) : F (Z + unit) :=
  '(err, bytes) ← fat_read_sectors dev (u32 (fat dev + sector_no)) 1;
  s ← get;
  e ← deref (store_bytes (c_entry (fat_cache s)) 0 bytes);
  modify (set_cache (with_entry e (fat_cache s)));;
  if negb (err =? 0) then mret (inl err) else
  modify (set_cache (mk_cache true (abar dev) (port dev) (lba dev) (fat dev) (fat_sectors dev) sector_no e));;
  mret (inr tt).

Definition fat_get_next_cluster (dev : fat_dev_t) (current_cluster_no : Z) : F (Z + Z) :=
  let sector_no := current_cluster_no / 128 in
  let local_offset := current_cluster_no mod 128 in
  s ← get;
  ret_err (if fat_cache_is_stale dev sector_no (fat_cache s) then fat_cache_fetch dev sector_no else mret (inr tt))
    (fun _ =>
       next ← gets (fun s => field (c_entry (fat_cache s)) (4 * Z.to_nat local_offset) 4);
       mret (inr next)).

(** ** Directories *)

Definition in_chain (c : Z) : bool := (c >=? 2) && (c <? 0x0FFFFFF8).
Definition first_cluster (e : fat_dir_entry_t) : Z := Z.lor (e_cluster_low e) (u32 (Z.shiftl (e_cluster_high e) 16)).
Definition cluster_lba (dev : fat_dev_t) (c : Z) : Z := u32 (data dev + u32 ((c - 2) * sectors_per_cluster dev)).

(** The loop over the entries of a sector, as slices of 32 bytes: an error code,
    the entry, or [None] when the search goes on with the next sector. *)
Fixpoint scan_entries (es : list (list Z)) (target : list Z) : F (Z + option fat_dir_entry_t) :=
  match es with
  | [] => mret (inr None)
  | e :: es' =>
      let name0 := sint 8 (field e 0 1) in
      if name0 =? 0x00 then mret (inl (-1)) else
      if name0 =? 0xE5 then scan_entries es' target else
      if field e 11 1 =? 0x0F then scan_entries es' target else
      r ← deref (Boot.memcmp e target 11);
      if r =? 0 then mret (inr (Some (parse_entry e))) else scan_entries es' target
  end.

Definition slices (b : list Z) : list (list Z) :=
  (fun i => take 32 (drop (32 * i) b)) <$> seq 0 FAT_DIR_ENTRIES_PER_SECTOR.

(** [for (int s = 0; s < sectors_per_cluster; s++)], with [n] sectors left. *)
Fixpoint lookup_sectors (dev : fat_dev_t) (l : Z) (target : list Z) (n : nat) (s : Z) : F (Z + option fat_dir_entry_t) :=
  match n with
  | O => mret (inr None)
  | S n' =>
      '(err, bytes) ← fat_read_sectors dev (u32 (l + s)) 1;
      st ← get;
      b ← deref (store_bytes (buffer st) 0 bytes);
      modify (set_fbuffer b);;
      if negb (err =? 0) then mret (inl err) else
      ret_err (scan_entries (slices b) target) (fun r =>
        match r with
        | Some e => mret (inr (Some e))
        | None => lookup_sectors dev l target n' (s + 1)
        end)
  end.

Fixpoint lookup_clusters (fuel : nat) (dev : fat_dev_t) (target : list Z) (dir_cluster : Z) : F (Z + fat_dir_entry_t) :=
  if in_chain dir_cluster then
    match fuel with
    | O => fault
    | S fuel' =>
        ret_err (lookup_sectors dev (cluster_lba dev dir_cluster) target (Z.to_nat (sectors_per_cluster dev)) 0) (fun r =>
          match r with
          | Some e => mret (inr e)
          | None => ret_err (fat_get_next_cluster dev dir_cluster) (lookup_clusters fuel' dev target)
          end)
    end
  else mret (inl (-1)).

Definition fat_file_lookup (fuel : nat) (dev : fat_dev_t) (directory : fat_dir_entry_t) (target : list Z) : F (Z + fat_dir_entry_t) :=
  if Z.land (e_attributes directory) FAT_ATTR_DIRECTORY =? 0 then mret (inl (-1)) else
  lookup_clusters fuel dev target (first_cluster directory).

(** ** Names and paths *)

Definition SLASH : Z := 47.
Definition DOT : Z := 46.
Definition SPACE : Z := 32.

(** [while (i < 11)]. *)
Fixpoint short_name_loop (short_name : list Z) (i : nat) (name_ext : list Z) : option (list Z * nat) :=
  if (i <? 11)%nat then
    match short_name with
    | [] => Some (name_ext, i)
    | c :: rest =>
        if c =? SLASH then Some (name_ext, i) else
        if c =? DOT then
          o ← (if (i <? 8)%nat then Boot.memset name_ext i SPACE (8 - Z.of_nat i) else Some name_ext);
          short_name_loop rest 8 o
        else
          o ← store_bytes name_ext i [u8 (Boot.toupper c)];
          short_name_loop rest (S i) o
    end
  else Some (name_ext, i).

(** [name_ext] holds 11 bytes with any contents. *)
Definition fat_short_name_to_name_ext (short_name : list Z) (name_ext : list Z) : option (list Z) :=
  let short_name := match short_name with c :: r => if c =? SLASH then r else short_name | [] => [] end in
  '(o, i) ← short_name_loop short_name 0 name_ext;
  Boot.memset o i SPACE (11 - Z.of_nat i).

(** [while (path && *path)]; [junk] is the uninitialised array [target]. *)
Fixpoint path_loop (n fuel : nat) (dev : fat_dev_t) (junk : list Z) (current : fat_dir_entry_t) (path : option (list Z))
    : F (Z + fat_dir_entry_t) :=
  match path with
  | None | Some [] => mret (inr current)
  | Some p =>
      match n with
      | O => fault
      | S n' =>
          target ← deref (fat_short_name_to_name_ext p junk);
          ret_err (fat_file_lookup fuel dev current target) (fun e =>
            path_loop n' fuel dev junk e (match Boot.strchr p SLASH with Some q => Some (tail q) | None => None end))
      end
  end.

(** [strchr] shortens the path by a character at least. *)
Definition fat_path_lookup (fuel : nat) (dev : fat_dev_t) (junk : list Z) (directory : fat_dir_entry_t) (path : list Z)
    : F (Z + fat_dir_entry_t) :=
  path_loop (length path) fuel dev junk directory (Some path).

(** ** Files *)

Fixpoint read_clusters (fuel : nat) (dev : fat_dev_t) (current_cluster buf : Z) : F (Z + unit) :=
  if in_chain current_cluster then
    match fuel with
    | O => fault
    | S fuel' =>
        '(err, bytes) ← fat_read_sectors dev (cluster_lba dev current_cluster) (sectors_per_cluster dev);
        s ← get;
        modify (set_memory (write_memory buf bytes (memory s)));;
        if negb (err =? 0) then mret (inl err) else
        ret_err (fat_get_next_cluster dev current_cluster) (fun next =>
          read_clusters fuel' dev next (buf + sectors_per_cluster dev * 512))
    end
  else mret (inr tt).

Definition root_entry (dev : fat_dev_t) : fat_dir_entry_t :=
  mk_entry [82; 79; 79; 84; 32; 32; 32; 32] [32; 32; 32] FAT_ATTR_DIRECTORY 0 0 0 0 0
    (u16 (Z.shiftr (root_dir_cluster dev) 16)) 0 0 (u16 (Z.land (root_dir_cluster dev) 0xFFFF)) 0.

Definition fat_read (fuel : nat) (dev : fat_dev_t) (junk : list Z) (path : list Z) (buf : Z) : F (Z + unit) :=
  ret_err (fat_path_lookup fuel dev junk (root_entry dev) path) (fun file =>
    read_clusters fuel dev (first_cluster file) buf).
End fat.
