(* ===== verification/FatFacts.v ===== *)
(** * Correctness of the FAT reader

    Against the contents of the volume, read without a cache: names in
    8.3 form, the listing of a directory as one list of entries, the file as the
    concatenation of its clusters. *)

From S2P Require Import Prelude BootString Fat.
From Stdlib Require Import ZArith Lia.
From stdpp Require Import base list strings.

Open Scope Z_scope.

(** ** Short names *)

(** A name of the 8.3 form: base and extension. *)
Definition plain (l : list Z) : Prop := Forall (fun c => is_byte c /\ c <> SLASH /\ c <> DOT) l.
Definition name83 (n : list Z * list Z) : Prop :=
  plain n.1 /\ plain n.2 /\ (1 <= length n.1 <= 8)%nat /\ (length n.2 <= 3)%nat.
Definition name_text (n : list Z * list Z) : list Z := n.1 ++ match n.2 with [] => [] | _ => DOT :: n.2 end.

Definition upper (c : Z) : Z := if (97 <=? c) && (c <=? 122) then c - 32 else c.
Definition pad_to (n : nat) (l : list Z) : list Z := l ++ replicate (n - length l) SPACE.
(** The eleven bytes of a directory entry. *)
Definition name_bytes (n : list Z * list Z) : list Z := pad_to 8 (upper <$> n.1) ++ pad_to 3 (upper <$> n.2).

Lemma toupper_upper c : is_byte c -> u8 (Boot.toupper c) = upper c.
Proof.
  unfold is_byte, Boot.toupper, upper, sint. intros Hc. rewrite !(u8_small c) by lia. change (2 ^ (8 - 1)) with 128. change (2 ^ 8) with 256.
  destruct (Z.leb_spec 128 c).
  - rewrite (proj2 (Z.leb_gt 97 (c - 256))) by lia. cbn [andb]. rewrite (proj2 (Z.leb_gt c 122)) by lia. rewrite andb_false_r.
    unfold wrap. change (2 ^ 8) with 256. rewrite <- (Z_mod_plus_full (c - 256) 1 256). rewrite Z.mod_small; lia.
  - destruct (Z.leb_spec 97 c), (Z.leb_spec c 122); cbn [andb]; apply u8_small; lia.
Qed.

(** The loop copies plain characters. *)
Lemma short_name_chars l : forall rest pre junk,
  plain l -> (length pre + length l <= 11)%nat -> (length pre + length junk = 11)%nat ->
  short_name_loop (l ++ rest) (length pre) (pre ++ junk) =
  short_name_loop rest (length pre + length l) (pre ++ (upper <$> l) ++ drop (length l) junk).
Proof.
  induction l as [|c l IH]; intros rest pre junk Hp Hl Hj; [by rewrite Nat.add_0_r|].
  inversion_clear Hp as [|? ? (Hb&Hs&Hd) Hp']. cbn [app length] in *. cbn [short_name_loop].
  destruct (Nat.ltb_spec (length pre) 11); [|lia].
  rewrite (proj2 (Z.eqb_neq c SLASH) Hs), (proj2 (Z.eqb_neq c DOT) Hd), toupper_upper by done.
  rewrite store_tail by (simpl; lia). cbn [mbind option_bind length].
  specialize (IH rest (pre ++ [upper c]) (drop 1 junk)). rewrite length_app in IH. cbn [length] in IH.
  replace (S (length pre)) with (length pre + 1)%nat by lia. rewrite <- !app_assoc in IH. rewrite app_assoc, <- app_assoc. cbn [app] in *.
  rewrite IH; [|done|lia|rewrite length_drop; lia]. rewrite drop_drop.
  replace (length pre + 1 + length l)%nat with (length pre + S (length l))%nat by lia. done.
Qed.

(** What may follow a name in a path. *)
Definition name_ends (rest : list Z) : Prop := rest = [] \/ head rest = Some SLASH.

Lemma short_name_end rest i o : name_ends rest -> short_name_loop rest i o = Some (o, i).
Proof.
  destruct rest as [|c rest]; intros [|Hh]; simplify_eq/=; destruct (i <? 11)%nat; done.
Qed.

Lemma pad_drop (n : nat) (l : list Z) : pad_to n l = l ++ replicate (n - length l) SPACE.
Proof. done. Qed.

Lemma short_name_83 n rest junk : name83 n -> name_ends rest -> length junk = 11%nat ->
  fat_short_name_to_name_ext (name_text n ++ rest) junk = Some (name_bytes n).
Proof.
  destruct n as [b e]. intros (Hb&He&Hlb&Hle) Hr Hj. cbn [fst snd] in *. unfold fat_short_name_to_name_ext, name_text, name_bytes. cbn [fst snd].
  assert (forall r, match b ++ r with c :: r' => if c =? SLASH then r' else b ++ r | [] => [] end = b ++ r) as Hskip.
  { intros r. destruct b as [|c b]; [simpl in *; lia|]. inversion_clear Hb as [|? ? (?&Hs&?)].
    cbn [app]. by rewrite (proj2 (Z.eqb_neq c SLASH) Hs). }
  rewrite <- app_assoc, Hskip. rewrite (short_name_chars b _ [] junk Hb) by (simpl; lia). cbn [app length plus].
  destruct e as [|x e].
  - cbn [app]. rewrite short_name_end by done. cbn [mbind option_bind].
    pose proof (memset_tail (upper <$> b) (drop (length b) junk) SPACE (11 - Z.of_nat (length b))) as Hm.
    rewrite length_fmap in Hm. rewrite Hm by (rewrite ?length_drop; lia). f_equal. unfold pad_to. simpl. rewrite !length_fmap, <- app_assoc. f_equal.
    rewrite (drop_ge (drop _ _)) by (rewrite length_drop; lia). rewrite app_nil_r.
    change [SPACE; SPACE; SPACE] with (replicate 3 SPACE). rewrite <- replicate_add. f_equal. lia.
  - set (e' := x :: e) in *. cbn [app short_name_loop]. destruct (Nat.ltb_spec (length b) 11); [|lia].
    assert (SLASH <> DOT) as Hsd by done. rewrite (proj2 (Z.eqb_neq DOT SLASH)) by done. rewrite Z.eqb_refl.
    assert ((if (length b <? 8)%nat then Boot.memset ((upper <$> b) ++ drop (length b) junk) (length b) SPACE (8 - Z.of_nat (length b))
      else Some ((upper <$> b) ++ drop (length b) junk)) = Some (pad_to 8 (upper <$> b) ++ drop 8 junk)) as ->.
    { unfold pad_to. rewrite length_fmap. destruct (Nat.ltb_spec (length b) 8).
      - pose proof (memset_tail (upper <$> b) (drop (length b) junk) SPACE (8 - Z.of_nat (length b))) as Hm.
        rewrite length_fmap in Hm. rewrite Hm by (rewrite ?length_drop; lia). f_equal. rewrite <- app_assoc. f_equal. rewrite drop_drop. f_equal; f_equal; lia.
      - assert (length b = 8%nat) as -> by lia. by rewrite app_nil_r. }
    cbn [mbind option_bind]. assert (length (pad_to 8 (upper <$> b)) = 8%nat) as H8.
    { unfold pad_to. rewrite length_app, length_replicate, length_fmap. lia. }
    pose proof (short_name_chars e' rest (pad_to 8 (upper <$> b)) (drop 8 junk)) as Hc. rewrite H8 in Hc.
    rewrite Hc by (rewrite ?length_drop; try done; lia).
    rewrite short_name_end by done. cbn [mbind option_bind]. rewrite app_assoc.
    replace (8 + length e')%nat with (length (pad_to 8 (upper <$> b) ++ (upper <$> e'))) by (by rewrite length_app, length_fmap, H8).
    rewrite memset_tail by (rewrite ?length_app, ?length_drop, ?length_fmap, ?H8; lia).
    rewrite length_app, length_fmap, H8. rewrite (drop_ge (drop _ _)) by (rewrite !length_drop; lia). rewrite app_nil_r, <- app_assoc.
    unfold pad_to at 3. rewrite length_fmap. change (u8 SPACE) with SPACE.
    by replace (Z.to_nat (11 - Z.of_nat (8 + length e'))) with (3 - length e')%nat by lia.
Qed.

(** The text of a path. *)
Fixpoint path_text (names : list (list Z * list Z)) : list Z :=
  match names with
  | [] => []
  | [nm] => name_text nm
  | nm :: names' => name_text nm ++ SLASH :: path_text names'
  end.

Lemma name_no_slash nm : name83 nm -> SLASH ∉ name_text nm.
Proof.
  intros (Hb&He&_&_). unfold name_text. rewrite elem_of_app. unfold plain in *. rewrite Forall_forall in Hb, He.
  intros [Hin|Hin]; [by apply Hb in Hin as (?&?&?)|]. destruct nm.2 eqn:E2; [by apply elem_of_nil in Hin|].
  apply elem_of_cons in Hin as [|Hin]; [done|]. by apply He in Hin as (?&?&?).
Qed.

(** A path is not empty; its first name is converted, and the search for a slash
    leads to the rest of the path. *)
Lemma path_text_cons nm names : name83 nm -> exists c p,
  path_text (nm :: names) = c :: p /\
  (forall junk, length junk = 11%nat -> fat_short_name_to_name_ext (c :: p) junk = Some (name_bytes nm)) /\
  ((names = [] /\ Boot.strchr (c :: p) SLASH = None) \/
   (exists q, Boot.strchr (c :: p) SLASH = Some (q :: path_text names) /\ (length (path_text names) <= length p)%nat)).
Proof.
  intros Hnm. pose proof (name_no_slash nm Hnm) as Hns.
  assert (exists rest, path_text (nm :: names) = name_text nm ++ rest /\
    (names = [] /\ rest = [] \/ rest = SLASH :: path_text names)) as (rest&Hp&Hrest).
  { destruct names as [|nm' names]; [exists []; cbn; rewrite app_nil_r; auto|eexists; split; [done|auto]]. }
  assert (exists c t, name_text nm = c :: t) as (c&t&Ht).
  { destruct Hnm as (_&_&Hl&_). unfold name_text. destruct nm.1 as [|c l]; [simpl in Hl; lia|]. cbn. eauto. }
  exists c, (t ++ rest). rewrite Hp, Ht. split; [done|]. change (c :: t ++ rest) with ((c :: t) ++ rest). rewrite <- Ht. split.
  - intros junk Hj. apply short_name_83; [done| |done]. destruct Hrest as [[_ ->]| ->]; [by left|by right].
  - pose proof (strchr_spec (name_text nm ++ rest) SLASH) as Hs. destruct Hrest as [[-> ->]|Hr].
    + left. split; [done|]. destruct (Boot.strchr _ _) as [q|]; [|done]. destruct Hs as (pre&Hq&_&Hh).
      rewrite app_nil_r in Hq. destruct q; simplify_eq/=. exfalso. apply Hns. rewrite Hq. rewrite elem_of_app, elem_of_cons. auto.
    + right. subst rest. exists SLASH. split; [|rewrite length_app; simpl; lia].
      rewrite strchr_app by done. cbn. done.
Qed.

Lemma upper_byte c : is_byte c -> is_byte (upper c).
Proof. unfold is_byte, upper. destruct (Z.leb_spec 97 c), (Z.leb_spec c 122); simpl; lia. Qed.

Lemma name_bytes_target nm : name83 nm -> length (name_bytes nm) = 11%nat /\ Forall is_byte (name_bytes nm).
Proof.
  intros (Hb&He&Hlb&Hle). unfold name_bytes, pad_to. split.
  - rewrite !length_app, !length_replicate, !length_fmap. lia.
  - assert (forall l, plain l -> Forall is_byte (upper <$> l)) as Hu.
    { intros l Hl. apply Forall_fmap. eapply Forall_impl; [exact Hl|]. intros x (Hx&_). by apply upper_byte. }
    assert (forall k, Forall is_byte (replicate k SPACE)) as Hr by (intros; by apply Forall_replicate).
    rewrite !Forall_app. auto.
Qed.

(** ** The volume *)

(** What the reader relies on: a read that reports success has delivered the
    sectors of the image, and no read writes more than was asked for. *)
Class DiskImage (W : Type) `{!Disk W} (img : Z -> Z -> Z -> list Z) : Prop := {
  img_length a p l : length (img a p l) = 512%nat;
  img_bytes a p l : Forall is_byte (img a p l);
  read_sound a p l n w bs w' : disk_read a p l n w = (0, bs, w') -> bs = concat (img a p <$> seqZ l n);
  read_bound a p l n w : 0 <= n -> Z.of_nat (length (disk_read a p l n w).1.2) <= 512 * n;
}.
(** A disk without read errors. *)
Definition reliable (W : Type) `{!Disk W} : Prop := forall a p l n w, (disk_read a p l n w).1.1 = 0.

(** A device as [fat_dev_init] makes it, on a partition below 2 TiB. *)
Record dev_ok (dev : fat_dev_t) : Prop := {
  dev_lba : 0 <= lba dev;
  dev_end : lba dev + sectors dev <= 2 ^ 32;
  dev_sectors : 0 <= sectors dev < 2 ^ 32;
  dev_spc : 0 <= sectors_per_cluster dev < 256;
}.

Section volume.
Context (img : Z -> Z -> Z -> list Z) (dev : fat_dev_t).

Definition sector (l : Z) : list Z := img (abar dev) (port dev) (u32 (lba dev + l)).
Definition fat_sector (c : Z) : Z := u32 (fat dev + c / 128).
Definition fat_readable (c : Z) : bool := u32 (fat_sector c + 1) <=? sectors dev.
(** The entry of the allocation table. *)
Definition fat_entry (c : Z) : Z := field (sector (fat_sector c)) (4 * Z.to_nat (c mod 128)) 4.

(** The clusters from [c] on; [None] when there are more than [n] or the table
    cannot be read. *)
Fixpoint chain_of (n : nat) (c : Z) : option (list Z) :=
  if in_chain c then
    match n with
    | O => None
    | S n' => if fat_readable c then cons c <$> chain_of n' (fat_entry c) else None
    end
  else Some [].

Definition cluster_ok (c : Z) : bool := cluster_lba dev c + sectors_per_cluster dev <=? sectors dev.
Definition cluster_sectors (c : Z) : list (list Z) := sector <$> seqZ (cluster_lba dev c) (sectors_per_cluster dev).
Definition cluster_bytes (c : Z) : list Z := concat (cluster_sectors c).
Definition listing (cs : list Z) : list (list Z) := concat (slices <$> concat (cluster_sectors <$> cs)).

(** The search in a listing: [Some None] is the end marker. *)
Fixpoint search (es : list (list Z)) (target : list Z) : option (option fat_dir_entry_t) :=
  match es with
  | [] => None
  | e :: es' =>
      if field e 0 1 =? 0 then Some None
      else if negb (field e 11 1 =? 0x0F) && bool_decide (take 11 e = target) then Some (Some (parse_entry e))
      else search es' target
  end.

(** The clusters of a file or directory, all inside of the partition. *)
Definition clusters (n : nat) (e : fat_dir_entry_t) : option (list Z) :=
  cs ← chain_of n (first_cluster e); if forallb cluster_ok cs then Some cs else None.

(** Following a path; the outer [None] is a damaged volume, the inner one a name
    that does not exist or is not a directory. *)
Fixpoint walk (n : nat) (cur : fat_dir_entry_t) (names : list (list Z * list Z)) : option (option fat_dir_entry_t) :=
  match names with
  | [] => Some (Some cur)
  | nm :: names' =>
      if Z.land (e_attributes cur) FAT_ATTR_DIRECTORY =? 0 then Some None else
      cs ← clusters n cur;
      match default None (search (listing cs) (name_bytes nm)) with
      | None => Some None
      | Some e => walk n e names'
      end
  end.

Definition file_bytes (n : nat) (names : list (list Z * list Z)) : option (option (list Z)) :=
  r ← walk n (root_entry dev) names;
  match r with
  | None => Some None
  | Some e => cs ← clusters n e; Some (Some (concat (cluster_bytes <$> cs)))
  end.
End volume.

Lemma search_app es es' target :
  search (es ++ es') target = match search es target with Some r => Some r | None => search es' target end.
Proof. induction es as [|e es IH]; cbn; [done|]. repeat case_match; try done; by rewrite IH. Qed.

Lemma write_memory_nil a m x : write_memory a [] m x = m x.
Proof.
  unfold write_memory. cbn [length]. change (Z.of_nat 0) with 0. rewrite Z.add_0_r.
  destruct (Z.leb_spec a x), (Z.ltb_spec x a); simpl; try done; lia.
Qed.

(** Two adjacent writes are one. *)
Lemma write_memory_app a b1 b2 m x :
  write_memory (a + Z.of_nat (length b1)) b2 (write_memory a b1 m) x = write_memory a (b1 ++ b2) m x.
Proof.
  unfold write_memory. rewrite length_app, Nat2Z.inj_add.
  destruct (Z.leb_spec (a + Z.of_nat (length b1)) x), (Z.leb_spec a x), (Z.ltb_spec x (a + Z.of_nat (length b1))),
    (Z.ltb_spec x (a + Z.of_nat (length b1) + Z.of_nat (length b2))), (Z.ltb_spec x (a + (Z.of_nat (length b1) + Z.of_nat (length b2))));
    simpl; try lia; try done.
  - rewrite lookup_total_app_r by lia. f_equal. lia.
  - rewrite lookup_total_app_l by lia. done.
Qed.

(** ** The reader *)

Section reader.
Context {W : Type} `{!Disk W} (img : Z -> Z -> Z -> list Z) `{!DiskImage W img}.
Context (dev : fat_dev_t) (Hdev : dev_ok dev).
Implicit Types s : fat_state W.

(** The arrays keep their size; a valid cache holds the sector that it names. *)
Definition shape s : Prop := length (c_entry (fat_cache s)) = 512%nat /\ length (buffer s) = 512%nat.
Definition coherent (c : fat_cache_t) : Prop :=
  c_valid c = true -> c_entry c = img (c_abar c) (c_port c) (u32 (c_lba c + u32 (c_fat c + c_sector_no c))).

Lemma read_sectors_wp l n s : 0 <= n ->
  wp (fat_read_sectors dev l n)
    (fun r s' => fat_cache s' = fat_cache s /\ buffer s' = buffer s /\ memory s' = memory s /\
       Z.of_nat (length r.2) <= 512 * n /\
       (r.1 = 0 -> u32 (l + n) <= sectors dev /\ r.2 = concat (img (abar dev) (port dev) <$> seqZ (u32 (lba dev + l)) n)) /\
       (reliable W -> r.1 <> 0 -> sectors dev < u32 (l + n))) s.
Proof.
  intros Hn. unfold fat_read_sectors. rewrite Z.gtb_ltb. destruct (Z.ltb_spec (sectors dev) (u32 (l + n))).
  { wp_step. simpl. split_and!; try done; lia. }
  do 2 wp_step. destruct (disk_read _ _ _ _ (world s)) as [[e bs] w'] eqn:Hd. do 3 wp_step. cbn.
  split_and!; try done.
  - pose proof (read_bound (abar dev) (port dev) (u32 (lba dev + l)) n (world s) Hn) as Hb. by rewrite Hd in Hb.
  - intros ->. split; [done|]. by eapply read_sound.
  - intros Hr He. exfalso. apply He. specialize (Hr (abar dev) (port dev) (u32 (lba dev + l)) n (world s)). by rewrite Hd in Hr.
Qed.

Lemma sector_length l : length (sector img dev l) = 512%nat.
Proof. unfold sector; apply img_length. Qed.
Lemma sector_is_bytes l : Forall is_byte (sector img dev l).
Proof. unfold sector; apply img_bytes. Qed.

(** One sector. *)
Lemma read_sector_bytes l : concat (img (abar dev) (port dev) <$> seqZ (u32 (lba dev + l)) 1) = sector img dev l.
Proof. change (seqZ (u32 (lba dev + l)) 1) with [u32 (lba dev + l)]. apply app_nil_r. Qed.

Lemma store_sector o bs : length o = 512%nat -> Z.of_nat (length bs) <= 512 * 1 ->
  exists o', store_bytes o 0 bs = Some o' /\ length o' = 512%nat /\ (length bs = 512%nat -> o' = bs).
Proof.
  intros Ho Hb. rewrite store_bytes_ok by lia. eexists. split; [done|]. simpl. split.
  - rewrite length_app, length_drop. lia.
  - intros ->. rewrite drop_ge by lia. apply app_nil_r.
Qed.

(** What the operations on the table keep. *)
Definition keeps s s' : Prop := shape s' /\ memory s' = memory s.

Lemma cache_fetch_wp sector_no s : shape s ->
  wp (fat_cache_fetch dev sector_no)
    (fun r s' => keeps s s' /\ match r with
       | inr _ => c_entry (fat_cache s') = sector img dev (u32 (fat dev + sector_no)) /\ coherent (fat_cache s')
       | inl _ => reliable W -> sectors dev < u32 (u32 (fat dev + sector_no) + 1)
       end) s.
Proof.
  intros [He Hb]. unfold fat_cache_fetch. wp_step. eapply wp_mono; [apply read_sectors_wp; lia|].
  intros [err bytes] s1 (Hc&Hbuf&Hm&Hlen&H0&H1). cbn [fst snd] in *. do 2 wp_step. rewrite Hc.
  destruct (store_sector (c_entry (fat_cache s)) bytes He Hlen) as (o'&Hs&Hl'&Hfull). do 4 wp_step.
  destruct (Z.eqb_spec err 0) as [->|Hne]; cbn [negb].
  - destruct (H0 eq_refl) as [_ Hbytes]. rewrite read_sector_bytes in Hbytes. do 3 wp_step.
    assert (o' = sector img dev (u32 (fat dev + sector_no))) as -> by (rewrite Hfull; rewrite Hbytes; [done|apply sector_length]). unfold keeps, shape, coherent. cbn.
    split_and!; try done. by rewrite Hbuf.
  - wp_step. unfold keeps, shape. cbn. split_and!; try done; [by rewrite Hbuf|]. auto.
Qed.

Lemma not_stale sector_no c : fat_cache_is_stale dev sector_no c = false -> coherent c ->
  c_entry c = sector img dev (u32 (fat dev + sector_no)).
Proof.
  unfold fat_cache_is_stale. intros Hs Hc. destruct (c_valid c) eqn:Hv; cbn [negb] in Hs; [|done].
  specialize (Hc Hv). rewrite Hc. unfold sector.
  destruct (Z.eqb_spec (c_abar c) (abar dev)) as [->|]; [|done]. destruct (Z.eqb_spec (c_port c) (port dev)) as [->|]; [|done].
  destruct (Z.eqb_spec (c_lba c) (lba dev)) as [->|]; [|done]. destruct (Z.eqb_spec (c_fat c) (fat dev)) as [->|]; [|done].
  destruct (_ =? fat_sectors dev); [|done]. by destruct (Z.eqb_spec (c_sector_no c) sector_no) as [->|].
Qed.

Lemma get_next_cluster_wp c s : shape s -> coherent (fat_cache s) ->
  wp (fat_get_next_cluster dev c)
    (fun r s' => keeps s s' /\ match r with
       | inr n => n = fat_entry img dev c /\ coherent (fat_cache s')
       | inl _ => reliable W -> fat_readable dev c = false
       end) s.
Proof.
  intros Hs Hc. unfold fat_get_next_cluster. do 2 wp_step. unfold ret_err. wp_step.
  destruct (fat_cache_is_stale dev (c / 128) (fat_cache s)) eqn:Hst.
  - eapply wp_mono; [by apply cache_fetch_wp|]. intros [e|[]] s' [Hk Hr].
    + wp_step. split; [done|]. intros Hrel. apply Z.leb_gt. by apply Hr.
    + do 3 wp_step. split; [done|]. destruct Hr as [He Hco]. split; [|done]. unfold fat_entry, fat_sector. by rewrite He.
  - wp_step. do 3 wp_step. split; [by split|]. split; [|done]. unfold fat_entry, fat_sector. by rewrite (not_stale _ _ Hst Hc).
Qed.

(** ** Directories *)

Definition is_slice (e : list Z) : Prop := length e = 32%nat /\ Forall is_byte e.
Definition is_target (t : list Z) : Prop := length t = 11%nat /\ Forall is_byte t.

Lemma slices_ok b : length b = 512%nat -> Forall is_byte b -> Forall is_slice (slices b).
Proof.
  intros Hl Hb. apply Forall_fmap, Forall_forall. intros i Hi. apply elem_of_seq in Hi. unfold FAT_DIR_ENTRIES_PER_SECTOR in Hi.
  split; cbn; [rewrite length_take, length_drop; lia|]. by apply Forall_take, Forall_drop.
Qed.

Lemma first_byte e : is_slice e -> 0 <= field e 0 1 < 256.
Proof.
  intros [Hl Hb]. destruct e as [|x e]; [done|]. inversion_clear Hb as [|? ? Hx]. unfold is_byte in Hx. unfold field. simpl. lia.
Qed.

(** The result of the search as the code reports it. *)
Definition found (r : option (option fat_dir_entry_t)) : Z + option fat_dir_entry_t :=
  match r with None => inr None | Some None => inl (-1) | Some (Some e) => inr (Some e) end.

Lemma scan_wp target s : is_target target -> forall es, Forall is_slice es ->
  wp (scan_entries es target) (fun r s' => s' = s /\ r = found (search es target)) s.
Proof.
  intros [Ht Htb]. induction es as [|e es IH]; intros Hes; cbn [scan_entries search]; [by wp_step|].
  inversion_clear Hes as [|? ? He Hes']. pose proof (first_byte e He) as Hx. cbv zeta. remember (field e 0 1) as x eqn:Hxe. clear Hxe.
  assert (sint 8 x = if 128 <=? x then x - 256 else x) as ->.
  { unfold sint. rewrite u8_small by lia. done. }
  destruct (Z.eqb_spec x 0) as [->|Hx0]; [by split|].
  assert (forall y, y <> x -> y <> x - 256 -> ((if 128 <=? x then x - 256 else x) =? y) = false) as Hy.
  { intros y Hy1 Hy2. destruct (128 <=? x); apply Z.eqb_neq; lia. }
  rewrite (Hy 0) by lia. destruct (Z.eqb_spec (if 128 <=? x then x - 256 else x) 0xE5) as [E|_].
  { exfalso. destruct (Z.leb_spec 128 x); lia. }
  destruct (field e 11 1 =? 0x0F); cbn [negb andb]; [by apply IH|].
  destruct He as [Hl Hb]. destruct (memcmp_zero 11 e target Hb Htb) as (r&Hr&Hz); [lia|lia|].
  rewrite (take_ge target) in Hz by lia. wp_step. wp_step. destruct (Z.eqb_spec r 0) as [E|E].
  - rewrite bool_decide_eq_true_2 by (by apply Hz). by wp_step.
  - rewrite bool_decide_eq_false_2 by (by rewrite <- Hz). by apply IH.
Qed.

(** The sectors of a cluster from [i] on. *)
Lemma lookup_sectors_wp c target : is_target target -> cluster_ok dev c = true -> forall n i s,
  0 <= i -> i + Z.of_nat n = sectors_per_cluster dev -> shape s ->
  wp (lookup_sectors dev (cluster_lba dev c) target n i)
    (fun r s' => keeps s s' /\ fat_cache s' = fat_cache s /\
       let ref := found (search (concat (slices <$> (sector img dev <$> seqZ (cluster_lba dev c + i) (Z.of_nat n)))) target) in
       match r with inr _ => r = ref | inl _ => reliable W -> r = ref end) s.
Proof.
  intros Htgt Hok. destruct Hdev as [Hlba Hend Hsec Hspc]. apply Z.leb_le in Hok.
  assert (0 <= cluster_lba dev c) as Hcl by (apply wrap_range; lia).
  induction n as [|n IH]; intros i s Hi Hn Hs; cbn [lookup_sectors].
  { wp_step. by split_and!. }
  rewrite Nat2Z.inj_succ in *. rewrite seqZ_cons by lia. rewrite !fmap_cons, Z.pred_succ. cbn [concat].
  rewrite u32_small by lia.
  wp_step. eapply wp_mono; [apply read_sectors_wp; lia|]. intros [err bytes] s1 (Hc&Hbuf&Hm&Hlen&H0&H1). cbn [fst snd] in *.
  do 2 wp_step. rewrite Hbuf. destruct Hs as [He Hb].
  destruct (store_sector (buffer s) bytes Hb Hlen) as (o'&Hst&Hl'&Hfull). do 4 wp_step. set (s2 := set_fbuffer o' s1).
  assert (shape s2) as Hs2 by (split; cbn; by rewrite ?Hc).
  destruct (Z.eqb_spec err 0) as [->|Hne]; cbn [negb].
  2:{ wp_step. split_and!; [by split|by cbn; rewrite Hc|]. intros Hrel. exfalso. specialize (H1 Hrel Hne).
      rewrite u32_small in H1; lia. }
  destruct (H0 eq_refl) as [_ Hbytes]. rewrite read_sector_bytes in Hbytes.
  assert (o' = sector img dev (cluster_lba dev c + i)) as ->.
  { rewrite Hfull; rewrite Hbytes; [done|apply sector_length]. }
  unfold ret_err. wp_step. eapply wp_mono; [apply (scan_wp target s2 Htgt), slices_ok; [apply sector_length|apply sector_is_bytes]|].
  intros r s3 [-> ->]. rewrite search_app.
  destruct (search (slices _) target) as [[e|]|]; cbn [found].
  - wp_step. split_and!; [by split|by cbn; rewrite Hc|done].
  - wp_step. split_and!; [by split|by cbn; rewrite Hc|done].
  - replace (cluster_lba dev c + i + 1) with (cluster_lba dev c + (i + 1)) by lia.
    eapply wp_mono; [apply (IH (i + 1) s2); [lia|lia|done]|]. intros r s4 ([Hk1 Hk2]&Hc4&Hr). cbn in Hk2, Hc4.
    split_and!; [split; [done|by rewrite Hk2]|by rewrite Hc4|].
    replace (Z.succ (cluster_lba dev c + i)) with (cluster_lba dev c + (i + 1)) by lia. done.
Qed.

(** The outcome of an operation whose result on the volume is [ref]: a value is
    that result; an error, on a disk without read errors, means that there is
    none. *)
Definition agrees {A} (ref : option A) (r : Z + A) s' : Prop :=
  match r with
  | inr a => ref = Some a /\ coherent (fat_cache s')
  | inl _ => reliable W -> ref = None /\ coherent (fat_cache s')
  end.

Lemma keeps_trans s1 s2 s3 : keeps s1 s2 -> keeps s2 s3 -> keeps s1 s3.
Proof. intros [_ H1] [H2 H3]. split; [done|]. by rewrite H3. Qed.

Lemma listing_cons c cs : listing img dev (c :: cs) = concat (slices <$> cluster_sectors img dev c) ++ listing img dev cs.
Proof. unfold listing. by rewrite fmap_cons, concat_cons, fmap_app, concat_app. Qed.

Lemma lookup_clusters_wp target : is_target target -> forall n fuel c cs s,
  (n <= fuel)%nat -> chain_of img dev n c = Some cs -> forallb (cluster_ok dev) cs = true ->
  shape s -> coherent (fat_cache s) ->
  wp (lookup_clusters fuel dev target c)
    (fun r s' => keeps s s' /\ agrees (default None (search (listing img dev cs) target)) r s') s.
Proof.
  intros Htgt. induction n as [|n IH]; intros fuel c cs s Hf Hch Hok Hs Hc; cbn [chain_of] in Hch;
    (destruct fuel as [|fuel]; [try lia|]); cbn [lookup_clusters]; destruct (in_chain c); simplify_eq.
  1,2,4: wp_step; split; [done|]; by intros _.
  destruct (fat_readable dev c) eqn:Hrd; [|done]. apply fmap_Some in Hch as (cs'&Hch&->).
  cbn [forallb] in Hok. apply andb_prop in Hok as [Hok1 Hok2].
  rewrite listing_cons, search_app. pose proof (dev_spc _ Hdev) as Hspc.
  unfold ret_err. wp_step. eapply wp_mono.
  { eapply (lookup_sectors_wp c target Htgt Hok1 _ 0 s); [lia|lia|done]. }
  intros r s1 (Hk1&Hc1&Hr). rewrite Z.add_0_r, Z2Nat.id in Hr by lia. cbn zeta in Hr. fold (cluster_sectors img dev c) in Hr.
  set (f := search (concat _) target) in *. rewrite <- Hc1 in Hc.
  destruct r as [err|[e|]].
  - wp_step. split; [done|]. intros Hrel. specialize (Hr Hrel). by destruct f as [[e|]|].
  - wp_step. split; [done|]. by destruct f as [[e'|]|]; simplify_eq/=.
  - destruct f as [[e'|]|]; simplify_eq/=. wp_step. eapply wp_mono; [apply get_next_cluster_wp; [apply Hk1|done]|].
    intros [err|nx] s2 [Hk2 Hn2].
    + wp_step. split; [by eapply keeps_trans|]. intros Hrel. specialize (Hn2 Hrel). congruence.
    + destruct Hn2 as [-> Hc2]. eapply wp_mono; [apply (IH fuel _ cs' s2); [lia|done|done|apply Hk2|done]|].
      intros r s3 [Hk3 Ha]. split; [|done]. eapply keeps_trans; [exact Hk1|]. by eapply keeps_trans.
Qed.

(** ** Paths and files *)

Lemma file_lookup_wp nm n fuel cur cs s :
  name83 nm -> (n <= fuel)%nat -> clusters img dev n cur = Some cs -> shape s -> coherent (fat_cache s) ->
  Z.land (e_attributes cur) FAT_ATTR_DIRECTORY <> 0 ->
  wp (fat_file_lookup fuel dev cur (name_bytes nm))
    (fun r s' => keeps s s' /\ agrees (default None (search (listing img dev cs) (name_bytes nm))) r s') s.
Proof.
  intros Hnm Hf Hcl Hs Hc Hdir. unfold fat_file_lookup. rewrite (proj2 (Z.eqb_neq _ _) Hdir).
  unfold clusters in Hcl. destruct (chain_of img dev n (first_cluster cur)) as [cs'|] eqn:Hch; [|done]. cbn in Hcl.
  destruct (forallb _ cs') eqn:Hok; simplify_eq. eapply lookup_clusters_wp; try done. by apply name_bytes_target.
Qed.

Lemma path_loop_wp n fuel junk : (n <= fuel)%nat -> length junk = 11%nat -> forall names m cur r s,
  Forall name83 names -> (length (path_text names) <= m)%nat -> walk img dev n cur names = Some r ->
  shape s -> coherent (fat_cache s) ->
  wp (path_loop m fuel dev junk cur (Some (path_text names))) (fun v s' => keeps s s' /\ agrees r v s') s.
Proof.
  intros Hf Hj. induction names as [|nm names IH]; intros m cur r s Hn Hm Hw Hs Hc.
  { cbn in Hw. simplify_eq. destruct m; apply wp_ret; by split. }
  inversion_clear Hn as [|? ? Hnm Hn']. destruct (path_text_cons nm names Hnm) as (c&p&Hp&Hsn&Hnext).
  cbn [walk] in Hw. rewrite Hp in *. destruct m as [|m]; [simpl in Hm; lia|]. cbn [path_loop].
  wp_step. apply (wp_deref (name_bytes nm)); [by apply Hsn|]. unfold ret_err at 1. wp_step.
  destruct (Z.eqb_spec (Z.land (e_attributes cur) FAT_ATTR_DIRECTORY) 0) as [E|E].
  { unfold fat_file_lookup. rewrite E. apply wp_ret, wp_ret. simplify_eq. split; [done|]. by intros _. }
  destruct (clusters img dev n cur) as [cs|] eqn:Hcl; [|done]. cbn in Hw.
  eapply wp_mono; [by eapply file_lookup_wp|]. intros [err|e] s1 [Hk1 Ha].
  - wp_step. split; [done|]. intros Hrel. destruct (Ha Hrel) as [Hd Hc1]. rewrite Hd in Hw. by simplify_eq.
  - destruct Ha as [Hd Hc1]. rewrite Hd in Hw.
    destruct Hnext as [[-> Hq]|(q&Hq&Hql)]; rewrite Hq.
    + cbn in Hw. simplify_eq. destruct m; apply wp_ret; by split.
    + cbn [tail]. eapply wp_mono; [apply IH; [done| |done|apply Hk1|done]|].
      * simpl in Hm. lia.
      * intros v s2 [Hk2 Hv]. split; [by eapply keeps_trans|done].
Qed.

Lemma cluster_bytes_disk c : cluster_ok dev c = true ->
  concat (img (abar dev) (port dev) <$> seqZ (u32 (lba dev + cluster_lba dev c)) (sectors_per_cluster dev)) = cluster_bytes img dev c.
Proof.
  intros Hok%Z.leb_le. destruct Hdev as [Hlba Hend Hsec Hspc]. pose proof (wrap_range 32 (data dev + u32 ((c - 2) * sectors_per_cluster dev))) as Hcl.
  fold (cluster_lba dev c) in Hcl. unfold cluster_bytes, cluster_sectors. f_equal.
  destruct (Z.eq_dec (sectors_per_cluster dev) 0) as [->|Hnz]; [done|].
  rewrite u32_small by lia. rewrite <- fmap_add_seqZ, <- list_fmap_compose. apply list_fmap_ext. intros i l Hl.
  apply lookup_seqZ in Hl as [-> Hi]. cbn. unfold sector. by rewrite u32_small by lia.
Qed.

Lemma cluster_bytes_length c : Z.of_nat (length (cluster_bytes img dev c)) = sectors_per_cluster dev * 512.
Proof.
  unfold cluster_bytes, cluster_sectors. destruct Hdev as [_ _ _ Hspc].
  assert (forall l, Z.of_nat (length (concat (sector img dev <$> l))) = Z.of_nat (length l) * 512) as H.
  { induction l as [|x l IH]; [done|]. rewrite fmap_cons, concat_cons, length_app, Nat2Z.inj_add, IH, sector_length. simpl. lia. }
  rewrite H, length_seqZ. lia.
Qed.

Lemma read_clusters_wp : forall n fuel c cs buf s,
  (n <= fuel)%nat -> chain_of img dev n c = Some cs -> forallb (cluster_ok dev) cs = true ->
  shape s -> coherent (fat_cache s) ->
  wp (read_clusters fuel dev c buf)
    (fun r s' => shape s' /\ match r with
       | inr _ => coherent (fat_cache s') /\
           forall x, memory s' x = write_memory buf (concat (cluster_bytes img dev <$> cs)) (memory s) x
       | inl _ => reliable W -> False
       end) s.
Proof.
  induction n as [|n IH]; intros fuel c cs buf s Hf Hch Hok Hs Hc; cbn [chain_of] in Hch;
    (destruct fuel as [|fuel]; [try lia|]); cbn [read_clusters]; destruct (in_chain c); simplify_eq.
  1,2,4: wp_step; split_and!; try done; intros x; symmetry; apply write_memory_nil.
  destruct (fat_readable dev c) eqn:Hrd; [|done]. apply fmap_Some in Hch as (cs'&Hch&->).
  cbn [forallb] in Hok. apply andb_prop in Hok as [Hok1 Hok2]. pose proof (dev_spc _ Hdev) as Hspc. pose proof (dev_sectors _ Hdev).
  wp_step. eapply wp_mono; [apply read_sectors_wp; lia|]. intros [err bytes] s1 (Hc1&Hbuf&Hm&Hlen&H0&H1). cbn [fst snd] in *.
  do 4 wp_step. set (s2 := set_memory _ s1).
  assert (shape s2) as Hs2 by (destruct Hs; split; cbn; by rewrite ?Hc1, ?Hbuf).
  destruct (Z.eqb_spec err 0) as [->|Hne]; cbn [negb].
  2:{ wp_step. split; [done|]. intros Hrel. specialize (H1 Hrel Hne). unfold cluster_ok in Hok1. apply Z.leb_le in Hok1.
      pose proof (wrap_range 32 (data dev + u32 ((c - 2) * sectors_per_cluster dev))) as Hcl. fold (cluster_lba dev c) in Hcl.
      rewrite u32_small in H1; lia. }
  destruct (H0 eq_refl) as [_ ->]. rewrite cluster_bytes_disk in * by done. unfold ret_err. wp_step.
  eapply wp_mono; [apply get_next_cluster_wp; [done|cbn; by rewrite Hc1]|]. intros [err|nx] s3 [[Hs3 Hm3] Hn3].
  { wp_step. split; [done|]. intros Hrel. specialize (Hn3 Hrel). congruence. }
  destruct Hn3 as [-> Hc3]. eapply wp_mono; [apply (IH fuel _ cs'); [lia|done..]|].
  intros r s4 [Hs4 Hr]. split; [done|]. destruct r as [|[]]; [done|]. destruct Hr as [Hc4 Hmem]. split; [done|].
  intros x. rewrite Hmem, Hm3, fmap_cons, concat_cons, <- cluster_bytes_length with (c := c). cbn.
    rewrite cluster_bytes_disk, Hm by done. apply write_memory_app.
Qed.

Lemma fat_read_wp n fuel junk names buf r s :
  (n <= fuel)%nat -> length junk = 11%nat -> Forall name83 names -> file_bytes img dev n names = Some r ->
  shape s -> coherent (fat_cache s) ->
  wp (fat_read fuel dev junk (path_text names) buf)
    (fun res s' => match res with
       | inr _ => exists bytes, r = Some bytes /\ coherent (fat_cache s') /\
           forall x, memory s' x = write_memory buf bytes (memory s) x
       | inl _ => reliable W -> r = None /\ coherent (fat_cache s') /\ memory s' = memory s
       end) s.
Proof.
  intros Hf Hj Hn Hr Hs Hc. unfold file_bytes in Hr.
  destruct (walk img dev n (root_entry dev) names) as [w|] eqn:Hw; [|done]. cbn in Hr.
  unfold fat_read, fat_path_lookup, ret_err. wp_step.
  eapply wp_mono; [by eapply path_loop_wp|]. intros [err|e] s1 [[Hs1 Hm1] Ha].
  - wp_step. intros Hrel. destruct (Ha Hrel) as [-> Hc1]. by simplify_eq.
  - destruct Ha as [-> Hc1]. destruct (clusters img dev n e) as [cs|] eqn:Hcl; [|done]. cbn in Hr. simplify_eq.
    unfold clusters in Hcl. destruct (chain_of img dev n (first_cluster e)) as [cs'|] eqn:Hch; [|done]. cbn in Hcl.
    destruct (forallb _ cs') eqn:Hok; simplify_eq. eapply wp_mono; [by eapply read_clusters_wp|].
    intros [err|[]] s2 [Hs2 Hres]; [intros Hrel; by destruct (Hres Hrel)|].
    destruct Hres as [Hc2 Hmem]. eexists. split_and!; [done|done|]. intros x. by rewrite Hmem, Hm1.
Qed.


(** The device that a boot sector describes. *)
Definition dev_of (disk : BL_Disk) : fat_dev_t :=
  let bs := img (bd_abar disk) (bd_port disk) (bd_partition_lba disk) in
  mk_fat_dev (bd_abar disk) (bd_port disk) (bd_partition_lba disk) (bd_partition_sectors disk) (field bs 14 2)
    (u32 (field bs 16 1 * field bs 36 4)) (field bs 44 4) (u32 (field bs 14 2 + u32 (field bs 16 1 * field bs 36 4)))
    (field bs 13 1).

Lemma fat_dev_init_wp disk s :
  0 <= bd_partition_lba disk -> bd_partition_lba disk + bd_partition_sectors disk <= 2 ^ 32 ->
  0 <= bd_partition_sectors disk < 2 ^ 32 -> 0 <= bd_port disk < 256 ->
  wp (fat_dev_init disk)
    (fun r s' => fat_cache s' = fat_cache s /\ buffer s' = buffer s /\ memory s' = memory s /\ match r with
       | inr d => dev_ok d /\ d = dev_of disk
       | inl _ => reliable W -> bd_partition_sectors disk = 0
       end) s.
Proof.
  intros Hl He Hsec Hp. unfold fat_dev_init, fat_read_sectors. cbv zeta. cbn [sectors abar port lba].
  rewrite (u32_small (bd_partition_sectors disk)), (u32_small (0 + 1)), (u8_small (bd_port disk)) by lia. rewrite Z.gtb_ltb.
  destruct (Z.ltb_spec (bd_partition_sectors disk) (0 + 1)).
  { do 2 wp_step. apply wp_ret. cbn. split_and!; try done. intros _. lia. }
  rewrite (u32_small (bd_partition_lba disk)), Z.add_0_r, u32_small by lia.
  wp_step. do 2 wp_step. destruct (disk_read _ _ _ _ (world s)) as [[err bs] w'] eqn:Hd. do 3 wp_step.
  pose proof (read_bound (bd_abar disk) (bd_port disk) (bd_partition_lba disk) 1 (world s)) as Hb. rewrite Hd in Hb. cbn in Hb.
  destruct (Nat.ltb_spec 512 (length bs)); [lia|].
  destruct (Z.eqb_spec err 0) as [->|Hne]; cbn [negb].
  2:{ wp_step. cbn. split_and!; try done. intros Hrel. exfalso. apply Hne.
      specialize (Hrel (bd_abar disk) (bd_port disk) (bd_partition_lba disk) 1 (world s)). by rewrite Hd in Hrel. }
  apply read_sound in Hd. change (seqZ (bd_partition_lba disk) 1) with [bd_partition_lba disk] in Hd. cbn [fmap list_fmap concat] in Hd.
  rewrite app_nil_r in Hd. subst bs.
  set (bs := img (bd_abar disk) (bd_port disk) (bd_partition_lba disk)) in *.
  assert (length bs = 512%nat) as Hlen by apply img_length.
  unfold parse_bpb. rewrite Hlen. cbn [Nat.leb]. wp_step. eapply wp_deref; [reflexivity|]. wp_step. cbn.
  assert (0 <= field bs 13 1 < 256) as Hspc.
  { assert (is_byte (bs !!! 13%nat)) as Hby.
    { eapply (proj1 (Forall_forall _ _) (img_bytes (bd_abar disk) (bd_port disk) (bd_partition_lba disk))).
      eapply list_elem_of_lookup_2. apply list_lookup_lookup_total_lt. fold bs. lia. }
    unfold field. rewrite (drop_S bs (bs !!! 13%nat) 13) by (apply list_lookup_lookup_total_lt; lia).
    unfold is_byte in Hby. set (x := bs !!! 13%nat) in *. clearbody x. cbn. rewrite take_0. simpl. lia. }
  split_and!; try done.
Qed.

(** The device is described by its boot sector.  [fat_dev_init] fails only on
    a read error or an empty partition; otherwise the table, the data area, the root
    directory and the cluster size are those of the BIOS parameter block, and
    the device is one that the reader works on. *)
Theorem fat_dev_init_correct disk s :
  0 <= bd_partition_lba disk -> bd_partition_lba disk + bd_partition_sectors disk <= 2 ^ 32 ->
  0 <= bd_partition_sectors disk < 2 ^ 32 -> 0 <= bd_port disk < 256 ->
  wp (fat_dev_init disk)
    (fun r s' => fat_cache s' = fat_cache s /\ buffer s' = buffer s /\ memory s' = memory s /\ match r with
       | inr d =>
           let bs := img (bd_abar disk) (bd_port disk) (bd_partition_lba disk) in
           dev_ok d /\ abar d = bd_abar disk /\ port d = bd_port disk /\ lba d = bd_partition_lba disk /\
           sectors d = bd_partition_sectors disk /\ fat d = field bs 14 2 /\
           data d = u32 (field bs 14 2 + u32 (field bs 16 1 * field bs 36 4)) /\
           root_dir_cluster d = field bs 44 4 /\ sectors_per_cluster d = field bs 13 1
       | inl _ => reliable W -> bd_partition_sectors disk = 0
       end) s.
Proof.
  intros Hl He Hsec Hp. eapply wp_mono; [by apply fat_dev_init_wp|]. intros r s' (H1&H2&H3&Hr).
  split_and!; try done. destruct r as [|d]; [done|]. destruct Hr as [Hok ->]. by split_and!.
Qed.

(** C16: The sector cache is transparent: with a coherent cache, whatever sector of
    whatever device it holds, a lookup that succeeds returns the entry of the table on
    the disk and leaves the cache coherent.  A failure means a read error or a
    table that ends outside of the partition; nothing is said about the cache then, which a failed
    read can damage. *)
Theorem fat_get_next_cluster_correct c s :
  shape s -> coherent (fat_cache s) ->
  wp (fat_get_next_cluster dev c)
    (fun r s' => shape s' /\ memory s' = memory s /\ match r with
       | inr n => n = fat_entry img dev c /\ coherent (fat_cache s')
       | inl _ => reliable W -> fat_readable dev c = false
       end) s.
Proof.
  intros Hs Hc. eapply wp_mono; [by apply get_next_cluster_wp|]. intros r s' [[Hs' Hm] Hr]. done.
Qed.

(** ** Termination *)

Lemma chain_of_mono n : forall m c cs, chain_of img dev n c = Some cs -> (n <= m)%nat -> chain_of img dev m c = Some cs.
Proof.
  induction n as [|n IH]; intros [|m] c cs Hc Hm; cbn [chain_of] in *; try lia; try done; destruct (in_chain c); try done.
  destruct (fat_readable dev c); [|done]. apply fmap_Some in Hc as (cs'&Hc&->). rewrite (IH m _ cs'); [done|done|lia].
Qed.

(** The rest of a chain is the chain of its first cluster. *)
Lemma chain_of_drop n : forall c cs i d, chain_of img dev n c = Some cs -> cs !! i = Some d ->
  chain_of img dev n d = Some (drop i cs) /\ in_chain d = true.
Proof.
  induction n as [|n IH]; intros c cs i d Hc Hi; cbn [chain_of] in Hc; destruct (in_chain c) eqn:Hin; simplify_eq; try done.
  destruct (fat_readable dev c) eqn:Hr; [|done]. apply fmap_Some in Hc as (cs'&Hc&->). destruct i as [|i]; cbn in Hi; simplify_eq.
  - split; [|done]. cbn [chain_of]. rewrite Hin, Hr, Hc. done.
  - destruct (IH _ _ _ _ Hc Hi) as [Hd Hin']. split; [|done]. apply (chain_of_mono n); [done|lia].
Qed.

Lemma chain_of_NoDup n c cs : chain_of img dev n c = Some cs -> NoDup cs.
Proof.
  intros Hc. apply NoDup_alt. intros i j x Hi Hj.
  destruct (chain_of_drop _ _ _ _ _ Hc Hi) as [Di _], (chain_of_drop _ _ _ _ _ Hc Hj) as [Dj _].
  rewrite Di in Dj. injection Dj as Dj. apply (f_equal length) in Dj. rewrite !length_drop in Dj.
  apply lookup_lt_Some in Hi, Hj. lia.
Qed.

(** The number of cluster numbers. *)
Definition MAX_CLUSTERS : nat := Z.to_nat (0x0FFFFFF8 - 2).

Lemma NoDup_range (l : list Z) a b : NoDup l -> Forall (fun x => a <= x < b) l -> (length l <= Z.to_nat (b - a))%nat.
Proof.
  intros Hn Hl. rewrite <- (length_seqZ a (b - a)). apply submseteq_length, NoDup_submseteq; [done|].
  intros x Hx. apply elem_of_seqZ. rewrite Forall_forall in Hl. specialize (Hl x Hx). lia.
Qed.

(** A chain that ends has no more clusters than there are numbers. *)
Lemma chain_of_fuel n c cs : chain_of img dev n c = Some cs -> chain_of img dev MAX_CLUSTERS c = Some cs.
Proof.
  intros Hc. assert (length cs <= MAX_CLUSTERS)%nat as Hl.
  { apply NoDup_range; [by eapply chain_of_NoDup|]. apply Forall_lookup. intros i d Hd.
    destruct (chain_of_drop _ _ _ _ _ Hc Hd) as [_ Hin]. unfold in_chain in Hin. rewrite Z.geb_leb in Hin.
    apply andb_prop in Hin as [?%Z.leb_le ?%Z.ltb_lt]. lia. }
  apply (chain_of_mono (length cs)); [|done]. clear Hl. revert c cs Hc.
  induction n as [|n IH]; intros c cs Hc; cbn [chain_of] in Hc; destruct (in_chain c) eqn:Hin; simplify_eq.
  1,3: by destruct (length _); cbn; rewrite Hin.
  destruct (fat_readable dev c) eqn:Hr; [|done]. apply fmap_Some in Hc as (cs'&Hc&->). cbn [length chain_of].
  by rewrite Hin, Hr, (IH _ _ Hc).
Qed.

(** C17: The loading loop terminates whenever the chain of the file ends: the iterations that
    the number of cluster numbers allows are enough for every chain, of any length, on
    any volume. *)
Theorem read_clusters_terminates n c cs buf s :
  chain_of img dev n c = Some cs -> forallb (cluster_ok dev) cs = true -> shape s -> coherent (fat_cache s) ->
  exists r s' tr, read_clusters MAX_CLUSTERS dev c buf s = Ok r s' tr.
Proof.
  intros Hc Hok Hs Hco. apply chain_of_fuel in Hc. destruct (wp_elim _ _ _ (read_clusters_wp _ _ _ _ buf s (le_n _) Hc Hok Hs Hco)) as (r&s'&tr&H&_).
  eauto.
Qed.

Lemma bind_Fault {A B} (m : M (fat_state W) A) (f : A -> M (fat_state W) B) s :
  wp m (fun a s' => exists tr, f a s' = Fault tr) s -> exists tr, (m ≫= f) s = Fault tr.
Proof.
  unfold wp, mbind, M_bind. destruct (m s) as [a s' tr| |]; [|done..]. intros [tr' ->]. cbn. eauto.
Qed.

(** On a volume with a cyclic chain the loop never ends: no number of iterations
    is enough. *)
Theorem read_clusters_cycle (P : Z -> Prop) :
  reliable W -> (forall d, P d -> in_chain d = true /\ fat_readable dev d = true /\ cluster_ok dev d = true /\ P (fat_entry img dev d)) ->
  forall fuel c buf s, P c -> shape s -> coherent (fat_cache s) -> exists tr, read_clusters fuel dev c buf s = Fault tr.
Proof.
  intros Hrel HP. induction fuel as [|fuel IH]; intros c buf s Hc Hs Hco; destruct (HP c Hc) as (Hin&Hrd&Hok&Hn);
    cbn [read_clusters]; rewrite Hin; [by eexists|].
  pose proof (dev_spc _ Hdev). pose proof (dev_sectors _ Hdev) as Hsc.
  apply bind_Fault. eapply wp_mono; [apply read_sectors_wp; lia|]. intros [err bytes] s1 (Hc1&Hbuf&Hm&Hlen&Hz0&H1). cbn [fst snd] in *.
  apply bind_Fault, wp_get. apply bind_Fault, wp_modify. set (s2 := set_memory _ s1).
  assert (shape s2) as Hs2 by (destruct Hs; split; cbn; by rewrite ?Hc1, ?Hbuf).
  assert (err = 0) as ->.
  { destruct (Z.eq_dec err 0) as [|Hne]; [done|]. specialize (H1 Hrel Hne). unfold cluster_ok in Hok. apply Z.leb_le in Hok.
    pose proof (wrap_range 32 (data dev + u32 ((c - 2) * sectors_per_cluster dev))) as Hcl. fold (cluster_lba dev c) in Hcl.
    rewrite u32_small in H1; lia. }
  cbn [Z.eqb negb]. apply bind_Fault. eapply wp_mono; [apply get_next_cluster_wp; [done|cbn; by rewrite Hc1]|].
  intros [e|nx] s3 [[Hs3 Hm3] Hn3]; [specialize (Hn3 Hrel); congruence|]. destruct Hn3 as [-> Hc3]. by apply IH.
Qed.
End reader.

(** ** An example volume

    A partition of 20 sectors at sector 8 with one sector per cluster: the root
    directory in cluster 2, the directory SYSTEM in cluster 3 and the file
    KERNEL.BIN in clusters 4 and 6. *)

Definition sector_of (l : list Z) : list Z := take 512 (l ++ replicate 512 0).

Definition ascii_codes (str : String.string) : list Z :=
  (fun c => Z.of_N (Ascii.N_of_ascii c)) <$> String.list_ascii_of_string str.

Definition ex_boot : list Z :=
  replicate 11 0 ++ [0; 2] ++ [1] ++ [1; 0] ++ [1] ++ replicate 19 0 ++ [1; 0; 0; 0] ++ [0; 0; 0; 0] ++ [2; 0; 0; 0].
Definition ex_fat : list Z :=
  replicate 8 0 ++ [0xFF; 0xFF; 0xFF; 0x0F] ++ [0xFF; 0xFF; 0xFF; 0x0F] ++ [6; 0; 0; 0] ++ [0; 0; 0; 0] ++ [0xFF; 0xFF; 0xFF; 0x0F].
Definition ex_entry (name : String.string) (attr low : Z) : list Z :=
  ascii_codes name ++ [attr] ++ replicate 14 0 ++ [low] ++ replicate 5 0.
Definition ex_root : list Z := ex_entry "LONGNAME   " 0x0F 0 ++ ex_entry "SYSTEM     " 0x10 3.
Definition ex_dir : list Z := ex_entry "OTHER   TXT" 0x20 5 ++ ex_entry "KERNEL  BIN" 0x20 4.

Definition ex_img (a p l : Z) : list Z :=
  sector_of (if l =? 8 then ex_boot else if l =? 9 then ex_fat else if l =? 10 then ex_root
    else if l =? 11 then ex_dir else if l =? 12 then [1; 2; 3] else if l =? 14 then [4; 5; 6] else []).

#[export] Instance ex_disk : Disk unit := fun a p l n w => (0, concat (ex_img a p <$> seqZ l n), tt).

Lemma sector_of_ok l : Forall is_byte l -> length (sector_of l) = 512%nat /\ Forall is_byte (sector_of l).
Proof.
  intros Hl. unfold sector_of. split.
  - rewrite length_take, length_app, length_replicate. lia.
  - apply Forall_take, Forall_app. split; [done|]. by apply Forall_replicate.
Qed.

Lemma ex_sector_ok a p l : length (ex_img a p l) = 512%nat /\ Forall is_byte (ex_img a p l).
Proof.
  apply sector_of_ok. repeat case_match; try (apply Forall_forall; intros x Hx; exfalso; by apply elem_of_nil in Hx).
  all: unfold is_byte; apply (bool_decide_unpack _); vm_compute; exact I.
Qed.

#[export] Instance ex_image : DiskImage unit ex_img.
Proof.
  split.
  - intros. apply ex_sector_ok.
  - intros. apply ex_sector_ok.
  - intros a p l n w bs w' [= <- _]. done.
  - intros a p l n w Hn. unfold disk_read, ex_disk. cbn [fst snd].
    assert (forall k, Z.of_nat (length (concat (ex_img a p <$> k))) = 512 * Z.of_nat (length k)) as H.
    { induction k as [|x k IH]; [done|]. rewrite fmap_cons, concat_cons, length_app, Nat2Z.inj_add, IH.
      rewrite (proj1 (ex_sector_ok a p x)). simpl length. lia. }
    rewrite H, length_seqZ. lia.
Qed.

Definition ex_dev : fat_dev_t := mk_fat_dev 0 0 8 20 1 1 2 2 1.
Definition ex_names : list (list Z * list Z) := [(ascii_codes "system", []); (ascii_codes "kernel", ascii_codes "bin")].
Definition ex_cache : fat_cache_t := mk_cache false 0 0 0 0 0 0 (replicate 512 0).
Definition ex_fat_state : fat_state unit := mk_fat_state tt ex_cache (replicate 512 0) (fun _ => 0).
Definition ex_file : list Z := sector_of [1; 2; 3] ++ sector_of [4; 5; 6].

Lemma ex_names_ok : Forall name83 ex_names.
Proof.
  assert (forall l, forallb (fun c => (0 <=? c) && (c <? 256) && negb (c =? SLASH) && negb (c =? DOT)) l = true -> plain l) as Hp.
  { intros l Hl. apply Forall_forall. intros x Hx. rewrite forallb_forall in Hl. specialize (Hl x).
    rewrite <- list_elem_of_In in Hl. apply Hl in Hx. unfold is_byte. breflect. rewrite !andb_true_iff in *. breflect. split_and!; lia || done. }
  assert (forall b e, (length b =? 6)%nat && (length e <=? 3)%nat = true -> plain b -> plain e -> name83 (b, e)) as Hn.
  { intros b e H Hb He. apply andb_prop in H as [?%Nat.eqb_eq ?%Nat.leb_le]. split_and!; cbn; try done; lia. }
  apply Forall_cons. split; [|apply Forall_singleton]; (apply Hn; [reflexivity|..]); apply Hp; reflexivity.
Qed.

Lemma ex_dev_ok : dev_ok ex_dev.
Proof. split; cbn; lia. Qed.


Lemma fat_dev_init_correct_witness :
  wp (fat_dev_init (mk_BL_Disk 0 0 8 20)) (fun r s' =>
    fat_cache s' = fat_cache ex_fat_state /\ buffer s' = buffer ex_fat_state /\ memory s' = memory ex_fat_state /\ match r with
    | inr d => dev_ok d /\ abar d = 0 /\ port d = 0 /\ lba d = 8 /\ sectors d = 20 /\
        fat d = field (ex_img 0 0 8) 14 2 /\
        data d = u32 (field (ex_img 0 0 8) 14 2 + u32 (field (ex_img 0 0 8) 16 1 * field (ex_img 0 0 8) 36 4)) /\
        root_dir_cluster d = field (ex_img 0 0 8) 44 4 /\ sectors_per_cluster d = field (ex_img 0 0 8) 13 1
    | inl _ => reliable unit -> 20 = 0
    end) ex_fat_state /\
  (exists s' tr, fat_dev_init (mk_BL_Disk 0 0 8 20) ex_fat_state = Ok (inr ex_dev) s' tr).
Proof.
  split.
  - apply (fat_dev_init_correct ex_img (mk_BL_Disk 0 0 8 20) ex_fat_state); cbn; lia.
  - eexists _, _. vm_compute. reflexivity.
Defined.

Lemma fat_get_next_cluster_correct_witness :
  fat_entry ex_img ex_dev 4 = 6 /\
  wp (fat_get_next_cluster ex_dev 4)
    (fun r s' => shape s' /\ memory s' = memory ex_fat_state /\ match r with
       | inr n => n = fat_entry ex_img ex_dev 4 /\ coherent ex_img (fat_cache s')
       | inl _ => reliable unit -> fat_readable ex_dev 4 = false
       end) ex_fat_state.
Proof.
  split; [vm_compute; reflexivity|].
  apply (fat_get_next_cluster_correct ex_img ex_dev 4 ex_fat_state); [split; reflexivity|]. intros H; discriminate H.
Defined.

Lemma read_clusters_terminates_witness :
  exists r s' tr, read_clusters MAX_CLUSTERS ex_dev 4 0x200000 ex_fat_state = Ok r s' tr.
Proof.
  apply (read_clusters_terminates ex_img ex_dev ex_dev_ok 2 4 [4; 6] 0x200000 ex_fat_state).
  - vm_compute; reflexivity.
  - reflexivity.
  - split; reflexivity.
  - intros H; discriminate H.
Defined.
