(* ===== verification/KString.v ===== *)
(** * String functions of the kernel (lib/string.c)

    Memory is one object of bytes and pointers are offsets into it; a [NULL]
    pointer is [None].  The outer option of a result is [None] for an access
    outside of the object. *)

From S2P Require Import Prelude.
From Stdlib Require Import ZArith Lia.
From stdpp Require Import base list strings.

Open Scope Z_scope.

Module Lib.

(** [for (size_t i = 0; i < num; i++) byte_ptr[i] = value]. *)
Definition memset (o : list Z) (ptr : option nat) (value : Z) (num : nat) : option (list Z * option nat) :=
  match ptr with
  | None => Some (o, None)
  | Some p => o' ← fill_bytes o p (u8 value) num; Some (o', Some p)
  end.

(** [while ( *p ) p++], from the bytes at [p] on. *)
Fixpoint length_loop (at_p : list Z) : option nat :=
  match at_p with
  | [] => None
  | c :: rest => if c =? 0 then Some O else S <$> length_loop rest
  end.

Definition strlen (o : list Z) (s : option nat) : option nat :=
  match s with None => Some O | Some p => length_loop (drop p o) end.

(** The object is one of wide characters. *)
Definition wcslen (o : list Z) (s : option nat) : option nat :=
  match s with None => Some O | Some p => length_loop (drop p o) end.

Fixpoint memcpy_loop (o : list Z) (dest src n : nat) : option (list Z) :=
  match n with
  | O => Some o
  | S n' => c ← o !! src; o' ← store_bytes o dest [c]; memcpy_loop o' (S dest) (S src) n'
  end.

Definition memcpy (o : list Z) (dest src : option nat) (count : nat) : option (list Z * option nat) :=
  match dest, src with
  | None, _ => Some (o, None)
  | _, None => Some (o, None)
  | Some d, Some s => o' ← memcpy_loop o d s count; Some (o', Some d)
  end.

End Lib.

(** ** [strlen] *)

(** [strlen] and [wcslen] return the number of characters before the first
    zero. *)
Theorem strlen_correct o p text rest :
  drop p o = text ++ 0 :: rest -> Forall (fun c => c <> 0) text ->
  Lib.strlen o (Some p) = Some (length text) /\ Lib.wcslen o (Some p) = Some (length text).
Proof.
  intros Ho Ht. unfold Lib.strlen, Lib.wcslen. rewrite Ho. clear Ho.
  assert (Lib.length_loop (text ++ 0 :: rest) = Some (length text)) as ->; [|done].
  induction Ht as [|c text Hc Ht IH]; cbn; [done|]. rewrite (proj2 (Z.eqb_neq _ _) Hc), IH. done.
Qed.

Lemma strlen_correct_witness : Lib.strlen [9; 72; 105; 0; 33] (Some 1%nat) = Some 2%nat.
Proof.
  apply (strlen_correct [9; 72; 105; 0; 33] 1 [72; 105] [33]); [reflexivity|].
  apply Forall_cons; split; [discriminate|]. apply Forall_cons; split; [discriminate|]. apply Forall_nil; exact I.
Defined.

(** ** [memcpy] *)

Lemma store_byte_lookup o p c o' j : store_bytes o p [c] = Some o' ->
  o' !! j = if decide (j = p) then Some c else o !! j.
Proof.
  unfold store_bytes. destruct (Nat.leb_spec (p + length [c]) (length o)) as [H|]; [|done]. intros [= <-]. cbn in *.
  rewrite lookup_app. assert (length (take p o) = p) as Hp by (rewrite length_take; lia).
  destruct (decide (j = p)) as [->|Hne].
  - rewrite lookup_take_ge by lia. by rewrite Hp, Nat.sub_diag.
  - destruct (decide (j < p)%nat).
    + rewrite lookup_take_lt by lia. destruct (o !! j) eqn:E; [done|]. apply lookup_ge_None in E. lia.
    + rewrite lookup_take_ge, Hp by lia. destruct (j - p)%nat eqn:Ej; [lia|]. rewrite lookup_cons, lookup_drop. f_equal. lia.
Qed.

Lemma memcpy_loop_spec n : forall o dest src, (dest <= src \/ src + n <= dest)%nat ->
  (dest + n <= length o)%nat -> (src + n <= length o)%nat ->
  exists o', Lib.memcpy_loop o dest src n = Some o' /\ length o' = length o /\
    forall j, o' !! j = if decide (dest <= j < dest + n)%nat then o !! (src + (j - dest))%nat else o !! j.
Proof.
  induction n as [|n IH]; intros o dest src Hov Hd Hs; cbn [Lib.memcpy_loop].
  { exists o. split_and!; [done|done|]. intros j. by rewrite decide_False by lia. }
  destruct (lookup_lt_is_Some_2 o src) as [c Hc]; [lia|]. rewrite Hc. cbn [mbind option_bind].
  destruct (store_bytes o dest [c]) as [o1|] eqn:Ho; [|by rewrite store_bytes_ok in Ho by (simpl; lia)]. cbn [mbind option_bind].
  pose proof (store_bytes_length _ _ _ _ Ho) as Hl.
  destruct (IH o1 (S dest) (S src)) as (o'&->&Hl'&Hj); [lia|lia|lia|].
  exists o'. split_and!; [done|lia|]. intros j. rewrite Hj.
  repeat case_decide; try lia.
  - rewrite (store_byte_lookup _ _ _ _ _ Ho), decide_False by lia. f_equal. lia.
  - rewrite (store_byte_lookup _ _ _ _ _ Ho). assert (j = dest) as -> by lia.
    rewrite decide_True by done. by rewrite Nat.sub_diag, Nat.add_0_r.
  - by rewrite (store_byte_lookup _ _ _ _ _ Ho), decide_False by lia.
Qed.

(** C40: [memcpy] copies forward.  When the destination does not begin inside of the
    source, every byte of the destination is the byte that the source
    had before the call, every other byte is unchanged, and the result is the destination. *)
Theorem memcpy_correct o dest src count :
  (dest <= src \/ src + count <= dest)%nat -> (dest + count <= length o)%nat -> (src + count <= length o)%nat ->
  exists o', Lib.memcpy o (Some dest) (Some src) count = Some (o', Some dest) /\ length o' = length o /\
    forall j, o' !! j = if decide (dest <= j < dest + count)%nat then o !! (src + (j - dest))%nat else o !! j.
Proof.
  intros Hov Hd Hs. destruct (memcpy_loop_spec count o dest src Hov Hd Hs) as (o'&Hm&Hrest).
  exists o'. unfold Lib.memcpy. by rewrite Hm.
Qed.

Lemma memcpy_correct_witness :
  exists o', Lib.memcpy [1; 2; 3; 4; 5] (Some 0%nat) (Some 2%nat) 3 = Some (o', Some 0%nat) /\ length o' = 5%nat /\
    forall j, o' !! j = if decide (0 <= j < 0 + 3)%nat then [1; 2; 3; 4; 5] !! (2 + (j - 0))%nat else [1; 2; 3; 4; 5] !! j.
Proof. apply (memcpy_correct [1; 2; 3; 4; 5] 0 2 3); simpl; lia. Defined.
