(* ===== verification/Vga.v ===== *)
(** * The VGA text driver (driver/vga/early_vga.c)

    The frame buffer is an array of character cells; [Ports] is the display
    controller.  An index outside of the array is a [fault].  The driver is proved to
    implement a terminal of 25 lines of 80 columns. *)

From S2P Require Import Prelude Pic.
From Stdlib Require Import ZArith Lia.
From stdpp Require Import base list strings.

Open Scope Z_scope.

(** ** The driver *)

Definition WIDTH : Z := 80.
Definition HEIGHT : Z := 25.
Definition TAB_WIDTH : Z := 4.
Definition DEFAULT_COLOR : Z := 0x07.
Definition DEFAULT_CHAR : Z := Z.shiftl DEFAULT_COLOR 8.

(** [vbuf] is the pointer [buffer], [cells] what it points to. *)
Record vga (D : Type) := mk_vga {
  vdev : D;
  vbuf : Z;
  cells : list Z;
  cx : Z;
  cy : Z;
  color : Z;
}.
Arguments mk_vga {D}.
Arguments vdev {D}.
Arguments vbuf {D}.
Arguments cells {D}.
Arguments cx {D}.
Arguments cy {D}.
Arguments color {D}.

Section vga.
Context {D : Type} `{!Ports D}.
Abbreviation V := (M (vga D)).

Definition set_vdev (d : D) (s : vga D) := mk_vga d (vbuf s) (cells s) (cx s) (cy s) (color s).
Definition set_vbuf (b : Z) (s : vga D) := mk_vga (vdev s) b (cells s) (cx s) (cy s) (color s).
Definition set_cells (l : list Z) (s : vga D) := mk_vga (vdev s) (vbuf s) l (cx s) (cy s) (color s).
Definition set_xy (x y : Z) (s : vga D) := mk_vga (vdev s) (vbuf s) (cells s) x y (color s).
Definition set_color (c : Z) (s : vga D) := mk_vga (vdev s) (vbuf s) (cells s) (cx s) (cy s) c.

Definition on_port (m : M D unit) : V unit := zoom vdev set_vdev m.

(** [buffer[i] = v] and [buffer[i]], with the index of type [int]. *)
Definition put_cell (i v : Z) : V unit :=
  s ← get;
  if (0 <=? i) && (i <? Z.of_nat (length (cells s))) then modify (set_cells (<[Z.to_nat i := u16 v]> (cells s))) else fault.
Definition get_cell (i : Z) : V Z :=
  s ← get; deref (if 0 <=? i then cells s !! Z.to_nat i else None).

Definition set_cursor (x y : Z) : V unit :=
  p ← cint (y * WIDTH + x);
  let pos := sint 16 p in
  on_port (outb 0x3D4 0x0F;; io_wait);;
  on_port (outb 0x3D5 (u8 (Z.land pos 0xFF));; io_wait);;
  on_port (outb 0x3D4 0x0E;; io_wait);;
  on_port (outb 0x3D5 (u8 (Z.land (Z.shiftr pos 8) 0xFF));; io_wait);;
  modify (set_xy x y).

Definition early_vga_init (b : Z) : V unit := modify (set_vbuf b).

(** [buffer[i] = DEFAULT_CHAR] for [n] cells from [i] on. *)
Fixpoint blank_cells (n : nat) (i : Z) : V unit :=
  match n with
  | O => mret tt
  | S n' => put_cell i DEFAULT_CHAR;; blank_cells n' (i + 1)
  end.

Definition early_vga_clrscr : V unit :=
  blank_cells (Z.to_nat (WIDTH * HEIGHT)) 0;;
  set_cursor 0 0.

(** [char] is signed: its sign bits reach the colour byte. *)
Definition putc (ch x y : Z) : V unit :=
  position ← cint (y * WIDTH + x);
  if (position <? 0) || (position >? WIDTH * HEIGHT) then mret tt else
  c ← gets color;
  put_cell position (Z.lor (Z.shiftl c 8) (sint 8 ch)).

(** [buffer[i] = buffer[i + d]] for [n] cells, upwards from [i] or downwards. *)
Fixpoint copy_up (n : nat) (i d : Z) : V unit :=
  match n with
  | O => mret tt
  | S n' => v ← get_cell (i + d); put_cell i v;; copy_up n' (i + 1) d
  end.
Fixpoint copy_down (n : nat) (i d : Z) : V unit :=
  match n with
  | O => mret tt
  | S n' => v ← get_cell (i - d); put_cell i v;; copy_down n' (i - 1) d
  end.

Definition scroll (y : Z) : V unit :=
  if y =? 0 then mret tt else
  let total_chars := WIDTH * HEIGHT in
  (if y >? 0 then
     shift ← cint (y * WIDTH);
     let e := total_chars - shift in
     let e := if e <? 0 then 0 else e in
     copy_up (Z.to_nat e) 0 shift;;
     blank_cells (Z.to_nat (total_chars - e)) e
   else
     shift ← cint (- y * WIDTH);
     let shift := if shift >? total_chars then total_chars else shift in
     copy_down (Z.to_nat (total_chars - shift)) (total_chars - 1) shift;;
     blank_cells (Z.to_nat shift) 0);;
  s ← get;
  set_cursor (cx s) (cy s - y).

Definition early_vga_putc (ch : Z) : V unit :=
  s ← get;
  (if ch =? 10 then modify (set_xy 0 (cy s + 1))
   else if ch =? 13 then modify (set_xy 0 (cy s))
   else if ch =? 9 then modify (set_xy (cx s + (TAB_WIDTH - Z.rem (cx s) TAB_WIDTH)) (cy s))
   else modify (set_xy (cx s + 1) (cy s));; putc ch (cx s) (cy s));;
  s ← get;
  when (cx s >=? WIDTH) (modify (set_xy 0 (cy s + 1)));;
  s ← get;
  when (cy s >=? HEIGHT) (scroll 1);;
  s ← get;
  set_cursor (cx s) (cy s).

Fixpoint early_vga_write (str : list Z) : V unit :=
  match str with
  | [] => mret tt
  | c :: str' => early_vga_putc c;; early_vga_write str'
  end.

Definition get_level_color (level : Z) : Z :=
  let colors := [0x40; 0x04; 0x0C; 0x0C; 0x0E; 0x0F] in
  if (level <? 0) || (level >=? Z.of_nat (length colors)) then DEFAULT_COLOR else nth (Z.to_nat level) colors 0.

Definition early_vga_log_write (level : Z) (str : list Z) : V unit :=
  modify (set_color (get_level_color level));;
  early_vga_write str;;
  modify (set_color DEFAULT_COLOR).
End vga.
