(* ===== verification/VgaFacts.v ===== *)
(** * The VGA driver implements a terminal *)

From S2P Require Import Prelude Pic Vga.
From Stdlib Require Import ZArith Lia.
From stdpp Require Import base list strings.

Open Scope Z_scope.

(** ** The abstract terminal

    A grid of cells, a cursor and the colour for new characters. *)

Record term := mk_term { grid : Z -> Z -> Z; tx : Z; ty : Z }.

(** The cell of a character: a byte above 127 is sign extended and shows in
    colour 0xFF, whatever the colour is. *)
Definition cell_of (col ch : Z) : Z := if ch <? 128 then col * 256 + ch else 0xFF00 + ch.

Definition put_at (v x y : Z) (g : Z -> Z -> Z) : Z -> Z -> Z :=
  fun r c => if (r =? y) && (c =? x) then v else g r c.

(** The character moves the cursor and may be shown. *)
Definition term_char (col ch : Z) (t : term) : term :=
  if ch =? 10 then mk_term (grid t) 0 (ty t + 1)
  else if ch =? 13 then mk_term (grid t) 0 (ty t)
  else if ch =? 9 then mk_term (grid t) ((tx t / 4 + 1) * 4) (ty t)
  else mk_term (put_at (cell_of col ch) (tx t) (ty t) (grid t)) (tx t + 1) (ty t).

(** The end of a line wraps, the end of the screen scrolls by a line. *)
Definition term_wrap (t : term) : term := if 80 <=? tx t then mk_term (grid t) 0 (ty t + 1) else t.
Definition term_scroll (t : term) : term :=
  if 25 <=? ty t then mk_term (fun r c => if r <? 24 then grid t (r + 1) c else 0x0700) (tx t) (ty t - 1) else t.
Definition term_step (col : Z) (t : term) (ch : Z) : term := term_scroll (term_wrap (term_char col ch t)).

(** ** What the display controller promises *)

(** After the low and the high byte of a position have been written to registers
    0x0F and 0x0E, with any waits in between, the cursor is there. *)
Class CursorDevice (D : Type) `{!Ports D} := {
  cursor : D -> Z;
  cursor_law lo hi d : 0 <= lo < 256 -> 0 <= hi < 256 ->
    cursor (port_out 0x80 0 (port_out 0x3D5 hi (port_out 0x80 0 (port_out 0x3D4 0x0E
      (port_out 0x80 0 (port_out 0x3D5 lo (port_out 0x80 0 (port_out 0x3D4 0x0F d)))))))) = hi * 256 + lo;
}.

Section facts.
Context {D : Type} `{!Ports D} `{!CursorDevice D}.
Implicit Types s : vga D.

Definition at_ (l : list Z) (i : Z) : Z := l !!! Z.to_nat i.
Definition cells_ok (l : list Z) : Prop := length l = 2000%nat /\ Forall (fun v => 0 <= v < 65536) l.

(** The driver's state: the cursor is on the screen. *)
Record vga_inv s : Prop := {
  inv_cells : cells_ok (cells s);
  inv_x : 0 <= cx s < 80;
  inv_y : 0 <= cy s < 25;
  inv_color : 0 <= color s < 256;
}.

Lemma at_insert l i j v : 0 <= i < Z.of_nat (length l) -> 0 <= j ->
  at_ (<[Z.to_nat i := v]> l) j = if j =? i then v else at_ l j.
Proof.
  intros Hi Hj. unfold at_. destruct (Z.eqb_spec j i) as [->|Hne].
  - apply list_lookup_total_insert_eq. lia.
  - apply list_lookup_total_insert_ne. lia.
Qed.

Lemma put_cell_wp i v s : cells_ok (cells s) -> 0 <= i < 2000 -> 
  wp (put_cell i v) (fun _ s' => s' = set_cells (<[Z.to_nat i := u16 v]> (cells s)) s /\ cells_ok (<[Z.to_nat i := u16 v]> (cells s))) s.
Proof.
  intros [Hl Hf] Hi. unfold put_cell. do 2 wp_step. rewrite Hl.
  rewrite (proj2 (Z.leb_le _ _)), (proj2 (Z.ltb_lt _ _)) by lia. cbn [andb]. wp_step. split; [done|]. split; [by rewrite length_insert|].
  apply Forall_insert; [done|]. apply wrap_range. lia.
Qed.

Lemma get_cell_wp i s : cells_ok (cells s) -> 0 <= i < 2000 ->
  wp (get_cell i) (fun v s' => s' = s /\ v = at_ (cells s) i /\ u16 v = v) s.
Proof.
  intros [Hl Hf] Hi. unfold get_cell. do 2 wp_step. rewrite (proj2 (Z.leb_le _ _)) by lia.
  assert (cells s !! Z.to_nat i = Some (at_ (cells s) i)) as E by (apply list_lookup_lookup_total_lt; lia).
  wp_step. split_and!; [done|done|]. apply wrap_small. by apply (Forall_lookup_1 _ _ _ _ Hf E).
Qed.

(** What a loop over the cells does to them. *)
Definition cells_become s (f : Z -> Z) (s' : vga D) : Prop :=
  exists l, s' = set_cells l s /\ cells_ok l /\ forall j, 0 <= j < 2000 -> at_ l j = f j.

Lemma blank_wp n : forall i s, cells_ok (cells s) -> 0 <= i -> i + Z.of_nat n <= 2000 ->
  wp (blank_cells n i) (fun _ => cells_become s (fun j => if (i <=? j) && (j <? i + Z.of_nat n) then 0x0700 else at_ (cells s) j)) s.
Proof.
  induction n as [|n IH]; intros i s Hc Hi Hn; cbn [blank_cells].
  { wp_step. exists (cells s). destruct s. split_and!; [done|done|]. intros j Hj.
    destruct (Z.leb_spec i j), (Z.ltb_spec j (i + Z.of_nat 0)); simpl; done || lia. }
  wp_step. eapply wp_mono; [apply put_cell_wp; [done|lia]|]. intros [] s1 [-> Hc1].
  eapply wp_mono; [apply IH; [done|lia|lia]|]. intros [] s2 (l&->&Hl&Hj). exists l. split_and!; [done|done|].
  intros j Hjr. rewrite Hj by done. cbn. rewrite at_insert by (destruct Hc; lia).
  destruct (Z.leb_spec (i + 1) j), (Z.leb_spec i j), (Z.ltb_spec j (i + 1 + Z.of_nat n)), (Z.ltb_spec j (i + Z.of_nat (S n))), (Z.eqb_spec j i);
    simpl; done || lia.
Qed.

Lemma copy_up_wp d n : 0 < d -> forall i s, cells_ok (cells s) -> 0 <= i -> i + Z.of_nat n + d <= 2000 ->
  wp (copy_up n i d) (fun _ => cells_become s (fun j => if (i <=? j) && (j <? i + Z.of_nat n) then at_ (cells s) (j + d) else at_ (cells s) j)) s.
Proof.
  intros Hd. induction n as [|n IH]; intros i s Hc Hi Hn; cbn [copy_up].
  { wp_step. exists (cells s). destruct s. split_and!; [done|done|]. intros j Hj.
    destruct (Z.leb_spec i j), (Z.ltb_spec j (i + Z.of_nat 0)); simpl; done || lia. }
  wp_step. eapply wp_mono; [apply get_cell_wp; [done|lia]|]. intros v s0 (->&->&Hv).
  wp_step. eapply wp_mono; [apply put_cell_wp; [done|lia]|]. intros [] s1 [-> Hc1].
  eapply wp_mono; [apply IH; [done|lia|lia]|]. intros [] s2 (l&->&Hl&Hj). exists l. split_and!; [done|done|].
  intros j Hjr. rewrite Hj by done. cbn. rewrite Hv. rewrite !at_insert by (destruct Hc; lia).
  destruct (Z.leb_spec (i + 1) j), (Z.leb_spec i j), (Z.ltb_spec j (i + 1 + Z.of_nat n)), (Z.ltb_spec j (i + Z.of_nat (S n))),
    (Z.eqb_spec j i), (Z.eqb_spec (j + d) i); simpl; try done; try lia. by subst.
Qed.

Lemma copy_down_wp d n : 0 < d -> forall i s, cells_ok (cells s) -> i < 2000 -> d <= i - Z.of_nat n + 1 ->
  wp (copy_down n i d) (fun _ => cells_become s (fun j => if (i - Z.of_nat n <? j) && (j <=? i) then at_ (cells s) (j - d) else at_ (cells s) j)) s.
Proof.
  intros Hd. induction n as [|n IH]; intros i s Hc Hi Hn; cbn [copy_down].
  { wp_step. exists (cells s). destruct s. split_and!; [done|done|]. intros j Hj.
    destruct (Z.leb_spec j i), (Z.ltb_spec (i - Z.of_nat 0) j); simpl; done || lia. }
  wp_step. eapply wp_mono; [apply get_cell_wp; [done|lia]|]. intros v s0 (->&->&Hv).
  wp_step. eapply wp_mono; [apply put_cell_wp; [done|lia]|]. intros [] s1 [-> Hc1].
  eapply wp_mono; [apply IH; [done|lia|lia]|]. intros [] s2 (l&->&Hl&Hj). exists l. split_and!; [done|done|].
  intros j Hjr. rewrite Hj by done. cbn. rewrite Hv. destruct Hc.
  destruct (Z.leb_spec j (i - 1)), (Z.leb_spec j i), (Z.ltb_spec (i - 1 - Z.of_nat n) j), (Z.ltb_spec (i - Z.of_nat (S n)) j);
    simpl; rewrite ?at_insert by lia;
    repeat match goal with |- context [?a =? ?b] => destruct (Z.eqb_spec a b) end; try done; try lia; by subst.
Qed.

(** ** The cursor *)

Lemma set_cursor_wp x y s : 0 <= x <= 80 -> 0 <= y <= 25 ->
  wp (set_cursor x y) (fun _ s' => exists d, s' = set_xy x y (set_vdev d s) /\ cursor d = y * 80 + x) s.
Proof.
  intros Hx Hy. unfold set_cursor, on_port, WIDTH. wp_step. apply wp_cint; [lia|]. cbv zeta.
  set (p := y * 80 + x). assert (0 <= p <= 2080) as Hp by lia.
  assert (sint 16 p = p) as ->.
  { unfold sint. rewrite wrap_small by lia. change (2 ^ (16 - 1)) with 32768. by rewrite (proj2 (Z.leb_gt _ _)) by lia. }
  assert (u8 (Z.land p 0xFF) = p mod 256) as Hlo.
  { change 0xFF with (Z.ones 8). rewrite Z.land_ones by lia. apply u8_small. apply Z.mod_pos_bound. lia. }
  assert (u8 (Z.land (Z.shiftr p 8) 0xFF) = p / 256) as Hhi.
  { change 0xFF with (Z.ones 8). rewrite Z.land_ones, Z.shiftr_div_pow2 by lia. change (2 ^ 8) with 256.
    rewrite (Z.mod_small (p / 256)) by (split; [apply Z.div_pos|apply Z.div_lt_upper_bound]; lia).
    apply u8_small. split; [apply Z.div_pos|apply Z.div_lt_upper_bound]; lia. }
  rewrite Hlo, Hhi. clearbody p.
  do 4 (wp_step; apply wp_zoom; unfold io_wait, outb; do 7 wp_step). wp_step.
  eexists. split; [reflexivity|]. cbn.
  assert (forall z, 0 <= z < 256 -> u8 z = z) as Hu by (intros; by apply u8_small).
  change (u8 15) with 15. change (u8 14) with 14. change (u8 0) with 0.
  assert (0 <= p mod 256 < 256) by (apply Z.mod_pos_bound; lia).
  assert (0 <= p / 256 < 256) by (split; [apply Z.div_pos|apply Z.div_lt_upper_bound]; lia).
  rewrite !Hu by done. rewrite cursor_law by done. rewrite (Z.div_mod p 256) at 3 by lia. lia.
Qed.

(** ** Scrolling *)

Lemma scroll_cells y s : cells_ok (cells s) -> -25 <= y <= 25 -> y <> 0 ->
  wp (if y >? 0 then
     shift ← cint (y * WIDTH);
     let e := WIDTH * HEIGHT - shift in
     let e := if e <? 0 then 0 else e in
     copy_up (Z.to_nat e) 0 shift;;
     blank_cells (Z.to_nat (WIDTH * HEIGHT - e)) e
   else
     shift ← cint (- y * WIDTH);
     let shift := if shift >? WIDTH * HEIGHT then WIDTH * HEIGHT else shift in
     copy_down (Z.to_nat (WIDTH * HEIGHT - shift)) (WIDTH * HEIGHT - 1) shift;;
     blank_cells (Z.to_nat shift) 0)
    (fun _ => cells_become s (fun j => if (0 <=? j + 80 * y) && (j + 80 * y <? 2000) then at_ (cells s) (j + 80 * y) else 0x0700)) s.
Proof.
  intros Hc Hy Hy0. unfold WIDTH, HEIGHT. change (80 * 25) with 2000. destruct (Z.gtb_spec y 0).
  - wp_step. apply wp_cint; [lia|]. cbv zeta. rewrite (proj2 (Z.ltb_ge _ _)) by lia.
    wp_step. eapply wp_mono; [apply copy_up_wp; [lia|done|lia|lia]|]. intros [] s1 (l&->&Hl&Hj).
    eapply wp_mono; [apply blank_wp; [done|lia|lia]|]. intros [] s2 (l'&->&Hl'&Hj'). exists l'. split_and!; [done|done|].
    intros j Hjr. rewrite Hj' by done. cbn. rewrite Hj by done.
    repeat match goal with |- context [?a <=? ?b] => destruct (Z.leb_spec a b) | |- context [?a <? ?b] => destruct (Z.ltb_spec a b) end;
      simpl; try lia; f_equal; lia.
  - wp_step. apply wp_cint; [lia|]. cbv zeta. rewrite Z.gtb_ltb, (proj2 (Z.ltb_ge _ _)) by lia.
    wp_step. eapply wp_mono; [apply copy_down_wp; [lia|done|lia|lia]|]. intros [] s1 (l&->&Hl&Hj).
    eapply wp_mono; [apply blank_wp; [done|lia|lia]|]. intros [] s2 (l'&->&Hl'&Hj'). exists l'. split_and!; [done|done|].
    intros j Hjr. rewrite Hj' by done. cbn. rewrite Hj by done.
    repeat match goal with |- context [?a <=? ?b] => destruct (Z.leb_spec a b) | |- context [?a <? ?b] => destruct (Z.ltb_spec a b) end;
      simpl; try lia; f_equal; lia.
Qed.

Lemma scroll_wp y s : cells_ok (cells s) -> -25 <= y <= 25 -> y <> 0 -> 0 <= cx s <= 80 -> 0 <= cy s - y <= 25 ->
  wp (scroll y) (fun _ s' => exists l d, s' = set_xy (cx s) (cy s - y) (set_vdev d (set_cells l s)) /\ cells_ok l /\
    cursor d = (cy s - y) * 80 + cx s /\
    forall j, 0 <= j < 2000 -> at_ l j = if (0 <=? j + 80 * y) && (j + 80 * y <? 2000) then at_ (cells s) (j + 80 * y) else 0x0700) s.
Proof.
  intros Hc Hy Hy0 Hx Hcy. unfold scroll. rewrite (proj2 (Z.eqb_neq _ _) Hy0). cbv zeta. wp_step.
  eapply wp_mono; [by apply scroll_cells|]. intros [] s1 (l&->&Hl&Hj). do 2 wp_step.
  eapply wp_mono; [apply set_cursor_wp; done|]. intros [] s2 (d&->&Hd). exists l, d. by split_and!.
Qed.

(** [scroll] moves the picture by whole lines, up for a positive and down for a negative count: each
    cell gets the cell that many lines away, cells from outside of the screen
    are blank; nothing is read or written outside of the frame buffer, and the
    cursor moves with the picture. *)
Theorem scroll_correct y s :
  cells_ok (cells s) -> -25 <= y <= 25 -> y <> 0 -> 0 <= cx s <= 80 -> 0 <= cy s - y <= 25 ->
  wp (scroll y) (fun _ s' => cells_ok (cells s') /\ cx s' = cx s /\ cy s' = cy s - y /\ color s' = color s /\
    cursor (vdev s') = (cy s - y) * 80 + cx s /\
    forall r c, 0 <= r < 25 -> 0 <= c < 80 ->
      at_ (cells s') (80 * r + c) = if (0 <=? r + y) && (r + y <? 25) then at_ (cells s) (80 * (r + y) + c) else 0x0700) s.
Proof.
  intros Hc Hy Hy0 Hx Hcy. eapply wp_mono; [by apply scroll_wp|]. intros [] s' (l&d&->&Hl&Hd&Hj). cbn.
  split_and!; try done; try apply Hl. intros r c Hr Hcc. rewrite Hj by lia.
  repeat match goal with |- context [?a <=? ?b] => destruct (Z.leb_spec a b) | |- context [?a <? ?b] => destruct (Z.ltb_spec a b) end;
    simpl; try lia; f_equal; lia.
Qed.

(** ** The terminal *)

Definition shows s (t : term) : Prop :=
  tx t = cx s /\ ty t = cy s /\ forall r c, 0 <= r < 25 -> 0 <= c < 80 -> grid t r c = at_ (cells s) (80 * r + c).

Lemma char_cell col ch : 0 <= col < 256 -> 0 <= ch < 256 -> u16 (Z.lor (Z.shiftl col 8) (sint 8 ch)) = cell_of col ch.
Proof.
  intros Hcol Hch. unfold sint, cell_of. rewrite u8_small by lia. change (2 ^ (8 - 1)) with 128. change (2 ^ 8) with 256.
  destruct (Z.leb_spec 128 ch), (Z.ltb_spec ch 128); try lia.
  - assert (Z.lor (Z.shiftl col 8) (ch - 256) = ch - 256) as ->.
    { apply Z.bits_inj'. intros i Hi. rewrite Z.lor_spec. destruct (Z.lt_ge_cases i 8); [by rewrite Z.shiftl_spec_low|].
      assert (Z.testbit (ch - 256) i = true) as ->; [|by rewrite orb_true_r].
      rewrite Z.testbit_odd, Z.shiftr_div_pow2 by lia.
      assert (256 <= 2 ^ i) by (change 256 with (2 ^ 8); apply Z.pow_le_mono_r; lia).
      replace ((ch - 256) / 2 ^ i) with (-1); [done|]. apply Z.div_unique with (ch - 256 + 2 ^ i); lia. }
    unfold wrap. change (2 ^ 16) with 65536. rewrite <- (Z_mod_plus_full (ch - 256) 1 65536). rewrite Z.mod_small; lia.
  - rewrite Z.shiftl_mul_pow2 by lia. rewrite lor_high by lia. change (2 ^ 8) with 256. apply wrap_small. lia.
Qed.

Lemma level_color_range level : 0 <= get_level_color level < 256.
Proof.
  unfold get_level_color. destruct (_ || _) eqn:E; [done|]. apply orb_false_elim in E as [E1%Z.ltb_ge E2]. rewrite Z.geb_leb in E2.
  apply Z.leb_gt in E2. simpl in E2. assert (Z.to_nat level < 6)%nat by lia.
  generalize dependent (Z.to_nat level). intros n Hn. do 6 (destruct n as [|n]; [simpl; lia|]). lia.
Qed.

(** The first part of [early_vga_putc]: the character itself. *)
Lemma char_wp ch s t : vga_inv s -> 0 <= ch < 256 -> shows s t ->
  wp (if ch =? 10 then modify (set_xy 0 (cy s + 1))
      else if ch =? 13 then modify (set_xy 0 (cy s))
      else if ch =? 9 then modify (set_xy (cx s + (TAB_WIDTH - Z.rem (cx s) TAB_WIDTH)) (cy s))
      else modify (set_xy (cx s + 1) (cy s));; putc ch (cx s) (cy s))
    (fun _ s' => cells_ok (cells s') /\ color s' = color s /\ 0 <= cx s' <= 80 /\ 0 <= cy s' <= 25 /\
       (cy s' = 25 -> cx s' < 80) /\ shows s' (term_char (color s) ch t)) s.
Proof.
  intros [Hc Hx Hy Hcol] Hch (Htx&Hty&Hg). unfold term_char.
  destruct (ch =? 10); [wp_step; unfold shows; cbn; split_and!; try done; try lia; apply Hc|].
  destruct (ch =? 13); [wp_step; unfold shows; cbn; split_and!; try done; try lia; apply Hc|].
  destruct (ch =? 9).
  { wp_step. cbn. unfold TAB_WIDTH. rewrite Z.rem_mod_nonneg by lia. rewrite Htx.
    pose proof (Z.div_mod (cx s) 4 ltac:(lia)). pose proof (Z.mod_pos_bound (cx s) 4 ltac:(lia)).
    assert (cx s / 4 < 20) by (apply Z.div_lt_upper_bound; lia).
    split_and!; try apply Hc; try done; try lia. split_and!; cbn; try done; lia. }
  do 2 wp_step. unfold putc, WIDTH, HEIGHT. change (80 * 25) with 2000. wp_step. apply wp_cint; [lia|].
  rewrite (proj2 (Z.ltb_ge _ _)), Z.gtb_ltb, (proj2 (Z.ltb_ge _ _)) by lia. cbn [orb]. do 2 wp_step. cbn [color set_xy].
  eapply wp_mono; [apply put_cell_wp; [done|lia]|]. intros [] s1 [-> Hc1]. cbn. rewrite char_cell in Hc1 |- * by done.
  split_and!; try done; try lia; try apply Hc1. split_and!; cbn; [lia|done|].
  intros r c Hr Hcc. unfold put_at. destruct Hc as [Hlen _]. rewrite at_insert by lia. rewrite Hg by done. rewrite Htx, Hty.
  destruct (Z.eqb_spec r (cy s)), (Z.eqb_spec c (cx s)), (Z.eqb_spec (80 * r + c) (cy s * 80 + cx s)); simpl; done || lia.
Qed.

Lemma vga_putc_wp ch s t : vga_inv s -> 0 <= ch < 256 -> shows s t ->
  wp (early_vga_putc ch) (fun _ s' => vga_inv s' /\ color s' = color s /\ shows s' (term_step (color s) t ch) /\
    cursor (vdev s') = cy s' * 80 + cx s') s.
Proof.
  intros Hinv Hch Ht. unfold early_vga_putc, term_step. do 2 wp_step. wp_step.
  eapply wp_mono; [by apply char_wp|]. intros [] s1 (Hc1&Hcol1&Hx1&Hy1&Hxy1&Hs1). set (t1 := term_char (color s) ch t) in *.
  do 2 wp_step. wp_step.
  assert (wp (when (cx s1 >=? WIDTH) (modify (set_xy 0 (cy s1 + 1)))) (fun _ s' => cells_ok (cells s') /\ color s' = color s /\
    0 <= cx s' < 80 /\ 0 <= cy s' <= 25 /\ shows s' (term_wrap t1)) s1) as Hw.
  { destruct Hs1 as (Htx&Hty&Hg). unfold term_wrap, WIDTH. rewrite Z.geb_leb, Htx. apply wp_when; intros Hb; rewrite Hb.
    - apply Z.leb_le in Hb. wp_step. cbn. split_and!; try done; try lia; try apply Hc1. split_and!; cbn; [done|lia|done].
    - apply Z.leb_gt in Hb. split_and!; try done; try lia; apply Hc1. }
  eapply wp_mono; [exact Hw|]. intros [] s2 (Hc2&Hcol2&Hx2&Hy2&Hs2). set (t2 := term_wrap t1) in *. do 2 wp_step. wp_step.
  assert (wp (when (cy s2 >=? HEIGHT) (scroll 1)) (fun _ s' => cells_ok (cells s') /\ color s' = color s /\
    0 <= cx s' < 80 /\ 0 <= cy s' < 25 /\ shows s' (term_scroll t2)) s2) as Hsc.
  { destruct Hs2 as (Htx&Hty&Hg). unfold term_scroll, HEIGHT. rewrite Z.geb_leb, Hty. apply wp_when; intros Hb; rewrite Hb.
    - apply Z.leb_le in Hb. eapply wp_mono; [apply scroll_wp; [done|lia..]|]. intros [] s' (l&d&->&Hl&Hd&Hj). cbn.
      split_and!; try done; try lia; try apply Hl. split_and!; cbn; [done|lia|]. intros r c Hr Hcc. rewrite Hj by lia.
      destruct (Z.ltb_spec r 24).
      + rewrite (proj2 (Z.leb_le _ _)), (proj2 (Z.ltb_lt _ _)) by lia. cbn. rewrite Hg by lia. f_equal. lia.
      + rewrite (proj2 (Z.ltb_ge _ _)) by lia. by rewrite andb_false_r.
    - apply Z.leb_gt in Hb. split_and!; try done; try lia; apply Hc2. }
  eapply wp_mono; [exact Hsc|]. intros [] s3 (Hc3&Hcol3&Hx3&Hy3&Hs3). do 2 wp_step.
  eapply wp_mono; [apply set_cursor_wp; lia|]. intros [] s4 (d&->&Hd). cbn. split_and!; try done.
  - destruct Hinv. split; cbn; try done. by rewrite Hcol3.
Qed.

Lemma vga_write_wp str : forall s t, vga_inv s -> Forall (fun ch => 0 <= ch < 256) str -> shows s t ->
  wp (early_vga_write str) (fun _ s' => vga_inv s' /\ color s' = color s /\ shows s' (fold_left (term_step (color s)) str t) /\
    (str <> [] \/ cursor (vdev s) = cy s * 80 + cx s -> cursor (vdev s') = cy s' * 80 + cx s')) s.
Proof.
  induction str as [|c str IH]; intros s t Hi Hstr Ht; cbn [early_vga_write fold_left].
  { wp_step. split_and!; try done. intros [|]; done. }
  inversion_clear Hstr as [|? ? Hc Hstr']. wp_step. eapply wp_mono; [by apply vga_putc_wp|].
  intros [] s1 (Hi1&Hcol1&Hs1&Hcur1). rewrite <- Hcol1 in Hs1. eapply wp_mono; [by eapply IH|].
  intros [] s2 (Hi2&Hcol2&Hs2&Hcur2). rewrite Hcol1 in *. split_and!; try done. intros _. apply Hcur2. by right.
Qed.

Lemma vga_log_write_wp level str s t :
  vga_inv s -> Forall (fun ch => 0 <= ch < 256) str -> shows s t ->
  wp (early_vga_log_write level str) (fun _ s' => vga_inv s' /\ color s' = DEFAULT_COLOR /\
    shows s' (fold_left (term_step (get_level_color level)) str t) /\
    (str <> [] -> cursor (vdev s') = cy s' * 80 + cx s')) s.
Proof.
  intros [Hc Hx Hy Hcol] Hstr Ht. unfold early_vga_log_write. do 2 wp_step. wp_step. set (s1 := set_color _ s).
  assert (vga_inv s1) as Hi1 by (split; try done; apply level_color_range).
  eapply wp_mono; [by apply (vga_write_wp str s1 t)|]. intros [] s2 ([Hc2 Hx2 Hy2 Hcol2]&Hcol'&Hs2&Hcur). wp_step.
  split_and!; [|done|done|]. { split; done. } intros Hne. apply Hcur. by left.
Qed.

(** C27: The driver implements the terminal: for a message of any level and
    any bytes, the screen shows what the abstract terminal shows after these
    characters in the colour of the level, the cursor stays on the screen and is where
    the display controller has been told, the colour is the
    default again, and no cell outside of the frame buffer is touched. *)
Theorem early_vga_log_write_refines level str s t :
  vga_inv s -> Forall (fun ch => 0 <= ch < 256) str -> shows s t ->
  wp (early_vga_log_write level str) (fun _ s' => vga_inv s' /\ color s' = DEFAULT_COLOR /\
    shows s' (fold_left (term_step (get_level_color level)) str t) /\
    (str <> [] -> cursor (vdev s') = cy s' * 80 + cx s')) s.
Proof. exact (vga_log_write_wp level str s t). Qed.

(** The cleared screen. *)
Definition blank_term : term := mk_term (fun _ _ => 0x0700) 0 0.

(** clearing the screen establishes the driver's invariant with a blank
    terminal and the cursor in the upper left corner. *)
Theorem early_vga_clrscr_correct s :
  cells_ok (cells s) -> 0 <= color s < 256 ->
  wp early_vga_clrscr (fun _ s' => vga_inv s' /\ shows s' blank_term /\ cursor (vdev s') = 0 /\ color s' = color s /\
    vbuf s' = vbuf s) s.
Proof.
  intros Hc Hcol. unfold early_vga_clrscr. wp_step. eapply wp_mono; [apply blank_wp; [done|done|done]|].
  intros [] s1 (l&->&Hl&Hj). eapply wp_mono; [apply set_cursor_wp; lia|]. intros [] s2 (d&->&Hd). cbn.
  split_and!; [split; cbn; done || lia| |done|done|done].
  split_and!; [done..|]. cbn. intros r c Hr Hcc. rewrite Hj by lia. change (Z.of_nat (Z.to_nat (WIDTH * HEIGHT))) with 2000.
  rewrite (proj2 (Z.leb_le _ _)), (proj2 (Z.ltb_lt _ _)) by lia. done.
Qed.
End facts.

(** ** The display controller

    The index register and the two cursor location registers of the 6845. *)

Record crtc := mk_crtc { crtc_index : Z; cursor_hi : Z; cursor_lo : Z }.

#[export] Instance crtc_ports : Ports crtc := {|
  port_out p v d :=
    if p =? 0x3D4 then mk_crtc v (cursor_hi d) (cursor_lo d)
    else if p =? 0x3D5 then
      if crtc_index d =? 0x0E then mk_crtc (crtc_index d) v (cursor_lo d)
      else if crtc_index d =? 0x0F then mk_crtc (crtc_index d) (cursor_hi d) v else d
    else d;
  port_in p d := 0;
|}.

#[export] Instance crtc_cursor : CursorDevice crtc := {| cursor d := cursor_hi d * 256 + cursor_lo d; cursor_law lo hi d _ _ := eq_refl |}.

(** A screen of power-up garbage, cursor on the last line. *)
Definition ex_vga : vga crtc := mk_vga (mk_crtc 0 0 0) 0xB8000 (replicate 2000 0x1F41) 78 24 0x07.
Definition ex_term : term := mk_term (fun _ _ => 0x1F41) 78 24.

Lemma ex_cells_ok : cells_ok (cells ex_vga).
Proof. split; [done|]. apply Forall_replicate. lia. Qed.
Lemma ex_vga_inv : vga_inv ex_vga.
Proof. split; [exact ex_cells_ok|cbn; lia..]. Qed.
Lemma ex_shows : shows ex_vga ex_term.
Proof. split_and!; [done|done|]. intros r c Hr Hc. symmetry. apply lookup_total_replicate_2. lia. Qed.

Lemma early_vga_log_write_refines_witness :
  wp (early_vga_log_write 3 [79; 75; 33; 10]) (fun _ s' => vga_inv s' /\ color s' = DEFAULT_COLOR /\
    shows s' (fold_left (term_step (get_level_color 3)) [79; 75; 33; 10] ex_term) /\
    ([79; 75; 33; 10] <> [] -> cursor (vdev s') = cy s' * 80 + cx s')) ex_vga.
Proof.
  apply (early_vga_log_write_refines 3 [79; 75; 33; 10] ex_vga ex_term ex_vga_inv); [|exact ex_shows].
  repeat (apply Forall_cons; split; [lia|]). apply Forall_nil. exact I.
Defined.

Lemma scroll_correct_witness :
  wp (scroll 1) (fun _ s' => cells_ok (cells s') /\ cx s' = 78 /\ cy s' = 24 - 1 /\ color s' = 7 /\
    cursor (vdev s') = (24 - 1) * 80 + 78 /\
    forall r c, 0 <= r < 25 -> 0 <= c < 80 ->
      at_ (cells s') (80 * r + c) = if (0 <=? r + 1) && (r + 1 <? 25) then at_ (cells ex_vga) (80 * (r + 1) + c) else 0x0700) ex_vga.
Proof. apply (scroll_correct 1 ex_vga ex_cells_ok); cbn; lia. Defined.

Lemma early_vga_clrscr_correct_witness :
  wp early_vga_clrscr (fun _ s' => vga_inv s' /\ shows s' blank_term /\ cursor (vdev s') = 0 /\ color s' = 7 /\
    vbuf s' = 0xB8000) ex_vga.
Proof. apply (early_vga_clrscr_correct ex_vga ex_cells_ok). cbn. lia. Defined.
