(* ===== verification/Uart.v ===== *)
(** * The UART driver (driver/uart/early_uart.c)

    The serial port is behind [Ports].  What the driver needs of it is the class
    [Transmitter]: it takes a byte when its status says so, and it becomes ready
    again after a bounded number of waits.  The polling loops have that number as
    fuel.  The instance [uart16550] is the programming model of the chip. *)

From S2P Require Import Prelude Pic.
From Stdlib Require Import ZArith Lia.
From stdpp Require Import base list strings.

Open Scope Z_scope.

(** ** The driver *)

Definition PORT : Z := 0x3F8.
Definition REG_DATA : Z := 0.
Definition REG_IER : Z := 1.
Definition REG_FCR : Z := 2.
Definition REG_LCR : Z := 3.
Definition REG_MCR : Z := 4.
Definition REG_LSR : Z := 5.
Definition BSY : Z := 0x20.

Record uart (D : Type) := mk_uart { udev : D; uart_present : bool }.
Arguments mk_uart {D}.
Arguments udev {D}.
Arguments uart_present {D}.

(** The characters of a literal. *)
Definition chars (str : String.string) : list Z := (fun c => Z.of_N (Ascii.N_of_ascii c)) <$> String.list_ascii_of_string str.
Definition ESC : list Z := [27].

Definition get_level_ansi (level : Z) : list Z :=
  if level =? 0 then ESC ++ chars "[1;37;41m"
  else if level =? 1 then ESC ++ chars "[1;31m"
  else if (level =? 2) || (level =? 3) then ESC ++ chars "[0;91m"
  else if level =? 4 then ESC ++ chars "[0;93m"
  else if level =? 5 then ESC ++ chars "[0;97m"
  else ESC ++ chars "[0m".

Section uart.
Context {D : Type} `{!Ports D}.
Abbreviation U := (M (uart D)).

Definition set_udev (d : D) (s : uart D) := mk_uart d (uart_present s).
Definition set_present (b : bool) (s : uart D) := mk_uart (udev s) b.
Definition on_uart {A} (m : M D A) : U A := zoom udev set_udev m.
Definition outb_w (port value : Z) : U unit := on_uart (outb port value;; io_wait).

(** The result is 0 when the chip answers the loopback test. *)
Definition early_uart_init : U Z :=
  outb_w (PORT + REG_IER) 0x00;;
  outb_w (PORT + REG_LCR) 0x80;;
  outb_w (PORT + 0) 0x03;;
  outb_w (PORT + 1) 0x00;;
  outb_w (PORT + REG_LCR) 0x03;;
  outb_w (PORT + REG_FCR) 0xC7;;
  outb_w (PORT + REG_MCR) 0x1E;;
  outb_w (PORT + REG_DATA) 0xAE;;
  v ← on_uart (inb (PORT + REG_DATA));
  (if v =? 0xAE then modify (set_present true);; outb_w (PORT + REG_MCR) 0x0F
   else modify (set_present false));;
  s ← get;
  mret (if uart_present s then 0 else 1).

(** [while (!(inb(PORT + REG_LSR) & BSY)) io_wait()]. *)
Fixpoint wait_ready (fuel : nat) : U unit :=
  v ← on_uart (inb (PORT + REG_LSR));
  if negb (Z.land v BSY =? 0) then mret tt else
  match fuel with
  | O => fault
  | S fuel' => on_uart io_wait;; wait_ready fuel'
  end.

Definition early_uart_putc (fuel : nat) (ch : Z) : U unit :=
  s ← get;
  if negb (uart_present s) then mret tt else
  wait_ready fuel;;
  outb_w (PORT + REG_DATA) ch.

(** The loops of [early_uart_puts] and [early_uart_write]. *)
Fixpoint send_all (fuel : nat) (str : list Z) : U unit :=
  match str with
  | [] => mret tt
  | c :: str' => wait_ready fuel;; outb_w (PORT + REG_DATA) c;; send_all fuel str'
  end.

Definition early_uart_puts (fuel : nat) (str : list Z) : U unit :=
  s ← get;
  if negb (uart_present s) then mret tt else send_all fuel str.

Definition early_uart_write (fuel : nat) (str : list Z) (n : nat) : U unit :=
  s ← get;
  if negb (uart_present s) then mret tt else
  if (n <=? length str)%nat then send_all fuel (take n str) else fault.

Definition early_uart_log_write (fuel : nat) (level : Z) (str : list Z) (n : nat) : U unit :=
  s ← get;
  if negb (uart_present s) || (n =? 0)%nat then mret tt else
  early_uart_puts fuel (get_level_ansi level);;
  early_uart_write fuel str (n - 1);;
  c ← deref (str !! (n - 1)%nat);
  if c =? 10 then early_uart_puts fuel (ESC ++ chars "[0m" ++ [10])
  else
    early_uart_putc fuel c;;
    early_uart_puts fuel (ESC ++ chars "[0m").
End uart.

(** ** What the serial port promises *)

(** [line d] are the bytes that have been sent, [busy d] the waits until the chip
    is ready; [K] bounds them. *)
Class Transmitter (D : Type) `{!Ports D} (K : nat) := {
  online : D -> Prop;
  line_out : D -> list Z;
  busy : D -> nat;
  busy_bound d : online d -> (busy d <= K)%nat;
  status_law d : online d -> (Z.land (u8 (port_in 0x3FD d)) 0x20 <> 0 <-> busy d = O);
  wait_law d : online d -> online (port_out 0x80 0 d) /\ line_out (port_out 0x80 0 d) = line_out d /\ busy (port_out 0x80 0 d) = pred (busy d);
  send_law d b : online d -> busy d = O -> online (port_out 0x3F8 b d) /\ line_out (port_out 0x3F8 b d) = line_out d ++ [b];
}.

Section facts.
Context {D : Type} `{!Ports D} (K : nat) `{!Transmitter D K}.
Implicit Types s : uart D.

Definition connected s : Prop := uart_present s = true /\ online (udev s).
Definition sent s (l : list Z) s' : Prop := connected s' /\ line_out (udev s') = line_out (udev s) ++ l.

Lemma wait_ready_wp fuel : forall s, connected s -> (busy (udev s) <= fuel)%nat ->
  wp (wait_ready fuel) (fun _ s' => sent s [] s' /\ busy (udev s') = O) s.
Proof.
  induction fuel as [|fuel IH]; intros s [Hp Ho] Hb; cbn [wait_ready]; apply wp_bind; unfold on_uart at 1; apply wp_zoom; unfold inb; apply wp_gets; cbn.
  all: change (PORT + REG_LSR) with 0x3FD; change BSY with 0x20; pose proof (status_law _ Ho) as Hst.
  all: destruct (Z.eqb_spec (Z.land (u8 (port_in 0x3FD (udev s))) 0x20) 0) as [E|E]; cbn [negb].
  - exfalso. exact (proj2 Hst ltac:(lia) E).
  - wp_step. split; [|by apply Hst]. split; [done|]. cbn. by rewrite app_nil_r.
  - destruct (wait_law _ Ho) as (Ho1&Hl1&Hb1). wp_step. unfold on_uart at 1. apply wp_zoom. unfold io_wait, outb. do 3 wp_step. cbn. change (u8 0) with 0.
    eapply wp_mono; [apply IH; [by split|cbn; lia]|]. intros [] s' [[Hc Hl] Hz]. split; [|done]. split; [done|]. by rewrite Hl, <- Hl1.
  - wp_step. split; [|by apply Hst]. split; [done|]. cbn. by rewrite app_nil_r.
Qed.

Lemma send_wp c s : connected s -> busy (udev s) = O -> 0 <= c < 256 ->
  wp (outb_w (PORT + REG_DATA) c) (fun _ => sent s [c]) s.
Proof.
  intros [Hp Ho] Hb Hc. unfold outb_w, on_uart. apply wp_zoom. unfold outb, io_wait, outb. do 7 wp_step. cbn.
  change (PORT + REG_DATA) with 0x3F8. rewrite (u8_small c) by lia. change (u8 0) with 0.
  destruct (send_law _ c Ho Hb) as (Ho1&Hl1). destruct (wait_law _ Ho1) as (Ho2&Hl2&_). split; [by split|]. cbn. by rewrite Hl2, Hl1.
Qed.

Lemma sent_trans s1 s2 s3 l1 l2 : sent s1 l1 s2 -> sent s2 l2 s3 -> sent s1 (l1 ++ l2) s3.
Proof. intros [H1 H2] [H3 H4]. split; [done|]. by rewrite H4, H2, app_assoc. Qed.

Lemma wait_send_wp fuel c s : (K <= fuel)%nat -> connected s -> 0 <= c < 256 ->
  wp (wait_ready fuel;; outb_w (PORT + REG_DATA) c) (fun _ => sent s [c]) s.
Proof.
  intros HK Hc Hb. wp_step. pose proof (busy_bound _ (proj2 Hc)). eapply wp_mono; [apply wait_ready_wp; [done|lia]|].
  intros [] s1 [Hs1 Hz]. eapply wp_mono; [apply send_wp; [apply Hs1|done|done]|]. intros [] s2. by apply (sent_trans s s1 s2 [] [c]).
Qed.

Lemma send_all_wp fuel str : (K <= fuel)%nat -> forall s, connected s -> Forall (fun c => 0 <= c < 256) str ->
  wp (send_all fuel str) (fun _ => sent s str) s.
Proof.
  intros HK. induction str as [|c str IH]; intros s Hc Hstr; cbn [send_all].
  { wp_step. split; [done|]. by rewrite app_nil_r. }
  inversion_clear Hstr as [|? ? Hcc Hstr']. apply wp_bind. pose proof (wait_send_wp fuel c s HK Hc Hcc) as Hw. apply wp_bind_inv in Hw.
  eapply wp_mono; [exact Hw|]. intros [] s1 Hs1. apply wp_bind. eapply wp_mono; [exact Hs1|]. intros [] s2 Hs2.
  eapply wp_mono; [apply IH; [apply Hs2|done]|]. intros [] s3 Hs3. by apply (sent_trans s s2 s3 [c] str).
Qed.

Lemma puts_wp fuel str s : (K <= fuel)%nat -> connected s -> Forall (fun c => 0 <= c < 256) str ->
  wp (early_uart_puts fuel str) (fun _ => sent s str) s.
Proof. intros HK Hc Hs. unfold early_uart_puts. do 2 wp_step. rewrite (proj1 Hc). by apply send_all_wp. Qed.

(** The colour is set before and reset after the text; before a final newline. *)
Definition framed (level : Z) (text : list Z) : list Z :=
  match last text with
  | None => []
  | Some c => get_level_ansi level ++ take (length text - 1) text ++
      if c =? 10 then ESC ++ chars "[0m" ++ [10] else [c] ++ ESC ++ chars "[0m"
  end.

Lemma ansi_bytes level : Forall (fun c => 0 <= c < 256) (get_level_ansi level).
Proof.
  assert (forall l, forallb (fun c => (0 <=? c) && (c <? 256)) l = true -> Forall (fun c => 0 <= c < 256) l) as H.
  { intros l Hl. apply Forall_forall. intros x Hx. rewrite forallb_forall in Hl. specialize (Hl x).
    rewrite <- list_elem_of_In in Hl. apply Hl in Hx. apply andb_prop in Hx as [?%Z.leb_le ?%Z.ltb_lt]. lia. }
  unfold get_level_ansi. repeat case_match; apply H; reflexivity.
Qed.

Lemma uart_log_write_wp fuel level text s :
  (K <= fuel)%nat -> connected s -> Forall (fun c => 0 <= c < 256) text ->
  wp (early_uart_log_write fuel level text (length text)) (fun _ => sent s (framed level text)) s.
Proof.
  intros HK Hc Ht. unfold early_uart_log_write, framed. do 2 wp_step. rewrite (proj1 Hc). cbn [negb orb].
  destruct (last text) as [c|] eqn:Hl.
  2:{ apply last_None in Hl as ->. cbn [length Nat.eqb]. apply wp_ret. split; [done|]. by rewrite app_nil_r. }
  assert (text !! (length text - 1)%nat = Some c) as Hlk by (by rewrite last_lookup, <- Nat.sub_1_r in Hl).
  pose proof (lookup_lt_Some _ _ _ Hlk). destruct (Nat.eqb_spec (length text) 0); [lia|].
  assert (0 <= c < 256) as Hcb by (by apply (Forall_lookup_1 _ _ _ _ Ht Hlk)).
  assert (Forall (fun x => 0 <= x < 256) (ESC ++ chars "[0m")) as Hreset by exact (ansi_bytes 6).
  wp_step. eapply wp_mono; [apply puts_wp; [done|done|apply ansi_bytes]|]. intros [] s1 Hs1. wp_step.
  unfold early_uart_write. do 2 wp_step. rewrite (proj1 (proj1 Hs1)). cbn [negb]. rewrite (proj2 (Nat.leb_le _ _)) by lia.
  eapply wp_mono; [apply send_all_wp; [done|apply Hs1|by apply Forall_take]|]. intros [] s2 Hs2. wp_step. wp_step.
  pose proof (sent_trans _ _ _ _ _ Hs1 Hs2) as H12. destruct (c =? 10).
  - eapply wp_mono; [apply puts_wp; [done|apply Hs2|]|].
    { rewrite app_assoc. apply Forall_app. split; [done|]. by repeat constructor. }
    intros [] s3 Hs3. rewrite app_assoc. by eapply sent_trans.
  - wp_step. unfold early_uart_putc. do 2 wp_step. rewrite (proj1 (proj1 Hs2)). cbn [negb].
    eapply wp_mono; [apply wait_send_wp; [done|apply Hs2|done]|]. intros [] s3 Hs3.
    eapply wp_mono; [apply puts_wp; [done|apply Hs3|done]|]. intros [] s4 Hs4.
    rewrite app_assoc. eapply sent_trans; [exact H12|]. by eapply sent_trans.
Qed.

(** C28: A message of a given level goes out over the line completely and in order, between the
    colour sequence of its level and the reset sequence, which precedes a
    final newline; the polling loops end within the waits the chip may need. *)
Theorem early_uart_log_write_correct fuel level text s :
  (K <= fuel)%nat -> connected s -> Forall (fun c => 0 <= c < 256) text ->
  wp (early_uart_log_write fuel level text (length text)) (fun _ => sent s (framed level text)) s.
Proof. exact (uart_log_write_wp fuel level text s). Qed.
End facts.

(** ** The chip

    The registers of the 16550; a byte that is sent keeps it busy for [latency]
    waits, and in loopback mode it comes back into the receive buffer. *)

Record uart16550 := mk_16550 {
  ier : Z; lcr : Z; dll : Z; dlm : Z; fcr : Z; mcr : Z; rbr : Z;
  wire : list Z;
  countdown : nat;
}.

Section chip.
Context (latency : nat).

Definition chip_out (p v : Z) (d : uart16550) : uart16550 :=
  if p =? 0x80 then mk_16550 (ier d) (lcr d) (dll d) (dlm d) (fcr d) (mcr d) (rbr d) (wire d) (pred (countdown d))
  else if p =? 0x3F8 then
    if Z.testbit (lcr d) 7 then mk_16550 (ier d) (lcr d) v (dlm d) (fcr d) (mcr d) (rbr d) (wire d) (countdown d)
    else if Z.testbit (mcr d) 4 then mk_16550 (ier d) (lcr d) (dll d) (dlm d) (fcr d) (mcr d) v (wire d) (countdown d)
    else mk_16550 (ier d) (lcr d) (dll d) (dlm d) (fcr d) (mcr d) (rbr d) (wire d ++ [v]) latency
  else if p =? 0x3F9 then
    if Z.testbit (lcr d) 7 then mk_16550 (ier d) (lcr d) (dll d) v (fcr d) (mcr d) (rbr d) (wire d) (countdown d)
    else mk_16550 v (lcr d) (dll d) (dlm d) (fcr d) (mcr d) (rbr d) (wire d) (countdown d)
  else if p =? 0x3FA then mk_16550 (ier d) (lcr d) (dll d) (dlm d) v (mcr d) (rbr d) (wire d) (countdown d)
  else if p =? 0x3FB then mk_16550 (ier d) v (dll d) (dlm d) (fcr d) (mcr d) (rbr d) (wire d) (countdown d)
  else if p =? 0x3FC then mk_16550 (ier d) (lcr d) (dll d) (dlm d) (fcr d) v (rbr d) (wire d) (countdown d)
  else d.

Definition chip_in (p : Z) (d : uart16550) : Z :=
  if p =? 0x3F8 then if Z.testbit (lcr d) 7 then dll d else rbr d
  else if p =? 0x3FD then if (countdown d =? 0)%nat then 0x60 else 0
  else 0.

#[export] Instance chip_ports : Ports uart16550 := {| port_out := chip_out; port_in := chip_in |}.

(** 8 data bits, no parity, one stop bit, 38400 baud, no interrupts. *)
Definition chip_online (d : uart16550) : Prop :=
  ier d = 0 /\ lcr d = 3 /\ dll d = 3 /\ dlm d = 0 /\ mcr d = 0x0F /\ (countdown d <= latency)%nat.

Lemma chip_send d b : chip_online d ->
  chip_out 0x3F8 b d = mk_16550 0 3 3 0 (fcr d) 0x0F (rbr d) (wire d ++ [b]) latency.
Proof. intros (H1&H2&H3&H4&H5&_). unfold chip_out. cbn. by rewrite H1, H2, H3, H4, H5. Qed.

#[export] Instance chip_transmitter : Transmitter uart16550 latency.
Proof.
  refine {| online := chip_online; line_out := wire; busy := countdown |}.
  - intros d H. apply H.
  - intros d _. cbn. unfold chip_in. cbn. destruct (Nat.eqb_spec (countdown d) 0) as [->|Hn]; cbn; split; done.
  - intros d (H1&H2&H3&H4&H5&H6). cbn. split_and!; [|done|done]. unfold chip_online. cbn. split_and!; try done. lia.
  - intros d b Ho Hb. cbn [port_out chip_ports]. rewrite (chip_send d b Ho). split; [|done]. unfold chip_online. cbn. split_and!; done || lia.
Defined.

Lemma outb_w_wp p v (Q : unit -> uart uart16550 -> Prop) s d' :
  chip_out 0x80 0 (chip_out p (u8 v) (udev s)) = d' -> Q tt (mk_uart d' (uart_present s)) -> wp (outb_w p v) Q s.
Proof. intros <- HQ. unfold outb_w, on_uart. apply wp_zoom. unfold io_wait, outb. do 7 wp_step. exact HQ. Qed.

(** initialisation.  With the divisor latch closed, as after a reset, and the chip
    in any state otherwise, [early_uart_init] reports success, leaves it set up for
    8 data bits, no parity, one stop bit at 38400 baud without interrupts and out of
    loopback mode, and nothing has gone out over the line. *)
Theorem early_uart_init_correct (s : uart uart16550) :
  Z.testbit (lcr (udev s)) 7 = false -> (countdown (udev s) <= latency)%nat ->
  wp early_uart_init (fun r s' => r = 0 /\ connected latency s' /\ fcr (udev s') = 0xC7 /\ wire (udev s') = wire (udev s)) s.
Proof.
  intros Hl Hc. destruct s as [[i l d1 d2 f m r w c] p]. cbn [udev lcr countdown] in Hl, Hc. unfold early_uart_init.
  wp_step. eapply outb_w_wp; [unfold chip_out; cbn -[Nat.pred Z.testbit]; rewrite Hl; reflexivity|].
  do 7 (wp_step; eapply outb_w_wp; [cbv -[Nat.pred]; reflexivity|]).
  wp_step. unfold on_uart. apply wp_zoom. unfold inb. wp_step. cbn [udev set_udev]. change (PORT + REG_DATA) with 0x3F8. cbn [port_in chip_ports chip_in].
  match goal with |- context [u8 ?x =? 0xAE] => change (u8 x =? 0xAE) with true end. cbv iota.
  do 3 wp_step. eapply outb_w_wp; [cbv -[Nat.pred]; reflexivity|]. do 3 wp_step. cbn [uart_present udev fcr wire].
  split_and!; try done. split; [done|]. unfold online, chip_transmitter, chip_online.
  cbn [udev ier lcr dll dlm mcr countdown]. split_and!; try done. lia.
Qed.
End chip.

Definition ex_uart : uart uart16550 := mk_uart (mk_16550 7 0x1F 12 0 0 0 0 [] 2) false.
Definition ex_online : uart uart16550 := mk_uart (mk_16550 0 3 3 0 0xC7 0x0F 0xAE [65] 2) true.

Lemma early_uart_init_correct_witness :
  wp (@early_uart_init _ (chip_ports 3))
    (fun r s' => r = 0 /\ @connected _ (chip_ports 3) 3 (chip_transmitter 3) s' /\ fcr (udev s') = 0xC7 /\ wire (udev s') = wire (udev ex_uart)) ex_uart.
Proof. apply (early_uart_init_correct 3 ex_uart); [reflexivity|simpl; lia]. Defined.

Lemma early_uart_log_write_correct_witness :
  framed 3 (chars "no" ++ [10]) = ESC ++ chars "[0;91m" ++ chars "no" ++ ESC ++ chars "[0m" ++ [10] /\
  wp (@early_uart_log_write _ (chip_ports 3) 3 3 (chars "no" ++ [10]) 3)
    (fun _ => @sent _ (chip_ports 3) 3 (chip_transmitter 3) ex_online (framed 3 (chars "no" ++ [10]))) ex_online.
Proof.
  split; [reflexivity|].
  apply (@early_uart_log_write_correct _ (chip_ports 3) 3 (chip_transmitter 3) 3 3 (chars "no" ++ [10]) ex_online); [lia| |].
  - split; [reflexivity|]. repeat split; simpl; lia.
  - repeat (apply Forall_cons; split; [simpl; lia|]). apply Forall_nil. exact I.
Defined.
