(* ===== verification/Console.v ===== *)
(** * The console: printk with its two sinks, and panic (kernel/entry.c, lib/panic.c)

    The state joins the formatter, the two drivers and the interrupt flag of the
    processor.  A write call of [_flush] runs the driver that is registered in its
    slot.  The drivers and the formatter share no data, so the calls are run behind the
    formatter that made them. *)

From S2P Require Import Prelude Printk PrintkFacts Pic Vga VgaFacts Uart.
From Stdlib Require Import ZArith Lia Ascii.
From stdpp Require Import base list strings.

Open Scope Z_scope.

(** ** Model *)

Record console (D E : Type) := mk_console {
  con_pk : pk;
  con_uart : uart D;
  con_vga : vga E;
  (** The interrupt flag, and how often the processor has executed [hlt]. *)
  interrupts : bool;
  halts : nat;
}.
Arguments mk_console {D E}.
Arguments con_pk {D E}.
Arguments con_uart {D E}.
Arguments con_vga {D E}.
Arguments interrupts {D E}.
Arguments halts {D E}.

Definition VGA_FRAMEBUFFER : Z := 0xB8000.
Definition VGA_FRAMEBUFFER_HHDM : Z := 0xFFFF8880000B8000.

(** The values of [write] in the two sinks, and the first letter of their names. *)
Definition UART_WRITE : Z := 1.
Definition VGA_WRITE : Z := 2.
Definition uart_sink : sink := mk_sink "U" UART_WRITE.
Definition vga_sink : sink := mk_sink "V" VGA_WRITE.

Definition codes (l : list ascii) : list Z := code <$> l.
Definition str (s : String.string) : list ascii := String.list_ascii_of_string s.

Section console.
Context {D E : Type} `{!Ports D} `{!Ports E} (fuel : nat).
Abbreviation C := (M (console D E)).

Definition set_con_pk (p : pk) (s : console D E) := mk_console p (con_uart s) (con_vga s) (interrupts s) (halts s).
Definition set_con_uart (u : uart D) (s : console D E) := mk_console (con_pk s) u (con_vga s) (interrupts s) (halts s).
Definition set_con_vga (v : vga E) (s : console D E) := mk_console (con_pk s) (con_uart s) v (interrupts s) (halts s).
Definition on_pk {A} (m : M pk A) : C A := zoom con_pk set_con_pk m.
Definition on_serial {A} (m : M (uart D) A) : C A := zoom con_uart set_con_uart m.
Definition on_screen {A} (m : M (vga E) A) : C A := zoom con_vga set_con_vga m.

(** [sinks[i].write(level, str, n)]. *)
Definition call_sink (w : nat * Z * list ascii) : C unit :=
  let '(i, level, text) := w in
  s ← get;
  k ← deref (sinks (con_pk s) !! i);
  if sink_id k =? UART_WRITE then on_serial (early_uart_log_write fuel level (codes text) (length text))
  else if sink_id k =? VGA_WRITE then on_screen (early_vga_log_write level (codes text))
  else fault.

Fixpoint call_sinks (ws : list (nat * Z * list ascii)) : C unit :=
  match ws with
  | [] => mret tt
  | w :: ws' => call_sink w;; call_sinks ws'
  end.

(** A call of the formatter, with the write calls that it makes. *)
Definition with_sinks {A} (m : M pk A) : C A :=
  s ← get;
  r ← on_pk m;
  s' ← get;
  call_sinks (drop (length (writes (con_pk s))) (writes (con_pk s')));;
  mret r.

(** printk, printkl: the variable arguments are the list [args]. *)
Definition printkl (lev : Z) (fmt : option (list ascii)) (args : list varg) : C Z := with_sinks (vprintkl lev fmt args).
Definition con_printk (fmt : option (list ascii)) (args : list varg) : C Z := with_sinks (vprintk fmt args).

Definition cli : C unit := modify (fun s => mk_console (con_pk s) (con_uart s) (con_vga s) false (halts s)).
Definition halt : C unit := modify (fun s => mk_console (con_pk s) (con_uart s) (con_vga s) (interrupts s) (S (halts s))).

(** [while (1) halt()], for the first [n] iterations. *)
Fixpoint halt_loop (n : nat) : C unit :=
  match n with O => mret tt | S n' => halt;; halt_loop n' end.

(** [vpanic] up to iteration [n] of its last loop. *)
Definition vpanic (format : option (list ascii)) (args : list varg) (n : nat) : C unit :=
  (match format with
   | Some (_ :: _) =>
       printkl 0 (Some (str "KERNEL PANIC: ")) [];;
       printkl 0 format args
   | _ => printkl 0 (Some (str "KERNEL PANIC!" ++ ["010"%char])) []
   end);;
  cli;;
  halt_loop n.

(** The part of [entry] that sets up the output. *)
Definition console_up : C unit :=
  on_serial early_uart_init;;
  on_screen (early_vga_init VGA_FRAMEBUFFER);;
  on_screen early_vga_clrscr;;
  on_pk (printk_sink_register uart_sink);;
  on_pk (printk_sink_register vga_sink);;
  mret tt.
End console.

(** ** Composition *)

Section facts.
Context {D E : Type} `{!Ports D} `{!Ports E} (K : nat) `{!Transmitter D K} `{!CursorDevice E} (fuel : nat) (HK : (K <= fuel)%nat).
Implicit Types s : console D E.

(** Both sinks are registered and ready; the screen shows [t]. *)
Record console_ok (t : term) s : Prop := {
  ok_sinks : sinks (con_pk s) = [uart_sink; vga_sink] ++ replicate 6 no_sink;
  ok_uart : connected K (con_uart s);
  ok_vga : vga_inv (con_vga s);
  ok_shows : shows (con_vga s) t;
}.

Lemma codes_bytes l : Forall (fun c => 0 <= c < 256) (codes l).
Proof.
  apply Forall_fmap, Forall_forall. intros c _. unfold compose, code. pose proof (N_ascii_bounded c). lia.
Qed.

(** The pieces of text that go to slot [i]. *)
Definition pieces (i : nat) (ws : list (nat * Z * list ascii)) : list (list ascii) := snd <$> filter (fun w => w.1.1 = i) ws.

Lemma pieces_cons i j l b ws : pieces i ((j, l, b) :: ws) = if decide (j = i) then b :: pieces i ws else pieces i ws.
Proof. unfold pieces. rewrite filter_cons. cbn [fst snd]. by case_decide. Qed.

Lemma call_sinks_wp lev ws : forall t s, console_ok t s ->
  Forall (fun w => (w.1.1 = 0 \/ w.1.1 = 1)%nat /\ w.1.2 = lev) ws ->
  wp (call_sinks fuel ws) (fun _ s' =>
    console_ok (fold_left (term_step (get_level_color lev)) (codes (concat (pieces 1 ws))) t) s' /\
    line_out (udev (con_uart s')) = line_out (udev (con_uart s)) ++ concat (framed lev ∘ codes <$> pieces 0 ws) /\
    con_pk s' = con_pk s /\ interrupts s' = interrupts s /\ halts s' = halts s) s.
Proof.
  induction ws as [|[[i l] b] ws IH]; intros t s Hok Hws; cbn [call_sinks].
  { wp_step. split_and!; try done. by rewrite app_nil_r. }
  inversion_clear Hws as [|? ? [Hi Hl] Hws']. cbn [fst snd] in Hi, Hl. subst l. destruct Hok as [H1 H2 H3 H4].
  wp_step. unfold call_sink. do 2 wp_step. rewrite H1. wp_step.
  destruct Hi as [-> | ->]; cbn [app lookup list_lookup]; (eapply wp_deref; [reflexivity|]); cbn [sink_id uart_sink vga_sink Z.eqb UART_WRITE VGA_WRITE Pos.eqb].
  - unfold on_serial. apply wp_zoom. pose proof (uart_log_write_wp K fuel lev (codes b) (con_uart s) HK H2 (codes_bytes b)) as Hu.
    unfold codes in Hu at 2. rewrite length_fmap in Hu. eapply wp_mono; [exact Hu|]. intros [] u [Hu1 Hu2].
    eapply wp_mono; [apply (IH t (set_con_uart u s)); [by split|done]|]. intros [] s' (Hs1&Hs2&Hs3&Hs4&Hs5). cbn in Hs2.
    rewrite !pieces_cons. repeat case_decide; try done. split_and!; try done. rewrite Hs2, Hu2. by rewrite <- app_assoc.
  - unfold on_screen. apply wp_zoom. eapply wp_mono; [apply vga_log_write_wp; [done|apply codes_bytes|done]|].
    intros [] v (Hv1&_&Hv2&_). eapply wp_mono; [apply (IH (fold_left (term_step (get_level_color lev)) (codes b) t) (set_con_vga v s)); [by split|done]|].
    intros [] s' (Hs1&Hs2&Hs3&Hs4&Hs5). rewrite !pieces_cons. repeat case_decide; try done.
    split_and!; try done. cbn [concat]. unfold codes in *. by rewrite fmap_app, fold_left_app.
Qed.

Lemma with_sinks_wp (m : M pk Z) lev text t s :
  console_ok t s -> wp m (printed (con_pk s) lev text) (con_pk s) ->
  wp (with_sinks fuel m) (fun n s' => n = Z.of_nat (length text) /\
    console_ok (fold_left (term_step (get_level_color lev)) (codes text) t) s' /\
    (exists cs, concat cs = text /\ Forall (fun c => 1 <= length c <= 64)%nat cs /\
       line_out (udev (con_uart s')) = line_out (udev (con_uart s)) ++ concat (framed lev ∘ codes <$> cs)) /\
    interrupts s' = interrupts s /\ halts s' = halts s) s.
Proof.
  intros Hok Hm. unfold with_sinks. do 2 wp_step. wp_step. unfold on_pk. apply wp_zoom.
  eapply wp_mono; [exact Hm|]. intros n p (->&Hs&ws&Hw&Hrec&Hall). do 2 wp_step. wp_step. cbn [con_pk set_con_pk].
  rewrite Hw, drop_app_length. destruct Hok as [H1 H2 H3 H4].
  assert (console_ok t (set_con_pk p s)) as Hok' by (split; cbn; [by rewrite Hs|done..]).
  assert (forall i, (i = 0 \/ i = 1)%nat -> concat (pieces i ws) = text) as Ht.
  { intros i Hi. assert (exists k, sinks (con_pk s) !! i = Some k /\ present k = true) as (k&Hk&Hp)
      by (rewrite H1; destruct Hi as [-> | ->]; eexists; by split).
    pose proof (Hrec i k Hk) as Hr. rewrite Hp in Hr. exact Hr. }
  eapply wp_mono; [apply (call_sinks_wp lev ws t); [exact Hok'|]|].
  - eapply Forall_impl; [exact Hall|]. intros [[i l] b] [[Hl _] (k&Hk&Hp)]. cbn in *. split; [|done]. rewrite H1 in Hk.
    do 2 (destruct i as [|i]; [auto|]). exfalso.
    change ((replicate 6 no_sink) !! i = Some k) in Hk. by apply lookup_replicate in Hk as [-> _].
  - intros [] s' (Hs1&Hs2&_&Hs4&Hs5). wp_step. rewrite (Ht 1%nat) in Hs1 by auto. split_and!; try done.
    exists (pieces 0 ws). split_and!; [by apply Ht; left| |done]. unfold pieces. apply Forall_fmap, Forall_forall.
    intros w Hin. apply list_elem_of_filter in Hin as [_ Hin]. rewrite Forall_forall in Hall. apply Hall in Hin. apply Hin.
Qed.

Lemma halt_loop_wp n : forall s, wp (halt_loop n) (fun _ s' => con_pk s' = con_pk s /\ con_uart s' = con_uart s /\
  con_vga s' = con_vga s /\ interrupts s' = interrupts s /\ halts s' = (halts s + n)%nat) s.
Proof.
  induction n as [|n IH]; intros s; cbn [halt_loop]; [wp_step; by rewrite Nat.add_0_r|].
  unfold halt. do 2 wp_step. eapply wp_mono; [apply IH|]. cbn. intros [] s' (->&->&->&->&->). by rewrite <- plus_n_Sm.
Qed.

Lemma con_printk_wp pre lev fmt args text t s :
  (pre = [] /\ lev = 6 /\ head fmt <> Some "001"%char) \/ (exists d, 0 <= d <= 9 /\ pre = ["001"%char; digit false d] /\ lev = d) ->
  render fmt args (S (length fmt)) = Some text -> Z.of_nat (length text) <= INT_MAX -> console_ok t s ->
  wp (con_printk fuel (Some (pre ++ fmt)) args) (fun n s' => n = Z.of_nat (length text) /\
    console_ok (fold_left (term_step (get_level_color lev)) (codes text) t) s' /\
    (exists cs, concat cs = text /\ Forall (fun c => 1 <= length c <= 64)%nat cs /\
       line_out (udev (con_uart s')) = line_out (udev (con_uart s)) ++ concat (framed lev ∘ codes <$> cs)) /\
    interrupts s' = interrupts s) s.
Proof.
  intros Hpre Hr Hl Hok. eapply wp_mono; [apply (with_sinks_wp _ lev text t s Hok); by apply vprintk_wp|].
  intros n s' (H1&H2&H3&H4&_). done.
Qed.

(** C9: [printk] reaches both devices: a message of level [lev] that renders as [text]
    appears on the screen in the colour of its level, at the cursor, as on a terminal that
    is given the characters of [text]; the same characters go out over the serial line in
    order, in pieces of 1 to 64 that each have the colour sequences around them; the result is
    the length of the text, and the console stays usable. *)
Theorem con_printk_correct pre lev fmt args text t s :
  (pre = [] /\ lev = 6 /\ head fmt <> Some "001"%char) \/ (exists d, 0 <= d <= 9 /\ pre = ["001"%char; digit false d] /\ lev = d) ->
  render fmt args (S (length fmt)) = Some text -> Z.of_nat (length text) <= INT_MAX -> console_ok t s ->
  wp (con_printk fuel (Some (pre ++ fmt)) args) (fun n s' => n = Z.of_nat (length text) /\
    console_ok (fold_left (term_step (get_level_color lev)) (codes text) t) s' /\
    (exists cs, concat cs = text /\ Forall (fun c => 1 <= length c <= 64)%nat cs /\
       line_out (udev (con_uart s')) = line_out (udev (con_uart s)) ++ concat (framed lev ∘ codes <$> cs)) /\
    interrupts s' = interrupts s) s.
Proof. exact (con_printk_wp pre lev fmt args text t s). Qed.

(** C10: [panic] with a format that renders as [text] shows the announcement and the message on the
    screen, white on red (level 0), then turns interrupts off and halts for good: after
    any number of wake-ups the interrupts are still off, and nothing else has been written. *)
Theorem vpanic_correct c fmt args text n t s :
  render (c :: fmt) args (S (length (c :: fmt))) = Some text -> Z.of_nat (length text) <= INT_MAX -> console_ok t s ->
  wp (vpanic fuel (Some (c :: fmt)) args n) (fun _ s' => interrupts s' = false /\ halts s' = (halts s + n)%nat /\
    console_ok (fold_left (term_step 0x40) (codes (str "KERNEL PANIC: " ++ text)) t) s') s.
Proof.
  intros Hr Hl Hok. unfold vpanic, printkl, vprintkl. wp_step. wp_step.
  eapply wp_mono; [apply (with_sinks_wp _ 0 (str "KERNEL PANIC: ") t s Hok); by apply vprintkl_wp|].
  intros n1 s1 (_&Hok1&_&_&Hh1).
  eapply wp_mono; [apply (with_sinks_wp _ 0 text _ s1 Hok1); by apply vprintkl_wp|].
  intros n2 s2 (_&[H1 H2 H3 H4]&_&_&Hh2). wp_step. unfold cli. wp_step.
  eapply wp_mono; [apply halt_loop_wp|]. cbn [con_pk con_uart con_vga interrupts halts].
  intros [] s' (E1&E2&E3&E4&E5). split_and!; [done|by rewrite E5, Hh2, Hh1|].
  split; rewrite ?E1, ?E2, ?E3; [done..|]. unfold codes. rewrite fmap_app, fold_left_app. exact H4.
Qed.
End facts.

(** ** Setting up the output *)

Lemma console_up_wp {E : Type} `{!Ports E} `{!CursorDevice E} latency (s : console uart16550 E) :
  sinks (con_pk s) = replicate 8 no_sink -> Z.testbit (lcr (udev (con_uart s))) 7 = false ->
  (countdown (udev (con_uart s)) <= latency)%nat -> cells_ok (cells (con_vga s)) -> 0 <= color (con_vga s) < 256 ->
  wp (@console_up uart16550 E (chip_ports latency) _) (fun _ s' =>
    @console_ok uart16550 E (chip_ports latency) latency (chip_transmitter latency) blank_term s' /\
    wire (udev (con_uart s')) = wire (udev (con_uart s)) /\ vbuf (con_vga s') = VGA_FRAMEBUFFER /\
    cursor (vdev (con_vga s')) = 0 /\ writes (con_pk s') = writes (con_pk s) /\ interrupts s' = interrupts s) s.
Proof.
  intros Hsk Hl Hc Hcells Hcol. unfold console_up. wp_step. unfold on_serial. apply wp_zoom.
  eapply wp_mono; [by apply early_uart_init_correct|]. intros r u (_&Hu&_&Hw). wp_step. unfold on_screen. apply wp_zoom.
  unfold early_vga_init. wp_step. wp_step. apply wp_zoom.
  eapply wp_mono; [by apply early_vga_clrscr_correct|]. intros [] v (Hv1&Hv2&Hv3&_&Hv4). do 2 (wp_step; unfold on_pk; apply wp_zoom; eapply wp_Ok; [unfold printk_sink_register, mbind, M_bind, get; cbn; rewrite ?Hsk; reflexivity|]).
  wp_step. by split_and!.
Qed.

(** From cleared data, with the divisor latch of the serial port closed as after a reset and a screen
    with any contents, the first part of [entry] brings both devices up: the screen is blank with
    the cursor in its corner, the serial port is on line and nothing has been sent, and [printk]
    writes to both. *)
Theorem console_up_correct {E : Type} `{!Ports E} `{!CursorDevice E} latency (s : console uart16550 E) :
  sinks (con_pk s) = replicate 8 no_sink -> Z.testbit (lcr (udev (con_uart s))) 7 = false ->
  (countdown (udev (con_uart s)) <= latency)%nat -> cells_ok (cells (con_vga s)) -> 0 <= color (con_vga s) < 256 ->
  wp (@console_up uart16550 E (chip_ports latency) _) (fun _ s' =>
    @console_ok uart16550 E (chip_ports latency) latency (chip_transmitter latency) blank_term s' /\
    wire (udev (con_uart s')) = wire (udev (con_uart s)) /\ vbuf (con_vga s') = VGA_FRAMEBUFFER /\
    cursor (vdev (con_vga s')) = 0 /\ writes (con_pk s') = writes (con_pk s) /\ interrupts s' = interrupts s) s.
Proof. exact (console_up_wp latency s). Qed.

(** ** Examples *)

(** A machine after its reset, and one whose console is up. *)
Definition ex_reset : console uart16550 crtc :=
  mk_console (mk_pk (replicate 8 no_sink) [] [] [] 0 0 []) ex_uart ex_vga true 0.
Definition ex_console : console uart16550 crtc :=
  mk_console (mk_pk ([uart_sink; vga_sink] ++ replicate 6 no_sink) [] [] [] 0 0 []) ex_online ex_vga true 0.

Lemma ex_console_ok : @console_ok uart16550 crtc (chip_ports 3) 3 (chip_transmitter 3) ex_term ex_console.
Proof. split; [done| |exact ex_vga_inv|exact ex_shows]. split; [done|]. cbn. repeat split; cbn; lia. Qed.

Lemma console_up_correct_witness :
  wp (@console_up uart16550 crtc (chip_ports 3) _) (fun _ s' =>
    @console_ok uart16550 crtc (chip_ports 3) 3 (chip_transmitter 3) blank_term s' /\
    wire (udev (con_uart s')) = [] /\ vbuf (con_vga s') = VGA_FRAMEBUFFER /\
    cursor (vdev (con_vga s')) = 0 /\ writes (con_pk s') = [] /\ interrupts s' = true) ex_reset.
Proof. apply (console_up_correct 3 ex_reset); [reflexivity|reflexivity|cbn; lia|exact ex_cells_ok|cbn; lia]. Defined.

Lemma con_printk_correct_witness :
  exists text, render ex_format ex_args (S (length ex_format)) = Some text /\
  wp (@con_printk uart16550 crtc (chip_ports 3) _ 3 (Some (["001"%char; "4"%char] ++ ex_format)) ex_args) (fun n s' =>
    n = Z.of_nat (length text) /\
    @console_ok uart16550 crtc (chip_ports 3) 3 (chip_transmitter 3)
      (fold_left (term_step (get_level_color 4)) (codes text) ex_term) s') ex_console.
Proof.
  exists (str "pid: -42   |0x00ff !%"). split; [vm_compute; reflexivity|]. eapply wp_mono.
  - apply (@con_printk_correct uart16550 crtc (chip_ports 3) _ 3 (chip_transmitter 3) _ 3 (le_n 3)
      ["001"%char; "4"%char] 4 ex_format ex_args (str "pid: -42   |0x00ff !%") ex_term ex_console).
    + right. exists 4. split; [lia|]. split; reflexivity.
    + vm_compute; reflexivity.
    + vm_compute. discriminate.
    + exact ex_console_ok.
  - intros n s' (H1&H2&_). exact (conj H1 H2).
Defined.

Lemma vpanic_correct_witness :
  wp (@vpanic uart16550 crtc (chip_ports 3) _ 3 (Some (str "out of memory: %d")) [VInt 7] 100) (fun _ s' =>
    interrupts s' = false /\ halts s' = 100%nat /\
    @console_ok uart16550 crtc (chip_ports 3) 3 (chip_transmitter 3)
      (fold_left (term_step 0x40) (codes (str "KERNEL PANIC: " ++ str "out of memory: 7")) ex_term) s') ex_console.
Proof.
  apply (@vpanic_correct uart16550 crtc (chip_ports 3) _ 3 (chip_transmitter 3) _ 3 (le_n 3)
    "o"%char (str "ut of memory: %d") [VInt 7] (str "out of memory: 7") 100 ex_term ex_console).
  - vm_compute; reflexivity.
  - vm_compute. discriminate.
  - exact ex_console_ok.
Defined.
