(* ===== verification/Messages.v ===== *)
(** * The messages of the components

    While a component runs, its calls of [printk] are events of its trace.  The console
    shows such an event as [con_printk] shows its text.  All messages that the
    components print while the kernel starts can be shown: their formats and arguments fit. *)

From Stdlib Require Import ZArith Lia Znumtheory Bool Ascii.
From stdpp Require Import base gmap list strings.
From S2P Require Import Prelude Kmath E820 Bootmem Mem Buddy Vmm VmmMap MemInit MemSetup Pic Desc Sched Isr Printk PrintkFacts Vga VgaFacts Uart Console.

Open Scope Z_scope.

(** ** Delivery *)

Section deliver.
Context {D E : Type} `{!Ports D} `{!Ports E} (fuel : nat).

(** The trace [tr] of a component, with its messages printed. *)
Fixpoint deliver (tr : list event) : M (console D E) unit :=
  match tr with
  | [] => mret tt
  | EvPrintk fmt args :: tr' => con_printk fuel (Some (str fmt)) (VInt <$> args);; deliver tr'
  | e :: tr' => emit e;; deliver tr'
  end.
End deliver.

(** ** Texts *)

(** The message [fmt] with [args] has the level [lev] and the text [text]. *)
Definition message (fmt : string) (args : list Z) (lev : Z) (text : list ascii) : Prop := exists pre body,
  str fmt = pre ++ body /\
  ((pre = [] /\ lev = 6 /\ head body <> Some "001"%char) \/ (exists d, 0 <= d <= 9 /\ pre = ["001"%char; digit false d] /\ lev = d)) /\
  render body (VInt <$> args) (S (length body)) = Some text /\ Z.of_nat (length text) <= INT_MAX.

(** Every message of a trace has a text; [texts] are the levels and texts. *)
Fixpoint texts_of (tr : list event) (texts : list (Z * list ascii)) : Prop :=
  match tr with
  | [] => texts = []
  | EvPrintk fmt args :: tr' => exists lev text rest, texts = (lev, text) :: rest /\ message fmt args lev text /\ texts_of tr' rest
  | _ :: tr' => texts_of tr' texts
  end.

(** The screen after a list of texts. *)
Definition show (t : term) (texts : list (Z * list ascii)) : term :=
  fold_left (fun t x => fold_left (term_step (get_level_color x.1)) (codes x.2) t) texts t.

(** ** What output leaves alone *)

(** [g] of the state does not change. *)
Definition keeps {S T A} (g : S -> T) (m : M S A) : Prop := forall s a s' tr, m s = Ok a s' tr -> g s' = g s.

Section keeps_rules.
Context {S T : Type} (g : S -> T).
Lemma keeps_ret {A} (a : A) : keeps g (mret a).
Proof. by intros s b s' tr [= _ <- _]. Qed.
Lemma keeps_get : keeps g get.
Proof. by intros s b s' tr [= _ <- _]. Qed.
Lemma keeps_gets {A} (f : S -> A) : keeps g (gets f).
Proof. by intros s b s' tr [= _ <- _]. Qed.
Lemma keeps_fault {A} : keeps g (A := A) fault.
Proof. intros s b s' tr [=]. Qed.
Lemma keeps_modify f : (forall s, g (f s) = g s) -> keeps g (modify f).
Proof. intros Hf s b s' tr [= _ <- _]. apply Hf. Qed.
Lemma keeps_bind {A B} (m : M S A) (f : A -> M S B) : keeps g m -> (forall a, keeps g (f a)) -> keeps g (m ≫= f).
Proof.
  intros Hm Hf s b s' tr. unfold mbind, M_bind. destruct (m s) as [a s1 tr1| |] eqn:E1; [|done..].
  destruct (f a s1) as [b' s2 tr2| |] eqn:E2; [|done..]. intros [= <- <- _]. apply Hf in E2. apply Hm in E1. congruence.
Qed.
Lemma keeps_zoom {U A} (proj : S -> U) (inj : U -> S -> S) (m : M U A) : (forall u s, g (inj u s) = g s) -> keeps g (zoom proj inj m).
Proof. intros Hi s b s' tr. unfold zoom. destruct (m (proj s)); [|done..]. intros [= _ <- _]. apply Hi. Qed.
End keeps_rules.

Ltac keeps_step := lazymatch goal with
  | |- forall _, _ => intro
  | |- keeps _ (_ ≫= _) => apply keeps_bind
  | |- keeps _ (mret _) => apply keeps_ret
  | |- keeps _ get => apply keeps_get
  | |- keeps _ (gets _) => apply keeps_gets
  | |- keeps _ fault => apply keeps_fault
  | |- keeps _ (modify _) => apply keeps_modify; done
  | |- keeps _ (zoom _ _ _) => apply keeps_zoom; done
  | |- keeps _ (match _ with _ => _ end) => case_match
  | |- keeps _ _ => solve [eauto]
  end.
Ltac keeps_tac := repeat keeps_step.

Section vbuf.
Context {E : Type} `{!Ports E}.
Abbreviation keeps := (keeps (S := vga E) vbuf).

Lemma keeps_put i v : keeps (put_cell i v).
Proof. unfold put_cell. keeps_tac. Qed.
Lemma keeps_cell i : keeps (get_cell i).
Proof. unfold get_cell, deref. keeps_tac. Qed.
Lemma keeps_blank n : forall i, keeps (blank_cells n i).
Proof. pose proof keeps_put. induction n; cbn [blank_cells]; keeps_tac. Qed.
Lemma keeps_up n : forall i d, keeps (copy_up n i d).
Proof. pose proof keeps_put. pose proof keeps_cell. induction n; cbn [copy_up]; keeps_tac. Qed.
Lemma keeps_down n : forall i d, keeps (copy_down n i d).
Proof. pose proof keeps_put. pose proof keeps_cell. induction n; cbn [copy_down]; keeps_tac. Qed.
Lemma keeps_cursor x y : keeps (set_cursor x y).
Proof. unfold set_cursor, on_port, cint. keeps_tac. Qed.
Lemma keeps_scroll y : keeps (scroll y).
Proof. pose proof keeps_blank. pose proof keeps_up. pose proof keeps_down. pose proof keeps_cursor. unfold scroll, cint. keeps_tac. Qed.
Lemma keeps_putc c : keeps (early_vga_putc c).
Proof. pose proof keeps_put. pose proof keeps_scroll. pose proof keeps_cursor. unfold early_vga_putc, putc, cint, when. keeps_tac. Qed.
Lemma keeps_write l : keeps (early_vga_write l).
Proof. pose proof keeps_putc. induction l; cbn [early_vga_write]; keeps_tac. Qed.
Lemma keeps_log_write lev l : keeps (early_vga_log_write lev l).
Proof. pose proof keeps_write. unfold early_vga_log_write. keeps_tac. Qed.
End vbuf.

(** The console writes to the same frame buffer from one message to the next. *)
Definition screen_at {D E} (s : console D E) : Z := vbuf (con_vga s).

Lemma keeps_con_printk {D E} `{!Ports D} `{!Ports E} fuel fmt args : keeps (screen_at (D := D) (E := E)) (con_printk fuel fmt args).
Proof.
  assert (forall ws, keeps (screen_at (D := D) (E := E)) (call_sinks fuel ws)) as Hc.
  { induction ws as [|[[i l] text] ws IH]; cbn [call_sinks]; [apply keeps_ret|]. apply keeps_bind; [|done].
    unfold call_sink, deref, on_serial, on_screen. keeps_tac. intros ? ? ? ?. unfold zoom.
    destruct (early_vga_log_write _ _ _) as [b v tr'| |] eqn:E1; [|done..]. intros [= _ <- _]. apply keeps_log_write in E1. exact E1. }
  unfold con_printk, with_sinks, on_pk. keeps_tac.
Qed.

Section deliver_wp.
Context {E : Type} `{!Ports E} `{!CursorDevice E} (latency fuel : nat) (Hfuel : (latency <= fuel)%nat).
#[local] Existing Instance chip_ports.
Abbreviation con_ok := (@console_ok uart16550 E (chip_ports latency) latency (chip_transmitter latency)).

Lemma deliver_wp tr : forall texts t s, texts_of tr texts -> con_ok t s ->
  wp (@deliver uart16550 E (chip_ports latency) _ fuel tr) (fun _ s' => con_ok (show t texts) s' /\
    interrupts s' = interrupts s /\ screen_at s' = screen_at s) s.
Proof.
  induction tr as [|e tr IH]; intros texts t s Ht Hok; cbn [deliver]; [cbn in Ht; subst texts; by wp_step|].
  destruct e; try (wp_step; wp_step; by apply IH).
  destruct Ht as (lev&text&rest&->&(pre&body&Eq&Hpre&Hr&Hl)&Hrest). wp_step. rewrite Eq.
  eapply wp_mono; [apply wp_partial; [apply (con_printk_wp latency fuel Hfuel pre lev body _ text t s Hpre Hr Hl Hok)|apply keeps_con_printk]|].
  intros n s1 [(_&Hok1&_&Hi1) Hv1]. eapply wp_mono; [by apply (IH rest)|]. intros [] s2 (H1&H2&H3). split; [exact H1|split; congruence].
Qed.
End deliver_wp.

(** ** Which traces have texts *)

Definition printable (fmt : string) (args : list Z) : Prop := exists lev text, message fmt args lev text.
Definition msg_ok (e : event) : Prop := match e with EvPrintk fmt args => printable fmt args | _ => True end.

Lemma texts_exist tr : Forall msg_ok tr -> exists texts, texts_of tr texts.
Proof.
  induction 1 as [|e tr He _ [texts IH]]; [by exists []|]. destruct e; try by exists texts.
  destruct He as (lev&text&Hm). exists ((lev, text) :: texts). by exists lev, text, texts.
Qed.

(** A computation all of whose messages have texts. *)
Definition says {S A} (m : M S A) : Prop := forall s a s' tr, m s = Ok a s' tr -> Forall msg_ok tr.

Create HintDb says.

Section says_rules.
Context {S : Type}.
Lemma says_ret {A} (a : A) : says (S := S) (mret a).
Proof. intros s b s' tr [= _ _ <-]. constructor. Qed.
Lemma says_get : says (S := S) get.
Proof. intros s b s' tr [= _ _ <-]. constructor. Qed.
Lemma says_gets {A} (f : S -> A) : says (gets f).
Proof. intros s b s' tr [= _ _ <-]. constructor. Qed.
Lemma says_modify (f : S -> S) : says (modify f).
Proof. intros s b s' tr [= _ _ <-]. constructor. Qed.
Lemma says_emit e : msg_ok e -> says (S := S) (emit e).
Proof. intros He s b s' tr [= _ _ <-]. by repeat constructor. Qed.
Lemma says_printk fmt args : printable fmt args -> says (S := S) (printk fmt args).
Proof. apply (says_emit (EvPrintk fmt args)). Qed.
Lemma says_fault {A} : says (S := S) (A := A) fault.
Proof. intros s b s' tr [=]. Qed.
Lemma says_panic {A} fmt args : says (S := S) (A := A) (panic fmt args).
Proof. intros s b s' tr [=]. Qed.
Lemma says_deref {A} (o : option A) : says (S := S) (deref o).
Proof. destruct o; [apply says_ret|apply says_fault]. Qed.
Lemma says_when b (m : M S unit) : says m -> says (when b m).
Proof. by destruct b; [|intros _; apply says_ret]. Qed.
Lemma says_bind {A B} (m : M S A) (f : A -> M S B) : says m -> (forall a, says (f a)) -> says (m ≫= f).
Proof.
  intros Hm Hf s b s' tr. unfold mbind, M_bind. destruct (m s) as [a s1 tr1| |] eqn:E1; [|done..].
  destruct (f a s1) as [b' s2 tr2| |] eqn:E2; [|done..]. intros [= <- <- <-]. apply Forall_app. split; [by eapply Hm|by eapply Hf].
Qed.
Lemma says_zoom {T A} (proj : S -> T) (inj : T -> S -> S) (m : M T A) : says m -> says (zoom proj inj m).
Proof. intros Hm s b s' tr. unfold zoom. destruct (m (proj s)) eqn:E; [|done..]. intros [= <- <- <-]. by eapply Hm. Qed.
Lemma says_for {n} : forall i step (f : Z -> M S unit), (forall i, says (f i)) -> says (for_loop i step n f).
Proof. induction n as [|n IH]; intros i step f Hf; cbn [for_loop]; [apply says_ret|]. apply says_bind; [done|]. intros []. by apply IH. Qed.
End says_rules.

#[export] Hint Resolve says_ret says_get says_gets says_modify says_fault says_panic says_deref : says.

(** One level of a function body. *)
Ltac says_step := lazymatch goal with
  | |- forall _, _ => intro
  | |- says (_ ≫= _) => apply says_bind
  | |- says (when _ _) => apply says_when
  | |- says (zoom _ _ _) => apply says_zoom
  | |- says (for_loop _ _ _ _) => apply says_for
  | |- says (printk _ _) => apply says_printk
  | |- says (emit _) => apply says_emit; exact I
  | |- says (match _ with _ => _ end) => case_match
  | |- says (let _ := _ in _) => cbv zeta
  | |- says _ => solve [eauto with says]
  end.
Ltac says_tac := repeat says_step.

(** ** Texts of numbers *)

Lemma ntoa_short v b u : (length (_ntoa v b u) <= 24)%nat.
Proof.
  assert (forall n v p, (length (ntoa_loop u b v n p).1 <= n + length p)%nat) as Hl.
  { induction n as [|n IH]; intros w p; cbn [ntoa_loop]; [done|]. case_match; cbn [fst]; [lia|]. etrans; [apply IH|]. simpl. lia. }
  unfold _ntoa. case_match; [simpl; lia|]. specialize (Hl NTOA_BUFFER_SIZE v []). destruct (ntoa_loop _ _ _ _ _) as [p rest].
  change NTOA_BUFFER_SIZE with 24%nat in Hl. cbn [fst length] in Hl. destruct (negb _); [destruct p; simpl in *; lia|lia].
Qed.

Lemma int_text_short neg sg b fl v : (length (int_text neg sg b fl 0 (-1) v) <= 27)%nat.
Proof.
  unfold int_text. change (-1 =? 0) with false. cbn [andb]. pose proof (ntoa_short v b (flag fl FL_UPPER)) as Hn.
  unfold pad_left, pad_right. change (Z.to_nat (-1)) with 0%nat. change (Z.to_nat 0) with 0%nat. cbn [Nat.sub replicate app].
  set (sign := if neg then _ else _). assert (length sign <= 1)%nat as Hs by (unfold sign; repeat case_match; simpl; lia).
  set (prefix := if negb (flag fl FL_PREFIX) then _ else _). assert (length prefix <= 2)%nat as Hp by (unfold prefix; repeat case_match; simpl; lia).
  repeat case_match; rewrite ?length_app, ?length_replicate; lia.
Qed.

Lemma printable_info fmt args text : head (str fmt) <> Some "001"%char ->
  render (str fmt) (VInt <$> args) (S (length (str fmt))) = Some text -> (length text <= 1000)%nat -> printable fmt args.
Proof.
  intros Hh Hr Hl. exists 6, text, [], (str fmt). split; [done|]. split; [by left|]. split; [exact Hr|unfold INT_MAX; lia].
Qed.

Lemma message_level d fmt args text : 0 <= d <= 9 ->
  render (str fmt) (VInt <$> args) (S (length (str fmt))) = Some text -> (length text <= 1000)%nat ->
  message (KERN (String (digit false d) EmptyString) +:+ fmt) args d text.
Proof.
  intros Hd Hr Hl. exists ["001"%char; digit false d], (str fmt). split; [done|]. split; [right; by exists d|].
  split; [exact Hr|unfold INT_MAX; lia].
Qed.

Lemma printable_level d fmt args text : 0 <= d <= 9 ->
  render (str fmt) (VInt <$> args) (S (length (str fmt))) = Some text -> (length text <= 1000)%nat ->
  printable (KERN (String (digit false d) EmptyString) +:+ fmt) args.
Proof. intros Hd Hr Hl. exists d, text. by apply message_level. Qed.

(** Rendering of a format with symbolic numbers. *)
Ltac render_tac := lazy -[int_text wrap sint Z.div Z.eqb Z.abs Z.ltb]; reflexivity.
Ltac text_length := cbn [length]; repeat (rewrite length_app; cbn [length]);
  repeat match goal with |- context [length (int_text ?a ?b ?c ?d 0 (-1) ?e)] =>
    let H := fresh in pose proof (int_text_short a b c d e) as H; generalize dependent (length (int_text a b c d 0 (-1) e)); intros end; lia.
Ltac message_tac := first
  [ eapply printable_info; [done|render_tac|text_length]
  | eapply (printable_level 3); [lia|render_tac|text_length]
  | eapply (printable_level 4); [lia|render_tac|text_length]
  | eapply (printable_level 5); [lia|render_tac|text_length]
  | eapply (printable_level 6); [lia|render_tac|text_length] ].

(** A warning with two signed numbers, none of which is the least 64-bit value. *)
Lemma alloc_warning x y : 0 <= x < 2 ^ 64 -> 0 <= y < 2 ^ 64 ->
  printable (KERN_WARNING +:+ line "[WARN] Allocation failed, requested %lld KiB but found only %lld KiB") [x / 1024; y / 1024].
Proof.
  intros Hx Hy. assert (forall z, 0 <= z < 2 ^ 64 -> (sint 64 (z / 1024) =? - 2 ^ 63) = false) as Hs.
  { intros z Hz. apply Z.eqb_neq. pose proof (Z.div_pos z 1024). pose proof (Z.div_lt_upper_bound z 1024 (2 ^ 54)).
    unfold sint. rewrite u64_small by lia. destruct (Z.leb_spec (2 ^ (64 - 1)) (z / 1024)); lia. }
  eapply (printable_level 4); [lia| |].
  - lazy -[int_text wrap sint Z.div Z.eqb Z.abs Z.ltb Z.pow Z.opp]. rewrite !Hs by done. reflexivity.
  - text_length.
Qed.

(** The last message of [entry]; its argument is an [int]. *)
Lemma stack_notice x : exists text, message (KERN_NOTICE +:+ line "[NOTICE] Used %d B of the stack") [x] 5 text.
Proof.
  assert ((sint 32 x =? - 2 ^ 63) = false) as Hs.
  { apply Z.eqb_neq. unfold sint. pose proof (Z.mod_pos_bound x (2 ^ 32)). unfold wrap. destruct (2 ^ (32 - 1) <=? x mod 2 ^ 32); lia. }
  eexists. eapply (message_level 5); [lia| |].
  - lazy -[int_text wrap sint Z.div Z.eqb Z.abs Z.ltb Z.pow Z.opp]. rewrite Hs. reflexivity.
  - text_length.
Qed.

Ltac says_all := says_tac; try message_tac.

(** ** e820.c, bootmem.c *)

Lemma says_collect es i n : forall S acc, says (S := S) (collect_change_points es i n acc).
Proof. revert i. induction n as [|n IH]; intros i S acc; cbn [collect_change_points]; says_tac; apply IH. Qed.
Lemma says_upd_entry i f : says (upd_entry i f).
Proof. unfold upd_entry. says_tac. Qed.
Lemma says_close a l : says (close_range a l).
Proof. unfold close_range. pose proof says_upd_entry. says_tac. Qed.
#[export] Hint Resolve says_collect says_upd_entry says_close : says.
Lemma says_sweep es cps : forall ol ty a, says (sweep es cps ol ty a).
Proof. induction cps as [|cp cps IH]; intros ol ty a; cbn [sweep]; says_tac. Qed.
Lemma says_warn n : forall i, says (warn_unaligned i n).
Proof. induction n as [|n IH]; intros i; cbn [warn_unaligned]; says_all. Qed.
#[export] Hint Resolve says_sweep says_warn : says.
Lemma says_find_last es i : forall S, says (S := S) (find_last_ram es i).
Proof. induction i as [|i IH]; intros S; cbn [find_last_ram]; says_tac. Qed.
#[export] Hint Resolve says_find_last : says.
Lemma says_e820_init fw : says (e820_init fw).
Proof. unfold e820_init, e820_sanitize. says_all. Qed.

Lemma says_find_pool t ke n : forall S i, says (S := S) (find_pool t ke i n).
Proof. induction n as [|n IH]; intros S i; cbn [find_pool]; says_tac. Qed.
#[export] Hint Resolve says_find_pool : says.
Lemma says_bootmem_init t ke low : says (bootmem_init t ke low).
Proof. unfold bootmem_init. says_all. Qed.
Lemma says_not_enabled st : says (not_enabled st).
Proof. unfold not_enabled. says_all. Qed.
Lemma says_page_loop t n : forall al i, says (alloc_page_loop t al i n).
Proof. induction n as [|n IH]; intros al i; cbn [alloc_page_loop]; says_tac. Qed.
#[export] Hint Resolve says_not_enabled says_page_loop : says.
Lemma says_page_phys t : says (bootmem_alloc_page_phys t).
Proof. unfold bootmem_alloc_page_phys. says_tac. Qed.
#[export] Hint Resolve says_page_phys : says.
Lemma says_page t : says (bootmem_alloc_page t).
Proof. unfold bootmem_alloc_page. says_tac. Qed.
Lemma says_link p c n : says (link_segment p c n).
Proof. unfold link_segment. says_tac. Qed.
#[export] Hint Resolve says_page says_link : says.
Lemma says_alloc_loop t bytes n : 0 <= bytes < 2 ^ 64 -> forall i al a c, 0 <= al < 2 ^ 64 -> says (alloc_loop t bytes i n al a c).
Proof.
  intros Hb. induction n as [|n IH]; intros i al a c Hal; cbn [alloc_loop]; says_tac; try (by apply alloc_warning); apply IH; done || (apply Z.mod_pos_bound; lia).
Qed.
Lemma says_alloc t bytes : 0 <= bytes < 2 ^ 64 -> says (__alloc t bytes).
Proof. intros Hb. unfold __alloc. says_tac. by apply says_alloc_loop. Qed.
Lemma says_lock : says bootmem_lock.
Proof. unfold bootmem_lock. says_all. Qed.
#[export] Hint Resolve says_lock : says.

(** ** buddy.c *)

Lemma says_get_page p : says (get_page p).
Proof. unfold get_page. says_tac. Qed.
Lemma says_upd_page p f : says (upd_page p f).
Proof. unfold upd_page. says_tac. Qed.
Lemma says_set_head o p : says (set_head o p).
Proof. unfold set_head. says_tac. Qed.
#[export] Hint Resolve says_get_page says_upd_page says_set_head : says.
Lemma says_insert_free p : says (insert_free p).
Proof. unfold insert_free, bad_order. says_tac. Qed.
Lemma says_pop_free o : says (pop_free o).
Proof. unfold pop_free, bad_order. says_tac. Qed.
#[export] Hint Resolve says_insert_free says_pop_free : says.
Lemma says_search n : forall i, says (alloc_search i n).
Proof. induction n as [|n IH]; intros i; cbn [alloc_search]; says_tac. Qed.
Lemma says_split n : forall p o, says (split_loop p o n).
Proof. induction n as [|n IH]; intros p o; cbn [split_loop]; says_tac. Qed.
#[export] Hint Resolve says_search says_split : says.
Lemma says_alloc_pages o : says (alloc_pages o).
Proof. unfold alloc_pages. says_tac. Qed.
Lemma says_mark_range n : forall i, says (mark_range i n).
Proof. induction n as [|n IH]; intros i; cbn [mark_range]; says_tac. Qed.
#[export] Hint Resolve says_alloc_pages says_mark_range : says.
Lemma says_mark_entry a b e : says (mark_entry a b e).
Proof. unfold mark_entry, set_first_order_buddy_for_range. says_tac. Qed.
#[export] Hint Resolve says_mark_entry : says.
Lemma says_mark_entries t a b n : forall i k, says (mark_entries t a b i n k).
Proof. induction n as [|n IH]; intros i k; cbn [mark_entries]; says_tac. Qed.
Lemma says_run_end n : forall j, says (run_end j n).
Proof. induction n as [|n IH]; intros j; cbn [run_end]; says_tac. Qed.
Lemma says_mark_tails n : forall j, says (mark_tails j n).
Proof. induction n as [|n IH]; intros j; cbn [mark_tails]; says_tac. Qed.
#[export] Hint Resolve says_mark_entries says_run_end says_mark_tails : says.
Lemma says_group_block i : says (group_block i).
Proof. unfold group_block. says_tac. Qed.
#[export] Hint Resolve says_group_block : says.
Lemma says_group_loop n : forall i k, says (group_loop i k n).
Proof. induction n as [|n IH]; intros i k; cbn [group_loop]; says_tac. Qed.
#[export] Hint Resolve says_group_loop : says.
Lemma says_buddy_init t : says (buddy_init t).
Proof. unfold buddy_init, buddy_build. says_all. Qed.

(** ** vmm.c, mem.c *)

Lemma says_vmod f : says (vmod f).
Proof. unfold vmod. says_tac. Qed.
Lemma says_load p i : says (load p i).
Proof. unfold load. says_tac. Qed.
#[export] Hint Resolve says_vmod says_load : says.
Lemma says_store p i v : says (store p i v).
Proof. unfold store. says_tac. Qed.
Lemma says_clear p : says (clear_table p).
Proof. unfold clear_table. says_tac. Qed.
Lemma says_set_cr3 p : says (set_cr3 p).
Proof. unfold set_cr3. says_tac. Qed.
#[export] Hint Resolve says_store says_clear says_set_cr3 : says.
Lemma says_vmm_init `{KernelLayout} : says vmm_init.
Proof. unfold vmm_init, map_low_identity, map_kernel, enable_nxe, enable_pge. says_all. Qed.
Lemma says_alloc_table t : says (__alloc_table t).
Proof. unfold __alloc_table, on_boot, on_mem. says_all. Qed.
#[export] Hint Resolve says_vmm_init says_alloc_table : says.
Lemma says_table t p i : says (get_or_create_table t p i).
Proof. unfold get_or_create_table. says_tac. Qed.
#[export] Hint Resolve says_table : says.
Lemma says_set_page t p v ph fl o : says (set_page t p v ph fl o).
Proof. unfold set_page, get_or_create_pt. says_tac. Qed.
Lemma says_set_large_page t p v ph fl o : says (set_large_page t p v ph fl o).
Proof. unfold set_large_page, get_or_create_pd. says_tac. Qed.
#[export] Hint Resolve says_set_page says_set_large_page : says.
Lemma says_set_loop set v p step n : (forall x y, says (set x y)) -> forall i f, says (set_loop set v p step i n f).
Proof. intros Hs. induction n as [|n IH]; intros i f; cbn [set_loop]; says_tac. Qed.
#[export] Hint Resolve says_set_loop : says.
Lemma says_set_pages t p v ph n fl o : says (set_pages t p v ph n fl o).
Proof. unfold set_pages. says_tac. Qed.
Lemma says_set_large_pages t p v ph n fl o : says (set_large_pages t p v ph n fl o).
Proof. unfold set_large_pages. says_tac. Qed.
Lemma says_part set p f : (forall x y z, says (set x y z)) -> says (part set p f).
Proof. intros Hs. unfold part. says_tac. Qed.
#[export] Hint Resolve says_set_pages says_set_large_pages says_part : says.
Lemma says_set_range t p v ph n fl o : says (set_range t p v ph n fl o).
Proof. unfold set_range. says_tac. Qed.
#[export] Hint Resolve says_set_range : says.

Section memory.
Context `{KernelLayout} (t : e820_table).

Lemma says_hhdm_loop n : forall i f k, says (map_hhdm_loop t i n f k).
Proof. induction n as [|n IH]; intros i f k; cbn [map_hhdm_loop]; says_tac. Qed.
#[local] Hint Resolve says_hhdm_loop : says.
Lemma says_hhdm : says (vmm_map_hhdm t).
Proof. unfold vmm_map_hhdm. says_all. Qed.
Lemma says_unmap : says vmm_unmap_low_identity.
Proof. unfold vmm_unmap_low_identity. says_all. Qed.
Lemma says_vmm_map p v ph n fl : says (vmm_map t p v ph n fl).
Proof. unfold vmm_map. says_tac. Qed.
Lemma says_pt_mapped pt n : forall i, says (pt_mapped_loop pt i n).
Proof. induction n as [|n IH]; intros i; cbn [pt_mapped_loop]; says_tac. Qed.
#[local] Hint Resolve says_pt_mapped says_vmm_map : says.
Lemma says_skip p v : says (skip_unmapped p v).
Proof. unfold skip_unmapped. says_tac. Qed.
#[local] Hint Resolve says_skip : says.
Lemma says_mapping_loop p e n : forall v, says (has_mapping_loop p v e n).
Proof. induction n as [|n IH]; intros v; cbn [has_mapping_loop]; unfold is_pt_mapped; says_tac. Qed.
#[local] Hint Resolve says_mapping_loop : says.
Lemma says_has_mapping p v n : says (vmm_virt_range_has_mapping p v n).
Proof. unfold vmm_virt_range_has_mapping. says_tac. Qed.
Lemma says_segments v fl n : forall o f p, says (map_segments t v fl o f p n).
Proof. induction n as [|n IH]; intros o f p; cbn [map_segments]; says_tac. Qed.
#[local] Hint Resolve says_has_mapping says_segments : says.
Lemma says_alloc_mapped v n fl : says (bootmem_alloc_mapped t v n fl).
Proof. unfold bootmem_alloc_mapped, on_boot. says_tac. apply says_alloc, Z.mod_pos_bound. lia. Qed.
#[local] Hint Resolve says_alloc_mapped : says.
Lemma says_mem_init last : says (mem_init t last).
Proof. unfold mem_init, write_range. says_all. Qed.
End memory.

#[export] Hint Resolve says_e820_init says_bootmem_init says_hhdm says_unmap says_mem_init says_buddy_init says_vmm_map : says.

Lemma says_early_memory `{KernelLayout} kernel_vma_end fw : says (early_memory kernel_vma_end fw).
Proof. unfold early_memory, on_kern, on_e820, on_boot, vmm_get_low_map_end. says_tac. Qed.
Lemma says_late_memory `{KernelLayout} : says late_memory.
Proof. unfold late_memory, on_kern, on_mm, vmm_use_alloc_pages. says_tac. Qed.

(** ** gdt.c, idt.c, isr.c, irq.c, pic.c, pit.c *)

Lemma says_gdt_init a b c d : says (gdt_init a b c d).
Proof. unfold gdt_init. says_all. Qed.
Lemma says_idt_init a : says (idt_init a).
Proof. unfold idt_init. says_all. Qed.

Section interrupts.
Context {P : Type} `{!Ports P} (isr_table : Z -> Z).
Lemma says_outb p v : says (S := P) (outb p v).
Proof. unfold outb. says_tac. Qed.
#[local] Hint Resolve says_outb : says.
Lemma says_outb_wait p v : says (S := P) (outb_wait p v).
Proof. unfold outb_wait, io_wait. says_tac. Qed.
#[local] Hint Resolve says_outb_wait : says.
Lemma says_pic_remap a b : says (S := P) (pic_remap a b).
Proof. unfold pic_remap. says_all. Qed.
Lemma says_pit hz : says (S := P) (pit_set_freq hz).
Proof. unfold pit_set_freq, io_wait. says_tac. Qed.
Lemma says_isr_set_gate i s n ty d p : says (S := machine P) (isr_set_gate isr_table i s n ty d p).
Proof. unfold isr_set_gate, idt_set_gate, on_gates. says_tac. Qed.
#[local] Hint Resolve says_pic_remap says_isr_set_gate : says.
Lemma says_isr_init : says (S := machine P) (isr_init isr_table).
Proof. unfold isr_init. says_all. Qed.
Lemma says_irq_init : says (S := machine P) (irq_init isr_table).
Proof. unfold irq_init, irq_set_gate, on_dev, pic_unmask, pic_mask, inb. says_all. Qed.
End interrupts.
