(* ===== verification/BootVmm.v ===== *)
(** * Paging of the boot loader (boot/vmm.c)

    The loader builds the tables with which the processor enters the kernel: the
    lowest 2 MiB for the loader itself, and 2 MiB for the kernel image.  The state
    is the memory, by words; the addresses of the five tables come from the linker.
    The specification is the page walk of VmmFacts.v. *)

From S2P Require Import Prelude Kmath Mem Vmm VmmFacts VmmMap VmmBoot VmmHhdm.
From Stdlib Require Import ZArith Lia Znumtheory Bool.
From stdpp Require Import base gmap list strings.

Open Scope Z_scope.

Module Loader.
(** The static tables, as 32-bit addresses. *)
Class Tables := { pml4 : Z; pdpt_l : Z; pdpt_h : Z; pd_l : Z; pd_h : Z }.

Section loader.
Context `{Tables}.

Definition PAGE_PSE : Z := Z.shiftl 1 7.

(** [table[idx] = v] in an array of 512 elements. *)
Definition set_entry (table idx v : Z) : M (Z -> Z) unit :=
  if (0 <=? idx) && (idx <? 512) then modify (upd_word (table + 8 * idx) v) else fault.

Definition vmm_init (kern_phys kern_virt : Z) : M (Z -> Z) Z :=
  if kern_virt <? 0xFFFF800000000000 then mret (-1) else
  set_entry pml4 0 (Z.lor (Z.lor pdpt_l PT_PRESENT) PT_WRITABLE);;
  set_entry pdpt_l 0 (Z.lor (Z.lor pd_l PT_PRESENT) PT_WRITABLE);;
  set_entry pd_l 0 (Z.lor (Z.lor (Z.lor 0x0 PT_PRESENT) PT_WRITABLE) PAGE_PSE);;
  let idx := Z.land (Z.shiftr kern_virt 39) 0x1FF in
  set_entry pml4 idx (Z.lor (Z.lor pdpt_h PT_PRESENT) PT_WRITABLE);;
  let idx := Z.land (Z.shiftr kern_virt 30) 0x1FF in
  set_entry pdpt_h idx (Z.lor (Z.lor pd_h PT_PRESENT) PT_WRITABLE);;
  let idx := Z.land (Z.shiftr kern_virt 21) 0x1FF in
  set_entry pd_h idx (Z.lor (Z.lor (Z.lor kern_phys PT_PRESENT) PT_WRITABLE) PAGE_PSE);;
  mret 0.

Definition vmm_get_pml4 : Z := pml4.
End loader.
End Loader.
Import Loader.

(** The linker gives the tables different pages. *)
Class TablesOk `{Tables} : Prop := {
  tb_window : Forall (fun p => (PAGE_SIZE | p) /\ 0 <= p < 2 ^ 32) [pml4; pdpt_l; pdpt_h; pd_l; pd_h];
  tb_nodup : NoDup [pml4; pdpt_l; pdpt_h; pd_l; pd_h];
}.

Section proofs.
Context `{TablesOk}.

Definition leaf_entry (kp : Z) : Z := Z.lor (Z.lor (Z.lor kp PT_PRESENT) PT_WRITABLE) PAGE_PSE.

(** The memory after [vmm_init], and what it has in the tables. *)
Definition loaded (kp kv : Z) (r : Z -> Z) : Z -> Z :=
  upd_word (pd_h + 8 * tidx 2 kv) (leaf_entry kp)
    (upd_word (pdpt_h + 8 * tidx 3 kv) (link_entry pd_h)
      (upd_word (pml4 + 8 * tidx 4 kv) (link_entry pdpt_h)
        (upd_word (pd_l + 8 * 0) (leaf_entry 0)
          (upd_word (pdpt_l + 8 * 0) (link_entry pd_l)
            (upd_word (pml4 + 8 * 0) (link_entry pdpt_l) r))))).

Lemma init_wp kp kv r : 0xFFFF800000000000 <= kv -> Loader.vmm_init kp kv r = Ok 0 (loaded kp kv r) [].
Proof.
  intros Hkv. unfold Loader.vmm_init. destruct (Z.ltb_spec kv 0xFFFF800000000000); [lia|].
  fold (tidx 4 kv) (tidx 3 kv) (tidx 2 kv). cbv zeta. unfold set_entry.
  assert (forall l, (0 <=? tidx l kv) && (tidx l kv <? 512) = true) as Hi.
  { intros l. pose proof (tidx_range l kv). apply andb_true_iff. split; [apply Z.leb_le|apply Z.ltb_lt]; lia. }
  change (Z.land (Z.shiftr kv 39) 511) with (tidx 4 kv). change (Z.land (Z.shiftr kv 30) 511) with (tidx 3 kv).
  change (Z.land (Z.shiftr kv 21) 511) with (tidx 2 kv). by rewrite !Hi.
Qed.

(** The static tables are cleared with the rest of the loader's data. *)
Definition tables_zeroed (r : Z -> Z) : Prop :=
  forall p i, p ∈ [pml4; pdpt_l; pdpt_h; pd_l; pd_h] -> 0 <= i < 512 -> r (p + 8 * i) = 0.

Lemma table_numbers : exists a b c d e,
  pml4 = PAGE_SIZE * a /\ pdpt_l = PAGE_SIZE * b /\ pdpt_h = PAGE_SIZE * c /\ pd_l = PAGE_SIZE * d /\ pd_h = PAGE_SIZE * e /\
  a <> b /\ a <> c /\ a <> d /\ a <> e /\ b <> c /\ b <> d /\ b <> e /\ c <> d /\ c <> e /\ d <> e.
Proof.
  pose proof tb_window as Hw. rewrite !Forall_cons in Hw.
  destruct Hw as (([a Ea]&_)&([b Eb]&_)&([c Ec]&_)&([d Ed]&_)&([e Ee]&_)&_).
  pose proof tb_nodup as Hnd. rewrite !NoDup_cons, !not_elem_of_cons in Hnd.
  destruct Hnd as ((?&?&?&?&_)&(?&?&?&_)&(?&?&_)&(?&_)&_).
  exists a, b, c, d, e. split_and!; try lia; intros ->; congruence.
Qed.

Lemma link_spec p : p ∈ [pml4; pdpt_l; pdpt_h; pd_l; pd_h] ->
  has (link_entry p) PT_PRESENT = true /\ has (link_entry p) PT_PSE = false /\ hw_frame (link_entry p) = p.
Proof.
  intros Hp. pose proof tb_window as Hw. rewrite Forall_forall in Hw. destruct (Hw p Hp) as [Hd Hr].
  destruct (link_entry_spec p Hd) as (?&?&_&?); [lia|done].
Qed.

(** A write to a word of a page, seen from a word of a page. *)
Lemma upd_page a b i j v r : 0 <= i < 512 -> 0 <= j < 512 ->
  upd_word (PAGE_SIZE * a + 8 * j) v r (PAGE_SIZE * b + 8 * i) =
    if decide (a = b /\ i = j) then v else r (PAGE_SIZE * b + 8 * i).
Proof.
  intros Hi Hj. unfold upd_word, PAGE_SIZE. destruct (Z.eqb_spec (4096 * b + 8 * i) (4096 * a + 8 * j)).
  - by rewrite decide_True by lia.
  - by rewrite decide_False by lia.
Qed.

Lemma loaded_words kp kv r i : tables_zeroed r -> tidx 4 kv <> 0 -> 0 <= i < 512 ->
  loaded kp kv r (pml4 + 8 * i) = (if i =? 0 then link_entry pdpt_l else if i =? tidx 4 kv then link_entry pdpt_h else 0) /\
  loaded kp kv r (pdpt_l + 8 * i) = (if i =? 0 then link_entry pd_l else 0) /\
  loaded kp kv r (pdpt_h + 8 * i) = (if i =? tidx 3 kv then link_entry pd_h else 0) /\
  loaded kp kv r (pd_l + 8 * i) = (if i =? 0 then leaf_entry 0 else 0) /\
  loaded kp kv r (pd_h + 8 * i) = (if i =? tidx 2 kv then leaf_entry kp else 0).
Proof.
  intros Hz H4 Hi. pose proof (fun p Hp => Hz p i Hp Hi) as Hz'.
  pose proof (Hz' pml4 ltac:(set_solver)). pose proof (Hz' pdpt_l ltac:(set_solver)). pose proof (Hz' pdpt_h ltac:(set_solver)).
  pose proof (Hz' pd_l ltac:(set_solver)). pose proof (Hz' pd_h ltac:(set_solver)). clear Hz Hz'.
  destruct table_numbers as (a&b&c&d&e&Ea&Eb&Ec&Ed&Ee&Hne).
  pose proof (tidx_range 4 kv). pose proof (tidx_range 3 kv). pose proof (tidx_range 2 kv).
  unfold loaded. set (l1 := link_entry _). set (l2 := link_entry _). set (l3 := link_entry _). set (l4 := link_entry _).
  clearbody l1 l2 l3 l4. set (f0 := leaf_entry 0). set (f1 := leaf_entry kp). clearbody f0 f1.
  rewrite Ea, Eb, Ec, Ed, Ee in *. clear Ea Eb Ec Ed Ee. rewrite !upd_page by lia. destruct_and! Hne.
  split_and!; repeat case_decide; destruct_and?; try congruence;
    repeat match goal with |- context [?x =? ?y] => destruct (Z.eqb_spec x y) end; intuition congruence.
Qed.

Lemma leaf_word kp : (2 ^ 21 | kp) -> 0 <= kp < 2 ^ 52 ->
  has (leaf_entry kp) PT_PRESENT = true /\ has (leaf_entry kp) PT_PSE = true /\
  clear_bits (hw_frame (leaf_entry kp)) (2 ^ page_bits 2 - 1) = kp.
Proof.
  intros Hd Hr. assert (2 ^ 12 | kp) by (etrans; [by exists 512|exact Hd]).
  unfold leaf_entry. rewrite <- !Z.lor_assoc, !(has_lor kp). split_and!; [apply orb_true_iff; by right..|].
  rewrite (clear_frame _ kp); [apply clear_low; [done|exact Hd]| |done|done]. apply clear_entry; [lia|done|done].
Qed.

Lemma tables_in : pml4 ∈ [pml4; pdpt_l; pdpt_h; pd_l; pd_h] /\ pdpt_l ∈ [pml4; pdpt_l; pdpt_h; pd_l; pd_h] /\
  pdpt_h ∈ [pml4; pdpt_l; pdpt_h; pd_l; pd_h] /\ pd_l ∈ [pml4; pdpt_l; pdpt_h; pd_l; pd_h] /\
  pd_h ∈ [pml4; pdpt_l; pdpt_h; pd_l; pd_h].
Proof. set_solver. Qed.

Lemma loaded_walk kp kv r v : tables_zeroed r -> tidx 4 kv <> 0 -> (2 ^ 21 | kp) -> 0 <= kp < 2 ^ 52 ->
  walk (loaded kp kv r) 4 pml4 v =
    if decide (tidx 4 v = 0 /\ tidx 3 v = 0 /\ tidx 2 v = 0) then Some (leaf_entry 0, 2%nat)
    else if decide (tidx 4 v = tidx 4 kv /\ tidx 3 v = tidx 3 kv /\ tidx 2 v = tidx 2 kv) then Some (leaf_entry kp, 2%nat)
    else None.
Proof.
  intros Hz H4 Hd Hr. pose proof (fun i => loaded_words kp kv r i Hz H4) as Hw.
  destruct (leaf_word kp Hd Hr) as (Hp&Hs&_). destruct (leaf_word 0) as (Hp0&Hs0&_); [by exists 0|lia|].
  destruct (Hw _ (tidx_range 4 v)) as (W4&_). destruct (Hw _ (tidx_range 3 v)) as (_&W3l&W3h&_).
  destruct (Hw _ (tidx_range 2 v)) as (_&_&_&W2l&W2h). clear Hw.
  cbn [walk]. rewrite W4. destruct (Z.eqb_spec (tidx 4 v) 0) as [E4|N4].
  - destruct (link_spec pdpt_l) as (->&->&->); [apply tables_in|]. cbn [negb orb andb Nat.eqb]. rewrite W3l.
    destruct (Z.eqb_spec (tidx 3 v) 0) as [E3|N3]; [|rewrite !decide_False by (intros (?&?&?); congruence); done].
    destruct (link_spec pd_l) as (->&->&->); [apply tables_in|]. cbn [negb orb andb Nat.eqb]. rewrite W2l.
    destruct (Z.eqb_spec (tidx 2 v) 0) as [E2|N2]; [|rewrite !decide_False by (intros (?&?&?); congruence); done].
    rewrite Hp0, Hs0. cbn [negb orb andb Nat.eqb Nat.ltb Nat.leb]. by rewrite decide_True.
  - destruct (Z.eqb_spec (tidx 4 v) (tidx 4 kv)) as [E4|N4']; [|rewrite !decide_False by (intros (?&?&?); congruence); done].
    destruct (link_spec pdpt_h) as (->&->&->); [apply tables_in|]. cbn [negb orb andb Nat.eqb]. rewrite W3h.
    destruct (Z.eqb_spec (tidx 3 v) (tidx 3 kv)) as [E3|N3]; [|rewrite !decide_False by (intros (?&?&?); congruence); done].
    destruct (link_spec pd_h) as (->&->&->); [apply tables_in|]. cbn [negb orb andb Nat.eqb]. rewrite W2h.
    destruct (Z.eqb_spec (tidx 2 v) (tidx 2 kv)) as [E2|N2]; [|rewrite !decide_False by (intros (?&?&?); congruence); done].
    rewrite Hp, Hs. cbn [negb orb andb Nat.eqb Nat.ltb Nat.leb]. rewrite decide_False by (intros (?&?&?); congruence). by rewrite decide_True.
Qed.

(** The three indices are those of the 2 MiB page of an address. *)
Lemma window_index w v : (2 ^ 21 | w) ->
  (tidx 4 v = tidx 4 w /\ tidx 3 v = tidx 3 w /\ tidx 2 v = tidx 2 w) <->
  w mod 2 ^ 48 <= v mod 2 ^ 48 < w mod 2 ^ 48 + 2 ^ 21.
Proof.
  intros Hw. assert (same_page 2 v w <-> (tidx 4 v = tidx 4 w /\ tidx 3 v = tidx 3 w /\ tidx 2 v = tidx 2 w)) as <-.
  { rewrite same_page_idx, !(vpre_child 2), !(vpre_child 3), !vpre_root by lia.
    pose proof (tidx_range 4 v). pose proof (tidx_range 3 v). pose proof (tidx_range 4 w). pose proof (tidx_range 3 w). lia. }
  unfold same_page. change (2 ^ page_bits 2) with (2 ^ 21).
  assert ((2 ^ 21 | w mod 2 ^ 48)) as [k Hk].
  { rewrite Z.mod_eq by lia. apply Z.divide_sub_r; [done|]. apply Z.divide_mul_l. by exists (2 ^ 27). }
  rewrite Hk. rewrite Z.div_mul by lia. set (x := v mod 2 ^ 48). pose proof (Z.div_mod x (2 ^ 21) ltac:(lia)).
  pose proof (Z.mod_pos_bound x (2 ^ 21) ltac:(lia)). lia.
Qed.

Lemma loader_tables_ok kp kv r :
  tables_zeroed r -> (2 ^ 21 | kp) -> 0 <= kp < 2 ^ 52 -> (2 ^ 21 | kv) -> 0xFFFF800000000000 <= kv < 2 ^ 64 ->
  exists r', Loader.vmm_init kp kv r = Ok 0 r' [] /\
    forall v, let x := v mod 2 ^ 48 in
      fst <$> translate r' vmm_get_pml4 v =
        if decide (x < 2 ^ 21) then Some x
        else if decide (kv mod 2 ^ 48 <= x < kv mod 2 ^ 48 + 2 ^ 21) then Some (kp + (x - kv mod 2 ^ 48)) else None.
Proof.
  intros Hz Hd Hr Hkd Hk.
  exists (loaded kp kv r). split; [apply init_wp; lia|]. intros v x. unfold vmm_get_pml4, translate.
  assert (tidx 4 kv <> 0) as H4.
  { intros E. apply tidx_first in E. rewrite (Z.mod_eq kv) in E by lia.
    assert (kv / 2 ^ 48 = 0xFFFF) as E2 by (symmetry; apply (Z.div_unique_pos kv _ _ (kv - 0xFFFF * 2 ^ 48)); lia).
    rewrite E2 in E. lia. }
  rewrite loaded_walk by done. pose proof (Z.mod_pos_bound v (2 ^ 48) ltac:(lia)) as Hx. fold x in Hx.
  assert (v mod 2 ^ 21 = x mod 2 ^ 21) as Em by (symmetry; by apply mod_window).
  destruct (leaf_word kp Hd Hr) as (_&_&Ep). destruct (leaf_word 0) as (_&_&E0); [by exists 0|lia|].
  pose proof (window_index 0 v ltac:(by exists 0)) as W0. pose proof (window_index kv v Hkd) as W1.
  change (tidx 4 0) with 0 in W0. change (tidx 3 0) with 0 in W0. change (tidx 2 0) with 0 in W0.
  change (0 mod 2 ^ 48) with 0 in W0. fold x in W0, W1.
  destruct (decide (tidx 4 v = 0 /\ _)) as [Hi|Hi]; [rewrite decide_True by (apply W0 in Hi; lia)|
    rewrite (decide_False (P := x < 2 ^ 21)) by (intros ?; apply Hi, W0; lia)].
  - cbn [fmap option_fmap option_map fst snd]. rewrite E0. change (page_bits 2) with 21. rewrite Em.
    f_equal. apply W0 in Hi. rewrite Z.mod_small; lia.
  - destruct (decide (tidx 4 v = tidx 4 kv /\ _)) as [Hj|Hj]; [rewrite decide_True by (by apply W1)|
      by rewrite decide_False by (intros ?; by apply Hj, W1)].
    cbn [fmap option_fmap option_map fst snd]. rewrite Ep. change (page_bits 2) with 21. rewrite Em.
    do 2 f_equal. apply W1 in Hj. destruct Hkd as [k ->].
    assert ((2 ^ 21 | (k * 2 ^ 21) mod 2 ^ 48)) as [q Hq].
    { rewrite Z.mod_eq by lia. apply Z.divide_sub_r; [by exists k|]. apply Z.divide_mul_l. by exists (2 ^ 27). }
    rewrite Hq in Hj |- *. symmetry. apply (Z.mod_unique_pos x _ q); lia.
Qed.

(** C29: [vmm_init] of the boot loader rejects addresses of the lower half.  For a
    2 MiB frame and an aligned address of the upper half it returns 0, and the
    tables at [vmm_get_pml4] translate the lowest 2 MiB to themselves, the 2 MiB from
    [kern_virt] on to the frame, and nothing else. *)
Theorem loader_vmm_init_correct kp kv r :
  tables_zeroed r -> (2 ^ 21 | kp) -> 0 <= kp < 2 ^ 52 -> (2 ^ 21 | kv) -> 0 <= kv < 2 ^ 64 ->
  if decide (kv < 0xFFFF800000000000) then Loader.vmm_init kp kv r = Ok (-1) r []
  else exists r', Loader.vmm_init kp kv r = Ok 0 r' [] /\
    forall v, let x := v mod 2 ^ 48 in
      fst <$> translate r' vmm_get_pml4 v =
        if decide (x < 2 ^ 21) then Some x
        else if decide (kv mod 2 ^ 48 <= x < kv mod 2 ^ 48 + 2 ^ 21) then Some (kp + (x - kv mod 2 ^ 48)) else None.
Proof.
  intros Hz Hd Hr Hkd Hk. destruct (decide (kv < 0xFFFF800000000000)) as [Hlow|Hhigh].
  - unfold Loader.vmm_init. destruct (Z.ltb_spec kv 0xFFFF800000000000); [done|lia].
  - apply loader_tables_ok; try done. lia.
Qed.
End proofs.

Definition ex_tables : Tables := {| pml4 := 0x9000; pdpt_l := 0xA000; pdpt_h := 0xB000; pd_l := 0xC000; pd_h := 0xD000 |}.
#[export] Instance ex_tables_ok : TablesOk (H := ex_tables).
Proof.
  split.
  - simpl. repeat constructor; simpl; try done;
      match goal with |- (_ | ?x) => exists (x / 4096); done end.
  - apply (bool_decide_unpack _). vm_compute. done.
Qed.

Lemma loader_vmm_init_correct_witness :
  exists r', Loader.vmm_init (H := ex_tables) 0x200000 0xFFFFFFFF80000000 (fun _ => 0) = Ok 0 r' [] /\
    fst <$> translate r' 0x9000 0xFFFFFFFF80001234 = Some 0x201234.
Proof.
  destruct (loader_vmm_init_correct (H := ex_tables) 0x200000 0xFFFFFFFF80000000 (fun _ => 0)) as (r'&E&Ht).
  - by intros p i _ _.
  - by exists 1.
  - lia.
  - by exists 0x7FFFFFFFC00.
  - lia.
  - exists r'. split; [exact E|]. exact (Ht 0xFFFFFFFF80001234).
Defined.
