(* ===== verification/BootMain.v ===== *)
(** * The main function of the boot loader (boot/main.c)

    [entry] finds the kernel on the boot volume, loads it, builds the first page
    tables and copies the memory map, then enters the kernel in long mode
    ([kernel64_entry], assembly) or stops the machine.  The boot information and
    the disk service come from the boot manager.  The loaded file and the static
    data of the loader are kept apart: the loader is linked below the kernel image. *)

From S2P Require Import Prelude Kmath E820 Mem Vmm VmmFacts VmmMap VmmBoot VmmHhdm BootString Fat FatFacts BootVmm.
From Stdlib Require Import ZArith Lia Znumtheory.
From stdpp Require Import base gmap list strings.

Open Scope Z_scope.

(** ** Data *)

Definition KERN_PHYS : Z := 0x200000.
Definition KERN_VIRT : Z := 0xFFFFFFFF80000000.
Definition KERNEL_FILE : list Z := ascii_codes "system/kernel.bin".

(** What is used of the structures of the boot manager. *)
Record BL_MemoryBlock := mk_block { mb_base : Z; mb_length : Z; mb_type : Z }.
Record BL_BootInfo := mk_info { bi_disk : BL_Disk; block_count : Z; blocks : list BL_MemoryBlock }.

(** The static data: those of fat.c, the words of the page tables, and the table
    for the kernel with its 256 elements. *)
Record loader (W : Type) := mk_loader {
  ld_fat : fat_state W;
  ld_words : Z -> Z;
  e820_entries : list e820_entry;
  e820_count : Z;
}.
Arguments mk_loader {W}.
Arguments ld_fat {W}.
Arguments ld_words {W}.
Arguments e820_entries {W}.
Arguments e820_count {W}.

(** The two ways in which [entry] ends. *)
Inductive handoff :=
  | Kernel64 (pml4_addr kernel_virt : Z)
  | PowerOff.

Section entry.
Context {W : Type} `{!Disk W} `{Loader.Tables}.
Abbreviation LM := (M (loader W)).

Definition set_lfat (f : fat_state W) (s : loader W) := mk_loader f (ld_words s) (e820_entries s) (e820_count s).
Definition set_words (w : Z -> Z) (s : loader W) := mk_loader (ld_fat s) w (e820_entries s) (e820_count s).
Definition set_entries (l : list e820_entry) (s : loader W) := mk_loader (ld_fat s) (ld_words s) l (e820_count s).
Definition set_count (n : Z) (s : loader W) := mk_loader (ld_fat s) (ld_words s) (e820_entries s) n.
Definition on_fat {A} (m : M (fat_state W) A) : LM A := zoom ld_fat set_lfat m.
Definition on_words {A} (m : M (Z -> Z) A) : LM A := zoom ld_words set_words m.

(** [memset(&__bss_start, 0, ...)]: all static data is zero. *)
Definition zero_cache : fat_cache_t := mk_cache false 0 0 0 0 0 0 (replicate 512 0).
Definition clear_bss (s : loader W) : loader W :=
  mk_loader (mk_fat_state (world (ld_fat s)) zero_cache (replicate 512 0) (memory (ld_fat s)))
    (foldr clear_words (ld_words s) [Loader.pml4; Loader.pdpt_l; Loader.pdpt_h; Loader.pd_l; Loader.pd_h])
    (replicate 256 (E820.mk_entry 0 0 0)) 0.

(** [for (int i = 0; i < block_count; i++)], with [n] iterations left. *)
Fixpoint copy_blocks (bs : list BL_MemoryBlock) (i n : nat) : LM unit :=
  match n with
  | O => mret tt
  | S n' =>
      block ← deref (bs !! i);
      s ← get;
      if (i <? length (e820_entries s))%nat then
        modify (set_entries (<[i := E820.mk_entry (u64 (mb_base block)) (u64 (mb_length block)) (u32 (mb_type block))]> (e820_entries s)));;
        copy_blocks bs (S i) n'
      else fault
  end.

(** The label [end]. *)
Definition power_off : LM handoff := printk "Power-off your computer" [];; mret PowerOff.

(** [fuel] bounds the clusters of a chain, [junk] is an uninitialised array of
    [fat_path_lookup]. *)
Definition entry (fuel : nat) (junk : list Z) (boot_info : BL_BootInfo) : LM handoff :=
  modify clear_bss;;
  r ← on_fat (fat_dev_init (bi_disk boot_info));
  match r with
  | inl _ => printk (line "Falied to initialize FAT for boot volume") [];; power_off
  | inr dev =>
      r ← on_fat (fat_read fuel dev junk KERNEL_FILE KERN_PHYS);
      match r with
      | inl _ => printk (line "Falied to read '%s'") [];; power_off
      | inr _ =>
          err ← on_words (Loader.vmm_init KERN_PHYS KERN_VIRT);
          if negb (err =? 0) then printk (line "Falied to initialize VMM") [];; power_off else
          modify (set_count (u64 (block_count boot_info)));;
          copy_blocks (blocks boot_info) 0 (Z.to_nat (block_count boot_info));;
          mret (Kernel64 Loader.vmm_get_pml4 KERN_VIRT)
      end
  end.
End entry.

(** ** What the kernel finds *)

Section correct.
Context {W : Type} `{!Disk W} (img : Z -> Z -> Z -> list Z) `{!DiskImage W img} `{TablesOk}.

Definition block_entry (b : BL_MemoryBlock) : e820_entry := E820.mk_entry (u64 (mb_base b)) (u64 (mb_length b)) (u32 (mb_type b)).

Lemma copy_blocks_wp bs n : forall i (s : loader W),
  (i + n <= length bs)%nat -> (i + n <= length (e820_entries s))%nat ->
  wp (copy_blocks bs i n) (fun _ s' => ld_fat s' = ld_fat s /\ ld_words s' = ld_words s /\ e820_count s' = e820_count s /\
    length (e820_entries s') = length (e820_entries s) /\
    forall j, e820_entries s' !! j = if decide (i <= j < i + n)%nat then block_entry <$> (bs !! j) else e820_entries s !! j) s.
Proof.
  induction n as [|n IH]; intros i s Hb Hl; cbn [copy_blocks].
  { wp_step. split_and!; try done. intros j. by rewrite decide_False by lia. }
  destruct (lookup_lt_is_Some_2 bs i) as [b Hi]; [lia|].
  wp_step. wp_step. do 2 wp_step. destruct (Nat.ltb_spec i (length (e820_entries s))); [|lia]. do 2 wp_step.
  eapply wp_mono; [apply IH; [lia|cbn; rewrite length_insert; lia]|]. cbn [ld_fat ld_words e820_count e820_entries set_entries].
  intros [] s' (->&->&->&Hlen&Hj). rewrite length_insert in Hlen. split_and!; try done. intros j. rewrite Hj. fold (block_entry b).
  destruct (decide (j = i)) as [->|Hne].
  - rewrite list_lookup_insert_eq, Hi by lia. repeat case_decide; done || lia.
  - rewrite list_lookup_insert_ne by done. repeat case_decide; done || lia.
Qed.

Lemma loader_bss_zeroed (s : loader W) : tables_zeroed (ld_words (clear_bss s)).
Proof.
  intros p i Hp Hi. apply (cleared_words _ _ p); [exact Hp|]. unfold PAGE_SIZE. lia.
Qed.

(** The path is one of two names of the 8.3 form. *)
Lemma kernel_path : KERNEL_FILE = path_text ex_names.
Proof. vm_compute. reflexivity. Qed.

(** C8: On a disk that delivers the sectors of an image, for a boot volume on which the
    two directories and the kernel file have finite chains, and with at most 256
    memory blocks, the loader either stops the machine, which happens only on a read error or
    when there is no file SYSTEM/KERNEL.BIN; or it enters the kernel at [KERN_VIRT] with the bytes of
    the file at [KERN_PHYS] and all other memory unchanged, with page tables that translate
    the lowest 2 MiB to themselves, the 2 MiB from [KERN_VIRT] on to [KERN_PHYS] and nothing
    else, and with the memory blocks in the table for [e820_init]. *)
Theorem boot_entry_correct n fuel junk info file (s : loader W) :
  let disk := bi_disk info in
  0 <= bd_partition_lba disk -> bd_partition_lba disk + bd_partition_sectors disk <= 2 ^ 32 ->
  0 < bd_partition_sectors disk < 2 ^ 32 -> 0 <= bd_port disk < 256 ->
  (n <= fuel)%nat -> length junk = 11%nat -> file_bytes img (dev_of img disk) n ex_names = Some file ->
  0 <= block_count info <= 256 -> block_count info = Z.of_nat (length (blocks info)) ->
  wp (entry fuel junk info) (fun r s' => match r with
    | PowerOff => reliable W -> file = None
    | Kernel64 root virt =>
        virt = KERN_VIRT /\
        (exists bytes, file = Some bytes /\
           forall x, memory (ld_fat s') x = write_memory KERN_PHYS bytes (memory (ld_fat s)) x) /\
        (forall v, let x := v mod 2 ^ 48 in fst <$> translate (ld_words s') root v =
           if decide (x < 2 ^ 21) then Some x
           else if decide (KERN_VIRT mod 2 ^ 48 <= x < KERN_VIRT mod 2 ^ 48 + 2 ^ 21)
             then Some (KERN_PHYS + (x - KERN_VIRT mod 2 ^ 48)) else None) /\
        e820_count s' = block_count info /\ length (e820_entries s') = 256%nat /\
        take (length (blocks info)) (e820_entries s') = block_entry <$> blocks info
    end) s.
Proof.
  intros disk Hl He Hsec Hp Hf Hj Hfile Hc Hlen. unfold entry. do 3 wp_step. apply wp_zoom.
  eapply wp_mono; [apply (fat_dev_init_wp img disk); [done|done|lia|done]|]. intros r f1 (Hca&Hbu&Hme&Hr).
  destruct r as [err|dev].
  { unfold power_off, printk. do 4 wp_step. intros Hrel. specialize (Hr Hrel). lia. }
  destruct Hr as [Hok ->]. rewrite kernel_path. wp_step. apply wp_zoom.
  eapply wp_mono; [apply (fat_read_wp img (dev_of img disk) Hok n fuel junk ex_names KERN_PHYS file f1); try done|].
  - apply ex_names_ok.
  - split; [by rewrite Hca|by rewrite Hbu].
  - rewrite Hca. by intros [=].
  - cbn [ld_fat set_lfat]. intros [err|u] f2 Hres.
    { unfold power_off, printk. do 4 wp_step. intros Hrel. by destruct (Hres Hrel). }
    destruct Hres as (bytes&->&_&Hmem). wp_step. apply wp_zoom. cbn [ld_words set_lfat].
    destruct (loader_tables_ok KERN_PHYS KERN_VIRT (ld_words (clear_bss s))) as (w&Ew&Hw).
    { apply loader_bss_zeroed. } { by exists 1. } { unfold KERN_PHYS. lia. } { by exists 0x7FFFFFFFC00. } { unfold KERN_VIRT. lia. }
    eapply wp_Ok; [exact Ew|]. cbn [Z.eqb negb]. do 3 wp_step.
    eapply wp_mono; [apply copy_blocks_wp; cbn; rewrite ?length_replicate; lia|].
    intros [] s' (E1&E2&E3&E4&E5). cbn in E1, E2, E3, E4, E5. wp_step.
    split_and!; [done| |intros v; rewrite E2; apply Hw|rewrite E3; apply u64_small; lia|done|].
    + exists bytes. split; [done|]. intros x. rewrite E1, Hmem, Hme. done.
    + apply list_eq. intros j. rewrite list_lookup_fmap. destruct (decide (j < length (blocks info))%nat) as [Hlt|Hge].
      * rewrite lookup_take_lt, E5, decide_True by lia. done.
      * rewrite lookup_take_ge by lia. rewrite (lookup_ge_None_2 (blocks info)) by lia. done.
Qed.
End correct.

Definition ex_info : BL_BootInfo :=
  mk_info (mk_BL_Disk 0 0 8 20) 2 [mk_block 0 0x9F000 1; mk_block 0x100000 0x3F00000 1].
Definition ex_loader : loader unit := mk_loader ex_fat_state (fun _ => 0) [] 0.

Lemma boot_entry_correct_witness :
  exists s' tr, entry (H := ex_tables) 3 (replicate 11 0) ex_info ex_loader = Ok (Kernel64 0x9000 KERN_VIRT) s' tr /\
    memory (ld_fat s') 0x200200 = 4 /\ length (e820_entries s') = 256%nat.
Proof.
  pose proof (boot_entry_correct ex_img (H := ex_tables) 3 3 (replicate 11 0) ex_info (Some ex_file) ex_loader) as Hc.
  assert (match entry (H := ex_tables) 3 (replicate 11 0) ex_info ex_loader with
    | Ok (Kernel64 p v) _ _ => (p =? 0x9000) && (v =? KERN_VIRT) | _ => false end = true) as Hrun by (vm_compute; reflexivity).
  destruct (entry (H := ex_tables) 3 (replicate 11 0) ex_info ex_loader) as [[p v|] s' tr| |] eqn:E; [|discriminate Hrun..].
  apply andb_prop in Hrun as [->%Z.eqb_eq ->%Z.eqb_eq]. exists s', tr. split; [reflexivity|].
  assert (wp (entry (H := ex_tables) 3 (replicate 11 0) ex_info) _ ex_loader) as Hwp
    by (apply Hc; first [cbn; lia|vm_compute; reflexivity]).
  destruct (wp_run _ _ _ _ _ _ Hwp E) as (_&(bytes&Hb&Hm)&_&_&Hl&_).
  split; [|exact Hl]. injection Hb as <-. rewrite Hm. vm_compute. reflexivity.
Defined.
