(* ===== verification/Entry.v ===== *)
(** * The boot sequence of the kernel (kernel/entry.c)

    [entry] joins all components: console, descriptor tables, interrupts, memory and
    the first tasks.  The statics of the components are the fields of one record.  The messages
    that a component prints while it is set up are events of its trace; [speaking] puts
    them through the formatter to both devices, like those of [entry] itself (no component reads the
    state of the console, so that it does not matter that it is updated when the component
    returns).  The switch to [kern_stack] and the paint on it are not visible in this state; the
    number of bytes that the paint shows as used is a parameter. *)

From Stdlib Require Import ZArith Lia Znumtheory Bool Ascii.
From stdpp Require Import base gmap list strings.
From S2P Require Import Prelude Kmath E820 E820Facts Bootmem BootmemFacts Mem Buddy BuddyFacts BuddyAlloc BuddyInit Vmm VmmFacts VmmMap VmmBoot VmmQuery VmmHhdm VmmUser VmmTotal MemInit MemSetup Pic Desc Sched SchedFacts SchedTask MakeTask Isr Printk PrintkFacts Vga VgaFacts Uart Console Messages.

Open Scope Z_scope.

(** ** The whole machine *)

Record whole (D E P : Type) := mk_whole {
  w_con : console D E;
  w_desc : desc_state;
  w_mach : machine P;
  w_e820 : e820_state;
}.
Arguments mk_whole {D E P}.
Arguments w_con {D E P}.
Arguments w_desc {D E P}.
Arguments w_mach {D E P}.
Arguments w_e820 {D E P}.

(** Where the linker puts the objects that [entry] or its callees take the address of. *)
Record image := mk_image {
  kernel_vma_end : Z;
  kern_stack : Z;
  emergency_stack : Z;
  tss_addr : Z;
  gdt_addr : Z;
  gates_addr : Z;
  user_test_addr : Z;
}.

Section entry.
Context {D E P : Type} `{!Ports D} `{!Ports E} `{!Ports P} `{KernelLayout}.
(** The waits for the serial port per character, the interrupt entry points, the addresses, and
    the value of [__STACK_USED(kern_stack)]. *)
Context (fuel : nat) (isr_table : Z -> Z) (im : image) (stack_used : Z).
Abbreviation W := (M (whole D E P)).

Definition w_memsys (s : whole D E P) : memsys := mk_memsys (w_e820 s) (sy_kernel (m_sys (w_mach s))).
Definition set_w_memsys (m : memsys) (s : whole D E P) : whole D E P :=
  mk_whole (w_con s) (w_desc s)
    (mk_machine (m_gates (w_mach s)) (m_dev (w_mach s)) (mk_system (ms_kernel m) (sy_sched (m_sys (w_mach s))))) (ms_e820 m).
Definition on_console {A} (m : M (console D E) A) : W A :=
  zoom w_con (fun c s => mk_whole c (w_desc s) (w_mach s) (w_e820 s)) m.
Definition on_desc {A} (m : M desc_state A) : W A :=
  zoom w_desc (fun d s => mk_whole (w_con s) d (w_mach s) (w_e820 s)) m.
Definition on_machine {A} (m : M (machine P) A) : W A :=
  zoom w_mach (fun x s => mk_whole (w_con s) (w_desc s) x (w_e820 s)) m.
Definition on_memory {A} (m : M memsys A) : W A := zoom w_memsys set_w_memsys m.

(** A component with its messages on the console. *)
Definition speaking {A} (m : W A) : W A := fun s =>
  match m s with
  | Ok a s' tr => (on_console (deliver fuel tr);; mret a) s'
  | Panic f args tr => Panic f args tr
  | Fault tr => Fault tr
  end.

(** [memset(&__bss_start, 0, ...)]: all statics that have no initialiser, or the initialiser 0,
    among them the five page tables.  The descriptor table and the colour of the screen are
    initialised data; devices and registers are no data at all. *)
Definition bss_pk : pk := mk_pk (replicate 8 no_sink) [] [] [] 0 0 [].
Definition bss_kernel (k : kernel) : kernel :=
  mk_kernel (mk_mm bootmem_reset (mk_mem ∅ 0 ∅ 0))
    (mk_vmm VMM_EARLY 0 (foldr clear_words (ram (k_vm k)) (fr <$> [kern_pml4; pdpt_low; pd_low; pdpt_kern; pd_kern]))
       (cr3 (k_vm k)) (cr4 (k_vm k)) (efer (k_vm k))).
Definition clear_bss (s : whole D E P) : whole D E P :=
  let c := w_con s in
  let v := con_vga c in
  mk_whole
    (mk_console bss_pk (mk_uart (udev (con_uart c)) false) (mk_vga (vdev v) 0 (cells v) 0 0 (color v)) (interrupts c) (halts c))
    (mk_desc (gdt (w_desc s)) tss_zero)
    (mk_machine idt_reset (m_dev (w_mach s)) (mk_system (bss_kernel (sy_kernel (m_sys (w_mach s)))) sched_reset))
    e820_reset.

(** Lines 83 to 89: [entry] is the first function of the image. *)
Definition console_part : W unit :=
  on_console console_up;;
  on_console (con_printk fuel (Some (str (line "Kernel loaded at %#p"))) [VInt kernel_vma_start]);;
  on_console (con_printk fuel (Some (str (line "[OK] printk() active"))) []);;
  mret tt.

(** Lines 91 to 94. *)
Definition tables_part : W unit :=
  speaking (on_desc (gdt_init (kern_stack im) (emergency_stack im) (tss_addr im) (gdt_addr im)));;
  speaking (on_machine (on_gates (idt_init (gates_addr im))));;
  speaking (on_machine (isr_init isr_table));;
  speaking (on_machine (irq_init isr_table)).

(** Up to the direct map, line 99. *)
Definition bring_up_early (firmware : e820_table) : W unit :=
  on_console cli;;
  modify clear_bss;;
  console_part;;
  tables_part;;
  speaking (on_memory (early_memory (kernel_vma_end im) firmware)).

(** From line 100 to the first task. *)
Definition bring_up_late : W unit :=
  on_console (on_screen (early_vga_init VGA_FRAMEBUFFER_HHDM));;
  speaking (on_memory late_memory);;
  speaking (on_machine (on_dev (pit_set_freq 1024)));;
  on_console (con_printk fuel (Some (str (KERN_NOTICE +:+ line "[NOTICE] Used %d B of the stack"))) [VInt stack_used]);;
  mret tt.

Definition bring_up (firmware : e820_table) : W unit := bring_up_early firmware;; bring_up_late.

Definition entry (firmware : e820_table) : W iret_frame :=
  bring_up firmware;;
  s ← get;
  let table := e820_get_table (w_e820 s) in
  a ← speaking (on_machine (on_system (make_task table (user_test_addr im) 1024)));
  speaking (on_machine (on_system (make_task table (user_test_addr im) 1024)));;
  speaking (on_machine (on_system (make_task table (user_test_addr im) 100)));;
  speaking (on_machine (on_system (make_task table (user_test_addr im) 10000)));;
  on_machine (on_system (enter_task a)).
End entry.

(** ** Everything before the first task *)

Lemma kernel_bss_zeroed `{KernelLayout} k : zeroed (ram (k_vm (bss_kernel k))).
Proof.
  intros p i Hp Hi. apply (cleared_words _ _ (fr p)); [by apply list_elem_of_fmap_2|]. unfold PAGE_SIZE. lia.
Qed.

(** The first two messages of [entry]. *)
Definition banner1 : list ascii := str (line "Kernel loaded at 0xffffffff80000000").
Definition banner2 : list ascii := str (line "[OK] printk() active").

Section bring_up.
Context {E : Type} `{!Ports E} `{!CursorDevice E} `{LayoutOk}.
Context (latency fuel : nat) (Hfuel : (latency <= fuel)%nat) (isr_table : Z -> Z) (im : image) (stack_used : Z) (fw : e820_table).
#[local] Existing Instance chip_ports.
Abbreviation machine_state := (whole uart16550 E pics).
Abbreviation con_ok := (@console_ok uart16550 E (chip_ports latency) latency (chip_transmitter latency)).
Abbreviation speaking := (@speaking uart16550 E pics (chip_ports latency) _ fuel).

(** What the devices and the initialised data of the image provide. *)
Record hardware_ok (s : machine_state) : Prop := {
  hk_latch : Z.testbit (lcr (udev (con_uart (w_con s)))) 7 = false;
  hk_uart : (countdown (udev (con_uart (w_con s))) <= latency)%nat;
  hk_cells : cells_ok (cells (con_vga (w_con s)));
  hk_color : 0 <= color (con_vga (w_con s)) < 256;
  hk_gdt : gdt (w_desc s) = gdt_static;
}.

(** ** The console during the boot sequence *)

Definition set_con (c : console uart16550 E) (s : machine_state) : machine_state := mk_whole c (w_desc s) (w_mach s) (w_e820 s).

(** It shows the two banners and the texts of the messages so far, in the frame buffer at [buf]. *)
Record talking (buf : Z) (c : console uart16550 E) : Prop := {
  tk_shows : exists texts, con_ok (show blank_term ([(6, banner1); (6, banner2)] ++ texts)) c;
  tk_off : interrupts c = false;
  tk_screen : screen_at c = buf;
}.

Lemma show_app t xs ys : show t (xs ++ ys) = show (show t xs) ys.
Proof. apply fold_left_app. Qed.

Lemma show_one t lev text : show t [(lev, text)] = fold_left (term_step (get_level_color lev)) (codes text) t.
Proof. reflexivity. Qed.

(** A component that leaves the console alone, and its messages. *)
Lemma speaking_wp {A} (m : M machine_state A) Q buf s :
  says m -> keeps w_con m -> talking buf (w_con s) ->
  wp m (fun a s' => forall c, talking buf c -> Q a (set_con c s')) s -> wp (speaking m) Q s.
Proof.
  unfold speaking. intros Hs Hk [[texts Hok] Hi Hb] Hm. unfold wp in Hm |- * at 1. specialize (Hk s). specialize (Hs s).
  destruct (m s) as [a s1 tr| |]; [|done..]. specialize (Hk _ _ _ eq_refl). destruct (texts_exist tr (Hs _ _ _ eq_refl)) as [new Hnew].
  change (wp (on_console (@deliver uart16550 E (chip_ports latency) _ fuel tr);; mret a) Q s1).
  wp_step. unfold on_console. apply wp_zoom. rewrite Hk. eapply wp_mono; [apply (deliver_wp latency fuel Hfuel tr new _ (w_con s) Hnew Hok)|].
  intros [] c (Hc1&Hc2&Hc3). wp_step. apply Hm. split; [|congruence..]. exists (texts ++ new). by rewrite app_assoc, show_app.
Qed.

Lemma speaking_safe {A} (m : M machine_state A) Q buf s :
  says m -> keeps w_con m -> talking buf (w_con s) ->
  safe m (fun a s' => forall c, talking buf c -> Q a (set_con c s')) s -> safe (speaking m) Q s.
Proof.
  intros Hs Hk Ht Hm. destruct (m s) as [a s1 tr| |] eqn:Em.
  - apply wp_safe, (speaking_wp m Q buf s Hs Hk Ht). unfold wp. rewrite Em. unfold safe in Hm. by rewrite Em in Hm.
  - unfold safe, Entry.speaking. by rewrite Em.
  - unfold safe in Hm. by rewrite Em in Hm.
Qed.

Lemma keeps_desc {A} (m : M desc_state A) : keeps w_con (S := machine_state) (on_desc m).
Proof. unfold on_desc. by apply keeps_zoom. Qed.
Lemma keeps_machine {A} (m : M (machine pics) A) : keeps w_con (S := machine_state) (on_machine m).
Proof. unfold on_machine. by apply keeps_zoom. Qed.
Lemma keeps_memory {A} (m : M memsys A) : keeps w_con (S := machine_state) (on_memory m).
Proof. unfold on_memory. by apply keeps_zoom. Qed.

Lemma console_part_wp s :
  con_pk (w_con s) = bss_pk -> hardware_ok s -> interrupts (w_con s) = false ->
  wp (@console_part uart16550 E pics (chip_ports latency) _ fuel) (fun _ s' => exists c, talking VGA_FRAMEBUFFER c /\ s' = set_con c s) s.
Proof.
  intros Hpk [H1 H2 H3 H4 _] Hi. unfold console_part. wp_step. unfold on_console at 1. apply wp_zoom.
  eapply wp_mono; [apply (console_up_wp latency (w_con s)); [by rewrite Hpk|done..]|].
  intros [] c1 (Hok1&_&Hv1&_&_&Hi1). wp_step. unfold on_console at 1. apply wp_zoom. cbn [w_con].
  eapply wp_mono.
  { apply wp_partial; [apply (con_printk_wp latency fuel Hfuel [] 6 _ _ banner1 blank_term c1);
      [by left|vm_compute; reflexivity|by vm_compute|exact Hok1]|apply keeps_con_printk]. }
  intros n1 c2 [(_&Hok2&_&Hi2) Hv2]. wp_step. unfold on_console at 1. apply wp_zoom. cbn [w_con].
  eapply wp_mono.
  { apply wp_partial; [apply (con_printk_wp latency fuel Hfuel [] 6 _ _ banner2 (show blank_term [(6, banner1)]) c2);
      [by left|vm_compute; reflexivity|by vm_compute|exact Hok2]|apply keeps_con_printk]. }
  intros n2 c3 [(_&Hok3&_&Hi3) Hv3]. wp_step. exists c3. split; [|reflexivity]. split.
  - exists []. rewrite app_nil_r, (show_app _ [(6, banner1)] [(6, banner2)]), (show_one (show _ _)). exact Hok3.
  - rewrite Hi3, Hi2, Hi1. exact Hi.
  - rewrite Hv3, Hv2. exact Hv1.
Qed.

(** The machine at the end of [bring_up]: the last message tells how much of the stack was used. *)
Record up (s : machine_state) : Prop := {
  up_console : exists texts text, message (KERN_NOTICE +:+ line "[NOTICE] Used %d B of the stack") [stack_used] 5 text /\
    con_ok (show blank_term ([(6, banner1); (6, banner2)] ++ texts ++ [(5, text)])) (w_con s);
  up_screen : screen_at (w_con s) = VGA_FRAMEBUFFER_HHDM;
  up_off : interrupts (w_con s) = false;
  up_desc : exists tr, gdt_init (kern_stack im) (emergency_stack im) (tss_addr im) (gdt_addr im)
              (mk_desc gdt_static tss_zero) = Ok tt (w_desc s) tr;
  up_gates : forall i, 0 <= i < 256 -> exists g, m_gates (w_mach s) !! Z.to_nat i = Some g /\ gate_ok isr_table i g;
  up_vectors : vector_base (master (m_dev (w_mach s))) = 32 /\ vector_base (slave (m_dev (w_mach s))) = 40;
  up_lines : forall irq, 0 <= irq < 16 -> masked irq (m_dev (w_mach s)) = negb (irq <=? 2);
  up_sched : sy_sched (m_sys (w_mach s)) = sched_reset;
  up_memory : exists own, memory_up fw (w_memsys s) own;
}.

(** Descriptor tables, gates and interrupt lines. *)
Definition tables_ready (s s' : machine_state) : Prop :=
  talking VGA_FRAMEBUFFER (w_con s') /\ w_e820 s' = w_e820 s /\ m_sys (w_mach s') = m_sys (w_mach s) /\
  (exists tr, gdt_init (kern_stack im) (emergency_stack im) (tss_addr im) (gdt_addr im) (mk_desc gdt_static tss_zero) = Ok tt (w_desc s') tr) /\
  (forall i, 0 <= i < 256 -> exists g, m_gates (w_mach s') !! Z.to_nat i = Some g /\ gate_ok isr_table i g) /\
  vector_base (master (m_dev (w_mach s'))) = 32 /\ vector_base (slave (m_dev (w_mach s'))) = 40 /\
  (forall irq, 0 <= irq < 16 -> masked irq (m_dev (w_mach s')) = negb (irq <=? 2)).

Lemma tables_part_wp s :
  handlers_ok isr_table -> w_desc s = mk_desc gdt_static tss_zero -> m_gates (w_mach s) = idt_reset -> talking VGA_FRAMEBUFFER (w_con s) ->
  wp (@tables_part uart16550 E pics (chip_ports latency) _ _ fuel isr_table im) (fun _ s' => tables_ready s s') s.
Proof.
  intros Ht Ed Eg Htk. unfold tables_part. wp_step.
  eapply (speaking_wp _ _ _ _ (says_zoom _ _ _ (says_gdt_init _ _ _ _)) (keeps_desc _)); [exact Htk|]. apply wp_zoom. rewrite Ed.
  eapply wp_Ok; [reflexivity|]. intros c1 Htk1. wp_step.
  eapply (speaking_wp _ _ _ _ (says_zoom _ _ _ (says_zoom _ _ _ (says_idt_init _))) (keeps_machine _)); [exact Htk1|]. apply wp_zoom. unfold on_gates, idt_init. apply wp_zoom. do 3 wp_step. intros c2 Htk2. wp_step.
  eapply (speaking_wp _ _ _ _ (says_zoom _ _ _ (says_isr_init _)) (keeps_machine _)); [exact Htk2|]. apply wp_zoom. cbn [w_mach set_con].
  apply isr_init_wp; [done|cbn; by rewrite Eg|]. intros x1 [Hl1 Hd1 Hy1 Hg1] c3 Htk3. cbn in Hd1, Hy1.
  eapply (speaking_wp _ _ _ _ (says_zoom _ _ _ (says_irq_init _)) (keeps_machine _)); [exact Htk3|]. apply wp_zoom. cbn [w_mach set_con].
  eapply wp_mono; [by apply irq_init_wp|]. intros [] x2 (Hd2&Hy2&_&Hg2&Hg3) c4 Htk4.
  split_and!; cbn; try done; rewrite ?Hd2; try done.
  - congruence.
  - by eexists.
  - intros i Hi. destruct (decide (i = 32 \/ i = 33)) as [Hin|Hout]; [by apply Hg2|].
    rewrite Hg3 by lia. by apply Hg1.
  - intros irq Hi. by apply initial_mask.
Qed.

(** The state between the two halves. *)
Record half_up (s : machine_state) : Prop := {
  hu_talking : talking VGA_FRAMEBUFFER (w_con s);
  hu_tables : tables_ready s s;
  hu_sched : sy_sched (m_sys (w_mach s)) = sched_reset;
  hu_memory : exists s0 own, half_way (kernel_vma_end im) fw s0 (w_memsys s) own /\ free_matrix (k_mem (ms_kernel s0)) = ∅;
}.

Lemma bring_up_early_wp s :
  boot_ok (kernel_vma_end im) fw -> handlers_ok isr_table -> hardware_ok s ->
  wp (@bring_up_early uart16550 E pics (chip_ports latency) _ _ _ fuel isr_table im fw) (fun _ s' => half_up s') s.
Proof.
  intros Hbo Ht Hhw. unfold bring_up_early. wp_step. unfold on_console at 1. apply wp_zoom. unfold cli. wp_step.
  wp_step. wp_step. wp_step. eapply wp_mono.
  { apply console_part_wp; [reflexivity| |reflexivity]. destruct Hhw as [H1 H2 H3 H4 H5]. by split. }
  intros [] s1 (c1&Hc1&->). wp_step. eapply wp_mono; [apply tables_part_wp; [done|cbn; by rewrite (hk_gdt _ Hhw)|done|exact Hc1]|].
  intros [] s2 (Hc2&Ee2&Em2&Htab). cbn [set_con clear_bss w_e820 w_mach m_sys] in Ee2, Em2.
  eapply (speaking_wp _ _ _ _ (says_zoom _ _ _ (says_early_memory _ _)) (keeps_memory _)); [exact Hc2|]. apply wp_zoom.
  eapply wp_mono; [apply early_memory_wp; [exact Hbo|cbn; by rewrite Ee2|cbn; rewrite Em2; apply kernel_bss_zeroed|cbn; by rewrite Em2]|].
  intros [] m3 [own Hh] c3 Hc3. split; cbn; try done.
  - by rewrite Em2.
  - exists (w_memsys s2), own. destruct m3. split; [exact Hh|]. cbn. by rewrite Em2.
Qed.

Lemma bring_up_late_safe s : half_up s -> direct_map (w_memsys s) ->
  safe (@bring_up_late uart16550 E pics (chip_ports latency) _ _ _ fuel stack_used) (fun _ s' => up s') s.
Proof.
  intros [[[texts [K1 K2 K3 K4]] Hi _] (_&_&_&Hd&Hg&Hv1&Hv2&Hl) Hsch (s0&own&Hh&Hfm)] Hdm.
  unfold bring_up_late. apply safe_seq. unfold on_console at 1. apply wp_zoom. unfold on_screen. apply wp_zoom. unfold early_vga_init. wp_step.
  apply safe_bind. eapply (speaking_safe _ _ VGA_FRAMEBUFFER_HHDM _ (says_zoom _ _ _ says_late_memory) (keeps_memory _)).
  { split; [|done|done]. exists texts. destruct K3. by split. }
  unfold on_memory. apply safe_zoom. eapply safe_mono; [apply (late_memory_safe (kernel_vma_end im) fw s0 _ own Hh Hdm Hfm)|].
  intros [] m4 [own' Hup] c4 Hc4. apply safe_seq.
  eapply (speaking_wp _ _ _ _ (says_zoom _ _ _ (says_zoom _ _ _ (says_pit _))) (keeps_machine _)); [exact Hc4|]. apply wp_zoom, wp_zoom. cbn [w_mach set_con set_w_memsys m_dev].
  destruct (pit_keeps_pics 1024 (m_dev (w_mach s)) ltac:(done)) as [tr Etr]. eapply wp_Ok; [exact Etr|].
  intros c5 [[texts5 Hok5] Hi5 Hb5]. apply safe_seq. unfold on_console. apply wp_zoom. cbn [w_con set_con].
  destruct (stack_notice stack_used) as [text Hmsg].
  pose proof Hmsg as (pre&body&Eq&Hpre&Hr&Hlen). rewrite Eq.
  eapply wp_mono; [apply wp_partial; [apply (con_printk_wp latency fuel Hfuel pre 5 body _ text _ c5 Hpre Hr Hlen Hok5)|apply keeps_con_printk]|].
  intros n c6 [(_&Hok6&_&Hi6) Hv6]. apply wp_safe. wp_step. split.
  { exists texts5, text. split; [exact Hmsg|]. rewrite app_assoc, show_app, show_one. exact Hok6. }
  all: cbn; try done; try congruence. exists own'. by destruct m4.
Qed.

End bring_up.

(** ** An example machine *)

Definition ex_image : image :=
  mk_image ex_vma_end 0xFFFFFFFF80018000 0xFFFFFFFF80019000 0xFFFFFFFF8001A000 0xFFFFFFFF8001A100 0xFFFFFFFF8001B000 0xFFFFFFFF80002340.

(** 12 MiB of RAM in which every word holds its own address, and statics with arbitrary contents. *)
Definition ex_whole : whole uart16550 crtc pics :=
  mk_whole ex_reset (mk_desc gdt_static (mk_tss [] [] 7))
    (mk_machine [] (mk_pics chip0 chip0)
       (mk_system (mk_kernel (mk_mm bootmem_reset (mk_mem ∅ 7 ∅ 0)) (mk_vmm 9 0 (fun a => a) 0 0 0)) (mk_sched [] 5 None 3)))
    e820_reset.

Lemma ex_hardware_ok : hardware_ok 3 ex_whole.
Proof. split; [reflexivity|cbn; lia|exact ex_cells_ok|cbn; lia|reflexivity]. Qed.

Lemma ex_bring_up_runs :
  match @bring_up_early uart16550 crtc pics (chip_ports 3) _ _ ex_layout 3 ex_handlers ex_image ex_firmware ex_whole with
  | Ok _ s1 _ => used (e820_get_table (ms_e820 (w_memsys s1))) = entries ex_firmware /\
      forallb (direct_at (w_memsys s1)) (seqZ 0 0x9F ++ seqZ 0xA0 0x20 ++ seqZ 0x100 0xB00) = true /\
      ended (@bring_up_late uart16550 crtc pics (chip_ports 3) _ _ ex_layout 3 1234 s1) = true
  | _ => False
  end.
Proof. vm_compute. repeat split. Qed.


(** What is seen of a task: its state, where it starts, and the word that its own page tables
    show there, with the flags of the mapping. *)
Definition task_view (r : Z -> Z) (t : task) : task_state * Z * option (Z * Z) :=
  (t_state t, rip (ctx t), (fun pe => (r pe.1, Z.land pe.2 7)) <$> translate r (virt_to_phys (vmem t)) (rip (ctx t))).

Definition views (s : whole uart16550 crtc pics) : list (task_state * Z * option (Z * Z)) :=
  let y := m_sys (w_mach s) in task_view (ram (k_vm (sy_kernel y))) <$> take 4 (tasks (sy_sched y)).

(** The whole of [entry] on this machine ends in user mode at the copy of
    [user_test], with four tasks that run and each see at 0x101000, in pages for
    user mode, the first word of [user_test] (at the physical address 0x202340).  But the first task is
    entered with the page tables of the fourth, the last that [make_task] loaded into CR3:
    [enter_task] does not load those of its task. *)
Example entry_runs :
  match @entry uart16550 crtc pics (chip_ports 3) _ _ ex_layout 3 ex_handlers ex_image 1234 ex_firmware ex_whole with
  | Ok f s' _ =>
      f = mk_iret 0x101000 0x2B 0x202 0x101000 0x33 /\ views s' = replicate 4 (TASK_RUNNING, 0x101000, Some (0x202340, 7)) /\
      match tasks (sy_sched (m_sys (w_mach s'))) !! 0%nat, tasks (sy_sched (m_sys (w_mach s'))) !! 3%nat with
      | Some a, Some d => (vmem a =? vmem d) = false /\ (cr3 (k_vm (sy_kernel (m_sys (w_mach s')))) =? virt_to_phys (vmem d)) = true
      | _, _ => False
      end
  | _ => False
  end.
Proof. vm_compute. repeat split. Qed.
